(** * BgeConfig.hpp: a shallow embedding of the configuration reader

    The development follows [src/BgeConfig.hpp]: the string helpers and the
    value-type classifier of [BgeConfig], the property and section records,
    the dotted-path addressing of [BgeConfigSection] and [BgeConfig], the
    line parser [BgeConfig::Open] and the serializer [Save].

    Conventions of the embedding:
    - [std::string] is a list of 8-bit characters ([list ascii]);
    - an operation that can throw returns an [outcome]: a value, a thrown
      standard exception, or the dereference of a null pointer;
    - a pointer into the section tree is the path of vector indices that
      leads to the pointed section, [None] is [nullptr]; a member function
      called through [nullptr] runs until it reads a member;
    - a reference to a property leads to an object outside the tree or to
      a property stored in it;
    - a [float] or a [double] is a datum of its IEEE 754 format, and the
      conversions round to the nearest datum;
    - the file collaborator (BgeFile.hpp, not part of the sources) is its
      readiness flag and the sequence of lines it yields or receives. *)

From Stdlib Require Import ZArith Ascii String List Lia.
From stdpp Require Import base tactics option list strings.

Local Open Scope Z_scope.
Set Warnings "-register-all".

(** ** Strings *)

Abbreviation std_string := (list ascii) (only parsing).

(** A string literal of the source. *)
Definition lit (s : string) : std_string := list_ascii_of_string s.

(** The value of a [char] (signed, 8 bits) as the comparisons of the source
    see it. *)
Definition char_val (c : ascii) : Z :=
  let n := Z.of_N (N_of_ascii c) in
  if n <? 128 then n else n - 256.

Definition chr_eqb (a b : ascii) : bool := Ascii.eqb a b.

Definition str_eqb (a b : std_string) : bool := bool_decide (a = b).

(** Standard exceptions thrown by [std::string::at], [std::stoi] and
    [std::stod]. *)
Inductive exn : Type :=
  | out_of_range
  | invalid_argument.

Inductive outcome (A : Type) : Type :=
  | Ret (a : A)
  | Throw (e : exn)
  | NullDeref.
Arguments Ret {A} a.
Arguments Throw {A} e.
Arguments NullDeref {A}.

Global Instance exn_eq_dec : EqDecision exn.
Proof. solve_decision. Defined.

Global Instance outcome_eq_dec {A : Type} `{EqDecision A} : EqDecision (outcome A).
Proof. solve_decision. Defined.

(** Sequencing: an exception or a fault ends the computation. *)
Global Instance outcome_bind : MBind outcome := λ A B k m,
  match m with
  | Ret a => k a
  | Throw e => Throw e
  | NullDeref => NullDeref
  end.

(** [str.at(i)]: bounds-checked access. *)
Definition at_ (str : std_string) (i : nat) : outcome ascii :=
  match str !! i with
  | Some c => Ret c
  | None => Throw out_of_range
  end.

(** [str.substr(pos, n)] and [str.substr(pos)]; every call of the source has
    [pos <= str.size()], where [substr] does not throw. *)
Definition substr (str : std_string) (pos n : nat) : std_string :=
  take n (drop pos str).

Definition substr_from (str : std_string) (pos : nat) : std_string :=
  drop pos str.

(** [str.find_first_of(c)]: [None] is [npos]. *)
Fixpoint find_first_of (c : ascii) (str : std_string) : option nat :=
  match str with
  | [] => None
  | x :: rest => if chr_eqb x c then Some 0%nat else S <$> find_first_of c rest
  end.

(** [str.find_last_of(c)]. *)
Fixpoint find_last_of (c : ascii) (str : std_string) : option nat :=
  match str with
  | [] => None
  | x :: rest =>
      match find_last_of c rest with
      | Some i => Some (S i)
      | None => if chr_eqb x c then Some 0%nat else None
      end
  end.

(** [str.find_first_not_of(set)]. *)
Fixpoint find_first_not_of (set : std_string) (str : std_string) : option nat :=
  match str with
  | [] => None
  | x :: rest =>
      if existsb (chr_eqb x) set then S <$> find_first_not_of set rest
      else Some 0%nat
  end.

(** The characters the two loops of [StringTrimLeading] step over. *)
Definition trim_loop_char (c : ascii) : bool :=
  chr_eqb c "009" || chr_eqb c "010" || chr_eqb c " ".

(** The first loop: [beginIdx] runs forward over tab, newline and space. *)
Fixpoint beginIdx_loop (str : std_string) (beginIdx : nat) : nat :=
  match str with
  | [] => beginIdx
  | c :: rest => if trim_loop_char c then beginIdx_loop rest (S beginIdx) else beginIdx
  end.

(** The second loop: [endIdx] runs backward from [length - 1] and may reach
    [-1]; [rstr] is the string read from its end. *)
Fixpoint endIdx_loop (rstr : std_string) (endIdx : Z) : Z :=
  match rstr with
  | [] => endIdx
  | c :: rest => if trim_loop_char c then endIdx_loop rest (endIdx - 1) else endIdx
  end.

(** The six whitespace characters of the first test of
    [StringTrimLeading]: [" \n\t\r\f\v"]. *)
Definition whitespace6 : std_string :=
  [" "; "010"; "009"; "013"; "012"; "011"]%char.

Definition StringTrimLeading (str : std_string) : std_string :=
  match find_first_not_of whitespace6 str with
  | None => []
  | Some _ =>
      let beginIdx := beginIdx_loop str 0%nat in
      let endIdx := endIdx_loop (rev str) (Z.of_nat (length str) - 1) in
      if (beginIdx =? 0)%nat && (endIdx =? Z.of_nat (length str) - 1) then str
      else
        let count := endIdx - Z.of_nat beginIdx + 1 in
        (* a negative count converts to a huge [size_t]: the rest of the string *)
        if count <? 0 then substr_from str beginIdx
        else substr str beginIdx (Z.to_nat count)
  end.

(** The loop of [StringTrimComment]: characters are copied until a ["//"]
    starts; the last character has no look-ahead. *)
Fixpoint StringTrimComment (str : std_string) : std_string :=
  match str with
  | [] => []
  | c :: rest =>
      match rest with
      | c' :: _ =>
          if chr_eqb c "/" && chr_eqb c' "/" then []
          else c :: StringTrimComment rest
      | [] => [c]
      end
  end.

(** ** The value-type classifier *)

Inductive BgePropertyValueType : Type :=
  | UNKNOWN
  | STRING
  | FLOAT
  | BOOL
  | INT.

Global Instance BgePropertyValueType_eq_dec : EqDecision BgePropertyValueType.
Proof. solve_decision. Defined.

(** [chr < '0' || chr > '9'] *)
Definition not_digit (chr : ascii) : bool :=
  (char_val chr <? char_val "0") || (char_val "9" <? char_val chr).

Definition is_sign (chr : ascii) : bool :=
  chr_eqb chr "+" || chr_eqb chr "-".

(** The [for] loop of [StringIsNumber] over the characters from [index] on. *)
Fixpoint StringIsNumber_loop (rest : std_string) : bool :=
  match rest with
  | [] => true
  | chr :: rest' => if not_digit chr then false else StringIsNumber_loop rest'
  end.

Definition StringIsNumber (str : std_string) : outcome bool :=
  chr ← at_ str 0;
  let index := if is_sign chr then 1%nat else 0%nat in
  Ret (StringIsNumber_loop (drop index str)).

(** The [for] loop of [StringIsFloat], with its flag [hasDot]. *)
Fixpoint StringIsFloat_loop (rest : std_string) (hasDot : bool) : bool :=
  match rest with
  | [] => true
  | chr :: rest' =>
      if chr_eqb chr "." then
        if hasDot then false else StringIsFloat_loop rest' true
      else if not_digit chr then false
      else StringIsFloat_loop rest' hasDot
  end.

Definition StringIsFloat (str : std_string) : outcome bool :=
  chr ← at_ str 0;
  let index := if is_sign chr then 1%nat else 0%nat in
  Ret (StringIsFloat_loop (drop index str) false).

Definition StringIsBool (str : std_string) : bool :=
  str_eqb str (lit "True") || str_eqb str (lit "true") ||
  str_eqb str (lit "False") || str_eqb str (lit "false").

Definition EstimateValueType (value : std_string) : outcome BgePropertyValueType :=
  if bool_decide (value = []) then Ret UNKNOWN
  else if StringIsBool value then Ret BOOL
  else
    isNumber ← StringIsNumber value;
    if (isNumber : bool) then Ret INT
    else
      isFloat ← StringIsFloat value;
      if (isFloat : bool) then Ret FLOAT else Ret STRING.

(** ** Numeric conversions of the standard library *)

Definition INT_MIN : Z := - 2 ^ 31.
Definition INT_MAX : Z := 2 ^ 31 - 1.

(** [isspace] in the "C" locale. *)
Definition isspace (c : ascii) : bool := existsb (chr_eqb c) whitespace6.

Fixpoint skip_spaces (str : std_string) : std_string :=
  match str with
  | [] => []
  | c :: rest => if isspace c then skip_spaces rest else str
  end.

(** The longest prefix of decimal digits and what follows it. *)
Fixpoint span_digits (str : std_string) : std_string * std_string :=
  match str with
  | [] => ([], [])
  | c :: rest =>
      if not_digit c then ([], str)
      else let '(ds, tail) := span_digits rest in (c :: ds, tail)
  end.

Definition digit_val (c : ascii) : Z := char_val c - char_val "0".

Definition digits_value (acc : Z) (ds : std_string) : Z :=
  fold_left (fun a c => a * 10 + digit_val c) ds acc.

(** An optional sign in front of a number: [true] for ['-']. *)
Definition read_sign (str : std_string) : bool * std_string :=
  match str with
  | c :: rest =>
      if chr_eqb c "-" then (true, rest)
      else if chr_eqb c "+" then (false, rest)
      else (false, str)
  | [] => (false, [])
  end.

(** [std::stoi(str)] in base 10: leading white space, an optional sign, the
    longest run of digits; [invalid_argument] when there is no digit,
    [out_of_range] when the value does not fit an [int]. *)
Definition stoi (str : std_string) : outcome Z :=
  let '(neg, body) := read_sign (skip_spaces str) in
  let ds := fst (span_digits body) in
  if bool_decide (ds = []) then Throw invalid_argument
  else
    let v := if neg then - digits_value 0 ds else digits_value 0 ds in
    if (v <? INT_MIN) || (INT_MAX <? v) then Throw out_of_range else Ret v.

(** ** Floating point

    A datum of an IEEE 754 binary format: a signed zero, a finite number
    [m * 2^e] with its sign, an infinity, or a NaN. A [double] is a datum of
    [binary64], a [float] one of [binary32]. *)
Inductive fp : Type :=
  | fp_zero (negative : bool)
  | fp_finite (negative : bool) (m : positive) (e : Z)
  | fp_inf (negative : bool)
  | fp_nan (negative : bool).

Global Instance fp_eq_dec : EqDecision fp.
Proof. solve_decision. Defined.

Declare Scope fp_scope.
Delimit Scope fp_scope with fp.
Bind Scope fp_scope with fp.
Notation "0" := (fp_zero false) : fp_scope.

(** A format: the bits of the significand, and the exponents of its last
    bit in the subnormal numbers and in the largest numbers. *)
Record fp_format : Type := {
  prec : Z;
  emin : Z;
  emax : Z
}.

Definition binary32 : fp_format := {| prec := 24; emin := -149; emax := 104 |}.
Definition binary64 : fp_format := {| prec := 53; emin := -1074; emax := 971 |}.

(** The data of a format: a finite number has a significand below
    [2^prec], normal (at least [2^(prec-1)]) unless its exponent is
    [emin]. *)
Definition fp_valid (fmt : fp_format) (x : fp) : bool :=
  match x with
  | fp_finite _ m e =>
      (Z.pos m <? 2 ^ prec fmt) && (emin fmt <=? e) && (e <=? emax fmt) &&
      ((2 ^ (prec fmt - 1) <=? Z.pos m) || (e =? emin fmt))
  | _ => true
  end.

Definition fp_negative (x : fp) : bool :=
  match x with
  | fp_zero s | fp_finite s _ _ | fp_inf s | fp_nan s => s
  end.

(** The magnitude of a zero or of a finite number, as a quotient. *)
Definition fp_magnitude (x : fp) : Z * Z :=
  match x with
  | fp_finite _ m e =>
      if 0 <=? e then (Z.pos m * 2 ^ e, 1) else (Z.pos m, 2 ^ (- e))
  | _ => (0, 1)
  end.

(** [n / d] rounded to the nearest integer, a tie to the even one. *)
Definition round_half_even (n d : Z) : Z :=
  let q := n / d in
  let r := n mod d in
  if (d <? 2 * r) || ((d =? 2 * r) && Z.odd q) then q + 1 else q.

(** The exponent of the leading bit of [n / d], for positive [n] and [d]. *)
Definition log2_ratio (n d : Z) : Z :=
  let l := Z.log2 n - Z.log2 d in
  if (if 0 <=? l then d * 2 ^ l <=? n else d <=? n * 2 ^ (- l)) then l
  else l - 1.

(** [n / d] divided by [2^e], as a quotient. *)
Definition scaled (n d e : Z) : Z * Z :=
  if 0 <=? e then (n, d * 2 ^ e) else (n * 2 ^ (- e), d).

(** Rounding of [n / d] (with [0 <= n] and [0 < d]) to a format, to the
    nearest datum and a tie to the even significand: the significand is
    taken at the exponent of the leading bit, or at [emin] in the subnormal
    range; a magnitude beyond the largest number gives an infinity. *)
Definition fp_round (fmt : fp_format) (negative : bool) (n d : Z) : fp :=
  if n =? 0 then fp_zero negative
  else
    let e := Z.max (log2_ratio n d - (prec fmt - 1)) (emin fmt) in
    let '(a, b) := scaled n d e in
    let m := round_half_even a b in
    let '(m, e) :=
      if m =? 2 ^ prec fmt then (2 ^ (prec fmt - 1), e + 1) else (m, e) in
    if m =? 0 then fp_zero negative
    else if emax fmt <? e then fp_inf negative
    else fp_finite negative (Z.to_pos m) e.

(** The conversion of a datum to a format: of a [double] to [float] where
    an argument of type [double] initialises a parameter of type [float]. *)
Definition fp_convert (fmt : fp_format) (x : fp) : fp :=
  match x with
  | fp_finite negative _ _ =>
      let '(n, d) := fp_magnitude x in fp_round fmt negative n d
  | _ => x
  end.

(** The underflow that [strtod] reports ([ERANGE]): the result is tiny (the
    magnitude, rounded to the precision with an unbounded exponent, is below
    the least normal number) and not exact. *)
Definition fp_underflow (fmt : fp_format) (n d : Z) : bool :=
  if n =? 0 then false
  else
    let lg := log2_ratio n d in
    let least_normal := emin fmt + prec fmt - 1 in
    let tiny :=
      (lg <? least_normal - 1) ||
      ((lg =? least_normal - 1) &&
       (let '(a, b) := scaled n d (emin fmt - 1) in
        round_half_even a b <? 2 ^ prec fmt)) in
    let '(a, b) := scaled n d (emin fmt) in
    tiny && negb (a mod b =? 0).

(** [std::stod(str)] on the text [Open] passes to it, a sign and digits
    around a decimal point: leading white space, an optional sign, digits
    with an optional fraction, rounded to the nearest [double];
    [invalid_argument] when neither part has a digit, [out_of_range] when
    [strtod] reports a range error, that is when the result overflows to an
    infinity or underflows. *)
Definition stod (str : std_string) : outcome fp :=
  let '(neg, body) := read_sign (skip_spaces str) in
  let '(ip, tail) := span_digits body in
  let frac :=
    match tail with
    | c :: rest => if chr_eqb c "." then fst (span_digits rest) else []
    | [] => []
    end in
  if bool_decide (ip = []) && bool_decide (frac = []) then Throw invalid_argument
  else
    let num := digits_value 0 (ip ++ frac) in
    let den := 10 ^ Z.of_nat (length frac) in
    match fp_round binary64 neg num den with
    | fp_inf _ => Throw out_of_range
    | v => if fp_underflow binary64 num den then Throw out_of_range else Ret v
    end.

Definition digit_char (d : Z) : ascii :=
  ascii_of_N (Z.to_N (char_val "0" + d)).

(** The decimal digits of a non-negative number, most significant first;
    [fuel] bounds the number of digits. *)
Fixpoint digits_of (fuel : nat) (n : Z) (acc : std_string) : std_string :=
  match fuel with
  | O => acc
  | S fuel' =>
      let acc' := digit_char (n mod 10) :: acc in
      if n / 10 =? 0 then acc' else digits_of fuel' (n / 10) acc'
  end.

Definition decimal (n : Z) : std_string :=
  digits_of (S (Z.to_nat (Z.log2 n))) n [].

(** [std::to_string(int)] *)
Definition to_string_int (v : Z) : std_string :=
  if v <? 0 then "-"%char :: decimal (- v) else decimal v.

(** [std::to_string(float)]: the format ["%f"] applied to the value, which
    the conversion to [double] of the variadic call leaves as it is: the
    magnitude rounded to six decimals (to the nearest, a tie to the even
    digit), or [inf] or [nan], after the sign. *)
Definition to_string_float (v : fp) : std_string :=
  (if fp_negative v then ["-"%char] else []) ++
  match v with
  | fp_inf _ => lit "inf"
  | fp_nan _ => lit "nan"
  | _ =>
      let '(n, d) := fp_magnitude v in
      let k := round_half_even (n * 10 ^ 6) d in
      let frac := decimal (k mod 10 ^ 6) in
      decimal (k / 10 ^ 6) ++ "."%char ::
      replicate (6 - length frac) "0"%char ++ frac
  end.

(** ** Properties *)

Module BgeConfigProperty.

Record t : Type := mk {
  Type_ : BgePropertyValueType;
  Name : std_string;
  StrValue : std_string;
  IntValue : Z;
  FloatValue : fp;
  BoolValue : bool
}.

(** The default constructor. *)
Definition default : t := mk UNKNOWN [] [] 0 0%fp false.

(** The text [Save] hands to [file.WriteLine]. *)
Definition Save (p : t) : std_string :=
  Name p ++ lit " = " ++
  match Type_ p with
  | INT => to_string_int (IntValue p)
  | FLOAT => to_string_float (FloatValue p)
  | BOOL => if BoolValue p then lit "true" else lit "false"
  | UNKNOWN | STRING => StrValue p
  end.

(** [property.Name = name] *)
Definition set_Name (name : std_string) (p : t) : t :=
  mk (Type_ p) name (StrValue p) (IntValue p) (FloatValue p) (BoolValue p).

(** [operator==]: "it is enough if the name and type are the same". *)
Definition operator_eq (p other : t) : bool :=
  bool_decide (Type_ p = Type_ other) && str_eqb (Name p) (Name other).

(** [operator!=] *)
Definition operator_ne (p other : t) : bool := negb (operator_eq p other).

End BgeConfigProperty.

(** ** Dotted paths *)

(** The source splits a path at its first ['.'] ([find_first_of] and two
    [substr]) and recurses on what follows the dot. [split_path] performs
    all the splits at once: the segments between the dots, in order. The
    empty string has the single empty segment; a string without a dot is
    its own single segment. *)
Fixpoint split_path (name : std_string) : list std_string :=
  match name with
  | [] => [[]]
  | c :: rest =>
      if chr_eqb c "." then [] :: split_path rest
      else
        match split_path rest with
        | seg :: segs => (c :: seg) :: segs
        | [] => [[c]]
        end
  end.

(** A pointer to a section: the indices to follow through the section
    vectors, outermost first. *)
Abbreviation ptr := (list nat) (only parsing).

(** The argument [BgeConfigProperty& property] of [AddProperty] is a
    reference. It leads to an object outside the tree the call works on (a
    local variable, as in [Open]), or to a property stored in that tree:
    [stored q k] is the [k]-th property of the section the pointer [q]
    leads to, the empty pointer being the receiver of the call. *)
Inductive property_ref : Type :=
  | outside (property : BgeConfigProperty.t)
  | stored (section : ptr) (index : nat).

(** ** Sections *)

Module BgeConfigSection.

Inductive t : Type := mk {
  Name : std_string;
  mNestedSections : list t;
  mProperties : list BgeConfigProperty.t
}.

(** [BgeConfigSection(name)] *)
Definition new (name : std_string) : t := mk name [] [].

(** [std::find_if] by name: the first match and its index. *)
Definition GetPropertyIterator (name : std_string) (s : t)
  : option (nat * BgeConfigProperty.t) :=
  list_find (fun other => name = BgeConfigProperty.Name other) (mProperties s).

Definition GetSectionIterator (name : std_string) (s : t) : option (nat * t) :=
  list_find (fun other => name = Name other) (mNestedSections s).

(** [mProperties.push_back], [mNestedSections.push_back], and the write
    through a pointer to the [i]-th nested section. *)
Definition push_property (p : BgeConfigProperty.t) (s : t) : t :=
  mk (Name s) (mNestedSections s) (mProperties s ++ [p]).

Definition push_section (sub : t) (s : t) : t :=
  mk (Name s) (mNestedSections s ++ [sub]) (mProperties s).

Definition alter_nested (f : t -> t) (i : nat) (s : t) : t :=
  mk (Name s) (alter f i (mNestedSections s)) (mProperties s).

(** *** One level: a name without a dot *)

Definition HasProperty_here (name : std_string) (s : t) : bool :=
  if bool_decide (name = []) then false
  else match GetPropertyIterator name s with Some _ => true | None => false end.

Definition Get_here (name : std_string) (s : t) : option BgeConfigProperty.t :=
  if bool_decide (name = []) then None
  else snd <$> GetPropertyIterator name s.

Definition HasSubSection_here (name : std_string) (s : t) : bool :=
  if bool_decide (name = []) then false
  else match GetSectionIterator name s with Some _ => true | None => false end.

Definition GetSubSection_here (name : std_string) (s : t) : option (nat * t) :=
  if bool_decide (name = []) then None
  else GetSectionIterator name s.

(** [AddSubSection] on a name without a dot: the section and the index of
    the returned pointer ([None] for [nullptr]). *)
Definition AddSubSection_here (name : std_string) (s : t) : t * option nat :=
  if bool_decide (name = []) then (s, None)
  else if HasSubSection_here name s then (s, fst <$> GetSubSection_here name s)
  else (push_section (new name) s, Some (length (mNestedSections s))).

(** *** Paths: the recursion of the source on the rest of the name

    In each function the first case cannot occur ([split_path] yields at
    least one segment), the second is the branch without a dot, the third
    the branch with [sectionName] before the first dot and the rest of the
    name after it. Where the source dereferences [GetSubSection(sectionName)]
    after [HasSubSection(sectionName)] answered [true] the pointer is never
    null ([GetSubSection_here_Some] below). *)

Fixpoint HasSubSection_path (segs : list std_string) (s : t) : bool :=
  match segs with
  | [] => false
  | [name] => HasSubSection_here name s
  | sectionName :: nextSectionName =>
      if negb (HasSubSection_here sectionName s) then false
      else
        match GetSubSection_here sectionName s with
        | Some (_, sub) => HasSubSection_path nextSectionName sub
        | None => false
        end
  end.

Fixpoint GetSubSection_path (segs : list std_string) (s : t) : option ptr :=
  match segs with
  | [] => None
  | [name] => (fun r => [fst r]) <$> GetSubSection_here name s
  | sectionName :: nextSectionName =>
      if negb (HasSubSection_here sectionName s) then None
      else
        match GetSubSection_here sectionName s with
        | Some (i, sub) => cons i <$> GetSubSection_path nextSectionName sub
        | None => None
        end
  end.

Fixpoint HasProperty_path (segs : list std_string) (s : t) : bool :=
  match segs with
  | [] => false
  | [name] => HasProperty_here name s
  | sectionName :: nextSectionName =>
      if negb (HasSubSection_here sectionName s) then false
      else
        match GetSubSection_here sectionName s with
        | Some (_, sub) => HasProperty_path nextSectionName sub
        | None => false
        end
  end.

Fixpoint Get_path (segs : list std_string) (s : t) : option BgeConfigProperty.t :=
  match segs with
  | [] => None
  | [name] => Get_here name s
  | sectionName :: nextSectionName =>
      if negb (HasSubSection_here sectionName s) then None
      else
        match GetSubSection_here sectionName s with
        | Some (_, sub) => Get_path nextSectionName sub
        | None => None
        end
  end.

(** [AddSubSection] called through a null pointer, as
    [AddSubSection(sectionName)->AddSubSection(nextSectionName)] does when
    [sectionName] is empty. The callee returns [nullptr] at [name.empty()]
    and its [HasSubSection(name)] answers [false] for an empty first
    segment, both before a member is read; a segment that is not empty
    reaches [GetSectionIterator], which reads [mNestedSections] of the
    null object. *)
Fixpoint AddSubSection_null (segs : list std_string) : outcome (option ptr) :=
  match segs with
  | [] => Ret None
  | [name] => if bool_decide (name = []) then Ret None else NullDeref
  | sectionName :: nextSectionName =>
      if bool_decide (sectionName = []) then AddSubSection_null nextSectionName
      else NullDeref
  end.

Fixpoint AddSubSection_path (segs : list std_string) (s : t)
  : outcome (t * option ptr) :=
  match segs with
  | [] => Ret (s, None)
  | [name] =>
      let '(s', r) := AddSubSection_here name s in
      Ret (s', (fun i => [i]) <$> r)
  | sectionName :: nextSectionName =>
      if HasSubSection_path segs s then Ret (s, GetSubSection_path segs s)
      else
        (* AddSubSection(sectionName)->AddSubSection(nextSectionName) *)
        let '(s1, r) := AddSubSection_here sectionName s in
        match r with
        | None =>
            match AddSubSection_null nextSectionName with
            | Ret p => Ret (s1, p)
            | Throw e => Throw e
            | NullDeref => NullDeref
            end
        | Some i =>
            match mNestedSections s1 !! i with
            | None => NullDeref
            | Some sub =>
                match AddSubSection_path nextSectionName sub with
                | Ret (sub', p) => Ret (alter_nested (fun _ => sub') i s1, cons i <$> p)
                | Throw e => Throw e
                | NullDeref => NullDeref
                end
            end
        end
  end.

(** [AddProperty] for an argument that refers to an object outside the
    tree, here the value of that object: the write [property.Name = name]
    then reaches nothing that is stored, and the renamed object is what
    [push_back] copies. The call with a reference to a stored property is
    [AddProperty_at] below. *)
Fixpoint AddProperty_path (segs : list std_string)
    (property : BgeConfigProperty.t) (s : t) : t :=
  match segs with
  | [] => s
  | [name] =>
      if bool_decide (name = []) then s
      else if HasProperty_here name s then s
      else push_property (BgeConfigProperty.set_Name name property) s
  | sectionName :: nextSectionStr =>
      if HasProperty_path segs s then s
      else if negb (HasSubSection_here sectionName s) then
        match AddSubSection_here sectionName s with
        | (s1, Some i) => alter_nested (AddProperty_path nextSectionStr property) i s1
        | (s1, None) => s1
        end
      else
        match GetSubSection_here sectionName s with
        | Some (i, _) => alter_nested (AddProperty_path nextSectionStr property) i s
        | None => s
        end
  end.

(** *** The member functions *)

Definition Get (name : std_string) (s : t) : option BgeConfigProperty.t :=
  Get_path (split_path name) s.

Definition GetSubSection (name : std_string) (s : t) : option ptr :=
  GetSubSection_path (split_path name) s.

Definition HasProperty (name : std_string) (s : t) : bool :=
  HasProperty_path (split_path name) s.

Definition HasSubSection (name : std_string) (s : t) : bool :=
  HasSubSection_path (split_path name) s.

(** [AddProperty] with a reference to an object outside the tree, of value
    [property]; [AddProperty_ref] below takes any reference. *)
Definition AddProperty (name : std_string) (property : BgeConfigProperty.t)
    (s : t) : t :=
  AddProperty_path (split_path name) property s.

Definition AddSubSection (name : std_string) (s : t) : outcome (t * option ptr) :=
  AddSubSection_path (split_path name) s.

(** The section a pointer leads to, from the section [s]. *)
Fixpoint deref (p : ptr) (s : t) : option t :=
  match p with
  | [] => Some s
  | i :: p' =>
      match mNestedSections s !! i with
      | Some sub => deref p' sub
      | None => None
      end
  end.

(** A write through a pointer. *)
Fixpoint alter_at (f : t -> t) (p : ptr) (s : t) : t :=
  match p with
  | [] => f s
  | i :: p' => alter_nested (alter_at f p') i s
  end.

(** *** [AddProperty] with its reference argument

    The write [property.Name = name] goes through the reference: it
    renames the object outside the tree, or the stored property the
    reference leads to. [mProperties.push_back(property)] then copies the
    object the reference leads to. *)

(** [mProperties[k]] rewritten in place. *)
Definition alter_property (f : BgeConfigProperty.t -> BgeConfigProperty.t)
    (k : nat) (s : t) : t :=
  mk (Name s) (mNestedSections s) (alter f k (mProperties s)).

Definition read (property : property_ref) (s : t) : option BgeConfigProperty.t :=
  match property with
  | outside p => Some p
  | stored q k =>
      match deref q s with
      | Some section => mProperties section !! k
      | None => None
      end
  end.

Definition assign_Name (name : std_string) (property : property_ref) (s : t)
  : property_ref * t :=
  match property with
  | outside p => (outside (BgeConfigProperty.set_Name name p), s)
  | stored q k =>
      (property, alter_at (alter_property (BgeConfigProperty.set_Name name) k) q s)
  end.

(** The recursion of [AddProperty] on the tree [w] the call works on; the
    receiver of the present call is the section [this] leads to. The tree is
    a section or the document: it is given by its four operations. A
    reference or a pointer that leads nowhere cannot be formed by the
    program; the tree is then left as it is. *)
Section Store.
Context {W : Type}.
Variable section_at : ptr -> W -> option t.
Variable write_at : (t -> t) -> ptr -> W -> W.
Variable assign : std_string -> property_ref -> W -> property_ref * W.
Variable read_ref : property_ref -> W -> option BgeConfigProperty.t.

Fixpoint AddProperty_at (segs : list std_string) (property : property_ref)
    (this : ptr) (w : W) : W :=
  match section_at this w with
  | None => w
  | Some s =>
      match segs with
      | [] => w
      | [name] =>
          if bool_decide (name = []) then w
          else if HasProperty_here name s then w
          else
            (* property.Name = name; mProperties.push_back(property); *)
            let '(property, w1) := assign name property w in
            match read_ref property w1 with
            | Some p => write_at (push_property p) this w1
            | None => w1
            end
      | sectionName :: nextSectionStr =>
          if HasProperty_path segs s then w
          else if negb (HasSubSection_here sectionName s) then
            match AddSubSection_here sectionName s with
            | (s1, Some i) =>
                AddProperty_at nextSectionStr property (this ++ [i])
                  (write_at (fun _ => s1) this w)
            | (s1, None) => write_at (fun _ => s1) this w
            end
          else
            match GetSubSection_here sectionName s with
            | Some (i, _) => AddProperty_at nextSectionStr property (this ++ [i]) w
            | None => w
            end
      end
  end.

End Store.

(** The member function, with its reference argument. *)
Definition AddProperty_ref (name : std_string) (property : property_ref) (s : t)
  : t :=
  AddProperty_at deref alter_at assign_Name read (split_path name) property [] s.

(** [operator==]: the name and the two sizes. *)
Definition operator_eq (s other : t) : bool :=
  str_eqb (Name s) (Name other) &&
  (length (mProperties s) =? length (mProperties other))%nat &&
  (length (mNestedSections s) =? length (mNestedSections other))%nat.

(** [operator!=] *)
Definition operator_ne (s other : t) : bool := negb (operator_eq s other).

(** The lines [Save] writes: the header, the properties, a blank line,
    then the nested sections under the extended prefix. *)
Fixpoint Save (s : t) (sectionPrefix : std_string) : list std_string :=
  match s with
  | mk name nested properties =>
      let sectionName :=
        lit "[" ++
        (if bool_decide (sectionPrefix = []) then [] else sectionPrefix ++ lit ".") ++
        name ++ lit "]" in
      let newSectionPrefix :=
        (if bool_decide (sectionPrefix = []) then [] else sectionPrefix ++ lit ".") ++
        name in
      sectionName :: map BgeConfigProperty.Save properties ++ [[]] ++
      flat_map (fun subSection => Save subSection newSectionPrefix) nested
  end.

End BgeConfigSection.

(** ** The file collaborator *)

Module BgeFile.

(** Modelled from the spec: BgeFile.hpp is not among the sources. A file
    opened for reading is its readiness ([Ready()]) and the lines that
    [ReadLine()] returns, without their terminators, until [EndOfFile()];
    a file opened for writing receives the lines of [WriteLine]. *)
Record t : Type := mk {
  Ready : bool;
  Lines : list std_string
}.

End BgeFile.

(** ** The configuration document *)

Module BgeConfig.

Record t : Type := mk {
  mProperties : list BgeConfigProperty.t;
  mSections : list BgeConfigSection.t
}.

(** [BgeConfig()] *)
Definition new : t := mk [] [].

Definition Close (cfg : t) : t := mk [] [].

Definition GetPropertyIterator (name : std_string) (cfg : t)
  : option (nat * BgeConfigProperty.t) :=
  list_find (fun other => name = BgeConfigProperty.Name other) (mProperties cfg).

Definition GetSectionIterator (name : std_string) (cfg : t)
  : option (nat * BgeConfigSection.t) :=
  list_find (fun other => name = BgeConfigSection.Name other) (mSections cfg).

Definition push_property (p : BgeConfigProperty.t) (cfg : t) : t :=
  mk (mProperties cfg ++ [p]) (mSections cfg).

Definition push_section (sub : BgeConfigSection.t) (cfg : t) : t :=
  mk (mProperties cfg) (mSections cfg ++ [sub]).

Definition alter_section (f : BgeConfigSection.t -> BgeConfigSection.t)
    (i : nat) (cfg : t) : t :=
  mk (mProperties cfg) (alter f i (mSections cfg)).

(** *** One level: a name without a dot *)

Definition HasProperty_here (name : std_string) (cfg : t) : bool :=
  if bool_decide (name = []) then false
  else match GetPropertyIterator name cfg with Some _ => true | None => false end.

Definition Get_here (name : std_string) (cfg : t) : option BgeConfigProperty.t :=
  if bool_decide (name = []) then None
  else snd <$> GetPropertyIterator name cfg.

Definition HasSection_here (name : std_string) (cfg : t) : bool :=
  if bool_decide (name = []) then false
  else match GetSectionIterator name cfg with Some _ => true | None => false end.

Definition GetSection_here (name : std_string) (cfg : t)
  : option (nat * BgeConfigSection.t) :=
  if bool_decide (name = []) then None
  else GetSectionIterator name cfg.

Definition AddSection_here (name : std_string) (cfg : t) : t * option nat :=
  if bool_decide (name = []) then (cfg, None)
  else if HasSection_here name cfg then (cfg, fst <$> GetSection_here name cfg)
  else (push_section (BgeConfigSection.new name) cfg, Some (length (mSections cfg))).

(** *** Paths: the first segment here, the rest in the section *)

Definition HasSection_path (segs : list std_string) (cfg : t) : bool :=
  match segs with
  | [] => false
  | [name] => HasSection_here name cfg
  | sectionName :: nextSectionName =>
      if negb (HasSection_here sectionName cfg) then false
      else
        match GetSection_here sectionName cfg with
        | Some (_, sub) => BgeConfigSection.HasSubSection_path nextSectionName sub
        | None => false
        end
  end.

Definition GetSection_path (segs : list std_string) (cfg : t) : option ptr :=
  match segs with
  | [] => None
  | [name] => (fun r => [fst r]) <$> GetSection_here name cfg
  | sectionName :: nextSectionName =>
      if negb (HasSection_here sectionName cfg) then None
      else
        match GetSection_here sectionName cfg with
        | Some (i, sub) =>
            cons i <$> BgeConfigSection.GetSubSection_path nextSectionName sub
        | None => None
        end
  end.

Definition HasProperty_path (segs : list std_string) (cfg : t) : bool :=
  match segs with
  | [] => false
  | [name] => HasProperty_here name cfg
  | sectionName :: nextSectionName =>
      if negb (HasSection_here sectionName cfg) then false
      else
        match GetSection_here sectionName cfg with
        | Some (_, sub) => BgeConfigSection.HasProperty_path nextSectionName sub
        | None => false
        end
  end.

Definition Get_path (segs : list std_string) (cfg : t)
  : option BgeConfigProperty.t :=
  match segs with
  | [] => None
  | [name] => Get_here name cfg
  | sectionName :: nextSectionName =>
      if negb (HasSection_here sectionName cfg) then None
      else
        match GetSection_here sectionName cfg with
        | Some (_, sub) => BgeConfigSection.Get_path nextSectionName sub
        | None => None
        end
  end.

Definition AddSection_path (segs : list std_string) (cfg : t)
  : outcome (t * option ptr) :=
  match segs with
  | [] => Ret (cfg, None)
  | [name] =>
      let '(cfg', r) := AddSection_here name cfg in
      Ret (cfg', (fun i => [i]) <$> r)
  | sectionName :: nextSectionName =>
      if HasSection_path segs cfg then Ret (cfg, GetSection_path segs cfg)
      else
        (* AddSection(sectionName)->AddSubSection(nextSectionName) *)
        let '(cfg1, r) := AddSection_here sectionName cfg in
        match r with
        | None =>
            match BgeConfigSection.AddSubSection_null nextSectionName with
            | Ret p => Ret (cfg1, p)
            | Throw e => Throw e
            | NullDeref => NullDeref
            end
        | Some i =>
            match mSections cfg1 !! i with
            | None => NullDeref
            | Some sub =>
                match BgeConfigSection.AddSubSection_path nextSectionName sub with
                | Ret (sub', p) => Ret (alter_section (fun _ => sub') i cfg1, cons i <$> p)
                | Throw e => Throw e
                | NullDeref => NullDeref
                end
            end
        end
  end.

(** [AddProperty] for an argument that refers to an object outside the
    tree (see [BgeConfigSection.AddProperty_path]). *)
Definition AddProperty_path (segs : list std_string)
    (property : BgeConfigProperty.t) (cfg : t) : t :=
  match segs with
  | [] => cfg
  | [name] =>
      if bool_decide (name = []) then cfg
      else if HasProperty_here name cfg then cfg
      else push_property (BgeConfigProperty.set_Name name property) cfg
  | sectionName :: nextSectionStr =>
      if HasProperty_path segs cfg then cfg
      else if negb (HasSection_here sectionName cfg) then
        match AddSection_here sectionName cfg with
        | (cfg1, Some i) =>
            alter_section (BgeConfigSection.AddProperty_path nextSectionStr property) i cfg1
        | (cfg1, None) => cfg1
        end
      else
        match GetSection_here sectionName cfg with
        | Some (i, _) =>
            alter_section (BgeConfigSection.AddProperty_path nextSectionStr property) i cfg
        | None => cfg
        end
  end.

(** *** The member functions *)

Definition Get (name : std_string) (cfg : t) : option BgeConfigProperty.t :=
  Get_path (split_path name) cfg.

Definition GetSection (name : std_string) (cfg : t) : option ptr :=
  GetSection_path (split_path name) cfg.

Definition HasProperty (name : std_string) (cfg : t) : bool :=
  HasProperty_path (split_path name) cfg.

Definition HasSection (name : std_string) (cfg : t) : bool :=
  HasSection_path (split_path name) cfg.

(** [AddProperty] with a reference to an object outside the tree, of value
    [property]; [AddProperty_ref] below takes any reference. *)
Definition AddProperty (name : std_string) (property : BgeConfigProperty.t)
    (cfg : t) : t :=
  AddProperty_path (split_path name) property cfg.

Definition AddSection (name : std_string) (cfg : t) : outcome (t * option ptr) :=
  AddSection_path (split_path name) cfg.

(** The section a pointer leads to, from the document. *)
Definition deref (p : ptr) (cfg : t) : option BgeConfigSection.t :=
  match p with
  | [] => None
  | i :: p' =>
      match mSections cfg !! i with
      | Some sub => BgeConfigSection.deref p' sub
      | None => None
      end
  end.

(** A write through a pointer. *)
Definition alter_at (f : BgeConfigSection.t -> BgeConfigSection.t)
    (p : ptr) (cfg : t) : t :=
  match p with
  | [] => cfg
  | i :: p' => alter_section (BgeConfigSection.alter_at f p') i cfg
  end.

(** *** [AddProperty] with its reference argument

    In the document, [stored [] k] is the [k]-th property of the document
    itself and [stored (i :: q) k] a property of the section [i :: q] leads
    to. *)

Definition alter_property (f : BgeConfigProperty.t -> BgeConfigProperty.t)
    (k : nat) (cfg : t) : t :=
  mk (alter f k (mProperties cfg)) (mSections cfg).

Definition read (property : property_ref) (cfg : t) : option BgeConfigProperty.t :=
  match property with
  | outside p => Some p
  | stored [] k => mProperties cfg !! k
  | stored q k =>
      match deref q cfg with
      | Some section => BgeConfigSection.mProperties section !! k
      | None => None
      end
  end.

Definition assign_Name (name : std_string) (property : property_ref) (cfg : t)
  : property_ref * t :=
  match property with
  | outside p => (outside (BgeConfigProperty.set_Name name p), cfg)
  | stored [] k =>
      (property, alter_property (BgeConfigProperty.set_Name name) k cfg)
  | stored q k =>
      (property,
       alter_at
         (BgeConfigSection.alter_property (BgeConfigProperty.set_Name name) k) q cfg)
  end.

Definition AddProperty_ref_path (segs : list std_string)
    (property : property_ref) (cfg : t) : t :=
  match segs with
  | [] => cfg
  | [name] =>
      if bool_decide (name = []) then cfg
      else if HasProperty_here name cfg then cfg
      else
        (* property.Name = name; mProperties.push_back(property); *)
        let '(property, cfg1) := assign_Name name property cfg in
        match read property cfg1 with
        | Some p => push_property p cfg1
        | None => cfg1
        end
  | sectionName :: nextSectionStr =>
      if HasProperty_path segs cfg then cfg
      else if negb (HasSection_here sectionName cfg) then
        match AddSection_here sectionName cfg with
        | (cfg1, Some i) =>
            BgeConfigSection.AddProperty_at deref alter_at assign_Name read
              nextSectionStr property [i] cfg1
        | (cfg1, None) => cfg1
        end
      else
        match GetSection_here sectionName cfg with
        | Some (i, _) =>
            BgeConfigSection.AddProperty_at deref alter_at assign_Name read
              nextSectionStr property [i] cfg
        | None => cfg
        end
  end.

(** The member function, with its reference argument. *)
Definition AddProperty_ref (name : std_string) (property : property_ref) (cfg : t)
  : t :=
  AddProperty_ref_path (split_path name) property cfg.

(** *** [Open] *)

(** The [STRING]/[UNKNOWN] case of the switch: one leading and one
    trailing quote (the characters 39 and 34) are removed from a non-empty
    [split1]. *)
Definition is_quote (c : ascii) : bool := chr_eqb c "039" || chr_eqb c "034".

Definition strip_quotes (split1 : std_string) : outcome std_string :=
  if bool_decide (split1 = []) then Ret split1
  else
    c0 ← at_ split1 0;
    let split1 := if is_quote c0 then substr_from split1 1 else split1 in
    let split1EndIdx := (length split1 - 1)%nat in
    cN ← at_ split1 split1EndIdx;
    Ret (if is_quote cN then substr split1 0 split1EndIdx else split1).

(** The property built by the switch over [estimateType]. *)
Definition make_property (estimateType : BgePropertyValueType)
    (split0 split1 : std_string) : outcome BgeConfigProperty.t :=
  match estimateType with
  | INT =>
      v ← stoi split1;
      Ret (BgeConfigProperty.mk INT split0 split1 v 0%fp false)
  | FLOAT =>
      (* the [double] of [std::stod] initialises the parameter [float floatValue] *)
      v ← stod split1;
      Ret (BgeConfigProperty.mk FLOAT split0 split1 0 (fp_convert binary32 v) false)
  | BOOL =>
      let value := str_eqb split1 (lit "true") || str_eqb split1 (lit "True") ||
                   str_eqb split1 (lit "1") in
      Ret (BgeConfigProperty.mk BOOL split0 split1 0 0%fp value)
  | UNKNOWN | STRING =>
      split1' ← strip_quotes split1;
      Ret (BgeConfigProperty.mk estimateType split0 split1' 0 0%fp false)
  end.

(** The state of the loop: the document and [currentSection]. *)
Definition parser_state : Type := t * option ptr.

(** The test of the first [if] of the loop body on [cleanLine]; [&&] does
    not evaluate [at(length-1)] unless the first character is ['[']. *)
Definition is_header (cleanLine : std_string) : outcome bool :=
  c0 ← at_ cleanLine 0;
  if chr_eqb c0 "[" then
    cN ← at_ cleanLine (length cleanLine - 1);
    Ret (chr_eqb cN "]")
  else Ret false.

(** One iteration of the [while] loop of [Open], on the line read. *)
Definition Open_line (line : std_string) (st : parser_state)
  : outcome parser_state :=
  let '(cfg, currentSection) := st in
  if (length line <? 1)%nat then Ret st
  else if str_eqb (substr line 0 2) (lit "//") then Ret st
  else
    let cleanLine := StringTrimLeading (StringTrimComment line) in
    header ← is_header cleanLine;
    if (header : bool) then
      let sectionName := substr cleanLine 1 (length cleanLine - 2) in
      if negb (HasSection sectionName cfg) then AddSection sectionName cfg
      else Ret (cfg, GetSection sectionName cfg)
    else if str_eqb cleanLine (lit "[SECTIONEND]") then Ret (cfg, None)
    else
      match find_last_of "=" cleanLine with
      | None => Ret st
      | Some equalSignIdx =>
          let split0 := StringTrimLeading (substr cleanLine 0 equalSignIdx) in
          let split1 :=
            StringTrimLeading
              (substr cleanLine (equalSignIdx + 1)
                 (length cleanLine - equalSignIdx - 1)) in
          estimateType ← EstimateValueType split1;
          property ← make_property estimateType split0 split1;
          (* [property] is a local variable: the reference that [AddProperty]
             receives leads to an object outside the tree *)
          match currentSection with
          | Some p =>
              match deref p cfg with
              | Some _ =>
                  Ret (alter_at
                         (BgeConfigSection.AddProperty
                            (BgeConfigProperty.Name property) property) p cfg,
                       currentSection)
              | None => NullDeref
              end
          | None =>
              Ret (AddProperty (BgeConfigProperty.Name property) property cfg,
                   currentSection)
          end
      end.

(** The [while] loop over the lines of the file. *)
Fixpoint Open_loop (lines : list std_string) (st : parser_state)
  : outcome parser_state :=
  match lines with
  | [] => Ret st
  | line :: rest =>
      st' ← Open_line line st;
      Open_loop rest st'
  end.

(** [Open(path)], on the file the path names. *)
Definition Open (file : BgeFile.t) (cfg : t) : outcome t :=
  if negb (BgeFile.Ready file) then Ret cfg
  else
    st ← Open_loop (BgeFile.Lines file) (Close cfg, None);
    Ret (fst st).

(** [Save(path)]: the lines written to a file that is ready. *)
Definition Save (cfg : t) : list std_string :=
  map BgeConfigProperty.Save (mProperties cfg) ++
  (if bool_decide (mProperties cfg = []) then [] else [[]]) ++
  flat_map (fun section => BgeConfigSection.Save section []) (mSections cfg).

End BgeConfig.


(** * Vocabulary of the statements *)

(** The example of the specification for the section-end marker, with the
    token of the source. *)
Definition sentinel_file : BgeFile.t :=
  BgeFile.mk true [lit "[General]"; lit "A = 1"; lit "[SECTIONEND]"; lit "B = 2"].

(** The same example with the token of the README. *)
Definition sentinel_file_readme : BgeFile.t :=
  BgeFile.mk true [lit "[General]"; lit "A = 1"; lit "[ENDSECTION]"; lit "B = 2"].

(** A document with one property at the root. *)
Definition one_property : BgeConfig.t :=
  BgeConfig.mk [BgeConfigProperty.mk INT (lit "A") (lit "1") 1 0%fp false] [].

(** The example file of the README, as far as its first indented comment. *)
Definition readme_file : BgeFile.t :=
  BgeFile.mk true
    [lit "[General]"; lit "Setting0 = false"; lit "..."; lit "";
     lit "[General.Editor]"; lit "Setting0 = true"; lit "..."; lit "";
     lit "[ENDSECTION] // this ends the current section entirely";
     lit "             // so we switch to the global address space"].

(** The document seen as a section without a name: its sections are the
    nested sections, its properties the properties. *)
Definition as_section (cfg : BgeConfig.t) : BgeConfigSection.t :=
  BgeConfigSection.mk [] (BgeConfig.mSections cfg) (BgeConfig.mProperties cfg).

Definition of_section (s : BgeConfigSection.t) : BgeConfig.t :=
  BgeConfig.mk (BgeConfigSection.mProperties s) (BgeConfigSection.mNestedSections s).

(** A path none of whose segments is empty. *)
Definition proper_path (name : std_string) : bool :=
  forallb (fun seg => negb (bool_decide (seg = []))) (split_path name).

(** The last segment of a path: the name of the entry it addresses. *)
Definition last_segment (name : std_string) : std_string :=
  List.last (split_path name) [].

(** The invariant of the data model: in every section the property names
    are pairwise distinct, and so are the names of the nested sections. *)
Fixpoint unique_names (s : BgeConfigSection.t) : Prop :=
  match s with
  | BgeConfigSection.mk _ nested properties =>
      NoDup (BgeConfigProperty.Name <$> properties) /\
      NoDup (BgeConfigSection.Name <$> nested) /\
      fold_right (fun sub rest => unique_names sub /\ rest) True nested
  end.

(** The number of entries that bear the last segment of a path as their
    name, in the section the segments before it lead to. *)
Fixpoint count_sections (segs : list std_string) (s : BgeConfigSection.t) : nat :=
  match segs with
  | [] => 0
  | [name] =>
      length (filter (fun sub => name = BgeConfigSection.Name sub)
                (BgeConfigSection.mNestedSections s))
  | sectionName :: rest =>
      match BgeConfigSection.GetSubSection_here sectionName s with
      | Some (_, sub) => count_sections rest sub
      | None => 0
      end
  end.

Fixpoint count_properties (segs : list std_string) (s : BgeConfigSection.t) : nat :=
  match segs with
  | [] => 0
  | [name] =>
      length (filter (fun p => name = BgeConfigProperty.Name p)
                (BgeConfigSection.mProperties s))
  | sectionName :: rest =>
      match BgeConfigSection.GetSubSection_here sectionName s with
      | Some (_, sub) => count_properties rest sub
      | None => 0
      end
  end.

(** The names of the sections a pointer passes through, outermost first. *)
Fixpoint section_names_along (p : ptr) (s : BgeConfigSection.t)
  : option (list std_string) :=
  match p with
  | [] => Some []
  | i :: p' =>
      match BgeConfigSection.mNestedSections s !! i with
      | Some sub => cons (BgeConfigSection.Name sub) <$> section_names_along p' sub
      | None => None
      end
  end.

(** A document that already holds a root section whose name contains a dot
    (no member function builds one). *)
Definition dotted_root_section : BgeConfig.t :=
  BgeConfig.mk [] [BgeConfigSection.new (lit "General.Editor")].

(** A text that [StringTrimLeading] leaves as it is. *)
Definition trimmed (core : std_string) : bool :=
  match core with
  | [] => false
  | c :: _ =>
      negb (forallb isspace core) && negb (trim_loop_char c) &&
      negb (trim_loop_char (List.last core c))
  end.


(** ** Trees that survive [Save] followed by [Open] *)

(** Modelled from the spec: BgeFile.hpp is not among the sources. The file
    that received the lines of [Save], opened again for reading, is ready and
    yields these lines; this holds as long as no line written contains a line
    terminator. *)
Definition written_file (lines : list std_string) : BgeFile.t :=
  BgeFile.mk true lines.

(** A ["//"] occurs in the string. *)
Fixpoint has_comment_start (str : std_string) : bool :=
  match str with
  | c :: rest =>
      match rest with
      | c' :: _ => (chr_eqb c "/" && chr_eqb c' "/") || has_comment_start rest
      | [] => false
      end
  | [] => false
  end.

(** Characters of a name: no white space, and none of ['.'], ['='], ['/']
    and ['[']. *)
Definition name_char (c : ascii) : bool :=
  negb (isspace c || chr_eqb c "." || chr_eqb c "=" || chr_eqb c "/" ||
        chr_eqb c "[").

Definition plain_name (name : std_string) : bool :=
  negb (bool_decide (name = [])) && forallb name_char name.

(** The text of a [STRING] value that is read back as it is: classified
    [STRING], without ['='] or newline, without ["//"], with no tab, newline,
    space or quote at either end, and not made of white space only. *)
Definition plain_text (v : std_string) : bool :=
  bool_decide (EstimateValueType v = Ret STRING) &&
  forallb (fun c => negb (chr_eqb c "=" || chr_eqb c "010")) v &&
  bool_decide (StringTrimComment v = v) &&
  trimmed v &&
  match v with
  | [] => false
  | c :: _ => negb (BgeConfig.is_quote c) && negb (BgeConfig.is_quote (List.last v c))
  end.

(** A name holds no ['.'] and no newline. *)
Definition one_segment (name : std_string) : bool :=
  forallb (fun c => negb (chr_eqb c "." || chr_eqb c "010")) name.

(** The name of a property that is read back as it is: [StringTrimLeading]
    leaves it as it is (it is not empty, not made of white space only, and
    has no tab, newline or space at either end), and it holds no ['.'], no
    newline and no ["//"]. White space inside the name, ['='], ['['] and
    single ['/'] are allowed. *)
Definition property_name (name : std_string) : bool :=
  trimmed name && one_segment name && negb (has_comment_start name).

(** The name of a section that is read back as it is, between the brackets
    of its header: not empty, without ['.'], newline and ["//"]. *)
Definition section_name (name : std_string) : bool :=
  negb (bool_decide (name = [])) && one_segment name &&
  negb (has_comment_start name).

(** The line [name = text] begins with ['['] and ends with [']']: [Open]
    takes it for a header. *)
Definition bracketed (name text : std_string) : bool :=
  match name, text with
  | c :: _, d :: _ => chr_eqb c "[" && chr_eqb (List.last text d) "]"
  | _, _ => false
  end.

(** A [float] that is read back as it is: a zero or a finite number whose
    text of six decimals is converted by [std::stod], and then to [float],
    to the same datum. *)
Definition float_survives (v : fp) : bool :=
  match v with
  | fp_zero _ | fp_finite _ _ _ =>
      match stod (to_string_float v) with
      | Ret d => bool_decide (fp_convert binary32 d = v)
      | _ => false
      end
  | _ => false
  end.

Definition round_trip_property (p : BgeConfigProperty.t) : bool :=
  property_name (BgeConfigProperty.Name p) &&
  match BgeConfigProperty.Type_ p with
  | INT => (INT_MIN <=? BgeConfigProperty.IntValue p) &&
           (BgeConfigProperty.IntValue p <=? INT_MAX)
  | BOOL => true
  | STRING =>
      plain_text (BgeConfigProperty.StrValue p) &&
      negb (bracketed (BgeConfigProperty.Name p) (BgeConfigProperty.StrValue p))
  | UNKNOWN => bool_decide (BgeConfigProperty.StrValue p = [])
  | FLOAT => float_survives (BgeConfigProperty.FloatValue p)
  end.

Fixpoint round_trip_section (s : BgeConfigSection.t) : bool :=
  match s with
  | BgeConfigSection.mk name nested properties =>
      section_name name && forallb round_trip_property properties &&
      forallb round_trip_section nested
  end.

Definition round_trip_config (cfg : BgeConfig.t) : bool :=
  forallb round_trip_property (BgeConfig.mProperties cfg) &&
  forallb round_trip_section (BgeConfig.mSections cfg).

(** The property [Open] builds from the line [Save] wrote for [p]: same
    name, type and typed value; [StrValue] is the text read, the fields of
    the other types are the defaults of the constructor. *)
Definition reopened_property (p : BgeConfigProperty.t) : BgeConfigProperty.t :=
  match BgeConfigProperty.Type_ p with
  | INT =>
      BgeConfigProperty.mk INT (BgeConfigProperty.Name p)
        (to_string_int (BgeConfigProperty.IntValue p))
        (BgeConfigProperty.IntValue p) 0%fp false
  | BOOL =>
      BgeConfigProperty.mk BOOL (BgeConfigProperty.Name p)
        (if BgeConfigProperty.BoolValue p then lit "true" else lit "false")
        0 0%fp (BgeConfigProperty.BoolValue p)
  | STRING =>
      BgeConfigProperty.mk STRING (BgeConfigProperty.Name p)
        (BgeConfigProperty.StrValue p) 0 0%fp false
  | UNKNOWN =>
      BgeConfigProperty.mk UNKNOWN (BgeConfigProperty.Name p)
        (BgeConfigProperty.StrValue p) 0 0%fp false
  | FLOAT =>
      BgeConfigProperty.mk FLOAT (BgeConfigProperty.Name p)
        (to_string_float (BgeConfigProperty.FloatValue p))
        0 (BgeConfigProperty.FloatValue p) false
  end.

Fixpoint reopened_section (s : BgeConfigSection.t) : BgeConfigSection.t :=
  match s with
  | BgeConfigSection.mk name nested properties =>
      BgeConfigSection.mk name (map reopened_section nested)
        (map reopened_property properties)
  end.

Definition reopened (cfg : BgeConfig.t) : BgeConfig.t :=
  BgeConfig.mk (map reopened_property (BgeConfig.mProperties cfg))
    (map reopened_section (BgeConfig.mSections cfg)).

(** The typed value of a property: the field its type selects. *)
Inductive typed_value : Type :=
  | VUnknown (text : std_string)
  | VString (text : std_string)
  | VFloat (v : fp)
  | VBool (b : bool)
  | VInt (v : Z).

Definition value_of (p : BgeConfigProperty.t) : typed_value :=
  match BgeConfigProperty.Type_ p with
  | UNKNOWN => VUnknown (BgeConfigProperty.StrValue p)
  | STRING => VString (BgeConfigProperty.StrValue p)
  | FLOAT => VFloat (BgeConfigProperty.FloatValue p)
  | BOOL => VBool (BgeConfigProperty.BoolValue p)
  | INT => VInt (BgeConfigProperty.IntValue p)
  end.

(** The qualified name [Save] computes for a chain of section names. *)
Fixpoint join_path (segs : list std_string) : std_string :=
  match segs with
  | [] => []
  | [name] => name
  | name :: rest => name ++ lit "." ++ join_path rest
  end.

(** The pointer a chain of section names leads to; the empty chain leads to
    the section itself. *)
Definition resolve (segs : list std_string) (s : BgeConfigSection.t) : option ptr :=
  match segs with
  | [] => Some []
  | _ => BgeConfigSection.GetSubSection_path segs s
  end.

(** [currentSection] for a pointer from the root: the root itself is the
    null pointer of the loop. *)
Definition current_of (p : ptr) : option ptr :=
  match p with
  | [] => None
  | _ => Some p
  end.

(** A tree in which a string value consists of digits: [Open] itself builds
    it from the line [key = "123"]. *)
Definition quoted_digits : BgeConfig.t :=
  BgeConfig.mk [BgeConfigProperty.mk STRING (lit "key") (lit "123") 0 0%fp false] [].

(** Several [push_back] in a row. *)
Definition add_properties (ps : list BgeConfigProperty.t) (s : BgeConfigSection.t)
  : BgeConfigSection.t :=
  BgeConfigSection.mk (BgeConfigSection.Name s) (BgeConfigSection.mNestedSections s)
    (BgeConfigSection.mProperties s ++ ps).

Definition add_sections (subs : list BgeConfigSection.t) (s : BgeConfigSection.t)
  : BgeConfigSection.t :=
  BgeConfigSection.mk (BgeConfigSection.Name s)
    (BgeConfigSection.mNestedSections s ++ subs) (BgeConfigSection.mProperties s).

(** What the loop body does with the property it built. *)
Definition store_property (property : BgeConfigProperty.t)
    (st : BgeConfig.parser_state) : outcome BgeConfig.parser_state :=
  match st.2 with
  | Some p =>
      match BgeConfig.deref p st.1 with
      | Some _ =>
          Ret (BgeConfig.alter_at
                 (BgeConfigSection.AddProperty
                    (BgeConfigProperty.Name property) property) p st.1,
               st.2)
      | None => NullDeref
      end
  | None =>
      Ret (BgeConfig.AddProperty (BgeConfigProperty.Name property) property st.1,
           st.2)
  end.


(** What holds of a section that is read back where it belongs: its lines,
    read from any tree in which the chain of names [pfx] leads to a section
    [P] without a nested section of that name, append the reopened section
    to [P]. *)
Definition section_round_trips (s : BgeConfigSection.t) : Prop :=
  forall pfx q T P cur,
    BgeConfigSection.Name T = [] -> Forall (fun seg => section_name seg = true) pfx ->
    resolve pfx T = Some q -> BgeConfigSection.deref q T = Some P ->
    BgeConfigSection.HasSubSection_here (BgeConfigSection.Name s) P = false ->
    exists cur',
      BgeConfig.Open_loop (BgeConfigSection.Save s (join_path pfx)) (of_section T, cur) =
        Ret (of_section (BgeConfigSection.alter_at
                         (BgeConfigSection.push_section (reopened_section s)) q T), cur').


(** A small configuration with root properties and two levels of
    sections. *)
Definition sample_config : BgeConfig.t :=
  BgeConfig.mk
    [BgeConfigProperty.mk INT (lit "Width") [] 640 0%fp false;
     BgeConfigProperty.mk STRING (lit "Title") (lit "My Game") 0 0%fp false]
    [BgeConfigSection.mk (lit "General")
       [BgeConfigSection.mk (lit "Editor") []
          [BgeConfigProperty.mk INT (lit "Offset") [] (-3) 0%fp false;
           BgeConfigProperty.mk UNKNOWN (lit "Empty") [] 0 0%fp false]]
       [BgeConfigProperty.mk BOOL (lit "Setting0") [] 0 0%fp true];
     BgeConfigSection.mk (lit "SECTIONEND") []
       [BgeConfigProperty.mk BOOL (lit "Setting0") [] 0 0%fp false]].

(** The reserved token of the section-end marker, and the trees in which
    it names nothing. *)
Definition sentinel : std_string := lit "SECTIONEND".

Fixpoint sentinel_free_section (s : BgeConfigSection.t) : bool :=
  match s with
  | BgeConfigSection.mk name nested properties =>
      negb (str_eqb name sentinel) &&
      forallb (fun p => negb (str_eqb (BgeConfigProperty.Name p) sentinel)) properties &&
      forallb sentinel_free_section nested
  end.

Definition sentinel_free (cfg : BgeConfig.t) : bool :=
  forallb (fun p => negb (str_eqb (BgeConfigProperty.Name p) sentinel))
    (BgeConfig.mProperties cfg) &&
  forallb sentinel_free_section (BgeConfig.mSections cfg).

(** A document with one property at the root, and what [Open] reads from
    the file [Save] wrote for a document. *)
Definition root_property (p : BgeConfigProperty.t) : BgeConfig.t :=
  BgeConfig.mk [p] [].

Definition saved_and_opened (cfg : BgeConfig.t) : outcome BgeConfig.t :=
  BgeConfig.Open (written_file (BgeConfig.Save cfg)) BgeConfig.new.

(** A configuration with names and values of the kinds that are read back:
    white space, ['='], ['['] and single ['/'] inside names, section names
    with spaces at their ends, and [float] values. *)
Definition wide_config : BgeConfig.t :=
  BgeConfig.mk
    [BgeConfigProperty.mk INT (lit "My Key") [] 640 0%fp false;
     BgeConfigProperty.mk STRING (lit "a/b") (lit "C:/Games/My Game") 0 0%fp false;
     BgeConfigProperty.mk FLOAT (lit "a=b") [] 0 (fp_finite false 8388608 (-24)) false;
     BgeConfigProperty.mk STRING (lit "[x") (lit "y]z") 0 0%fp false;
     BgeConfigProperty.mk FLOAT (lit "tenth") [] 0 (fp_finite true 13421773 (-27)) false]
    [BgeConfigSection.mk (lit " General ")
       [BgeConfigSection.mk (lit "[Editor]=/") []
          [BgeConfigProperty.mk FLOAT (lit "Scale") [] 0
             (fp_finite false 8388608 1) false;
           BgeConfigProperty.mk UNKNOWN (lit "Empty") [] 0 0%fp false]]
       [BgeConfigProperty.mk BOOL (lit "Setting 0") [] 0 0%fp true]].

(** A line without a newline character: written by [WriteLine], it is read
    back by [ReadLine] as one line. *)
Definition no_newline (line : std_string) : Prop :=
  Forall (fun c => c <> "010"%char) line.


(** * Vocabulary of the further properties *)

(** The decimal digits, and the optional sign in front of a number. *)
Definition is_digit (c : ascii) : Prop := In c (lit "0123456789").

Definition opt_sign (sign : std_string) : Prop :=
  sign = [] \/ sign = lit "+" \/ sign = lit "-".

(** Digits around one decimal point; either side may be empty. *)
Definition float_body (l : std_string) : Prop :=
  exists a b, l = a ++ "."%char :: b /\ Forall is_digit a /\ Forall is_digit b.

(** A segment of the path other than the last one is empty. *)
Definition empty_inner_segment (name : std_string) : bool :=
  existsb (fun seg => bool_decide (seg = [])) (removelast (split_path name)).

(** The segments that follow the first empty segment of a path; [None]
    when no segment is empty. *)
Fixpoint after_first_empty (segs : list std_string) : option (list std_string) :=
  match segs with
  | [] => None
  | seg :: rest =>
      if bool_decide (seg = []) then Some rest else after_first_empty rest
  end.

(** An empty segment of the path is followed, at once or later, by a
    segment that is not empty. *)
Definition empty_before_named (name : std_string) : bool :=
  match after_first_empty (split_path name) with
  | Some rest => negb (forallb (fun seg => bool_decide (seg = [])) rest)
  | None => false
  end.

(** What one line of [Open] does to the document, seen as a section:
    nothing, the [AddSection] of a header, or the [AddProperty] of an
    assignment through [currentSection] (the empty pointer stands for the
    document itself). *)
Inductive line_effect (s : BgeConfigSection.t) : BgeConfigSection.t -> Prop :=
  | effect_none : line_effect s s
  | effect_section name s1 p :
      BgeConfigSection.AddSubSection name s = Ret (s1, p) -> line_effect s s1
  | effect_property name property q :
      line_effect s
        (BgeConfigSection.alter_at (BgeConfigSection.AddProperty name property) q s).

(** [currentSection] is null or leads to a section of the document. *)
Definition valid_state (st : BgeConfig.parser_state) : Prop :=
  match st.2 with
  | Some q => is_Some (BgeConfig.deref q st.1)
  | None => True
  end.

(** Every entry the first tree holds is found, unchanged, by the same path
    in the second; sections are found by the same pointer. *)
Definition keeps_entries (s s' : BgeConfigSection.t) : Prop :=
  BgeConfigSection.Name s' = BgeConfigSection.Name s /\
  forall segs,
    (forall p, BgeConfigSection.Get_path segs s = Some p ->
               BgeConfigSection.Get_path segs s' = Some p) /\
    (forall q, BgeConfigSection.GetSubSection_path segs s = Some q ->
               BgeConfigSection.GetSubSection_path segs s' = Some q).

(** A name that one segment of a path can denote: not empty, without a
    dot. *)
Definition segment_name (n : std_string) : Prop :=
  n <> [] /\ Forall (fun c => c <> "."%char) n.

(** Every property and every section of the tree bears such a name. *)
Fixpoint well_named (s : BgeConfigSection.t) : Prop :=
  match s with
  | BgeConfigSection.mk _ nested properties =>
      Forall segment_name (BgeConfigProperty.Name <$> properties) /\
      Forall segment_name (BgeConfigSection.Name <$> nested) /\
      fold_right (fun sub rest => well_named sub /\ rest) True nested
  end.

(** How a computation ends, without its result. *)
Definition ending {A : Type} (o : outcome A) : outcome unit :=
  match o with
  | Ret _ => Ret tt
  | Throw e => Throw e
  | NullDeref => NullDeref
  end.

(** The first ending of the list that is not a return, if there is one. *)
Fixpoint first_failure (endings : list (outcome unit)) : outcome unit :=
  match endings with
  | [] => Ret tt
  | Ret _ :: rest => first_failure rest
  | failure :: _ => failure
  end.

(** The lines the loop of [Open] passes over before it cleans them: the
    empty line and the line that starts with ["//"]. *)
Definition skipped_line (line : std_string) : bool :=
  (length line <? 1)%nat || str_eqb (substr line 0 2) (lit "//").

(** The text of a key: not empty, without white space and without ['/']
    and ['[']; dots and ['='] are allowed. *)
Definition key_text (name : std_string) : bool :=
  negb (bool_decide (name = [])) &&
  forallb (fun c => negb (isspace c || chr_eqb c "/" || chr_eqb c "[")) name.

(** The text of a value that is read whole: without ['='] and ["//"], and
    empty or with no tab, newline or space at either end and not made of
    white space only. *)
Definition value_text (text : std_string) : bool :=
  forallb (fun c => negb (chr_eqb c "=")) text &&
  negb (has_comment_start text) &&
  (bool_decide (text = []) || trimmed text).

(** A document with the one property [orig], and what
    [cfg.AddProperty("copy", *cfg.Get("orig"))] leaves of it. *)
Definition one_orig : BgeConfig.t :=
  BgeConfig.mk [BgeConfigProperty.mk INT (lit "orig") (lit "1") 1 0%fp false] [].

Definition two_copies : BgeConfig.t :=
  BgeConfig.mk
    [BgeConfigProperty.mk INT (lit "copy") (lit "1") 1 0%fp false;
     BgeConfigProperty.mk INT (lit "copy") (lit "1") 1 0%fp false] [].

(** The reference leads to a property of the section in which
    [AddProperty] stores for this path: the section that the segments
    before the last one lead to. *)
Definition stored_at_target (path : std_string) (property : property_ref)
    (s : BgeConfigSection.t) : bool :=
  match property with
  | outside _ => false
  | stored q _ => bool_decide (resolve (removelast (split_path path)) s = Some q)
  end.

(** * Properties of the embedding *)

(** ** Sanity checks of the helpers on the examples of the source *)

Example helpers_examples :
  StringTrimLeading (lit "  a b ") = lit "a b" /\
  StringTrimComment (lit "k = 5 // c") = lit "k = 5 " /\
  split_path (lit "General.Editor") = [lit "General"; lit "Editor"] /\
  split_path (lit "") = [lit ""] /\
  stoi (lit "-42") = Ret (-42) /\
  to_string_int (-2147483648) = lit "-2147483648" /\
  to_string_int 0 = lit "0" /\
  stod (lit "-4.5") = Ret (fp_finite true 5066549580791808 (-50)) /\
  fp_convert binary32 (fp_finite true 5066549580791808 (-50)) =
    fp_finite true 9437184 (-21) /\
  to_string_float (fp_finite true 9437184 (-21)) = lit "-4.500000".
Proof. repeat split; vm_compute; reflexivity. Qed.

(** The conversions of floating-point text: a value between two [float]
    numbers is stored as the nearest one, a value beyond the largest [float]
    as an infinity, a value below the normal [double] numbers is a range
    error of [std::stod], and the text of a stored value has six decimals. *)
Example float_examples :
  (v ← stod (lit "16777217.0"); Ret (fp_convert binary32 v)) =
    Ret (fp_finite false 8388608 1) /\
  to_string_float (fp_finite false 8388608 1) = lit "16777216.000000" /\
  (v ← stod (lit "1000000000000000000000000000000000000000.0");
   Ret (fp_convert binary32 v)) = Ret (fp_inf false) /\
  to_string_float (fp_inf false) = lit "inf" /\
  stod (lit "0." ++ replicate 320 "0"%char ++ lit "1") = Throw out_of_range /\
  stod (lit "1" ++ replicate 309 "0"%char ++ lit ".0") = Throw out_of_range /\
  (v ← stod (lit "0.1"); Ret (fp_convert binary32 v)) =
    Ret (fp_finite false 13421773 (-27)) /\
  to_string_float (fp_finite false 13421773 (-27)) = lit "0.100000" /\
  to_string_float (fp_finite false 8388608 (-30)) = lit "0.007812" /\
  stod (lit "-0.0") = Ret (fp_zero true) /\
  to_string_float (fp_zero true) = lit "-0.000000".
Proof. repeat split; vm_compute; reflexivity. Qed.

(** ** The section-end marker *)

(** The comparison with ["[SECTIONEND]"] comes after the header test, and a
    line that is not a header is not the marker: the branch that resets
    [currentSection] is never taken. *)
Lemma section_end_branch_unreachable (cleanLine : std_string) :
  BgeConfig.is_header cleanLine = Ret false ->
  str_eqb cleanLine (lit "[SECTIONEND]") = false.
Proof.
  intros H. unfold str_eqb. apply bool_decide_eq_false. intros ->.
  vm_compute in H. discriminate.
Qed.

(** ** An unreadable file *)

Lemma C3_not_ready_keeps_tree_cex :
  BgeConfig.Open (BgeFile.mk false []) one_property = Ret one_property /\
  one_property <> BgeConfig.Close one_property.
Proof. split; [reflexivity | discriminate]. Qed.

(** C3 (amended). When the file is not ready, [Open] returns normally before
    [Close()] is reached: the document is left as it was. *)
Theorem C3_not_ready_returns_unchanged (file : BgeFile.t) (cfg : BgeConfig.t) :
  BgeFile.Ready file = false ->
  BgeConfig.Open file cfg = Ret cfg.
Proof. intros H. unfold BgeConfig.Open. rewrite H. reflexivity. Qed.

Lemma C3_not_ready_returns_unchanged_witness :
  BgeConfig.Open (BgeFile.mk false [lit "A = 2"]) one_property = Ret one_property.
Proof.
  apply (C3_not_ready_returns_unchanged (BgeFile.mk false [lit "A = 2"])).
  reflexivity.
Defined.

(** When the file is ready the old tree is discarded. *)
Lemma Open_ready_discards (file : BgeFile.t) (cfg cfg' : BgeConfig.t) :
  BgeFile.Ready file = true ->
  BgeConfig.Open file cfg = BgeConfig.Open file cfg'.
Proof. intros H. unfold BgeConfig.Open. rewrite H. reflexivity. Qed.

(** ** Exceptions and faults that reach the caller *)

(** C4 (evaluation of the code at failing inputs). A line of white space,
    and a line that is white space followed by a comment, are not skipped by
    the test [line.length() < 1]; they are empty once cleaned and
    [cleanLine.at(0)] throws. [std::stoi] throws on an [INT] token without a
    digit or outside the range of [int], [std::stod] on a lone dot, the quote
    stripping on a lone quote; [AddSection] dereferences the null pointer
    that [AddSection("")] returns. *)
Theorem C4_exceptions_reach_the_caller :
  BgeConfig.Open (BgeFile.mk true [lit " "]) BgeConfig.new = Throw out_of_range /\
  BgeConfig.Open readme_file BgeConfig.new = Throw out_of_range /\
  BgeConfig.Open (BgeFile.mk true [lit "x = 99999999999"]) BgeConfig.new
    = Throw out_of_range /\
  BgeConfig.Open (BgeFile.mk true [lit "x = +"]) BgeConfig.new
    = Throw invalid_argument /\
  BgeConfig.Open (BgeFile.mk true [lit "x = ."]) BgeConfig.new
    = Throw invalid_argument /\
  BgeConfig.Open (BgeFile.mk true [lit "x = '"]) BgeConfig.new = Throw out_of_range /\
  BgeConfig.AddSection (lit ".b") BgeConfig.new = NullDeref /\
  BgeConfigSection.AddSubSection (lit "a..b") (BgeConfigSection.new (lit "s"))
    = NullDeref.
Proof. repeat split; vm_compute; reflexivity. Qed.

(** ** The classifier *)

(** C5 (evaluation of the code at the failing input). A lone sign passes
    [StringIsNumber], whose loop has nothing left to test: the classifier
    answers [INT], and the conversion of the token then throws. *)
Theorem C5_lone_sign_is_classified_int :
  StringIsNumber (lit "+") = Ret true /\
  StringIsNumber (lit "-") = Ret true /\
  EstimateValueType (lit "+") = Ret INT /\
  EstimateValueType (lit "-") = Ret INT /\
  BgeConfig.make_property INT (lit "x") (lit "+") = Throw invalid_argument.
Proof. repeat split; vm_compute; reflexivity. Qed.

(** The classifier never throws: the empty token is answered before the
    first character is read. *)
Lemma EstimateValueType_order (value : std_string) :
  EstimateValueType value =
    if bool_decide (value = []) then Ret UNKNOWN
    else if StringIsBool value then Ret BOOL
    else if bool_decide (StringIsNumber value = Ret true) then Ret INT
    else if bool_decide (StringIsFloat value = Ret true) then Ret FLOAT
    else Ret STRING.
Proof.
  unfold EstimateValueType.
  destruct value as [|c r]; [reflexivity|].
  rewrite bool_decide_eq_false_2 by done.
  destruct (StringIsBool (c :: r)); [reflexivity|].
  unfold StringIsNumber, StringIsFloat, at_; simpl.
  destruct (StringIsNumber_loop _); [reflexivity|].
  rewrite (bool_decide_eq_false_2 (Ret false = Ret true)) by done.
  destruct (StringIsFloat_loop _ _); [reflexivity|].
  rewrite (bool_decide_eq_false_2 (Ret false = Ret true)) by done.
  reflexivity.
Qed.

(** C9. The classification table of the specification, and the order of the
    decisions: empty, Boolean literal, integer, float, string. *)
Theorem C9_classification_table :
  EstimateValueType (lit "123") = Ret INT /\
  EstimateValueType (lit "-4.5") = Ret FLOAT /\
  EstimateValueType (lit "true") = Ret BOOL /\
  EstimateValueType (lit "True") = Ret BOOL /\
  EstimateValueType (lit "hello") = Ret STRING /\
  EstimateValueType (lit "") = Ret UNKNOWN /\
  EstimateValueType (lit "12a") = Ret STRING /\
  (forall value : std_string,
     EstimateValueType value =
       if bool_decide (value = []) then Ret UNKNOWN
       else if StringIsBool value then Ret BOOL
       else if bool_decide (StringIsNumber value = Ret true) then Ret INT
       else if bool_decide (StringIsFloat value = Ret true) then Ret FLOAT
       else Ret STRING).
Proof.
  repeat split; try (vm_compute; reflexivity).
  apply EstimateValueType_order.
Qed.

(** ** Trimming *)

(** C6 (evaluation of the code at failing inputs). The two loops of
    [StringTrimLeading] step over tab, newline and space only: a carriage
    return, form feed or vertical tab at either end stays, although the
    first test of the function counts them as white space. *)
Theorem C6_trim_keeps_cr_ff_vt :
  StringTrimLeading ("013" :: lit "A")%char = ("013" :: lit "A")%char /\
  StringTrimLeading (lit "A" ++ ["012"; "011"]%char) = lit "A" ++ ["012"; "011"]%char /\
  StringTrimLeading (["013"; " "]%char ++ lit "A") = ["013"; " "]%char ++ lit "A" /\
  StringTrimLeading ["013"; "012"; "011"]%char = [] /\
  (exists cfg,
     BgeConfig.Open (BgeFile.mk true [lit "key = 5" ++ ["013"%char]]) BgeConfig.new = Ret cfg /\
     BgeConfig.Get (lit "key") cfg =
       Some (BgeConfigProperty.mk STRING (lit "key") (lit "5" ++ ["013"%char]) 0 0%fp false)).
Proof.
  repeat split; try (vm_compute; reflexivity).
  eexists; split; vm_compute; reflexivity.
Qed.

(** ** The empty path *)

(** C10. With the empty string as path every addressing operation of a
    section and of the document answers "not found" and changes nothing. *)
Theorem C10_empty_path_is_a_no_op
    (s : BgeConfigSection.t) (cfg : BgeConfig.t) (property : BgeConfigProperty.t) :
  BgeConfigSection.Get [] s = None /\
  BgeConfigSection.GetSubSection [] s = None /\
  BgeConfigSection.HasProperty [] s = false /\
  BgeConfigSection.HasSubSection [] s = false /\
  BgeConfigSection.AddProperty [] property s = s /\
  BgeConfigSection.AddSubSection [] s = Ret (s, None) /\
  BgeConfig.Get [] cfg = None /\
  BgeConfig.GetSection [] cfg = None /\
  BgeConfig.HasProperty [] cfg = false /\
  BgeConfig.HasSection [] cfg = false /\
  BgeConfig.AddProperty [] property cfg = cfg /\
  BgeConfig.AddSection [] cfg = Ret (cfg, None).
Proof. repeat split; reflexivity. Qed.

(** ** Lookups by name in a vector *)

Section find_by_name.
Context {A : Type} (name_of : A -> std_string).

Lemma find_name_Some (name : std_string) (l : list A) i x :
  list_find (fun y => name = name_of y) l = Some (i, x) ->
  l !! i = Some x /\ name_of x = name.
Proof. intros (? & ? & ?)%list_find_Some. done. Qed.

Lemma find_name_alter (name : std_string) (f : A -> A) (l : list A) i x :
  list_find (fun y => name = name_of y) l = Some (i, x) ->
  name_of (f x) = name_of x ->
  list_find (fun y => name = name_of y) (alter f i l) = Some (i, f x).
Proof.
  intros (Hl & Hx & Hlt)%list_find_Some Hf. apply list_find_Some. split_and!.
  - rewrite list_lookup_alter_eq, Hl. done.
  - congruence.
  - intros j y Hj Hji. rewrite list_lookup_alter_ne in Hj by lia. eauto.
Qed.

Lemma find_name_snoc_fresh (name : std_string) (l : list A) x :
  list_find (fun y => name = name_of y) l = None ->
  name_of x = name ->
  list_find (fun y => name = name_of y) (l ++ [x]) = Some (length l, x).
Proof.
  intros Hn Hx. rewrite list_find_app_r by done. simpl.
  rewrite decide_True by done. reflexivity.
Qed.

Lemma find_name_snoc_other (name : std_string) (l : list A) x :
  name_of x <> name ->
  list_find (fun y => name = name_of y) (l ++ [x]) =
  list_find (fun y => name = name_of y) l.
Proof.
  intros Hx. destruct (list_find _ l) as [[i y]|] eqn:E.
  - by apply list_find_app_l.
  - rewrite list_find_app_r by done. simpl.
    rewrite decide_False by done. reflexivity.
Qed.

Lemma find_name_None (name : std_string) (l : list A) :
  list_find (fun y => name = name_of y) l = None <-> name ∉ name_of <$> l.
Proof.
  rewrite list_find_None, Forall_forall, list_elem_of_fmap. split.
  - intros H (y & -> & Hy). by apply (H y).
  - intros H y Hy ->. apply H. by exists y.
Qed.

Lemma fmap_alter_name (f : A -> A) (l : list A) i x :
  l !! i = Some x -> name_of (f x) = name_of x ->
  name_of <$> alter f i l = name_of <$> l.
Proof.
  revert i. induction l as [|y l IH]; intros [|i] Hl Hf; simplify_eq/=.
  - by rewrite Hf.
  - f_equal. eauto.
Qed.

Lemma filter_name_fresh (name : std_string) (l : list A) :
  name ∉ name_of <$> l -> filter (fun y => name = name_of y) l = [].
Proof.
  induction l as [|y l IH]; [done|].
  rewrite fmap_cons, not_elem_of_cons. intros [Hy Hl].
  rewrite filter_cons_False by done. auto.
Qed.

Lemma count_name_le_1 (name : std_string) (l : list A) :
  NoDup (name_of <$> l) ->
  (length (filter (fun y => name = name_of y) l) <= 1)%nat.
Proof.
  induction l as [|y l IH]; [simpl; lia|].
  rewrite fmap_cons, NoDup_cons. intros [Hy Hl].
  rewrite filter_cons. case_decide as E; [|auto].
  rewrite filter_name_fresh by congruence. simpl; lia.
Qed.

Lemma count_name_ge_1 (name : std_string) (l : list A) i x :
  list_find (fun y => name = name_of y) l = Some (i, x) ->
  (1 <= length (filter (fun y => name = name_of y) l))%nat.
Proof.
  intros (Hl & Hx & _)%list_find_Some.
  apply list_elem_of_lookup_2 in Hl.
  assert (x ∈ filter (fun y => name = name_of y) l) as Hin
    by (apply list_elem_of_filter; done).
  destruct (filter _ l); [by apply elem_of_nil in Hin | simpl; lia].
Qed.
End find_by_name.

(** ** One level of a section *)

Module SectionFacts.
Import BgeConfigSection.

Lemma HasSubSection_here_true name s :
  HasSubSection_here name s = true ->
  exists i sub, GetSubSection_here name s = Some (i, sub).
Proof.
  unfold HasSubSection_here, GetSubSection_here.
  case_bool_decide; [done|].
  destruct (GetSectionIterator name s) as [[i sub]|]; [eauto | done].
Qed.

Lemma HasSubSection_here_false name s :
  HasSubSection_here name s = false -> GetSubSection_here name s = None.
Proof.
  unfold HasSubSection_here, GetSubSection_here.
  case_bool_decide; [done|].
  destruct (GetSectionIterator name s) as [[i sub]|]; done.
Qed.

(** After [HasSubSection(sectionName)] answered [true] the pointer that
    [GetSubSection(sectionName)] returns is not null, and conversely. *)
Lemma GetSubSection_here_Some name s i sub :
  GetSubSection_here name s = Some (i, sub) ->
  HasSubSection_here name s = true /\ name <> [] /\
  mNestedSections s !! i = Some sub /\ Name sub = name.
Proof.
  unfold HasSubSection_here, GetSubSection_here.
  case_bool_decide; [done|]. unfold GetSectionIterator.
  intros E. rewrite E. apply find_name_Some in E as [? ?]. done.
Qed.

Lemma GetSubSection_here_alter name f s i sub :
  GetSubSection_here name s = Some (i, sub) ->
  Name (f sub) = Name sub ->
  GetSubSection_here name (alter_nested f i s) = Some (i, f sub).
Proof.
  unfold GetSubSection_here. case_bool_decide; [done|].
  unfold GetSectionIterator; simpl. apply find_name_alter.
Qed.

Lemma AddSubSection_here_old name s i sub :
  GetSubSection_here name s = Some (i, sub) ->
  AddSubSection_here name s = (s, Some i).
Proof.
  intros E. pose proof (GetSubSection_here_Some _ _ _ _ E) as (Hh & Hn & _).
  unfold AddSubSection_here. rewrite bool_decide_eq_false_2 by done.
  rewrite Hh, E. reflexivity.
Qed.

Lemma AddSubSection_here_fresh name s :
  name <> [] -> HasSubSection_here name s = false ->
  AddSubSection_here name s =
    (push_section (new name) s, Some (length (mNestedSections s))) /\
  GetSubSection_here name (push_section (new name) s) =
    Some (length (mNestedSections s), new name).
Proof.
  intros Hn Hh. unfold AddSubSection_here.
  rewrite bool_decide_eq_false_2 by done. rewrite Hh. split; [done|].
  apply HasSubSection_here_false in Hh. revert Hh.
  unfold GetSubSection_here. rewrite bool_decide_eq_false_2 by done.
  unfold GetSectionIterator; simpl. intros Hh.
  by apply find_name_snoc_fresh.
Qed.

Lemma HasProperty_here_true name s :
  HasProperty_here name s = true ->
  exists i p, GetPropertyIterator name s = Some (i, p) /\ name <> [].
Proof.
  unfold HasProperty_here. case_bool_decide; [done|].
  destruct (GetPropertyIterator name s) as [[i p]|]; [eauto | done].
Qed.

Lemma HasProperty_here_false name s :
  name <> [] -> HasProperty_here name s = false ->
  GetPropertyIterator name s = None.
Proof.
  unfold HasProperty_here. intros Hn. rewrite bool_decide_eq_false_2 by done.
  destruct (GetPropertyIterator name s) as [[i p]|]; done.
Qed.

(** *** The branches of the source on a path with a dot *)

Lemma HasSubSection_path_cons a b rest s :
  HasSubSection_path (a :: b :: rest) s =
    match GetSubSection_here a s with
    | Some (_, sub) => HasSubSection_path (b :: rest) sub
    | None => false
    end.
Proof.
  simpl. destruct (GetSubSection_here a s) as [[i sub]|] eqn:E.
  - apply GetSubSection_here_Some in E as (-> & _). reflexivity.
  - by destruct (HasSubSection_here a s).
Qed.

Lemma GetSubSection_path_cons a b rest s :
  GetSubSection_path (a :: b :: rest) s =
    match GetSubSection_here a s with
    | Some (i, sub) => cons i <$> GetSubSection_path (b :: rest) sub
    | None => None
    end.
Proof.
  simpl. destruct (GetSubSection_here a s) as [[i sub]|] eqn:E.
  - apply GetSubSection_here_Some in E as (-> & _). reflexivity.
  - by destruct (HasSubSection_here a s).
Qed.

Lemma HasProperty_path_cons a b rest s :
  HasProperty_path (a :: b :: rest) s =
    match GetSubSection_here a s with
    | Some (_, sub) => HasProperty_path (b :: rest) sub
    | None => false
    end.
Proof.
  simpl. destruct (GetSubSection_here a s) as [[i sub]|] eqn:E.
  - apply GetSubSection_here_Some in E as (-> & _). reflexivity.
  - by destruct (HasSubSection_here a s).
Qed.

Lemma Get_path_cons a b rest s :
  Get_path (a :: b :: rest) s =
    match GetSubSection_here a s with
    | Some (_, sub) => Get_path (b :: rest) sub
    | None => None
    end.
Proof.
  simpl. destruct (GetSubSection_here a s) as [[i sub]|] eqn:E.
  - apply GetSubSection_here_Some in E as (-> & _). reflexivity.
  - by destruct (HasSubSection_here a s).
Qed.

(** [HasSubSection] and [GetSubSection] agree. *)
Lemma HasSubSection_path_Get segs s :
  HasSubSection_path segs s = true <-> is_Some (GetSubSection_path segs s).
Proof.
  revert s. induction segs as [|a [|b rest] IH]; intros s.
  - simpl. split; [done | by intros [? ?]].
  - simpl. split.
    + intros (i & sub & ->)%HasSubSection_here_true. by eexists.
    + intros [p Hp]. destruct (GetSubSection_here a s) as [[i sub]|] eqn:E; [|done].
      by apply GetSubSection_here_Some in E as (? & _).
  - rewrite HasSubSection_path_cons, GetSubSection_path_cons.
    destruct (GetSubSection_here a s) as [[i sub]|]; [|split; [done | by intros [? ?]]].
    rewrite IH, fmap_is_Some. done.
Qed.

Lemma HasProperty_path_Get segs s :
  HasProperty_path segs s = true <-> is_Some (Get_path segs s).
Proof.
  revert s. induction segs as [|a [|b rest] IH]; intros s.
  - simpl. split; [done | by intros [? ?]].
  - simpl. unfold HasProperty_here, Get_here. case_bool_decide.
    { split; [done | by intros [? ?]]. }
    destruct (GetPropertyIterator a s) as [[i p]|]; simpl.
    + split; [by eexists | done].
    + split; [done | by intros [? ?]].
  - rewrite HasProperty_path_cons, Get_path_cons.
    destruct (GetSubSection_here a s) as [[i sub]|]; [|split; [done | by intros [? ?]]].
    apply IH.
Qed.


(** *** [AddSubSection] *)

Lemma AddSubSection_here_proper a s :
  a <> [] ->
  exists s1 i sub,
    AddSubSection_here a s = (s1, Some i) /\
    GetSubSection_here a s1 = Some (i, sub) /\
    (s1 = s \/
     HasSubSection_here a s = false /\ s1 = push_section (new a) s /\
     sub = new a /\ i = length (mNestedSections s)).
Proof.
  intros Ha. destruct (HasSubSection_here a s) eqn:Hh.
  - destruct (HasSubSection_here_true _ _ Hh) as (i & sub & E).
    exists s, i, sub. split_and!; [by eapply AddSubSection_here_old | done | by left].
  - destruct (AddSubSection_here_fresh a s Ha Hh) as [E1 E2].
    exists (push_section (new a) s), (length (mNestedSections s)), (new a).
    split_and!; [done | done | by right].
Qed.

Lemma AddSubSection_path_has segs s :
  HasSubSection_path segs s = true ->
  AddSubSection_path segs s = Ret (s, GetSubSection_path segs s).
Proof.
  destruct segs as [|a [|b rest]]; [done | | by simpl; intros ->].
  simpl. intros (i & sub & E)%HasSubSection_here_true.
  rewrite (AddSubSection_here_old _ _ _ _ E), E. reflexivity.
Qed.

Lemma AddSubSection_here_Name a s s1 r :
  AddSubSection_here a s = (s1, r) -> Name s1 = Name s.
Proof.
  unfold AddSubSection_here. case_bool_decide; [by intros [= <- _]|].
  destruct (HasSubSection_here a s); by intros [= <- _].
Qed.

(** A call through the null pointer returns [nullptr] when every segment
    left is empty, and faults otherwise. *)
Lemma AddSubSection_null_spec segs :
  AddSubSection_null segs =
    if forallb (fun seg => bool_decide (seg = [])) segs then Ret None else NullDeref.
Proof.
  induction segs as [|a [|b rest] IH]; [done | |].
  - simpl. by case_bool_decide.
  - change (AddSubSection_null (a :: b :: rest)) with
      (if bool_decide (a = []) then AddSubSection_null (b :: rest) else NullDeref).
    rewrite IH. cbn [forallb]. by case_bool_decide.
Qed.

Lemma AddSubSection_here_None a s s1 :
  AddSubSection_here a s = (s1, None) -> a = [] /\ s1 = s.
Proof.
  unfold AddSubSection_here. case_bool_decide as Ha; [by intros [= <-]|].
  destruct (HasSubSection_here a s) eqn:E; [|done].
  apply HasSubSection_here_true in E as (i & sub & E). rewrite E. done.
Qed.

(** The branch of [AddSubSection] with an empty first segment: the call
    through the null pointer either faults or returns [nullptr], and the
    section is left as it was. *)
Ltac null_call E :=
  rewrite AddSubSection_null_spec;
  destruct (forallb _ _) eqn:?; [|done];
  apply AddSubSection_here_None in E as [-> ->]; intros [= <- <-].

Lemma AddSubSection_path_cons a b rest s :
  AddSubSection_path (a :: b :: rest) s =
    if HasSubSection_path (a :: b :: rest) s
    then Ret (s, GetSubSection_path (a :: b :: rest) s)
    else
      match AddSubSection_here a s with
      | (s1, Some i) =>
          match mNestedSections s1 !! i with
          | Some sub =>
              match AddSubSection_path (b :: rest) sub with
              | Ret (sub', p) =>
                  Ret (alter_nested (fun _ => sub') i s1, cons i <$> p)
              | Throw e => Throw e
              | NullDeref => NullDeref
              end
          | None => NullDeref
          end
      | (s1, None) =>
          match AddSubSection_null (b :: rest) with
          | Ret p => Ret (s1, p)
          | Throw e => Throw e
          | NullDeref => NullDeref
          end
      end.
Proof.
  change (AddSubSection_path (a :: b :: rest) s) with
    (if HasSubSection_path (a :: b :: rest) s
     then Ret (s, GetSubSection_path (a :: b :: rest) s)
     else
       let '(s1, r) := AddSubSection_here a s in
       match r with
       | None =>
           match AddSubSection_null (b :: rest) with
           | Ret p => Ret (s1, p)
           | Throw e => Throw e
           | NullDeref => NullDeref
           end
       | Some i =>
           match mNestedSections s1 !! i with
           | None => NullDeref
           | Some sub =>
               match AddSubSection_path (b :: rest) sub with
               | Ret (sub', p) =>
                   Ret (alter_nested (fun _ => sub') i s1, cons i <$> p)
               | Throw e => Throw e
               | NullDeref => NullDeref
               end
           end
       end).
  destruct (HasSubSection_path (a :: b :: rest) s); [done|].
  by destruct (AddSubSection_here a s) as [s1 [i|]].
Qed.

Lemma AddSubSection_path_Name segs s s1 p :
  AddSubSection_path segs s = Ret (s1, p) -> Name s1 = Name s.
Proof.
  destruct segs as [|a [|b rest]].
  - simpl. by intros [= <- _].
  - simpl. destruct (AddSubSection_here a s) as [s' r] eqn:E.
    intros [= <- _]. by eapply AddSubSection_here_Name.
  - rewrite AddSubSection_path_cons.
    destruct (HasSubSection_path _ s); [by intros [= <- _]|].
    destruct (AddSubSection_here a s) as [s' [i|]] eqn:E.
    2:{ destruct (AddSubSection_null _) as [p'| |]; [|done..].
        intros [= <- _]. by eapply AddSubSection_here_Name. }
    destruct (mNestedSections s' !! i); [|done].
    destruct (AddSubSection_path (b :: rest) _) as [[sub' p']| |]; [|done..].
    intros [= <- _]. simpl. by eapply AddSubSection_here_Name.
Qed.

Lemma AddSubSection_path_proper segs s :
  segs <> [] -> Forall (fun seg => seg <> []) segs ->
  exists s1 p,
    AddSubSection_path segs s = Ret (s1, Some p) /\
    GetSubSection_path segs s1 = Some p.
Proof.
  revert s. induction segs as [|a [|b rest] IH]; intros s Hne Hall; [done| |].
  - apply Forall_cons in Hall as [Ha _].
    destruct (AddSubSection_here_proper a s Ha) as (s1 & i & sub & E1 & E2 & _).
    exists s1, [i]. simpl. rewrite E1, E2. done.
  - apply Forall_cons in Hall as [Ha Hall].
    destruct (HasSubSection_path (a :: b :: rest) s) eqn:Hh.
    + pose proof Hh as [p Hp]%HasSubSection_path_Get.
      exists s, p. rewrite AddSubSection_path_has, Hp by done. done.
    + destruct (AddSubSection_here_proper a s Ha) as (s1 & i & sub & E1 & E2 & _).
      destruct (IH sub) as (sub' & p' & E3 & E4); [done | done |].
      pose proof (GetSubSection_here_Some _ _ _ _ E2) as (_ & _ & Hi & _).
      exists (alter_nested (fun _ => sub') i s1), (i :: p').
      split.
      * rewrite AddSubSection_path_cons.
        rewrite Hh, E1, Hi, E3. reflexivity.
      * rewrite GetSubSection_path_cons.
        rewrite (GetSubSection_here_alter a (fun _ => sub') s1 i sub E2).
        -- rewrite E4. reflexivity.
        -- by apply AddSubSection_path_Name in E3.
Qed.

(** *** [AddProperty] *)

Lemma AddProperty_path_cons a b rest property s :
  AddProperty_path (a :: b :: rest) property s =
    if HasProperty_path (a :: b :: rest) s then s
    else
      match AddSubSection_here a s with
      | (s1, Some i) => alter_nested (AddProperty_path (b :: rest) property) i s1
      | (s1, None) => s1
      end.
Proof.
  change (AddProperty_path (a :: b :: rest) property s) with
    (if HasProperty_path (a :: b :: rest) s then s
     else if negb (HasSubSection_here a s) then
       match AddSubSection_here a s with
       | (s1, Some i) => alter_nested (AddProperty_path (b :: rest) property) i s1
       | (s1, None) => s1
       end
     else
       match GetSubSection_here a s with
       | Some (i, _) => alter_nested (AddProperty_path (b :: rest) property) i s
       | None => s
       end).
  destruct (HasProperty_path (a :: b :: rest) s); [done|].
  destruct (HasSubSection_here a s) eqn:Hh; simpl; [|done].
  destruct (HasSubSection_here_true _ _ Hh) as (i & sub & E).
  by rewrite E, (AddSubSection_here_old _ _ _ _ E).
Qed.

Lemma AddProperty_path_has segs property s :
  HasProperty_path segs s = true -> AddProperty_path segs property s = s.
Proof.
  destruct segs as [|a [|b rest]]; [done | | by rewrite AddProperty_path_cons; intros ->].
  simpl. intros ->. by case_bool_decide.
Qed.

Lemma AddProperty_path_Name segs property s :
  Name (AddProperty_path segs property s) = Name s.
Proof.
  destruct segs as [|a [|b rest]]; [done | |].
  - simpl. case_bool_decide; [done|]. by destruct (HasProperty_here a s).
  - rewrite AddProperty_path_cons. destruct (HasProperty_path _ s); [done|].
    destruct (AddSubSection_here a s) as [s1 [i|]] eqn:E; simpl;
      by eapply AddSubSection_here_Name.
Qed.

Lemma HasProperty_path_new segs name : HasProperty_path segs (new name) = false.
Proof.
  destruct segs as [|a [|b rest]]; [done | |].
  - simpl. unfold HasProperty_here. by case_bool_decide.
  - rewrite HasProperty_path_cons. unfold GetSubSection_here. by case_bool_decide.
Qed.

Lemma Get_here_push name property s :
  name <> [] -> HasProperty_here name s = false ->
  BgeConfigProperty.Name property = name ->
  Get_here name (push_property property s) = Some property.
Proof.
  intros Hn Hh Hp. apply HasProperty_here_false in Hh; [|done].
  unfold Get_here. rewrite bool_decide_eq_false_2 by done.
  unfold GetPropertyIterator in *; simpl.
  by rewrite (find_name_snoc_fresh _ _ _ _ Hh Hp).
Qed.

(** The property a first insertion stores: the argument, renamed to the
    last segment of the path. *)
Lemma AddProperty_path_proper segs property s :
  segs <> [] -> Forall (fun seg => seg <> []) segs ->
  HasProperty_path segs s = false ->
  Get_path segs (AddProperty_path segs property s) =
    Some (BgeConfigProperty.set_Name (List.last segs []) property).
Proof.
  revert s. induction segs as [|a [|b rest] IH]; intros s Hne Hall Hh; [done| |].
  - apply Forall_cons in Hall as [Ha _]. simpl in *.
    rewrite bool_decide_eq_false_2 by done. rewrite Hh.
    by apply Get_here_push.
  - apply Forall_cons in Hall as [Ha Hall].
    rewrite AddProperty_path_cons, Hh.
    destruct (AddSubSection_here_proper a s Ha) as (s1 & i & sub & E1 & E2 & Hs1).
    rewrite E1, Get_path_cons.
    rewrite (GetSubSection_here_alter a _ s1 i sub E2)
      by apply AddProperty_path_Name.
    change (List.last (a :: b :: rest) []) with (List.last (b :: rest) []).
    apply IH; [done | done |].
    destruct Hs1 as [-> | (_ & _ & -> & _)]; [|apply HasProperty_path_new].
    rewrite HasProperty_path_cons, E2 in Hh. done.
Qed.

(** *** The invariant of unique names *)

Lemma unique_names_unfold s :
  unique_names s <->
  NoDup (BgeConfigProperty.Name <$> mProperties s) /\
  NoDup (Name <$> mNestedSections s) /\
  Forall unique_names (mNestedSections s).
Proof.
  destruct s as [name nested properties]; simpl.
  assert (fold_right (fun sub rest => unique_names sub /\ rest) True nested
          <-> Forall unique_names nested) as ->; [|done].
  induction nested as [|x l IH]; simpl.
  - split; [by constructor | done].
  - rewrite Forall_cons, IH. done.
Qed.

Lemma unique_names_new name : unique_names (new name).
Proof. simpl. split_and!; [constructor.. | done]. Qed.

Lemma unique_names_nested s i sub :
  unique_names s -> mNestedSections s !! i = Some sub -> unique_names sub.
Proof.
  intros (_ & _ & H)%unique_names_unfold Hi.
  by eapply Forall_lookup_1 in H.
Qed.

Lemma unique_names_push_section name s :
  unique_names s -> name <> [] -> HasSubSection_here name s = false ->
  unique_names (push_section (new name) s).
Proof.
  intros (H1 & H2 & H3)%unique_names_unfold Hn Hh.
  apply unique_names_unfold; simpl. split_and!; [done | |].
  - rewrite fmap_app. apply NoDup_app. split_and!; [done | | apply NoDup_singleton].
    intros x Hx Hx'%list_elem_of_singleton. simpl in Hx'. subst x.
    apply HasSubSection_here_false in Hh.
    unfold GetSubSection_here in Hh. rewrite bool_decide_eq_false_2 in Hh by done.
    by apply find_name_None in Hh.
  - apply Forall_app. split; [done|]. apply Forall_singleton, unique_names_new.
Qed.

Lemma unique_names_alter_nested f s i sub :
  unique_names s -> mNestedSections s !! i = Some sub ->
  Name (f sub) = Name sub -> unique_names (f sub) ->
  unique_names (alter_nested f i s).
Proof.
  intros (H1 & H2 & H3)%unique_names_unfold Hi Hf Hu.
  apply unique_names_unfold; simpl. split_and!; [done | |].
  - by rewrite (fmap_alter_name Name f _ i sub).
  - apply Forall_lookup. intros j y Hj.
    destruct (decide (i = j)) as [->|Hij].
    + rewrite list_lookup_alter_eq, Hi in Hj. by simplify_eq/=.
    + rewrite list_lookup_alter_ne in Hj by done.
      by eapply Forall_lookup_1 in H3.
Qed.

Lemma unique_names_push_property property s :
  unique_names s ->
  GetPropertyIterator (BgeConfigProperty.Name property) s = None ->
  unique_names (push_property property s).
Proof.
  intros (H1 & H2 & H3)%unique_names_unfold Hh.
  apply unique_names_unfold; simpl. split_and!; [|done..].
  rewrite fmap_app. apply NoDup_app. split_and!; [done | | apply NoDup_singleton].
  intros x Hx Hx'%list_elem_of_singleton. simpl in Hx'. subst x.
  by apply find_name_None in Hh.
Qed.

Lemma AddSubSection_here_unique a s s1 r :
  unique_names s -> AddSubSection_here a s = (s1, r) -> unique_names s1.
Proof.
  intros Hu. unfold AddSubSection_here. case_bool_decide; [by intros [= <- _]|].
  destruct (HasSubSection_here a s) eqn:Hh; intros [= <- _]; [done|].
  by apply unique_names_push_section.
Qed.

Lemma AddSubSection_path_unique segs s s1 p :
  unique_names s -> AddSubSection_path segs s = Ret (s1, p) -> unique_names s1.
Proof.
  revert s s1 p. induction segs as [|a [|b rest] IH]; intros s s1 p Hu.
  - simpl. by intros [= <- _].
  - simpl. destruct (AddSubSection_here a s) as [s' r] eqn:E.
    intros [= <- _]. by eapply AddSubSection_here_unique.
  - rewrite AddSubSection_path_cons.
    destruct (HasSubSection_path _ s); [by intros [= <- _]|].
    destruct (AddSubSection_here a s) as [s' [i|]] eqn:E; [|by null_call E].
    destruct (mNestedSections s' !! i) as [sub|] eqn:Hi; [|done].
    destruct (AddSubSection_path (b :: rest) sub) as [[sub' p']| |] eqn:E'; [|done..].
    intros [= <- _].
    pose proof (AddSubSection_here_unique _ _ _ _ Hu E) as Hu'.
    eapply unique_names_alter_nested; [done | done | |].
    + by apply AddSubSection_path_Name in E'.
    + eapply IH; [|done]. by eapply unique_names_nested.
Qed.

Lemma AddProperty_path_unique segs property s :
  unique_names s -> unique_names (AddProperty_path segs property s).
Proof.
  revert s. induction segs as [|a [|b rest] IH]; intros s Hu; [done| |].
  - simpl. case_bool_decide; [done|].
    destruct (HasProperty_here a s) eqn:Hh; [done|].
    apply unique_names_push_property; [done|]. simpl.
    by apply HasProperty_here_false.
  - rewrite AddProperty_path_cons. destruct (HasProperty_path _ s); [done|].
    destruct (AddSubSection_here a s) as [s1 [i|]] eqn:E;
      pose proof (AddSubSection_here_unique _ _ _ _ Hu E) as Hu'; [|done].
    destruct (mNestedSections s1 !! i) as [sub|] eqn:Hi.
    + eapply unique_names_alter_nested; [done | done | |].
      * apply AddProperty_path_Name.
      * apply IH. by eapply unique_names_nested.
    + unfold alter_nested.
      assert (alter (AddProperty_path (b :: rest) property) i (mNestedSections s1)
              = mNestedSections s1) as ->.
      { apply list_eq. intros j. destruct (decide (i = j)) as [->|].
        - by rewrite list_lookup_alter_eq, Hi.
        - by rewrite list_lookup_alter_ne. }
      by destruct s1.
Qed.

(** *** Counting the entries of a name *)

Lemma count_sections_has segs s :
  HasSubSection_path segs s = true -> (1 <= count_sections segs s)%nat.
Proof.
  revert s. induction segs as [|a [|b rest] IH]; intros s; [done| |].
  - simpl. intros (i & sub & E)%HasSubSection_here_true.
    unfold GetSubSection_here in E. case_bool_decide; [done|].
    by eapply count_name_ge_1.
  - rewrite HasSubSection_path_cons.
    change (count_sections (a :: b :: rest) s) with
      (match GetSubSection_here a s with
       | Some (_, sub) => count_sections (b :: rest) sub
       | None => 0%nat
       end).
    destruct (GetSubSection_here a s) as [[i sub]|]; [apply IH | done].
Qed.

Lemma count_sections_unique segs s :
  unique_names s -> (count_sections segs s <= 1)%nat.
Proof.
  revert s. induction segs as [|a [|b rest] IH]; intros s Hu; [simpl; lia| |].
  - simpl. apply count_name_le_1. by apply unique_names_unfold in Hu as (_ & ? & _).
  - change (count_sections (a :: b :: rest) s) with
      (match GetSubSection_here a s with
       | Some (_, sub) => count_sections (b :: rest) sub
       | None => 0%nat
       end).
    destruct (GetSubSection_here a s) as [[i sub]|] eqn:E; [|lia].
    apply IH. apply GetSubSection_here_Some in E as (_ & _ & Hi & _).
    by eapply unique_names_nested.
Qed.

Lemma count_properties_has segs s :
  HasProperty_path segs s = true -> (1 <= count_properties segs s)%nat.
Proof.
  revert s. induction segs as [|a [|b rest] IH]; intros s; [done| |].
  - simpl. intros (i & p & E & _)%HasProperty_here_true.
    by eapply count_name_ge_1.
  - rewrite HasProperty_path_cons.
    change (count_properties (a :: b :: rest) s) with
      (match GetSubSection_here a s with
       | Some (_, sub) => count_properties (b :: rest) sub
       | None => 0%nat
       end).
    destruct (GetSubSection_here a s) as [[i sub]|]; [apply IH | done].
Qed.

Lemma count_properties_unique segs s :
  unique_names s -> (count_properties segs s <= 1)%nat.
Proof.
  revert s. induction segs as [|a [|b rest] IH]; intros s Hu; [simpl; lia| |].
  - simpl. apply count_name_le_1. by apply unique_names_unfold in Hu as (? & _).
  - change (count_properties (a :: b :: rest) s) with
      (match GetSubSection_here a s with
       | Some (_, sub) => count_properties (b :: rest) sub
       | None => 0%nat
       end).
    destruct (GetSubSection_here a s) as [[i sub]|] eqn:E; [|lia].
    apply IH. apply GetSubSection_here_Some in E as (_ & _ & Hi & _).
    by eapply unique_names_nested.
Qed.

End SectionFacts.

(** ** The document as the root section

    The member functions of [BgeConfig] repeat those of [BgeConfigSection]
    on the two vectors of the document. *)

Module DocumentFacts.
Import SectionFacts.

Lemma of_as_section cfg : of_section (as_section cfg) = cfg.
Proof. by destruct cfg. Qed.

Lemma HasSection_path_section segs cfg :
  BgeConfig.HasSection_path segs cfg =
  BgeConfigSection.HasSubSection_path segs (as_section cfg).
Proof. by destruct segs as [|a [|b rest]]. Qed.

Lemma GetSection_path_section segs cfg :
  BgeConfig.GetSection_path segs cfg =
  BgeConfigSection.GetSubSection_path segs (as_section cfg).
Proof. by destruct segs as [|a [|b rest]]. Qed.

Lemma HasProperty_path_section segs cfg :
  BgeConfig.HasProperty_path segs cfg =
  BgeConfigSection.HasProperty_path segs (as_section cfg).
Proof. by destruct segs as [|a [|b rest]]. Qed.

Lemma Get_path_section segs cfg :
  BgeConfig.Get_path segs cfg =
  BgeConfigSection.Get_path segs (as_section cfg).
Proof. by destruct segs as [|a [|b rest]]. Qed.

Lemma AddSection_here_section a cfg :
  BgeConfig.AddSection_here a cfg =
    (of_section (BgeConfigSection.AddSubSection_here a (as_section cfg)).1,
     (BgeConfigSection.AddSubSection_here a (as_section cfg)).2).
Proof.
  unfold BgeConfig.AddSection_here, BgeConfigSection.AddSubSection_here.
  case_bool_decide; [by destruct cfg|].
  change (BgeConfigSection.HasSubSection_here a (as_section cfg))
    with (BgeConfig.HasSection_here a cfg).
  destruct (BgeConfig.HasSection_here a cfg); [by destruct cfg | done].
Qed.

Lemma AddSection_path_section segs cfg :
  BgeConfig.AddSection_path segs cfg =
    match BgeConfigSection.AddSubSection_path segs (as_section cfg) with
    | Ret (s, p) => Ret (of_section s, p)
    | Throw e => Throw e
    | NullDeref => NullDeref
    end.
Proof.
  destruct segs as [|a [|b rest]].
  - by destruct cfg.
  - simpl. rewrite AddSection_here_section.
    by destruct (BgeConfigSection.AddSubSection_here a (as_section cfg)).
  - rewrite AddSubSection_path_cons.
    unfold BgeConfig.AddSection_path.
    rewrite HasSection_path_section, GetSection_path_section.
    destruct (BgeConfigSection.HasSubSection_path _ _); [by destruct cfg|].
    rewrite AddSection_here_section.
    destruct (BgeConfigSection.AddSubSection_here a (as_section cfg))
      as [s1 [i|]]; cbn [fst snd];
      [|by destruct (BgeConfigSection.AddSubSection_null (b :: rest))].
    change (BgeConfig.mSections (of_section s1))
      with (BgeConfigSection.mNestedSections s1).
    destruct (BgeConfigSection.mNestedSections s1 !! i) as [sub|]; [|done].
    by destruct (BgeConfigSection.AddSubSection_path (b :: rest) sub) as [[sub' p]| |].
Qed.

Lemma AddProperty_path_section segs property cfg :
  BgeConfig.AddProperty_path segs property cfg =
  of_section (BgeConfigSection.AddProperty_path segs property (as_section cfg)).
Proof.
  destruct segs as [|a [|b rest]].
  - by destruct cfg.
  - simpl. case_bool_decide; [by destruct cfg|].
    change (BgeConfigSection.HasProperty_here a (as_section cfg))
      with (BgeConfig.HasProperty_here a cfg).
    destruct (BgeConfig.HasProperty_here a cfg); [by destruct cfg | done].
  - rewrite AddProperty_path_cons.
    unfold BgeConfig.AddProperty_path. rewrite HasProperty_path_section.
    destruct (BgeConfigSection.HasProperty_path _ _); [by destruct cfg|].
    change (BgeConfig.HasSection_here a cfg)
      with (BgeConfigSection.HasSubSection_here a (as_section cfg)).
    change (BgeConfig.GetSection_here a cfg)
      with (BgeConfigSection.GetSubSection_here a (as_section cfg)).
    rewrite AddSection_here_section.
    destruct (BgeConfigSection.HasSubSection_here a (as_section cfg)) eqn:Hh;
      cbn [negb fst snd].
    + destruct (HasSubSection_here_true _ _ Hh) as (i & sub & E).
      rewrite E, (AddSubSection_here_old _ _ _ _ E). by destruct cfg.
    + by destruct (BgeConfigSection.AddSubSection_here a (as_section cfg)) as [s1 [i|]].
Qed.

Lemma as_section_of_section s :
  as_section (of_section s) =
  BgeConfigSection.mk [] (BgeConfigSection.mNestedSections s)
    (BgeConfigSection.mProperties s).
Proof. reflexivity. Qed.

End DocumentFacts.

(** ** Inserting twice *)

Lemma split_path_nonempty name : split_path name <> [].
Proof.
  destruct name as [|c rest]; [done|]. simpl.
  destruct (chr_eqb c "."); [done|]. by destruct (split_path rest).
Qed.

Lemma proper_path_Forall name :
  proper_path name = true -> Forall (fun seg => seg <> []) (split_path name).
Proof.
  unfold proper_path. rewrite forallb_forall, Forall_forall.
  intros H seg Hin ->. apply list_elem_of_In, H in Hin.
  by rewrite bool_decide_eq_true_2 in Hin.
Qed.

Lemma as_section_of_section_root s :
  BgeConfigSection.Name s = [] -> as_section (of_section s) = s.
Proof. destruct s; simpl. by intros ->. Qed.

Section insert_twice.
Import SectionFacts DocumentFacts.
Variable path : std_string.
Hypothesis Hpath : proper_path path = true.

Lemma section_AddProperty_twice s property property' :
  unique_names s ->
  let s1 := BgeConfigSection.AddProperty path property s in
  BgeConfigSection.AddProperty path property' s1 = s1 /\
  count_properties (split_path path) s1 = 1%nat /\
  unique_names s1 /\
  (BgeConfigSection.HasProperty path s = true -> s1 = s) /\
  (BgeConfigSection.HasProperty path s = false ->
   BgeConfigSection.Get path s1 =
     Some (BgeConfigProperty.set_Name (last_segment path) property)).
Proof.
  intros Hu s1. subst s1.
  unfold BgeConfigSection.AddProperty, BgeConfigSection.HasProperty,
    BgeConfigSection.Get, last_segment.
  pose proof (split_path_nonempty path) as Hne.
  pose proof (proper_path_Forall _ Hpath) as Hall.
  set (segs := split_path path) in *.
  assert (BgeConfigSection.HasProperty_path segs
            (BgeConfigSection.AddProperty_path segs property s) = true) as Hhas.
  { destruct (BgeConfigSection.HasProperty_path segs s) eqn:Hh.
    - by rewrite AddProperty_path_has.
    - apply HasProperty_path_Get. rewrite AddProperty_path_proper by done.
      by eexists. }
  pose proof (AddProperty_path_unique segs property s Hu) as Hu1.
  split_and!.
  - by apply AddProperty_path_has.
  - pose proof (count_properties_has _ _ Hhas).
    pose proof (count_properties_unique segs _ Hu1). lia.
  - done.
  - apply AddProperty_path_has.
  - by apply AddProperty_path_proper.
Qed.

Lemma section_AddProperty_present s property :
  BgeConfigSection.HasProperty path (BgeConfigSection.AddProperty path property s) = true.
Proof.
  unfold BgeConfigSection.AddProperty, BgeConfigSection.HasProperty.
  pose proof (split_path_nonempty path) as Hne.
  pose proof (proper_path_Forall _ Hpath) as Hall.
  set (segs := split_path path) in *.
  destruct (BgeConfigSection.HasProperty_path segs s) eqn:Hh.
  - by rewrite AddProperty_path_has.
  - apply HasProperty_path_Get. rewrite AddProperty_path_proper by done.
    by eexists.
Qed.

Lemma section_AddSubSection_twice s :
  unique_names s ->
  exists s1 p,
    BgeConfigSection.AddSubSection path s = Ret (s1, Some p) /\
    BgeConfigSection.AddSubSection path s1 = Ret (s1, Some p) /\
    BgeConfigSection.GetSubSection path s1 = Some p /\
    count_sections (split_path path) s1 = 1%nat /\
    unique_names s1 /\
    BgeConfigSection.Name s1 = BgeConfigSection.Name s.
Proof.
  intros Hu.
  unfold BgeConfigSection.AddSubSection, BgeConfigSection.GetSubSection.
  pose proof (split_path_nonempty path) as Hne.
  pose proof (proper_path_Forall _ Hpath) as Hall.
  set (segs := split_path path) in *.
  destruct (AddSubSection_path_proper segs s Hne Hall) as (s1 & p & E1 & E2).
  assert (BgeConfigSection.HasSubSection_path segs s1 = true) as Hhas
    by (apply HasSubSection_path_Get; by eexists).
  pose proof (AddSubSection_path_unique _ _ _ _ Hu E1) as Hu1.
  exists s1, p. split_and!; [done | | done | | done |].
  - by rewrite AddSubSection_path_has, E2.
  - pose proof (count_sections_has _ _ Hhas).
    pose proof (count_sections_unique segs _ Hu1). lia.
  - by eapply AddSubSection_path_Name.
Qed.

Lemma document_AddProperty_twice cfg property property' :
  unique_names (as_section cfg) ->
  let cfg1 := BgeConfig.AddProperty path property cfg in
  BgeConfig.AddProperty path property' cfg1 = cfg1 /\
  count_properties (split_path path) (as_section cfg1) = 1%nat /\
  unique_names (as_section cfg1) /\
  (BgeConfig.HasProperty path cfg = true -> cfg1 = cfg) /\
  (BgeConfig.HasProperty path cfg = false ->
   BgeConfig.Get path cfg1 =
     Some (BgeConfigProperty.set_Name (last_segment path) property)).
Proof.
  intros Hu cfg1. subst cfg1.
  unfold BgeConfig.AddProperty, BgeConfig.HasProperty, BgeConfig.Get.
  rewrite !AddProperty_path_section, HasProperty_path_section, Get_path_section.
  destruct (section_AddProperty_twice (as_section cfg) property property' Hu)
    as (H1 & H2 & H3 & H4 & H5).
  unfold BgeConfigSection.AddProperty, BgeConfigSection.HasProperty,
    BgeConfigSection.Get in *.
  rewrite !as_section_of_section_root by (by rewrite AddProperty_path_Name).
  split_and!; [by rewrite H1 | done | done | |done].
  intros Hh. rewrite (H4 Hh). apply of_as_section.
Qed.

Lemma document_AddSection_twice cfg :
  unique_names (as_section cfg) ->
  exists cfg1 p,
    BgeConfig.AddSection path cfg = Ret (cfg1, Some p) /\
    BgeConfig.AddSection path cfg1 = Ret (cfg1, Some p) /\
    BgeConfig.GetSection path cfg1 = Some p /\
    count_sections (split_path path) (as_section cfg1) = 1%nat /\
    unique_names (as_section cfg1).
Proof.
  intros Hu.
  destruct (section_AddSubSection_twice (as_section cfg) Hu)
    as (s1 & p & H1 & H2 & H3 & H4 & H5 & H6).
  exists (of_section s1), p.
  unfold BgeConfig.AddSection, BgeConfig.GetSection.
  unfold BgeConfigSection.AddSubSection, BgeConfigSection.GetSubSection in *.
  rewrite !AddSection_path_section, GetSection_path_section.
  rewrite !as_section_of_section_root by done.
  rewrite H1, H2. done.
Qed.

End insert_twice.


(** ** Section headers *)

Lemma is_header_brackets name :
  BgeConfig.is_header (lit "[" ++ name ++ lit "]") = Ret true.
Proof.
  unfold BgeConfig.is_header, at_; simpl.
  rewrite length_app, Nat.add_1_r; simpl.
  rewrite lookup_app_r by lia.
  by rewrite Nat.sub_diag.
Qed.

Lemma substr_brackets name :
  substr (lit "[" ++ name ++ lit "]") 1
    (length (lit "[" ++ name ++ lit "]") - 2) = name.
Proof.
  unfold substr; simpl. rewrite length_app, Nat.add_1_r; simpl.
  rewrite Nat.sub_0_r. unfold drop. by rewrite take_app_length.
Qed.

Lemma StringTrimComment_whole_line_comment line :
  str_eqb (substr line 0 2) (lit "//") = true -> StringTrimComment line = [].
Proof.
  unfold str_eqb. intros H%bool_decide_eq_true.
  destruct line as [|c [|c' rest]]; try done.
  unfold substr in H; simpl in H. by simplify_eq/=.
Qed.

Lemma GetSubSection_path_names segs s p :
  BgeConfigSection.GetSubSection_path segs s = Some p ->
  section_names_along p s = Some segs.
Proof.
  revert s p. induction segs as [|a [|b rest] IH]; intros s p; [done| |].
  - simpl. destruct (BgeConfigSection.GetSubSection_here a s) as [[i sub]|] eqn:E; [|done].
    intros [= <-]. apply SectionFacts.GetSubSection_here_Some in E as (_ & _ & Hi & <-).
    simpl. by rewrite Hi.
  - rewrite SectionFacts.GetSubSection_path_cons.
    destruct (BgeConfigSection.GetSubSection_here a s) as [[i sub]|] eqn:E; [|done].
    destruct (BgeConfigSection.GetSubSection_path (b :: rest) sub) as [p'|] eqn:E'; [|done].
    intros [= <-]. apply SectionFacts.GetSubSection_here_Some in E as (_ & _ & Hi & <-).
    simpl. rewrite Hi. by rewrite (IH _ _ E').
Qed.

Lemma AddSubSection_path_properties segs s s1 p :
  BgeConfigSection.AddSubSection_path segs s = Ret (s1, p) ->
  BgeConfigSection.mProperties s1 = BgeConfigSection.mProperties s.
Proof.
  assert (forall a s s1 r, BgeConfigSection.AddSubSection_here a s = (s1, r) ->
            BgeConfigSection.mProperties s1 = BgeConfigSection.mProperties s) as Hhere.
  { intros a s0 s2 r. unfold BgeConfigSection.AddSubSection_here.
    case_bool_decide; [by intros [= <- _]|].
    destruct (BgeConfigSection.HasSubSection_here a s0); by intros [= <- _]. }
  destruct segs as [|a [|b rest]].
  - simpl. by intros [= <- _].
  - simpl. destruct (BgeConfigSection.AddSubSection_here a s) as [s' r] eqn:E.
    intros [= <- _]. by eapply Hhere.
  - rewrite SectionFacts.AddSubSection_path_cons.
    destruct (BgeConfigSection.HasSubSection_path _ s); [by intros [= <- _]|].
    destruct (BgeConfigSection.AddSubSection_here a s) as [s' [i|]] eqn:E; [|by SectionFacts.null_call E].
    destruct (BgeConfigSection.mNestedSections s' !! i) as [sub|]; [|done].
    destruct (BgeConfigSection.AddSubSection_path (b :: rest) sub) as [[sub' p']| |]; [|done..].
    intros [= <- _]. simpl. by eapply Hhere.
Qed.

(** What the loop body does on a header line: [AddSection] on the text
    between the brackets, which already returns the section that exists. *)
Lemma Open_line_header line name cfg currentSection :
  StringTrimLeading (StringTrimComment line) = lit "[" ++ name ++ lit "]" ->
  BgeConfig.Open_line line (cfg, currentSection) = BgeConfig.AddSection name cfg.
Proof.
  intros Hclean. unfold BgeConfig.Open_line.
  destruct line as [|c0 rest0]; [done|].
  change (length (c0 :: rest0) <? 1)%nat with false. cbv iota.
  destruct (str_eqb (substr (c0 :: rest0) 0 2) (lit "//")) eqn:Hc.
  { apply StringTrimComment_whole_line_comment in Hc. by rewrite Hc in Hclean. }
  rewrite Hclean, is_header_brackets. cbn [mbind outcome_bind].
  rewrite substr_brackets.
  unfold BgeConfig.HasSection, BgeConfig.GetSection, BgeConfig.AddSection.
  destruct (BgeConfig.HasSection_path (split_path name) cfg) eqn:Hh; [|done].
  cbn [negb]. rewrite DocumentFacts.AddSection_path_section.
  rewrite DocumentFacts.HasSection_path_section in Hh.
  rewrite SectionFacts.AddSubSection_path_has by done.
  by rewrite DocumentFacts.GetSection_path_section, DocumentFacts.of_as_section.
Qed.

Lemma C2_header_splits_on_dots_cex :
  BgeConfig.Open (BgeFile.mk true [lit "[General.Editor]"; lit "X = 1"]) BgeConfig.new
    = Ret (BgeConfig.mk []
        [BgeConfigSection.mk (lit "General")
           [BgeConfigSection.mk (lit "Editor") []
              [BgeConfigProperty.mk INT (lit "X") (lit "1") 1 0%fp false]] []]) /\
  BgeConfig.Open_line (lit "[General.Editor]") (dotted_root_section, None)
    = Ret (BgeConfig.mk []
        [BgeConfigSection.new (lit "General.Editor");
         BgeConfigSection.mk (lit "General") [BgeConfigSection.new (lit "Editor")] []],
        Some [1; 0]%nat).
Proof. split; vm_compute; reflexivity. Qed.

(** C2 (amended). On a line whose cleaned form is ["[name]"], where no
    segment of [name] is empty, the loop resolves [name] as a dotted path
    from the document root: the current section becomes the section that
    [GetSection(name)] finds afterwards, reached through sections that bear
    the segments of [name] in order, one level per segment; a section that
    exists is reused and the tree is unchanged then, and the properties of
    the root are never touched. *)
Theorem C2_header_is_resolved_as_dotted_path
    (line name : std_string) (cfg : BgeConfig.t) (currentSection : option ptr) :
  StringTrimLeading (StringTrimComment line) = lit "[" ++ name ++ lit "]" ->
  proper_path name = true ->
  exists cfg' p,
    BgeConfig.Open_line line (cfg, currentSection) = Ret (cfg', Some p) /\
    BgeConfig.GetSection name cfg' = Some p /\
    section_names_along p (as_section cfg') = Some (split_path name) /\
    length p = length (split_path name) /\
    BgeConfig.mProperties cfg' = BgeConfig.mProperties cfg /\
    (BgeConfig.HasSection name cfg = true -> cfg' = cfg).
Proof.
  intros Hclean Hpath.
  rewrite (Open_line_header line name cfg currentSection Hclean).
  unfold BgeConfig.AddSection, BgeConfig.GetSection, BgeConfig.HasSection.
  rewrite DocumentFacts.AddSection_path_section.
  destruct (SectionFacts.AddSubSection_path_proper (split_path name) (as_section cfg))
    as (s1 & p & E1 & E2);
    [apply split_path_nonempty | by apply proper_path_Forall |].
  pose proof (SectionFacts.AddSubSection_path_Name _ _ _ _ E1) as HN.
  pose proof (GetSubSection_path_names _ _ _ E2) as Hnames.
  exists (of_section s1), p. rewrite E1.
  rewrite DocumentFacts.GetSection_path_section.
  rewrite as_section_of_section_root by done.
  split_and!; [done | done | done | | |].
  - clear -Hnames. revert s1 Hnames. generalize (split_path name) as segs.
    induction p as [|i p IH]; intros segs s1; simpl.
    + by intros [= <-].
    + destruct (BgeConfigSection.mNestedSections s1 !! i) as [sub|]; [|done].
      destruct (section_names_along p sub) as [names|] eqn:E; [|done].
      intros [= <-]. simpl. f_equal. by eapply IH.
  - simpl. by apply AddSubSection_path_properties in E1.
  - rewrite DocumentFacts.HasSection_path_section. intros Hh.
    rewrite SectionFacts.AddSubSection_path_has in E1 by done.
    simplify_eq. apply DocumentFacts.of_as_section.
Qed.

Lemma C2_header_is_resolved_as_dotted_path_witness :
  exists cfg' p,
    BgeConfig.Open_line (lit "  [General.Editor] // editor") (BgeConfig.new, None)
      = Ret (cfg', Some p) /\
    BgeConfig.GetSection (lit "General.Editor") cfg' = Some p /\
    section_names_along p (as_section cfg') = Some [lit "General"; lit "Editor"] /\
    length p = 2%nat /\
    BgeConfig.mProperties cfg' = [] /\
    (BgeConfig.HasSection (lit "General.Editor") BgeConfig.new = true ->
     cfg' = BgeConfig.new).
Proof.
  apply (C2_header_is_resolved_as_dotted_path
           (lit "  [General.Editor] // editor") (lit "General.Editor")
           BgeConfig.new None); reflexivity.
Defined.

(** C1 (evaluation of the code at the claim's example, and on every state).
    The line ["[SECTIONEND]"] is taken as a section header: [Open] creates a
    root section named [SECTIONEND] and makes it the current section, so [B]
    is stored under it and the document root has no property [B]; the token
    of the README, ["[ENDSECTION]"], fares the same. From any state the line
    leaves a non-null current section and a section of that name. *)
Theorem C1_section_end_opens_a_section :
  (exists cfg,
     BgeConfig.Open sentinel_file BgeConfig.new = Ret cfg /\
     BgeConfigProperty.IntValue <$> BgeConfig.Get (lit "General.A") cfg = Some 1 /\
     BgeConfig.HasSection (lit "SECTIONEND") cfg = true /\
     BgeConfig.HasProperty (lit "B") cfg = false /\
     BgeConfigProperty.IntValue <$> BgeConfig.Get (lit "SECTIONEND.B") cfg = Some 2) /\
  (exists cfg,
     BgeConfig.Open sentinel_file_readme BgeConfig.new = Ret cfg /\
     BgeConfig.HasProperty (lit "B") cfg = false /\
     BgeConfigProperty.IntValue <$> BgeConfig.Get (lit "ENDSECTION.B") cfg = Some 2) /\
  (forall cfg currentSection,
     exists cfg' p,
       BgeConfig.Open_line (lit "[SECTIONEND]") (cfg, currentSection)
         = Ret (cfg', Some p) /\
       BgeConfig.HasSection (lit "SECTIONEND") cfg' = true).
Proof.
  split_and!.
  - eexists. repeat split; vm_compute; reflexivity.
  - eexists. repeat split; vm_compute; reflexivity.
  - intros cfg currentSection.
    rewrite (Open_line_header _ (lit "SECTIONEND")) by reflexivity.
    unfold BgeConfig.AddSection, BgeConfig.HasSection.
    rewrite DocumentFacts.AddSection_path_section.
    destruct (SectionFacts.AddSubSection_path_proper
                (split_path (lit "SECTIONEND")) (as_section cfg))
      as (s1 & p & E1 & E2); [done | by repeat constructor |].
    exists (of_section s1), p. rewrite E1. split; [done|].
    rewrite DocumentFacts.HasSection_path_section.
    rewrite as_section_of_section_root
      by (by apply SectionFacts.AddSubSection_path_Name in E1).
    apply SectionFacts.HasSubSection_path_Get. by eexists.
Qed.

(** ** Cleaning a line *)

Lemma StringTrimComment_app_no_slash a b :
  Forall (fun c => c <> "/"%char) a ->
  StringTrimComment (a ++ b) = a ++ StringTrimComment b.
Proof.
  induction a as [|c a IH]; [done|]. intros [Hc Ha]%Forall_cons.
  change ((c :: a) ++ b) with (c :: (a ++ b)).
  cbn [StringTrimComment]. rewrite IH by done.
  assert (chr_eqb c "/" = false) as -> by (by apply Ascii.eqb_neq).
  destruct (a ++ b) as [|c' r] eqn:E; [|done].
  apply app_eq_nil in E as [-> ->]. done.
Qed.

Lemma StringTrimComment_no_slash a :
  Forall (fun c => c <> "/"%char) a -> StringTrimComment a = a.
Proof.
  intros H. rewrite <- (app_nil_r a) at 1.
  rewrite StringTrimComment_app_no_slash by done. simpl. apply app_nil_r.
Qed.

Lemma find_first_not_of_None str :
  find_first_not_of whitespace6 str = None <-> forallb isspace str = true.
Proof.
  induction str as [|c r IH]; [done|].
  cbn [find_first_not_of forallb]. unfold isspace at 1.
  destruct (existsb (chr_eqb c) whitespace6); [|done].
  rewrite fmap_None. done.
Qed.

Lemma beginIdx_loop_spec pre c rest n :
  forallb trim_loop_char pre = true -> trim_loop_char c = false ->
  beginIdx_loop (pre ++ c :: rest) n = (n + length pre)%nat.
Proof.
  revert n. induction pre as [|x pre IH]; intros n Hpre Hc; simpl.
  - rewrite Hc. lia.
  - apply andb_prop in Hpre as [-> Hpre]. rewrite IH by done. lia.
Qed.

Lemma endIdx_loop_spec post c rest z :
  forallb trim_loop_char post = true -> trim_loop_char c = false ->
  endIdx_loop (post ++ c :: rest) z = z - Z.of_nat (length post).
Proof.
  revert z. induction post as [|x post IH]; intros z Hpost Hc; simpl.
  - rewrite Hc. lia.
  - apply andb_prop in Hpost as [-> Hpost]. rewrite IH by done. lia.
Qed.

(** [StringTrimLeading] removes the tabs, newlines and spaces around a
    trimmed text. *)
Lemma StringTrimLeading_spec pre core post :
  forallb trim_loop_char pre = true ->
  forallb trim_loop_char post = true ->
  trimmed core = true ->
  StringTrimLeading (pre ++ core ++ post) = core.
Proof.
  intros Hpre Hpost Hcore.
  destruct core as [|c core'] eqn:Ecore; [done|].
  unfold trimmed in Hcore.
  apply andb_prop in Hcore as [[Hsp Hc]%andb_prop Hl].
  apply negb_true_iff in Hsp, Hc, Hl. rewrite <- Ecore in *.
  unfold StringTrimLeading.
  destruct (find_first_not_of whitespace6 (pre ++ core ++ post)) eqn:Hf.
  2:{ apply find_first_not_of_None in Hf.
      rewrite !forallb_app in Hf. apply andb_prop in Hf as [_ [Hf _]%andb_prop].
      congruence. }
  assert (beginIdx_loop (pre ++ core ++ post) 0 = length pre) as ->.
  { rewrite Ecore. change ((c :: core') ++ post) with (c :: (core' ++ post)).
    by rewrite beginIdx_loop_spec. }
  assert (exists front, core = front ++ [List.last core c]) as [front Hfront].
  { rewrite Ecore. destruct (exists_last (l := c :: core')) as (front & x & E); [done|].
    exists front. rewrite E. by rewrite last_last. }
  assert (endIdx_loop (rev (pre ++ core ++ post))
            (Z.of_nat (length (pre ++ core ++ post)) - 1)
          = Z.of_nat (length (pre ++ core ++ post)) - 1 - Z.of_nat (length post)) as ->.
  { rewrite !rev_app_distr. rewrite Hfront at 1. rewrite rev_app_distr. simpl.
    rewrite <- !app_assoc. simpl.
    rewrite endIdx_loop_spec; [by rewrite length_rev | | done].
    rewrite forallb_forall in *. intros x Hx. apply Hpost. by apply in_rev. }
  rewrite !length_app.
  destruct (decide (length pre = 0%nat /\ length post = 0%nat)) as [[H1 H2]|Hne].
  - apply nil_length_inv in H1, H2. subst pre post. simpl.
    replace (Z.of_nat (length core + 0) - 1 - Z.of_nat 0)
      with (Z.of_nat (length core + 0) - 1) by lia.
    rewrite Z.eqb_refl. apply app_nil_r.
  - assert ((length pre =? 0)%nat &&
            (Z.of_nat (length pre + (length core + length post)) - 1
               - Z.of_nat (length post)
             =? Z.of_nat (length pre + (length core + length post)) - 1) = false) as ->.
    { apply andb_false_iff.
      destruct (length pre) eqn:E1; [right | by left].
      apply Z.eqb_neq. lia. }
    assert (Z.of_nat (length pre + (length core + length post)) - 1
              - Z.of_nat (length post) - Z.of_nat (length pre) + 1
            = Z.of_nat (length core)) as -> by lia.
    assert ((Z.of_nat (length core) <? 0) = false) as -> by (apply Z.ltb_ge; lia).
    rewrite Nat2Z.id. unfold substr.
    rewrite drop_app_length. by rewrite take_app_length.
Qed.

Lemma StringTrimLeading_trimmed core :
  trimmed core = true -> StringTrimLeading core = core.
Proof.
  intros H. pose proof (StringTrimLeading_spec [] core [] eq_refl eq_refl H) as E.
  simpl in E. by rewrite app_nil_r in E.
Qed.

Lemma find_last_of_absent c b :
  forallb (fun x => negb (chr_eqb x c)) b = true -> find_last_of c b = None.
Proof.
  induction b as [|x b IH]; [done|]. simpl.
  intros [Hx Hb]%andb_prop. rewrite IH by done.
  by apply negb_true_iff in Hx as ->.
Qed.

Lemma find_last_of_app c a b :
  forallb (fun x => negb (chr_eqb x c)) b = true ->
  find_last_of c (a ++ c :: b) = Some (length a).
Proof.
  intros Hb. induction a as [|x a IH]; simpl.
  - rewrite find_last_of_absent by done.
    unfold chr_eqb. by rewrite Ascii.eqb_refl.
  - by rewrite IH.
Qed.

Lemma StringTrimComment_cons c rest :
  StringTrimComment (c :: rest) =
    match rest with
    | c' :: _ => if chr_eqb c "/" && chr_eqb c' "/" then [] else c :: StringTrimComment rest
    | [] => [c]
    end.
Proof. reflexivity. Qed.

Lemma has_comment_start_cons c rest :
  has_comment_start (c :: rest) =
    match rest with
    | c' :: _ => (chr_eqb c "/" && chr_eqb c' "/") || has_comment_start rest
    | [] => false
    end.
Proof. reflexivity. Qed.

Lemma has_comment_start_StringTrimComment str :
  has_comment_start str = false -> StringTrimComment str = str.
Proof.
  induction str as [|c rest IH]; [done|].
  rewrite has_comment_start_cons, StringTrimComment_cons.
  destruct rest as [|c' r]; [done|].
  intros [-> H]%orb_false_iff. by rewrite IH.
Qed.

Lemma has_comment_start_head c str :
  chr_eqb c "/" = false -> has_comment_start (c :: str) = has_comment_start str.
Proof.
  intros H. rewrite has_comment_start_cons. destruct str as [|c' r]; [done|].
  by rewrite H.
Qed.

Lemma has_comment_start_last c str :
  chr_eqb c "/" = false -> has_comment_start (str ++ [c]) = has_comment_start str.
Proof.
  intros H. induction str as [|x str IH]; [done|].
  destruct str as [|y r].
  - simpl. by rewrite H, andb_false_r.
  - change ((x :: y :: r) ++ [c]) with (x :: (y :: r) ++ [c]).
    rewrite (has_comment_start_cons x ((y :: r) ++ [c])), IH.
    by rewrite (has_comment_start_cons x (y :: r)).
Qed.

Lemma StringTrimComment_head c rest :
  StringTrimComment (c :: rest) = [] \/
  exists t, StringTrimComment (c :: rest) = c :: t.
Proof.
  rewrite StringTrimComment_cons. destruct rest as [|c' r]; [by right; eexists|].
  destruct (chr_eqb c "/" && chr_eqb c' "/"); [by left | by right; eexists].
Qed.

Lemma StringTrimComment_decompose str :
  (exists rest,
     str = StringTrimComment str ++ rest /\
     (rest = [] \/ exists text, rest = lit "//" ++ text)) /\
  has_comment_start (StringTrimComment str) = false /\
  StringTrimComment (StringTrimComment str) = StringTrimComment str.
Proof.
  induction str as [|c rest (IHr & IHn & IHi)]; [by split_and!; [exists []; auto|..]|].
  rewrite StringTrimComment_cons. destruct rest as [|c' r].
  { split_and!; [exists []; auto | done..]. }
  destruct (chr_eqb c "/" && chr_eqb c' "/") eqn:E.
  - apply andb_true_iff in E as [->%Ascii.eqb_eq ->%Ascii.eqb_eq].
    split_and!; [|done..]. exists ("/" :: "/" :: r)%char. split; [done|].
    right. by exists r.
  - destruct IHr as (tail & Hs & Ht). split_and!.
    + exists tail. split; [|done]. rewrite <- app_comm_cons. f_equal. exact Hs.
    + destruct (StringTrimComment_head c' r) as [H0 | [t Ht']].
      * by rewrite H0.
      * rewrite has_comment_start_cons, Ht'. rewrite Ht' in IHn.
        rewrite IHn, orb_false_r. exact E.
    + destruct (StringTrimComment_head c' r) as [H0 | [t Ht']].
      * by rewrite H0.
      * rewrite StringTrimComment_cons, Ht'. rewrite Ht' in IHi. rewrite IHi.
        unfold chr_eqb in *. by rewrite E.
Qed.

Lemma StringTrimComment_no_comment str :
  has_comment_start (StringTrimComment str) = false.
Proof. by destruct (StringTrimComment_decompose str) as (_ & ? & _). Qed.

(** ** Decimal digits *)

Lemma not_digit_false c :
  not_digit c = false -> In c (lit "0123456789").
Proof.
  destruct c as [[] [] [] [] [] [] [] []]; vm_compute; intros H;
    first [discriminate H | tauto].
Qed.

Lemma digit_safe c :
  In c (lit "-0123456789") ->
  isspace c = false /\ chr_eqb c "=" = false /\ chr_eqb c "/" = false /\
  chr_eqb c "010" = false /\ BgeConfig.is_quote c = false /\
  trim_loop_char c = false /\ ~ In c (lit "TtFf").
Proof.
  intros H. repeat (destruct H as [<-|H]; [vm_compute; intuition discriminate|]).
  destruct H.
Qed.

Lemma digit_char_spec d :
  0 <= d < 10 -> not_digit (digit_char d) = false /\ digit_val (digit_char d) = d.
Proof.
  intros H.
  assert (d = 0 \/ d = 1 \/ d = 2 \/ d = 3 \/ d = 4 \/ d = 5 \/ d = 6 \/ d = 7 \/
          d = 8 \/ d = 9) as Hd by lia.
  repeat (destruct Hd as [-> | Hd]; [by vm_compute|]). subst. by vm_compute.
Qed.

Lemma digits_of_digits fuel n acc :
  0 <= n -> Forall (fun c => not_digit c = false) acc ->
  Forall (fun c => not_digit c = false) (digits_of fuel n acc).
Proof.
  revert n acc. induction fuel as [|fuel IH]; intros n acc Hn Hacc; [done|].
  simpl.
  assert (Forall (fun c => not_digit c = false) (digit_char (n mod 10) :: acc)) as H.
  { constructor; [|done]. apply digit_char_spec. by apply Z.mod_pos_bound. }
  destruct (n / 10 =? 0); [done|]. apply IH; [|done]. by apply Z.div_pos.
Qed.

Lemma digits_of_nonempty fuel n acc : acc <> [] -> digits_of fuel n acc <> [].
Proof.
  revert n acc. induction fuel as [|fuel IH]; intros n acc Hacc; [done|].
  simpl. destruct (n / 10 =? 0); [done|]. by apply IH.
Qed.

Lemma digits_value_cons a c ds :
  digits_value a (c :: ds) = digits_value (a * 10 + digit_val c) ds.
Proof. reflexivity. Qed.

Lemma digits_value_digits_of fuel n acc :
  0 <= n < 2 ^ Z.of_nat fuel ->
  digits_value 0 (digits_of fuel n acc) = digits_value n acc.
Proof.
  revert n acc. induction fuel as [|fuel IH]; intros n acc Hn.
  - simpl in *. by replace n with 0 by lia.
  - cbn [digits_of].
    assert (0 <= n mod 10 < 10) as Hm by (by apply Z.mod_pos_bound).
    pose proof (Z.div_mod n 10 ltac:(lia)) as Hdm.
    destruct (n / 10 =? 0) eqn:E.
    + apply Z.eqb_eq in E. rewrite digits_value_cons.
      rewrite (proj2 (digit_char_spec _ Hm)). f_equal. lia.
    + rewrite IH.
      * rewrite digits_value_cons, (proj2 (digit_char_spec _ Hm)). f_equal. lia.
      * rewrite Nat2Z.inj_succ, Z.pow_succ_r in Hn by lia.
        split; [apply Z.div_pos; lia|].
        apply Z.div_lt_upper_bound; lia.
Qed.

Lemma decimal_spec n :
  0 <= n ->
  decimal n <> [] /\ Forall (fun c => not_digit c = false) (decimal n) /\
  digits_value 0 (decimal n) = n.
Proof.
  intros Hn. unfold decimal. split_and!.
  - simpl. destruct (n / 10 =? 0); [done|]. by apply digits_of_nonempty.
  - by apply digits_of_digits.
  - rewrite digits_value_digits_of; [done|].
    split; [done|]. rewrite Nat2Z.inj_succ, Z2Nat.id by apply Z.log2_nonneg.
    destruct (decide (n = 0)) as [->|]; [done|].
    apply Z.log2_spec. lia.
Qed.

Lemma span_digits_all ds :
  Forall (fun c => not_digit c = false) ds -> span_digits ds = (ds, []).
Proof.
  induction 1 as [|c ds Hc _ IH]; [done|]. simpl. by rewrite Hc, IH.
Qed.

(** The text of an [int], as a sign and digits. *)
Lemma to_string_int_shape v :
  exists sign ds,
    to_string_int v = sign ++ ds /\
    (sign = [] /\ 0 <= v \/ sign = ["-"%char] /\ v < 0) /\
    ds <> [] /\ Forall (fun c => not_digit c = false) ds /\
    digits_value 0 ds = Z.abs v.
Proof.
  unfold to_string_int. destruct (v <? 0) eqn:E.
  - apply Z.ltb_lt in E. destruct (decimal_spec (- v)) as (H1 & H2 & H3); [lia|].
    exists ["-"%char], (decimal (- v)). split_and!; [done | by right | done | done | lia].
  - apply Z.ltb_ge in E. destruct (decimal_spec v E) as (H1 & H2 & H3).
    exists [], (decimal v). split_and!; [done | by left | done | done | lia].
Qed.

Lemma to_string_int_chars v :
  to_string_int v <> [] /\ Forall (fun c => In c (lit "-0123456789")) (to_string_int v).
Proof.
  destruct (to_string_int_shape v) as (sign & ds & -> & Hs & Hne & Hds & _). split.
  - by destruct sign, ds.
  - apply Forall_app. split.
    + destruct Hs as [[-> _]|[-> _]]; [done|]. constructor; [|done]. by left.
    + eapply Forall_impl; [done|]. intros c Hc. right. by apply not_digit_false.
Qed.

(** [std::stoi] reads back what [std::to_string] wrote. *)
Lemma stoi_to_string_int v :
  INT_MIN <= v <= INT_MAX -> stoi (to_string_int v) = Ret v.
Proof.
  intros Hv. destruct (to_string_int_shape v) as (sign & ds & -> & Hs & Hne & Hds & Hval).
  destruct ds as [|d ds]; [done|]. clear Hne.
  pose proof (Forall_inv Hds) as Hd.
  pose proof (digit_safe d (or_intror (not_digit_false d Hd))) as (Hsp & _).
  unfold stoi.
  assert (read_sign (skip_spaces (sign ++ d :: ds)) = (bool_decide (v < 0), d :: ds)) as ->.
  { destruct Hs as [[-> ?]|[-> ?]]; simpl.
    - rewrite Hsp. rewrite bool_decide_eq_false_2 by lia.
      apply not_digit_false in Hd. simpl in Hd.
      repeat (destruct Hd as [<-|Hd]; [done|]). done.
    - by rewrite bool_decide_eq_true_2. }
  rewrite span_digits_all by done. cbn [fst].
  rewrite bool_decide_eq_false_2 by done. rewrite Hval.
  assert ((if bool_decide (v < 0) then - Z.abs v else Z.abs v) = v) as ->
    by (case_bool_decide; lia).
  assert ((v <? INT_MIN) || (INT_MAX <? v) = false) as ->; [|done].
  apply orb_false_iff. split; [apply Z.ltb_ge | apply Z.ltb_ge]; lia.
Qed.

Lemma StringIsNumber_loop_digits ds :
  Forall (fun c => not_digit c = false) ds -> StringIsNumber_loop ds = true.
Proof. induction 1 as [|c ds Hc _ IH]; [done|]. simpl. by rewrite Hc. Qed.

Lemma EstimateValueType_to_string_int v :
  EstimateValueType (to_string_int v) = Ret INT.
Proof.
  destruct (to_string_int_chars v) as [Hne Hchars].
  destruct (to_string_int_shape v) as (sign & ds & E & Hs & Hds0 & Hds & _).
  rewrite EstimateValueType_order.
  rewrite bool_decide_eq_false_2 by done.
  assert (StringIsBool (to_string_int v) = false) as ->.
  { destruct (to_string_int v) as [|c r]; [done|].
    apply Forall_inv in Hchars. apply digit_safe in Hchars as (_ & _ & _ & _ & _ & _ & Hc).
    unfold StringIsBool, str_eqb.
    rewrite !bool_decide_eq_false_2; [done | | | |];
      intros [= -> _]; apply Hc; simpl; tauto. }
  rewrite bool_decide_eq_true_2; [done|].
  rewrite E. destruct ds as [|d ds]; [done|].
  unfold StringIsNumber, at_.
  destruct Hs as [[-> _]|[-> _]]; simpl.
  - pose proof (Forall_inv Hds) as Hd. apply not_digit_false in Hd.
    assert (is_sign d = false) as ->.
    { simpl in Hd. repeat (destruct Hd as [<-|Hd]; [done|]). done. }
    simpl. f_equal. by apply (StringIsNumber_loop_digits (d :: ds)).
  - f_equal. by apply (StringIsNumber_loop_digits (d :: ds)).
Qed.

(** ** Assignment lines *)

Lemma trim_loop_char_isspace c : trim_loop_char c = true -> isspace c = true.
Proof.
  unfold trim_loop_char, chr_eqb. rewrite !orb_true_iff, !Ascii.eqb_eq.
  intros [[-> | ->] | ->]; reflexivity.
Qed.

Lemma not_isspace_trim_loop_char c : isspace c = false -> trim_loop_char c = false.
Proof.
  intros H. destruct (trim_loop_char c) eqn:E; [|done].
  apply trim_loop_char_isspace in E. congruence.
Qed.

Lemma name_char_spec c :
  name_char c = true ->
  isspace c = false /\ c <> "."%char /\ c <> "="%char /\ c <> "/"%char /\
  c <> "["%char.
Proof.
  unfold name_char, chr_eqb. rewrite negb_true_iff, !orb_false_iff, !Ascii.eqb_neq.
  tauto.
Qed.

Lemma plain_name_spec name :
  plain_name name = true ->
  exists c rest, name = c :: rest /\ Forall (fun c => name_char c = true) name.
Proof.
  unfold plain_name. intros [Hne Hall]%andb_prop.
  apply negb_true_iff, bool_decide_eq_false in Hne.
  destruct name as [|c rest]; [done|]. exists c, rest. split; [done|].
  apply Forall_forall. intros x Hx. rewrite forallb_forall in Hall.
  apply Hall. by apply list_elem_of_In.
Qed.

Lemma last_app_nonempty (a b : std_string) d d' :
  b <> [] -> List.last (a ++ b) d = List.last b d'.
Proof.
  intros Hb. destruct (exists_last Hb) as (front & x & ->).
  by rewrite app_assoc, !last_last.
Qed.

Lemma trimmed_nonspace text :
  text <> [] -> Forall (fun c => isspace c = false) text -> trimmed text = true.
Proof.
  intros Hne Hall. destruct text as [|c rest]; [done|].
  pose proof (Forall_inv Hall) as Hc. unfold trimmed.
  cbn [forallb]. rewrite Hc. cbn [andb negb].
  rewrite (not_isspace_trim_loop_char c Hc). cbn [andb negb].
  apply negb_true_iff, not_isspace_trim_loop_char.
  rewrite Forall_forall in Hall. apply Hall, list_elem_of_In.
  destruct (exists_last (l := c :: rest)) as (front & x & E); [done|].
  rewrite E, last_last. apply in_or_app. right. by left.
Qed.

Lemma trimmed_intro c rest b d :
  isspace c = false -> b <> [] -> trim_loop_char (List.last b d) = false ->
  trimmed ((c :: rest) ++ b) = true.
Proof.
  intros Hc Hb Hl. unfold trimmed.
  change ((c :: rest) ++ b) with (c :: (rest ++ b)).
  cbn [forallb]. rewrite Hc. cbn [andb negb].
  rewrite (not_isspace_trim_loop_char c Hc). cbn [andb negb].
  change (c :: rest ++ b) with ((c :: rest) ++ b).
  rewrite (last_app_nonempty (c :: rest) b c d) by done. by rewrite Hl.
Qed.

Lemma trimmed_last text d :
  trimmed text = true -> text <> [] /\ trim_loop_char (List.last text d) = false.
Proof.
  destruct text as [|c rest]; [done|]. unfold trimmed.
  intros [_ Hl%negb_true_iff]%andb_prop. split; [done|].
  by rewrite <- (last_app_nonempty [] (c :: rest) c d).
Qed.

Lemma name_no_slash name :
  Forall (fun c => name_char c = true) name -> Forall (fun c => c <> "/"%char) name.
Proof.
  intros H. eapply Forall_impl; [done|]. intros c Hc.
  apply name_char_spec in Hc. tauto.
Qed.

Lemma name_nonspace name :
  Forall (fun c => name_char c = true) name -> Forall (fun c => isspace c = false) name.
Proof.
  intros H. eapply Forall_impl; [done|]. intros c Hc.
  apply name_char_spec in Hc. tauto.
Qed.

Lemma is_header_not_bracket c rest :
  c <> "["%char -> BgeConfig.is_header (c :: rest) = Ret false.
Proof.
  intros Hc. unfold BgeConfig.is_header, at_; simpl.
  unfold chr_eqb. by rewrite (proj2 (Ascii.eqb_neq c "[") Hc).
Qed.

Lemma Open_line_assignment name text ty property st :
  plain_name name = true ->
  forallb (fun x => negb (chr_eqb x "=")) text = true ->
  StringTrimComment text = text ->
  text = [] \/ trimmed text = true ->
  EstimateValueType text = Ret ty ->
  BgeConfig.make_property ty name text = Ret property ->
  BgeConfig.Open_line (name ++ lit " = " ++ text) st = store_property property st.
Proof.
  intros Hname Heq Hcomment Htrim Hty Hprop.
  destruct (plain_name_spec name Hname) as (c & rest & Ename & Hchars).
  pose proof (Forall_inv (eq_ind _ (Forall _) Hchars _ Ename)) as Hc.
  apply name_char_spec in Hc as (Hc1 & Hc2 & Hc3 & Hc4 & Hc5).
  pose proof (name_no_slash _ Hchars) as Hslash.
  pose proof (name_nonspace _ Hchars) as Hspace.
  assert (name <> []) as Hne by (by rewrite Ename).
  (* the cleaned line *)
  set (clean := if bool_decide (text = []) then name ++ lit " ="
                else name ++ lit " = " ++ text).
  assert (StringTrimLeading (StringTrimComment (name ++ lit " = " ++ text)) = clean)
    as Hclean.
  { rewrite app_assoc, StringTrimComment_app_no_slash, Hcomment.
    2:{ apply Forall_app. split; [done|]. repeat constructor; done. }
    subst clean. case_bool_decide as Et.
    - subst text. rewrite app_nil_r.
      pose proof (StringTrimLeading_spec [] (name ++ lit " =") (lit " ")) as E.
      simpl in E. rewrite <- app_assoc in E. simpl in E. apply E; [done..|].
      rewrite Ename. by apply (trimmed_intro c rest (lit " =") c).
    - destruct Htrim as [?|Htrim]; [done|]. rewrite <- app_assoc.
      apply StringTrimLeading_trimmed.
      destruct (trimmed_last text c Htrim) as [Hne' Hl].
      rewrite Ename. apply (trimmed_intro c rest _ c); [done | by destruct text |].
      by rewrite (last_app_nonempty (lit " = ") text c c). }
  assert (exists rest', clean = c :: rest') as [rest' Erest'].
  { subst clean. rewrite Ename. case_bool_decide; by eexists. }
  set (tail := if bool_decide (text = []) then [] else lit " " ++ text).
  assert (clean = (name ++ lit " ") ++ "="%char :: tail) as Esplit.
  { subst clean tail. case_bool_decide; by rewrite <- app_assoc. }
  assert (find_last_of "=" clean = Some (length name + 1)%nat) as Hfind.
  { rewrite Esplit, find_last_of_app; [by rewrite length_app|].
    subst tail. case_bool_decide; [done|]. by simpl. }
  assert (StringTrimLeading (substr clean 0 (length name + 1)) = name) as Hsplit0.
  { unfold substr, drop. rewrite Esplit.
    replace (length name + 1)%nat with (length (name ++ lit " "))
      by (by rewrite length_app).
    rewrite take_app_length.
    pose proof (StringTrimLeading_spec [] name (lit " ")) as E. apply E; [done..|].
    by apply trimmed_nonspace. }
  assert (StringTrimLeading
            (substr clean (length name + 1 + 1)
               (length clean - (length name + 1) - 1)) = text) as Hsplit1.
  { unfold substr. rewrite Esplit.
    replace (length name + 1 + 1)%nat with (length ((name ++ lit " ") ++ ["="%char]))
      by (rewrite !length_app; simpl; lia).
    replace ((name ++ lit " ") ++ "="%char :: tail)
      with (((name ++ lit " ") ++ ["="%char]) ++ tail) by (by rewrite <- !app_assoc).
    rewrite drop_app_length. rewrite take_ge by (rewrite !length_app; simpl; lia).
    subst tail. case_bool_decide as Et; [by subst text|].
    destruct Htrim as [?|Htrim]; [done|].
    pose proof (StringTrimLeading_spec (lit " ") text []) as E.
    rewrite app_nil_r in E. by apply E. }
  assert ((length (name ++ lit " = " ++ text) <? 1)%nat = false) as Hlen
    by (by rewrite Ename).
  assert (str_eqb (substr (name ++ lit " = " ++ text) 0 2) (lit "//") = false)
    as Hnocomment.
  { rewrite Ename. unfold str_eqb, substr. apply bool_decide_eq_false. simpl.
    destruct (rest ++ _); intros [= ? ?]; done. }
  destruct st as [cfg currentSection].
  unfold BgeConfig.Open_line.
  rewrite Hlen, Hnocomment, Hclean.
  rewrite Erest' at 1. rewrite is_header_not_bracket by done.
  change (Ret false ≫= ?k) with (k false). cbv beta iota.
  rewrite section_end_branch_unreachable
    by (rewrite Erest'; by apply is_header_not_bracket).
  rewrite Hfind, Hsplit0, Hsplit1, Hty.
  change (Ret ty ≫= ?k) with (k ty). cbv beta. rewrite Hprop.
  reflexivity.
Qed.

Lemma at_last (v : std_string) c :
  v <> [] -> at_ v (length v - 1) = Ret (List.last v c).
Proof.
  intros Hv. destruct (exists_last Hv) as (front & x & ->).
  unfold at_. rewrite last_last, length_app. simpl.
  replace (length front + 1 - 1)%nat with (length front) by lia.
  by rewrite lookup_app_r, Nat.sub_diag by lia.
Qed.

Lemma chars_text_ok text :
  text <> [] ->
  Forall (fun c => isspace c = false /\ chr_eqb c "=" = false /\
                   chr_eqb c "/" = false) text ->
  forallb (fun x => negb (chr_eqb x "=")) text = true /\
  StringTrimComment text = text /\ trimmed text = true.
Proof.
  intros Hne Hall. split_and!.
  - apply forallb_forall. intros x Hx%list_elem_of_In.
    rewrite Forall_forall in Hall. destruct (Hall x Hx) as (_ & -> & _). done.
  - apply StringTrimComment_no_slash. eapply Forall_impl; [done|].
    intros c (_ & _ & Hc). by apply Ascii.eqb_neq.
  - apply trimmed_nonspace; [done|]. eapply Forall_impl; [done|]. by intros c (? & _).
Qed.


(** ** Pointers into the tree *)

Module PointerFacts.
Import BgeConfigSection SectionFacts.

Lemma section_induction (P : t -> Prop) :
  (forall name nested properties,
     Forall P nested -> P (mk name nested properties)) ->
  forall s, P s.
Proof.
  intros H. fix IH 1. intros [name nested properties]. apply H.
  revert nested. fix IHl 1. intros [|x l]; constructor; [apply IH | apply IHl].
Qed.

Lemma deref_alter_at f q s : deref q (alter_at f q s) = f <$> deref q s.
Proof.
  revert s. induction q as [|i q IH]; intros s; simpl; [done|].
  rewrite list_lookup_alter_eq.
  destruct (mNestedSections s !! i); simpl; [apply IH | done].
Qed.

Lemma alter_at_ext f g q s :
  (forall x, deref q s = Some x -> f x = g x) -> alter_at f q s = alter_at g q s.
Proof.
  revert s. induction q as [|i q IH]; intros s H; simpl; [by apply H|].
  unfold alter_nested. f_equal. apply list_alter_ext; [|done].
  intros x Hx. apply IH. intros y Hy. apply H. simpl. by rewrite Hx.
Qed.

Lemma alter_at_alter_at f g q s :
  alter_at f q (alter_at g q s) = alter_at (fun x => f (g x)) q s.
Proof.
  revert s. induction q as [|i q IH]; intros s; simpl; [done|].
  unfold alter_nested; simpl. f_equal. rewrite list_alter_alter_eq.
  apply list_alter_ext; [|done]. intros x _. apply IH.
Qed.

Lemma alter_at_app f q q' s :
  alter_at f (q ++ q') s = alter_at (alter_at f q') q s.
Proof.
  revert s. induction q as [|i q IH]; intros s; simpl; [done|].
  unfold alter_nested. f_equal. apply list_alter_ext; [|done]. intros x _. apply IH.
Qed.

Lemma alter_at_Name f q s :
  (forall x, Name (f x) = Name x) -> Name (alter_at f q s) = Name s.
Proof. intros H. destruct q; simpl; [apply H | done]. Qed.

Lemma alter_at_push g q s P Y :
  deref q s = Some P ->
  alter_at g (q ++ [length (mNestedSections P)]) (alter_at (push_section Y) q s) =
  alter_at (push_section (g Y)) q s.
Proof.
  intros Hq. rewrite alter_at_app, alter_at_alter_at. apply alter_at_ext.
  intros x Hx. rewrite Hq in Hx. simplify_eq. simpl.
  unfold alter_nested, push_section; simpl. f_equal.
  pose proof (alter_app_r (fun s0 => g s0) (mNestedSections x) [Y] 0) as E.
  rewrite Nat.add_0_r in E. by rewrite E.
Qed.

(** *** Chains of names *)

Lemma resolve_cons a pfx s q :
  resolve (a :: pfx) s = Some q <->
  exists i sub q',
    GetSubSection_here a s = Some (i, sub) /\ resolve pfx sub = Some q' /\
    q = i :: q'.
Proof.
  destruct pfx as [|b rest].
  - simpl. split.
    + destruct (GetSubSection_here a s) as [[i sub]|]; [|done].
      intros [= <-]. by exists i, sub, [].
    + intros (i & sub & q' & -> & [= <-] & ->). done.
  - unfold resolve. rewrite GetSubSection_path_cons. split.
    + destruct (GetSubSection_here a s) as [[i sub]|]; [|done].
      destruct (GetSubSection_path (b :: rest) sub) as [q'|] eqn:E; [|done].
      intros [= <-]. by exists i, sub, q'.
    + intros (i & sub & q' & -> & -> & ->). done.
Qed.

Lemma resolve_alter_at f pfx q s :
  (forall x, Name (f x) = Name x) ->
  resolve pfx s = Some q -> resolve pfx (alter_at f q s) = Some q.
Proof.
  intros Hf. revert s q. induction pfx as [|a pfx IH]; intros s q; [done|].
  intros (i & sub & q' & E1 & E2 & ->)%resolve_cons.
  apply resolve_cons. exists i, (alter_at f q' sub), q'. split_and!; [|by apply IH|done].
  simpl. apply GetSubSection_here_alter; [done|]. by apply alter_at_Name.
Qed.

Lemma snoc_cons {A} (l : list A) (x : A) : exists y l', l ++ [x] = y :: l'.
Proof. destruct l; by eexists _, _. Qed.

Lemma HasSubSection_path_snoc_fresh pfx n s q P :
  resolve pfx s = Some q -> deref q s = Some P ->
  HasSubSection_here n P = false ->
  HasSubSection_path (pfx ++ [n]) s = false.
Proof.
  revert s q. induction pfx as [|a pfx IH]; intros s q.
  - intros [= <-] [= <-]. done.
  - intros (i & sub & q' & E1 & E2 & ->)%resolve_cons Hq Hn.
    destruct (snoc_cons pfx n) as (b & rest & E).
    change ((a :: pfx) ++ [n]) with (a :: (pfx ++ [n])).
    rewrite E, HasSubSection_path_cons, E1, <- E.
    apply GetSubSection_here_Some in E1 as (_ & _ & Hi & _).
    simpl in Hq. rewrite Hi in Hq. by eapply IH.
Qed.

(** [AddSubSection] on a chain that exists followed by a name that is new
    appends an empty section where the chain leads, and returns a pointer to
    it. *)
Lemma AddSubSection_path_snoc_fresh pfx n s q P :
  n <> [] -> resolve pfx s = Some q -> deref q s = Some P ->
  HasSubSection_here n P = false ->
  AddSubSection_path (pfx ++ [n]) s =
    Ret (alter_at (push_section (new n)) q s,
         Some (q ++ [length (mNestedSections P)])).
Proof.
  intros Hn. revert s q. induction pfx as [|a pfx IH]; intros s q.
  - intros [= <-] [= <-] Hh. simpl.
    by rewrite (proj1 (AddSubSection_here_fresh n s Hn Hh)).
  - intros Hr Hq Hh.
    pose proof (HasSubSection_path_snoc_fresh _ _ _ _ _ Hr Hq Hh) as Hfresh.
    apply resolve_cons in Hr as (i & sub & q' & E1 & E2 & ->).
    destruct (snoc_cons pfx n) as (b & rest & E).
    change ((a :: pfx) ++ [n]) with (a :: (pfx ++ [n])) in *.
    rewrite E in Hfresh |- *. rewrite AddSubSection_path_cons, Hfresh.
    rewrite (AddSubSection_here_old _ _ _ _ E1).
    apply GetSubSection_here_Some in E1 as (_ & _ & Hi & _).
    rewrite Hi, <- E. simpl in Hq. rewrite Hi in Hq.
    rewrite (IH sub q' E2 Hq Hh). simpl. f_equal. f_equal.
    unfold alter_nested. f_equal. apply list_alter_ext; [|done].
    intros x Hx. rewrite Hi in Hx. by simplify_eq.
Qed.

Lemma resolve_snoc_push pfx n s q P X :
  n <> [] -> resolve pfx s = Some q -> deref q s = Some P ->
  HasSubSection_here n P = false -> Name X = n ->
  resolve (pfx ++ [n]) (alter_at (push_section X) q s) =
    Some (q ++ [length (mNestedSections P)]).
Proof.
  intros Hn. revert s q. induction pfx as [|a pfx IH]; intros s q.
  - intros [= <-] [= <-] Hh HX. simpl.
    apply HasSubSection_here_false in Hh. unfold GetSubSection_here in *.
    rewrite bool_decide_eq_false_2 in * by done.
    unfold GetSectionIterator in *. simpl.
    by rewrite (find_name_snoc_fresh Name n _ X Hh HX).
  - intros (i & sub & q' & E1 & E2 & ->)%resolve_cons Hq Hh HX.
    change ((a :: pfx) ++ [n]) with (a :: (pfx ++ [n])).
    apply resolve_cons.
    exists i, (alter_at (push_section X) q' sub), (q' ++ [length (mNestedSections P)]).
    split_and!; [| |done].
    + simpl. apply GetSubSection_here_alter; [done|]. by apply alter_at_Name.
    + apply GetSubSection_here_Some in E1 as (_ & _ & Hi & _).
      simpl in Hq. rewrite Hi in Hq. by apply IH.
Qed.

End PointerFacts.

(** ** Qualified names *)

Lemma split_path_dotfree a :
  Forall (fun c => c <> "."%char) a -> split_path a = [a].
Proof.
  induction 1 as [|c a Hc _ IH]; [done|]. simpl.
  unfold chr_eqb. rewrite (proj2 (Ascii.eqb_neq c ".") Hc). by rewrite IH.
Qed.

Lemma split_path_app_dot a rest :
  Forall (fun c => c <> "."%char) a ->
  split_path (a ++ lit "." ++ rest) = a :: split_path rest.
Proof.
  induction 1 as [|c a Hc _ IH]; [done|]. simpl in *.
  unfold chr_eqb in *. rewrite (proj2 (Ascii.eqb_neq c ".") Hc). by rewrite IH.
Qed.

Lemma split_path_join segs :
  segs <> [] -> Forall (Forall (fun c => c <> "."%char)) segs ->
  split_path (join_path segs) = segs.
Proof.
  induction segs as [|a [|b rest] IH]; intros Hne Hall; [done| |].
  - simpl. apply split_path_dotfree. by apply Forall_inv in Hall.
  - apply Forall_cons in Hall as [Ha Hall].
    change (join_path (a :: b :: rest)) with (a ++ lit "." ++ join_path (b :: rest)).
    rewrite split_path_app_dot by done. f_equal. by apply IH.
Qed.

Lemma join_path_cons_nonempty a rest : a <> [] -> join_path (a :: rest) <> [].
Proof. destruct a; [done|]. by destruct rest. Qed.

Lemma join_path_snoc pfx n :
  Forall (fun seg => seg <> []) pfx ->
  (if bool_decide (join_path pfx = []) then [] else join_path pfx ++ lit ".") ++ n =
  join_path (pfx ++ [n]).
Proof.
  induction pfx as [|a [|b rest] IH]; intros Hall; [done| |].
  - apply Forall_inv in Hall. simpl.
    rewrite bool_decide_eq_false_2 by done. by rewrite <- app_assoc.
  - apply Forall_cons in Hall as [Ha Hall].
    rewrite bool_decide_eq_false_2 by (by apply join_path_cons_nonempty).
    specialize (IH Hall).
    rewrite bool_decide_eq_false_2 in IH
      by (apply join_path_cons_nonempty; by apply Forall_inv in Hall).
    change (join_path ((a :: b :: rest) ++ [n]))
      with (a ++ lit "." ++ join_path ((b :: rest) ++ [n])).
    rewrite <- IH.
    change (join_path (a :: b :: rest)) with (a ++ lit "." ++ join_path (b :: rest)).
    by rewrite <- !app_assoc.
Qed.

Lemma plain_name_nonempty name : plain_name name = true -> name <> [].
Proof. intros (c & rest & -> & _)%plain_name_spec. done. Qed.

Lemma plain_name_dotfree name :
  plain_name name = true -> Forall (fun c => c <> "."%char) name.
Proof.
  intros (c & rest & _ & H)%plain_name_spec. eapply Forall_impl; [done|].
  intros x Hx. apply name_char_spec in Hx. tauto.
Qed.

(** ** Lines that are read back *)

(** No ["//"] comes about where two texts without one are joined by a
    character other than ['/']. *)
Lemma has_comment_start_sep a c b :
  has_comment_start a = false -> has_comment_start (c :: b) = false ->
  chr_eqb c "/" = false ->
  has_comment_start (a ++ c :: b) = false.
Proof.
  intros Ha Hb Hc. induction a as [|x a IH]; [done|].
  destruct a as [|y a'].
  - change ([x] ++ c :: b) with (x :: c :: b).
    rewrite has_comment_start_cons, Hc, andb_false_r. exact Hb.
  - change ((x :: y :: a') ++ c :: b) with (x :: y :: (a' ++ c :: b)).
    rewrite has_comment_start_cons in Ha. apply orb_false_iff in Ha as [E Ha].
    rewrite has_comment_start_cons, E. cbn [orb]. by apply IH.
Qed.

Lemma has_comment_start_no_slash l :
  Forall (fun c => chr_eqb c "/" = false) l -> has_comment_start l = false.
Proof.
  induction 1 as [|x l Hx _ IHl]; [done|]. by rewrite has_comment_start_head.
Qed.

Lemma trimmed_app a b d :
  trimmed a = true -> b <> [] -> trim_loop_char (List.last b d) = false ->
  trimmed (a ++ b) = true.
Proof.
  intros Ha Hb Hl. destruct a as [|c r]; [done|]. unfold trimmed in *.
  change ((c :: r) ++ b) with (c :: (r ++ b)).
  apply andb_prop in Ha as [[Hsp Hc]%andb_prop _].
  change (c :: r ++ b) with ((c :: r) ++ b).
  rewrite forallb_app. apply negb_true_iff in Hsp. rewrite Hsp. cbn [andb negb].
  rewrite Hc. cbn [andb].
  rewrite (last_app_nonempty (c :: r) b c d) by done. by rewrite Hl.
Qed.

Lemma trimmed_nonempty text : trimmed text = true -> text <> [].
Proof. by destruct text. Qed.

Lemma last_default (l : std_string) d d' : l <> [] -> List.last l d = List.last l d'.
Proof. intros H. by rewrite <- (last_app_nonempty [] l d d'). Qed.

(** The line [name = text] is read as an assignment of [text] to [name]
    when [StringTrimLeading] leaves the name as it is, neither holds a
    ["//"], the text holds no ['='] and is empty or left as it is by
    [StringTrimLeading], and the line is not taken for a header. *)
Lemma Open_line_assignment_general name text ty property st :
  trimmed name = true -> has_comment_start name = false ->
  forallb (fun x => negb (chr_eqb x "=")) text = true ->
  has_comment_start text = false ->
  text = [] \/ trimmed text = true ->
  bracketed name text = false ->
  EstimateValueType text = Ret ty ->
  BgeConfig.make_property ty name text = Ret property ->
  BgeConfig.Open_line (name ++ lit " = " ++ text) st = store_property property st.
Proof.
  intros Hname Hnc Heq Htc Htrim Hbr Hty Hprop.
  destruct name as [|c rest] eqn:Ename; [done|]. rewrite <- Ename in *.
  assert (name <> []) as Hne by (by rewrite Ename).
  (* the cleaned line *)
  set (clean := if bool_decide (text = []) then name ++ lit " ="
                else name ++ lit " = " ++ text).
  assert (StringTrimLeading (StringTrimComment (name ++ lit " = " ++ text)) = clean)
    as Hclean.
  { rewrite has_comment_start_StringTrimComment.
    2:{ apply has_comment_start_sep; [done | | done].
        by rewrite !has_comment_start_head. }
    subst clean. case_bool_decide as Et.
    - subst text.
      pose proof (StringTrimLeading_spec [] (name ++ lit " =") (lit " ")) as E.
      simpl in E. rewrite <- app_assoc in E. simpl in E. apply E; [done..|].
      by apply (trimmed_app name (lit " =") " "%char).
    - destruct Htrim as [?|Htrim]; [done|].
      apply StringTrimLeading_trimmed.
      destruct (trimmed_last text c Htrim) as [Hne' Hl].
      apply (trimmed_app name (lit " = " ++ text) c); [done | done |].
      by rewrite (last_app_nonempty (lit " = ") text c c). }
  assert (exists rest', clean = c :: rest') as [rest' Erest'].
  { subst clean. rewrite Ename. case_bool_decide; by eexists. }
  assert (BgeConfig.is_header clean = Ret false) as Hhead.
  { destruct (chr_eqb c "[") eqn:Ec.
    2:{ rewrite Erest'. apply is_header_not_bracket. by apply Ascii.eqb_neq. }
    unfold BgeConfig.is_header.
    assert (at_ clean 0 = Ret c) as -> by (by rewrite Erest').
    change (Ret c ≫= ?k) with (k c). cbv beta. rewrite Ec.
    rewrite (at_last clean c) by (by rewrite Erest').
    change (Ret ?x ≫= ?k) with (k x). cbv beta. f_equal.
    subst clean. case_bool_decide as Et.
    - by rewrite (last_app_nonempty name (lit " =") c "="%char).
    - destruct text as [|d text'] eqn:Etext; [done|]. rewrite <- Etext in *.
      rewrite (last_app_nonempty name (lit " = " ++ text) c c) by done.
      rewrite (last_app_nonempty (lit " = ") text c d) by (by rewrite Etext).
      rewrite Ename, Etext in Hbr. simpl in Hbr. rewrite Ec in Hbr.
      rewrite Etext. exact Hbr. }
  set (tail := if bool_decide (text = []) then [] else lit " " ++ text).
  assert (clean = (name ++ lit " ") ++ "="%char :: tail) as Esplit.
  { subst clean tail. case_bool_decide; by rewrite <- app_assoc. }
  assert (find_last_of "=" clean = Some (length name + 1)%nat) as Hfind.
  { rewrite Esplit, find_last_of_app; [by rewrite length_app|].
    subst tail. case_bool_decide; [done|]. by simpl. }
  assert (StringTrimLeading (substr clean 0 (length name + 1)) = name) as Hsplit0.
  { unfold substr, drop. rewrite Esplit.
    replace (length name + 1)%nat with (length (name ++ lit " "))
      by (by rewrite length_app).
    rewrite take_app_length.
    pose proof (StringTrimLeading_spec [] name (lit " ")) as E. by apply E. }
  assert (StringTrimLeading
            (substr clean (length name + 1 + 1)
               (length clean - (length name + 1) - 1)) = text) as Hsplit1.
  { unfold substr. rewrite Esplit.
    replace (length name + 1 + 1)%nat with (length ((name ++ lit " ") ++ ["="%char]))
      by (rewrite !length_app; simpl; lia).
    replace ((name ++ lit " ") ++ "="%char :: tail)
      with (((name ++ lit " ") ++ ["="%char]) ++ tail) by (by rewrite <- !app_assoc).
    rewrite drop_app_length. rewrite take_ge by (rewrite !length_app; simpl; lia).
    subst tail. case_bool_decide as Et; [by subst text|].
    destruct Htrim as [?|Htrim]; [done|].
    pose proof (StringTrimLeading_spec (lit " ") text []) as E.
    rewrite app_nil_r in E. by apply E. }
  assert ((length (name ++ lit " = " ++ text) <? 1)%nat = false) as Hlen
    by (by rewrite Ename).
  assert (str_eqb (substr (name ++ lit " = " ++ text) 0 2) (lit "//") = false)
    as Hnocomment.
  { unfold str_eqb, substr. apply bool_decide_eq_false. rewrite Ename in *.
    destruct rest as [|c' rest2]; simpl.
    - intros [= ? ?]; done.
    - rewrite has_comment_start_cons in Hnc. apply orb_false_iff in Hnc as [E _].
      intros [= -> ->]. done. }
  destruct st as [cfg currentSection].
  unfold BgeConfig.Open_line.
  rewrite Hlen, Hnocomment, Hclean, Hhead.
  change (Ret false ≫= ?k) with (k false). cbv beta iota.
  rewrite section_end_branch_unreachable by done.
  rewrite Hfind, Hsplit0, Hsplit1, Hty.
  change (Ret ty ≫= ?k) with (k ty). cbv beta. rewrite Hprop.
  reflexivity.
Qed.

(** *** Names *)

Lemma one_segment_spec name :
  one_segment name = true ->
  Forall (fun c => c <> "."%char) name /\ Forall (fun c => c <> "010"%char) name.
Proof.
  unfold one_segment. rewrite forallb_forall. intros H.
  split; apply Forall_forall; intros x Hx%list_elem_of_In; apply H in Hx;
    apply negb_true_iff, orb_false_iff in Hx as [H1 H2];
    by apply Ascii.eqb_neq.
Qed.

Lemma property_name_spec name :
  property_name name = true ->
  trimmed name = true /\ name <> [] /\ Forall (fun c => c <> "."%char) name /\
  no_newline name /\ has_comment_start name = false.
Proof.
  unfold property_name. intros [[H1 H2]%andb_prop H3%negb_true_iff]%andb_prop.
  apply one_segment_spec in H2 as [? ?].
  split_and!; [done | by apply trimmed_nonempty | done..].
Qed.

Lemma property_name_nonempty name : property_name name = true -> name <> [].
Proof. by intros (_ & ? & _)%property_name_spec. Qed.

Lemma property_name_dotfree name :
  property_name name = true -> Forall (fun c => c <> "."%char) name.
Proof. by intros (_ & _ & ? & _)%property_name_spec. Qed.

Lemma section_name_spec name :
  section_name name = true ->
  name <> [] /\ Forall (fun c => c <> "."%char) name /\
  no_newline name /\ has_comment_start name = false.
Proof.
  unfold section_name. intros [[H1 H2]%andb_prop H3%negb_true_iff]%andb_prop.
  apply one_segment_spec in H2 as [? ?].
  apply negb_true_iff, bool_decide_eq_false in H1. done.
Qed.

Lemma section_name_nonempty name : section_name name = true -> name <> [].
Proof. by intros (? & _)%section_name_spec. Qed.

Lemma section_name_dotfree name :
  section_name name = true -> Forall (fun c => c <> "."%char) name.
Proof. by intros (_ & ? & _)%section_name_spec. Qed.

Lemma join_path_no_comment segs :
  Forall (fun seg => section_name seg = true) segs ->
  has_comment_start (join_path segs) = false.
Proof.
  induction segs as [|a [|b rest] IH]; intros Hall; [done| |].
  - apply Forall_inv in Hall. by apply section_name_spec in Hall as (_ & _ & _ & ?).
  - apply Forall_cons in Hall as [Ha Hall].
    change (join_path (a :: b :: rest)) with (a ++ "."%char :: join_path (b :: rest)).
    apply section_name_spec in Ha as (_ & _ & _ & Ha).
    apply has_comment_start_sep; [done | | done].
    rewrite has_comment_start_head by done. by apply IH.
Qed.

(** The header line [Save] writes for a section is read as [AddSection] on
    the chain of names. *)
Lemma Open_line_Save_header segs cfg currentSection :
  segs <> [] -> Forall (fun seg => section_name seg = true) segs ->
  BgeConfig.Open_line (lit "[" ++ join_path segs ++ lit "]") (cfg, currentSection) =
  BgeConfig.AddSection_path segs cfg.
Proof.
  intros Hne Hall.
  rewrite (Open_line_header _ (join_path segs)).
  - unfold BgeConfig.AddSection. rewrite split_path_join; [done | done |].
    eapply Forall_impl; [done|]. apply section_name_dotfree.
  - rewrite has_comment_start_StringTrimComment.
    + apply StringTrimLeading_trimmed.
      apply (trimmed_intro "[" [] (join_path segs ++ lit "]") "["%char); [done | |].
      * by destruct (join_path segs).
      * by rewrite (last_app_nonempty _ (lit "]") _ "]"%char).
    + change (lit "[" ++ join_path segs ++ lit "]")
        with ("["%char :: (join_path segs ++ "]"%char :: [])).
      rewrite has_comment_start_head by done.
      apply has_comment_start_sep; [by apply join_path_no_comment | done..].
Qed.

(** *** The text of a [float] *)

Lemma round_half_even_nonneg n d : 0 <= n -> 0 < d -> 0 <= round_half_even n d.
Proof.
  intros Hn Hd. unfold round_half_even.
  pose proof (Z.div_pos n d Hn Hd). destruct (_ || _); lia.
Qed.

Lemma fp_magnitude_spec v :
  0 <= (fp_magnitude v).1 /\ 0 < (fp_magnitude v).2.
Proof.
  destruct v as [s|s m e|s|s]; simpl; try lia.
  destruct (0 <=? e) eqn:E; simpl.
  - apply Z.leb_le in E. pose proof (Z.pow_pos_nonneg 2 e). nia.
  - apply Z.leb_gt in E. pose proof (Z.pow_pos_nonneg 2 (- e)). lia.
Qed.

Lemma replicate_digits n :
  Forall (fun c => not_digit c = false) (replicate n "0"%char).
Proof. induction n; by constructor. Qed.

(** The text of a zero or of a finite number: an optional minus sign,
    digits, a point and digits. *)
Lemma to_string_float_shape v :
  match v with fp_zero _ | fp_finite _ _ _ => True | _ => False end ->
  exists sign ip fr,
    to_string_float v = sign ++ ip ++ "."%char :: fr /\
    (sign = [] \/ sign = ["-"%char]) /\
    ip <> [] /\ Forall (fun c => not_digit c = false) ip /\
    fr <> [] /\ Forall (fun c => not_digit c = false) fr.
Proof.
  intros Hv. unfold to_string_float.
  destruct (fp_magnitude_spec v) as [Hn Hd].
  destruct (fp_magnitude v) as [n d]. cbn [fst snd] in *.
  set (k := round_half_even (n * 10 ^ 6) d).
  assert (0 <= k) as Hk by (apply round_half_even_nonneg; lia).
  destruct (decimal_spec (k / 10 ^ 6)) as (H1 & H2 & _); [apply Z.div_pos; lia|].
  destruct (decimal_spec (k mod 10 ^ 6)) as (H3 & H4 & _);
    [by apply Z.mod_pos_bound|].
  exists (if fp_negative v then ["-"%char] else []), (decimal (k / 10 ^ 6)),
    (replicate (6 - length (decimal (k mod 10 ^ 6))) "0"%char ++
     decimal (k mod 10 ^ 6)).
  split_and!.
  - by destruct v.
  - destruct (fp_negative v); auto.
  - done.
  - done.
  - by destruct (replicate _ _), (decimal (k mod 10 ^ 6)).
  - apply Forall_app. split; [apply replicate_digits | done].
Qed.

Lemma digit_is_plain c :
  not_digit c = false ->
  isspace c = false /\ chr_eqb c "=" = false /\ chr_eqb c "/" = false /\
  c <> "010"%char /\ chr_eqb c "]" = false /\ is_sign c = false /\
  chr_eqb c "." = false /\ ~ In c (lit "TtFf").
Proof.
  intros H%not_digit_false. simpl in H.
  repeat (destruct H as [<-|H]; [vm_compute; intuition discriminate|]).
  destruct H.
Qed.

Lemma StringIsNumber_loop_stops ds c rest :
  Forall (fun c => not_digit c = false) ds -> not_digit c = true ->
  StringIsNumber_loop (ds ++ c :: rest) = false.
Proof.
  intros Hds Hc. induction Hds as [|x ds Hx _ IH]; simpl; [by rewrite Hc|].
  by rewrite Hx.
Qed.

Lemma StringIsFloat_loop_digits ds rest hasDot :
  Forall (fun c => not_digit c = false) ds ->
  StringIsFloat_loop (ds ++ rest) hasDot = StringIsFloat_loop rest hasDot.
Proof.
  induction 1 as [|x ds Hx _ IH]; [done|]. simpl.
  destruct (digit_is_plain x Hx) as (_ & _ & _ & _ & _ & _ & -> & _).
  by rewrite Hx.
Qed.

Lemma signed_digits_loops sign d body :
  sign = [] \/ sign = ["-"%char] -> is_sign d = false ->
  StringIsNumber (sign ++ d :: body) = Ret (StringIsNumber_loop (d :: body)) /\
  StringIsFloat (sign ++ d :: body) = Ret (StringIsFloat_loop (d :: body) false).
Proof.
  intros [-> | ->] Hd; unfold StringIsNumber, StringIsFloat, at_;
    cbn -[StringIsNumber_loop StringIsFloat_loop]; [by rewrite Hd | done].
Qed.

(** What [Open] needs of the text of a [float]. *)
Lemma to_string_float_text v :
  match v with fp_zero _ | fp_finite _ _ _ => True | _ => False end ->
  let text := to_string_float v in
  EstimateValueType text = Ret FLOAT /\
  forallb (fun x => negb (chr_eqb x "=")) text = true /\
  has_comment_start text = false /\
  trimmed text = true /\
  no_newline text /\
  (forall name, bracketed name text = false).
Proof.
  intros Hv text.
  destruct (to_string_float_shape v Hv) as (sign & ip & fr & E & Hs & Hip & Dip & Hfr & Dfr).
  fold text in E.
  assert (Forall (fun c => isspace c = false /\ chr_eqb c "=" = false /\
                           chr_eqb c "/" = false /\ c <> "010"%char) text) as Hchars.
  { rewrite E. apply Forall_app. split.
    { destruct Hs as [-> | ->]; [done|]. by repeat constructor. }
    apply Forall_app. split.
    { eapply Forall_impl; [exact Dip|]. intros c Hc.
      apply digit_is_plain in Hc. tauto. }
    constructor; [done|].
    eapply Forall_impl; [exact Dfr|]. intros c Hc. apply digit_is_plain in Hc. tauto. }
  assert (text <> []) as Hne by (rewrite E; by destruct sign, ip).
  assert (exists x, List.last text x = List.last fr x /\ not_digit (List.last fr x) = false)
    as (x & Hlast & Hdl).
  { destruct (exists_last Hfr) as (front & y & Ef). exists y.
    rewrite E, Ef. rewrite !app_assoc, app_comm_cons, !app_assoc.
    rewrite !last_last. split; [done|].
    rewrite Ef in Dfr. by apply Forall_app in Dfr as [_ [? _]%Forall_cons]. }
  split_and!.
  - rewrite EstimateValueType_order.
    rewrite bool_decide_eq_false_2 by done.
    destruct ip as [|d ip']; [done|]. pose proof (Forall_inv Dip) as Hd.
    destruct (digit_is_plain d Hd) as (_ & _ & _ & _ & _ & Hsd & _ & Hb).
    assert (StringIsBool text = false) as ->.
    { assert (exists c r, text = c :: r /\ ~ In c (lit "TtFf")) as (c & r & Ec & Hc).
      { rewrite E. destruct Hs as [-> | ->].
        - exists d. by eexists.
        - exists "-"%char. eexists. split; [reflexivity|].
          vm_compute. intuition discriminate. }
      unfold StringIsBool, str_eqb. rewrite Ec.
      rewrite !bool_decide_eq_false_2; [done | | | |];
        intros [= -> _]; apply Hc; simpl; tauto. }
    destruct (signed_digits_loops sign d (ip' ++ "."%char :: fr) Hs Hsd) as [En Ef].
    change (d :: ip' ++ "."%char :: fr) with ((d :: ip') ++ "."%char :: fr) in En, Ef.
    rewrite <- E in En, Ef. rewrite En, Ef.
    rewrite StringIsNumber_loop_stops by done.
    rewrite bool_decide_eq_false_2 by done.
    rewrite bool_decide_eq_true_2; [done|]. f_equal.
    rewrite StringIsFloat_loop_digits by done.
    change (StringIsFloat_loop ("."%char :: fr) false) with (StringIsFloat_loop fr true).
    rewrite <- (app_nil_r fr), StringIsFloat_loop_digits by done. done.
  - apply forallb_forall. intros y Hy%list_elem_of_In.
    rewrite Forall_forall in Hchars. destruct (Hchars y Hy) as (_ & -> & _). done.
  - apply has_comment_start_no_slash. eapply Forall_impl; [exact Hchars|].
    by intros c (_ & _ & ? & _).
  - apply trimmed_nonspace; [done|]. eapply Forall_impl; [exact Hchars|].
    by intros c (? & _).
  - eapply Forall_impl; [exact Hchars|]. by intros c (_ & _ & _ & ?).
  - intros name. unfold bracketed. destruct name as [|c0 name']; [done|].
    destruct text as [|d0 text'] eqn:Et; [done|]. rewrite <- Et in *.
    rewrite (last_default text d0 x Hne), Hlast.
    destruct (digit_is_plain _ Hdl) as (_ & _ & _ & _ & -> & _).
    apply andb_false_r.
Qed.

(** The same of the text of an [int]. *)
Lemma to_string_int_text v :
  let text := to_string_int v in
  forallb (fun x => negb (chr_eqb x "=")) text = true /\
  has_comment_start text = false /\
  trimmed text = true /\
  no_newline text /\
  (forall name, bracketed name text = false).
Proof.
  intros text. destruct (to_string_int_chars v) as [Hne Hchars]. fold text in Hne, Hchars.
  assert (Forall (fun c => isspace c = false /\ chr_eqb c "=" = false /\
                           chr_eqb c "/" = false /\ c <> "010"%char /\
                           chr_eqb c "]" = false) text) as Hc.
  { eapply Forall_impl; [exact Hchars|]. intros c H. simpl in H.
    repeat (destruct H as [<-|H]; [vm_compute; intuition discriminate|]).
    destruct H. }
  split_and!.
  - apply forallb_forall. intros y Hy%list_elem_of_In.
    rewrite Forall_forall in Hc. destruct (Hc y Hy) as (_ & -> & _). done.
  - apply has_comment_start_no_slash. eapply Forall_impl; [exact Hc|].
    by intros c (_ & _ & ? & _).
  - apply trimmed_nonspace; [done|]. eapply Forall_impl; [exact Hc|].
    by intros c (? & _).
  - eapply Forall_impl; [exact Hc|]. by intros c (_ & _ & _ & ? & _).
  - intros name. unfold bracketed. destruct name as [|c0 name']; [done|].
    destruct text as [|d0 text'] eqn:Et; [done|]. rewrite <- Et in *.
    destruct (exists_last Hne) as (front & y & Ef). rewrite Ef, last_last.
    rewrite Ef in Hc. apply Forall_app in Hc as [_ [Hy _]%Forall_cons].
    destruct Hy as (_ & _ & _ & _ & ->). apply andb_false_r.
Qed.

Lemma bracketed_nil name : bracketed name [] = false.
Proof. by destruct name. Qed.

Lemma bracketed_last name text d :
  text <> [] -> chr_eqb (List.last text d) "]" = false -> bracketed name text = false.
Proof.
  intros Hne Hl. unfold bracketed. destruct name as [|c name']; [done|].
  destruct text as [|d0 text'] eqn:Et; [done|]. rewrite <- Et in *.
  rewrite (last_default text d0 d Hne), Hl. apply andb_false_r.
Qed.

(** The line [Save] writes for a property is read back as the same name,
    type and typed value. *)
Lemma Open_line_Save_property p st :
  round_trip_property p = true ->
  BgeConfig.Open_line (BgeConfigProperty.Save p) st =
  store_property (reopened_property p) st.
Proof.
  unfold round_trip_property. intros [Hname Hval]%andb_prop.
  apply property_name_spec in Hname as (Htn & Hnn & _ & _ & Hcn).
  unfold BgeConfigProperty.Save, reopened_property.
  destruct p as [ty name str i f b]; simpl in *.
  destruct ty.
  - (* UNKNOWN *)
    apply bool_decide_eq_true in Hval. subst str.
    apply (Open_line_assignment_general name [] UNKNOWN);
      [done | done | done | done | by left | apply bracketed_nil | done | done].
  - (* STRING *)
    apply andb_prop in Hval as [Hval Hbr%negb_true_iff].
    unfold plain_text in Hval.
    apply andb_prop in Hval as [[[[Hty Heq]%andb_prop Hcom]%andb_prop Htrim]%andb_prop Hq].
    apply bool_decide_eq_true in Hty, Hcom.
    apply (Open_line_assignment_general name str STRING);
      [done | done | | | by right | done | done |].
    + apply forallb_forall. intros x Hx. rewrite forallb_forall in Heq.
      apply Heq in Hx. apply negb_true_iff, orb_false_iff in Hx as [-> _]. done.
    + destruct (has_comment_start str) eqn:E; [|done]. exfalso.
      pose proof (StringTrimComment_no_comment str) as H. rewrite Hcom in H. congruence.
    + destruct str as [|c rest] eqn:E; [done|]. rewrite <- E in *.
      apply andb_prop in Hq as [Hq1%negb_true_iff Hq2%negb_true_iff].
      unfold BgeConfig.make_property, BgeConfig.strip_quotes.
      rewrite bool_decide_eq_false_2 by (by rewrite E).
      rewrite E at 1. unfold at_ at 1. simpl. rewrite Hq1.
      assert (str <> []) as Hne by (by rewrite E).
      pose proof (at_last str c Hne) as Hl. unfold at_ in Hl.
      rewrite Hl. simpl. by rewrite Hq2.
  - (* FLOAT *)
    unfold float_survives in Hval.
    assert (match f with fp_zero _ | fp_finite _ _ _ => True | _ => False end) as Hf
      by (by destruct f).
    destruct (to_string_float_text f Hf) as (H1 & H2 & H3 & H4 & _ & H6).
    assert (stod (to_string_float f) = Ret (match stod (to_string_float f) with
                                            | Ret d => d | _ => f end) /\
            fp_convert binary32 (match stod (to_string_float f) with
                                 | Ret d => d | _ => f end) = f) as [Hs Hc].
    { destruct f; try done; destruct (stod _) as [d| |]; try done;
        by apply bool_decide_eq_true in Hval. }
    apply (Open_line_assignment_general name (to_string_float f) FLOAT);
      [done | done | done | done | by right | done | done |].
    unfold BgeConfig.make_property. rewrite Hs. simpl. by rewrite Hc.
  - (* BOOL *)
    destruct b.
    + apply (Open_line_assignment_general name (lit "true") BOOL);
        [done | done | done | done | by right
        | by apply (bracketed_last _ _ "e"%char) | done | done].
    + apply (Open_line_assignment_general name (lit "false") BOOL);
        [done | done | done | done | by right
        | by apply (bracketed_last _ _ "e"%char) | done | done].
  - (* INT *)
    apply andb_prop in Hval as [H1%Z.leb_le H2%Z.leb_le].
    destruct (to_string_int_text i) as (Ha & Hb & Hc & _ & He).
    apply (Open_line_assignment_general name (to_string_int i) INT);
      [done | done | done | done | by right | done
      | apply EstimateValueType_to_string_int |].
    unfold BgeConfig.make_property. by rewrite stoi_to_string_int.
Qed.

(** ** Reading back what [Save] wrote *)

Module RoundTrip.
Import BgeConfigSection SectionFacts PointerFacts DocumentFacts.

Lemma Ret_bind {A B : Type} (a : A) (k : A -> outcome B) : Ret a ≫= k = k a.
Proof. reflexivity. Qed.

Ltac same_tree :=
  match goal with
  | |- Ret (of_section ?a, ?c) = Ret (of_section ?b, ?c) =>
      apply (f_equal (fun x => Ret (of_section x, c)))
  end.

Lemma Open_loop_app l1 l2 st :
  BgeConfig.Open_loop (l1 ++ l2) st =
  BgeConfig.Open_loop l1 st ≫= BgeConfig.Open_loop l2.
Proof.
  revert st. induction l1 as [|line l1 IH]; intros st; [done|].
  simpl. destruct (BgeConfig.Open_line line st) as [st'| |]; [apply IH | done..].
Qed.

Lemma reopened_property_Name p :
  BgeConfigProperty.Name (reopened_property p) = BgeConfigProperty.Name p.
Proof. unfold reopened_property. by destruct (BgeConfigProperty.Type_ p). Qed.

Lemma reopened_section_Name s : Name (reopened_section s) = Name s.
Proof. by destruct s. Qed.

Lemma set_Name_same property :
  BgeConfigProperty.set_Name (BgeConfigProperty.Name property) property = property.
Proof. by destruct property. Qed.

Lemma AddProperty_plain property X :
  property_name (BgeConfigProperty.Name property) = true ->
  HasProperty_here (BgeConfigProperty.Name property) X = false ->
  AddProperty (BgeConfigProperty.Name property) property X =
  push_property property X.
Proof.
  intros Hp Hh. unfold AddProperty.
  rewrite split_path_dotfree by (by apply property_name_dotfree). simpl.
  rewrite bool_decide_eq_false_2 by (by apply property_name_nonempty).
  by rewrite Hh, set_Name_same.
Qed.

Lemma alter_at_id f q s :
  (forall x, deref q s = Some x -> f x = x) -> alter_at f q s = s.
Proof.
  intros H. rewrite (alter_at_ext f (fun x => x) q s H).
  clear. revert s. induction q as [|i q IH]; intros s; simpl; [done|].
  unfold alter_nested. destruct s as [n nested ps]; simpl. f_equal.
  by apply list_alter_id.
Qed.

Lemma deref_app q q' s : deref (q ++ q') s = deref q s ≫= deref q'.
Proof.
  revert s. induction q as [|i q IH]; intros s; simpl; [done|].
  destruct (mNestedSections s !! i); [apply IH | done].
Qed.

Lemma store_property_section property T q X :
  Name T = [] -> deref q T = Some X ->
  property_name (BgeConfigProperty.Name property) = true ->
  HasProperty_here (BgeConfigProperty.Name property) X = false ->
  store_property property (of_section T, current_of q) =
    Ret (of_section (alter_at (push_property property) q T), current_of q).
Proof.
  intros HT Hq Hp Hh. destruct q as [|i q].
  - simpl in Hq. simplify_eq. unfold store_property; simpl. do 2 f_equal.
    pose proof (AddProperty_plain property X Hp Hh) as E.
    unfold AddProperty in E. unfold BgeConfig.AddProperty.
    by rewrite AddProperty_path_section, as_section_of_section_root, E.
  - unfold store_property. cbn [fst snd current_of].
    change (BgeConfig.deref (i :: q) (of_section T)) with (deref (i :: q) T).
    rewrite Hq. do 2 f_equal.
    change (BgeConfig.alter_at ?f (i :: q) (of_section T))
      with (of_section (alter_at f (i :: q) T)).
    f_equal. apply alter_at_ext. intros x Hx. rewrite Hq in Hx. simplify_eq.
    by apply AddProperty_plain.
Qed.

Lemma not_in_names_property name X :
  name <> [] ->
  name ∉ BgeConfigProperty.Name <$> mProperties X -> HasProperty_here name X = false.
Proof.
  intros Hn Hin. unfold HasProperty_here. rewrite bool_decide_eq_false_2 by done.
  apply (find_name_None BgeConfigProperty.Name) in Hin.
  unfold GetPropertyIterator. by rewrite Hin.
Qed.

Lemma not_in_names_section name X :
  name <> [] ->
  name ∉ Name <$> mNestedSections X -> HasSubSection_here name X = false.
Proof.
  intros Hn Hin. unfold HasSubSection_here. rewrite bool_decide_eq_false_2 by done.
  apply (find_name_None Name) in Hin.
  unfold GetSectionIterator. by rewrite Hin.
Qed.

(** The property lines of a section, read into the current section. *)
Lemma run_properties props :
  forall T q X,
    Name T = [] -> deref q T = Some X ->
    Forall (fun p => round_trip_property p = true) props ->
    NoDup (BgeConfigProperty.Name <$> (mProperties X ++ props)) ->
    BgeConfig.Open_loop (map BgeConfigProperty.Save props) (of_section T, current_of q) =
      Ret (of_section (alter_at (add_properties (map reopened_property props)) q T),
           current_of q).
Proof.
  induction props as [|p props IH]; intros T q X HT Hq Hall Hnd.
  - simpl. rewrite alter_at_id; [done|]. intros x _.
    unfold add_properties. destruct x; simpl. by rewrite app_nil_r.
  - apply Forall_cons in Hall as [Hp Hall].
    assert (property_name (BgeConfigProperty.Name p) = true) as Hname
      by (by apply andb_prop in Hp as [? _]).
    cbn [map BgeConfig.Open_loop].
    rewrite Open_line_Save_property by done.
    rewrite (store_property_section _ T q X HT Hq).
    2:{ by rewrite reopened_property_Name. }
    2:{ rewrite reopened_property_Name. apply not_in_names_property.
        - by apply property_name_nonempty.
        - rewrite fmap_app, fmap_cons in Hnd. apply NoDup_app in Hnd as (_ & Hd & _).
          intros Hin. apply (Hd _ Hin). by left. }
    rewrite Ret_bind.
    rewrite (IH _ q (push_property (reopened_property p) X)).
    + same_tree. rewrite alter_at_alter_at. apply alter_at_ext. intros x _.
      unfold add_properties, push_property; simpl. by rewrite <- app_assoc.
    + by rewrite alter_at_Name.
    + by rewrite deref_alter_at, Hq.
    + done.
    + simpl. rewrite <- app_assoc. simpl.
      rewrite !fmap_app, !fmap_cons, reopened_property_Name.
      by rewrite fmap_app, fmap_cons in Hnd.
Qed.

Lemma run_children todo :
  Forall section_round_trips todo ->
  forall pfx q T X cur,
    Name T = [] -> Forall (fun seg => section_name seg = true) pfx ->
    resolve pfx T = Some q -> deref q T = Some X ->
    Forall (fun c => Name c <> []) todo ->
    NoDup (Name <$> (mNestedSections X ++ todo)) ->
    exists cur',
      BgeConfig.Open_loop (flat_map (fun c => Save c (join_path pfx)) todo)
        (of_section T, cur) =
        Ret (of_section (alter_at (add_sections (map reopened_section todo)) q T), cur').
Proof.
  induction 1 as [|c todo Hc _ IH]; intros pfx q T X cur HT Hpfx Hr Hq Hne Hnd.
  - exists cur. simpl. rewrite alter_at_id; [done|]. intros x _.
    unfold add_sections. destruct x; simpl. by rewrite app_nil_r.
  - apply Forall_cons in Hne as [Hcne Hne].
    cbn [flat_map]. rewrite Open_loop_app.
    destruct (Hc pfx q T X cur HT Hpfx Hr Hq) as [cur1 E1].
    { apply not_in_names_section; [done|].
      rewrite fmap_app, fmap_cons in Hnd. apply NoDup_app in Hnd as (_ & Hd & _).
      intros Hin. apply (Hd _ Hin). by left. }
    rewrite E1.
    rewrite Ret_bind.
    destruct (IH pfx q (alter_at (push_section (reopened_section c)) q T)
                (push_section (reopened_section c) X) cur1) as [cur2 E2].
    + by rewrite alter_at_Name.
    + done.
    + by apply resolve_alter_at.
    + by rewrite deref_alter_at, Hq.
    + done.
    + simpl. rewrite <- app_assoc. simpl.
      rewrite !fmap_app, !fmap_cons, reopened_section_Name.
      by rewrite fmap_app, fmap_cons in Hnd.
    + exists cur2. rewrite E2. same_tree.
      rewrite alter_at_alter_at. apply alter_at_ext. intros x _.
      unfold add_sections, push_section; simpl. by rewrite <- app_assoc.
Qed.

Lemma Open_line_blank st : BgeConfig.Open_line [] st = Ret st.
Proof. by destruct st. Qed.

Lemma current_of_snoc q k : current_of (q ++ [k]) = Some (q ++ [k]).
Proof. by destruct q. Qed.

Lemma round_trip_section_unfold s :
  round_trip_section s = true ->
  section_name (Name s) = true /\
  Forall (fun p => round_trip_property p = true) (mProperties s) /\
  Forall (fun c => round_trip_section c = true) (mNestedSections s).
Proof.
  destruct s as [n nested props]; simpl.
  intros [[Hn Hp]%andb_prop Hc]%andb_prop. split_and!; [done | |].
  - apply Forall_forall. intros x Hx%list_elem_of_In.
    rewrite forallb_forall in Hp. auto.
  - apply Forall_forall. intros x Hx%list_elem_of_In.
    rewrite forallb_forall in Hc. auto.
Qed.

Lemma Save_unfold n nested props pfx :
  Forall (fun seg => section_name seg = true) pfx ->
  Save (mk n nested props) (join_path pfx) =
    (lit "[" ++ join_path (pfx ++ [n]) ++ lit "]") ::
    map BgeConfigProperty.Save props ++ [[]] ++
    flat_map (fun c => Save c (join_path (pfx ++ [n]))) nested.
Proof.
  intros Hpfx.
  assert (Forall (fun seg : list ascii => seg <> []) pfx) as Hne
    by (eapply Forall_impl; [done | apply section_name_nonempty]).
  cbn [Save]. rewrite <- (join_path_snoc pfx n Hne).
  f_equal. by rewrite <- app_assoc.
Qed.

(** Every section of a tree with unique names that are read back as they
    are is read back where it belongs. *)
Lemma run_section s :
  round_trip_section s = true -> unique_names s -> section_round_trips s.
Proof.
  revert s.
  apply (section_induction (fun s =>
    round_trip_section s = true -> unique_names s -> section_round_trips s)).
  intros n nested props IH Hrt Hu pfx q T P cur HT Hpfx Hr Hq Hfresh.
  apply round_trip_section_unfold in Hrt as (Hn & Hprops & Hnested).
  apply unique_names_unfold in Hu as (Hu1 & Hu2 & Hu3).
  rewrite Save_unfold by done.
  cbn [Name mNestedSections mProperties] in *.
  pose proof (section_name_nonempty _ Hn) as Hnne.
  set (k := length (mNestedSections P)).
  set (T1 := alter_at (push_section (new n)) q T).
  assert (Name T1 = []) as HT1 by (subst T1; by rewrite alter_at_Name).
  assert (deref (q ++ [k]) T1 = Some (new n)) as Hq1.
  { subst T1 k. rewrite deref_app, deref_alter_at, Hq. simpl.
    by rewrite lookup_app_r, Nat.sub_diag by lia. }
  assert (resolve (pfx ++ [n]) T1 = Some (q ++ [k])) as Hr1
    by (by apply resolve_snoc_push).
  assert (Forall (fun seg => section_name seg = true) (pfx ++ [n])) as Hpfx1
    by (apply Forall_app; split; [done | by constructor]).
  (* the header *)
  cbn [BgeConfig.Open_loop].
  rewrite Open_line_Save_header by (done || by destruct pfx).
  rewrite AddSection_path_section, as_section_of_section_root by done.
  rewrite (AddSubSection_path_snoc_fresh pfx n T q P) by done.
  fold k T1. rewrite Ret_bind, <- current_of_snoc.
  (* the properties and the blank line *)
  rewrite Open_loop_app.
  rewrite (run_properties props T1 (q ++ [k]) (new n)) by done.
  rewrite Ret_bind. set (T2 := alter_at _ (q ++ [k]) T1).
  change ([[]] ++ ?l) with ([] :: l). cbn [BgeConfig.Open_loop].
  rewrite Open_line_blank, Ret_bind.
  (* the nested sections *)
  destruct (run_children nested) with
    (pfx := pfx ++ [n]) (q := q ++ [k]) (T := T2)
    (X := add_properties (map reopened_property props) (new n))
    (cur := current_of (q ++ [k])) as [cur' E].
  - apply Forall_forall. intros c Hc.
    rewrite Forall_forall in IH, Hnested, Hu3. by apply IH; auto.
  - subst T2. by rewrite alter_at_Name.
  - done.
  - subst T2. by apply resolve_alter_at.
  - subst T2. by rewrite deref_alter_at, Hq1.
  - eapply Forall_impl; [exact Hnested|]. intros c Hc.
    apply round_trip_section_unfold in Hc as (Hc & _). by apply section_name_nonempty.
  - done.
  - exists cur'. rewrite E. same_tree.
    subst T2 T1. rewrite alter_at_alter_at.
    rewrite (alter_at_push _ q T P (new n)) by done.
    apply alter_at_ext. intros x _. f_equal.
Qed.

(** A file that [Save] wrote for a tree of the supported kind is read back
    as the reopened tree. *)
Lemma Open_written_Save cfg cfg0 :
  round_trip_config cfg = true -> unique_names (as_section cfg) ->
  BgeConfig.Open (written_file (BgeConfig.Save cfg)) cfg0 = Ret (reopened cfg).
Proof.
  intros Hrt Hu.
  unfold round_trip_config in Hrt. apply andb_prop in Hrt as [Hp Hs].
  apply unique_names_unfold in Hu as (Hu1 & Hu2 & Hu3).
  destruct cfg as [props secs]. cbn [as_section BgeConfigSection.mProperties
    BgeConfigSection.mNestedSections BgeConfig.mProperties BgeConfig.mSections] in *.
  unfold BgeConfig.Open, written_file, BgeConfig.Save. cbn [BgeFile.Ready negb BgeFile.Lines
    BgeConfig.mProperties BgeConfig.mSections BgeConfig.Close].
  set (T0 := BgeConfigSection.mk [] [] []).
  change (BgeConfig.Close cfg0) with (of_section T0).
  change (@None (list nat)) with (current_of []).
  rewrite Open_loop_app.
  rewrite (run_properties props T0 [] T0); [|done | done | | done].
  2:{ apply Forall_forall. intros x Hx%list_elem_of_In.
      rewrite forallb_forall in Hp. auto. }
  rewrite Ret_bind, Open_loop_app.
  assert (BgeConfig.Open_loop (if bool_decide (props = []) then [] else [[]])
            (of_section
               (BgeConfigSection.alter_at
                  (add_properties (map reopened_property props)) [] T0),
             current_of []) =
          Ret (of_section
                 (BgeConfigSection.alter_at
                    (add_properties (map reopened_property props)) [] T0),
               current_of [])) as -> by (by case_bool_decide).
  rewrite Ret_bind.
  destruct (run_children secs) with
    (pfx := @nil (list ascii)) (q := @nil nat)
    (T := BgeConfigSection.alter_at
            (add_properties (map reopened_property props)) [] T0)
    (X := add_properties (map reopened_property props) T0)
    (cur := current_of []) as [cur' E]; try done.
  - apply Forall_forall. intros c Hc.
    rewrite Forall_forall in Hu3. rewrite forallb_forall in Hs.
    apply run_section; [apply Hs; by apply list_elem_of_In | by apply Hu3].
  - apply Forall_forall. intros c Hc%list_elem_of_In.
    rewrite forallb_forall in Hs. apply Hs in Hc.
    apply round_trip_section_unfold in Hc as (Hc & _).
    by apply section_name_nonempty.
  - change (join_path []) with (@nil ascii) in E. rewrite E. reflexivity.
Qed.

End RoundTrip.

(** *** The lines [Save] writes hold no line terminator *)

Module WrittenLines.
Import BgeConfigSection.

Lemma join_path_no_newline segs :
  Forall (fun seg => section_name seg = true) segs -> no_newline (join_path segs).
Proof.
  induction segs as [|a [|b rest] IH]; intros Hall; [by constructor| |].
  - apply Forall_inv in Hall. by apply section_name_spec in Hall as (_ & _ & ? & _).
  - apply Forall_cons in Hall as [Ha Hall].
    change (join_path (a :: b :: rest)) with (a ++ lit "." ++ join_path (b :: rest)).
    apply Forall_app. split; [by apply section_name_spec in Ha as (_ & _ & ? & _)|].
    apply Forall_app. split; [by repeat constructor | by apply IH].
Qed.

Lemma property_line_no_newline p :
  round_trip_property p = true -> no_newline (BgeConfigProperty.Save p).
Proof.
  unfold round_trip_property. intros [Hname Hval]%andb_prop.
  unfold BgeConfigProperty.Save.
  apply Forall_app. split; [by apply property_name_spec in Hname as (_ & _ & _ & ? & _)|].
  apply Forall_app. split; [by repeat constructor|].
  destruct p as [ty name str i f b]; simpl in *. destruct ty.
  - apply bool_decide_eq_true in Hval. subst. constructor.
  - apply andb_prop in Hval as [Hval _]. unfold plain_text in Hval.
    apply andb_prop in Hval as [[[[_ Heq]%andb_prop _]%andb_prop _]%andb_prop _].
    apply Forall_forall. intros x Hx%list_elem_of_In ->.
    rewrite forallb_forall in Heq. by apply Heq in Hx.
  - assert (match f with fp_zero _ | fp_finite _ _ _ => True | _ => False end) as Hf
      by (by destruct f).
    by destruct (to_string_float_text f Hf) as (_ & _ & _ & _ & ? & _).
  - destruct b; by repeat constructor.
  - by destruct (to_string_int_text i) as (_ & _ & _ & ? & _).
Qed.

Lemma section_lines_no_newline s :
  round_trip_section s = true ->
  forall pfx, Forall (fun seg => section_name seg = true) pfx ->
  Forall no_newline (Save s (join_path pfx)).
Proof.
  revert s. apply (PointerFacts.section_induction (fun s =>
    round_trip_section s = true ->
    forall pfx, Forall (fun seg => section_name seg = true) pfx ->
    Forall no_newline (Save s (join_path pfx)))).
  intros n nested props IH Hrt pfx Hpfx.
  apply RoundTrip.round_trip_section_unfold in Hrt as (Hn & Hprops & Hnested).
  rewrite RoundTrip.Save_unfold by done.
  cbn [Name mNestedSections mProperties] in *.
  assert (Forall (fun seg => section_name seg = true) (pfx ++ [n])) as Hpfx1
    by (apply Forall_app; split; [done | by constructor]).
  constructor.
  { apply Forall_app. split; [by repeat constructor|].
    apply Forall_app. split; [by apply join_path_no_newline | by repeat constructor]. }
  apply Forall_app. split.
  { apply Forall_forall. intros line (p & <- & Hp)%list_elem_of_In%in_map_iff.
    apply property_line_no_newline. rewrite Forall_forall in Hprops.
    by apply Hprops, list_elem_of_In. }
  apply Forall_app. split; [by repeat constructor|].
  apply Forall_forall. intros line (c & Hc & Hline)%list_elem_of_In%in_flat_map.
  rewrite Forall_forall in IH, Hnested.
  apply list_elem_of_In in Hc. specialize (IH c Hc (Hnested c Hc) _ Hpfx1).
  rewrite Forall_forall in IH. by apply IH, list_elem_of_In.
Qed.

Lemma Save_no_newline cfg :
  round_trip_config cfg = true -> Forall no_newline (BgeConfig.Save cfg).
Proof.
  unfold round_trip_config. intros [Hp Hs]%andb_prop. unfold BgeConfig.Save.
  apply Forall_app. split.
  { apply Forall_forall. intros line (p & <- & Hin)%list_elem_of_In%in_map_iff.
    apply property_line_no_newline. rewrite forallb_forall in Hp. auto. }
  apply Forall_app. split; [case_bool_decide; by repeat constructor|].
  apply Forall_forall. intros line (c & Hc & Hline)%list_elem_of_In%in_flat_map.
  rewrite forallb_forall in Hs.
  pose proof (section_lines_no_newline c (Hs c Hc) [] (Forall_nil_2 _)) as H.
  rewrite Forall_forall in H. by apply H, list_elem_of_In.
Qed.

End WrittenLines.

(** *** Lookups in the tree that was read back *)

Module ReopenedFacts.
Import BgeConfigSection SectionFacts.

Lemma reopened_section_unfold s :
  reopened_section s =
  mk (Name s) (map reopened_section (mNestedSections s))
    (map reopened_property (mProperties s)).
Proof. by destruct s. Qed.

Lemma value_of_reopened p :
  value_of (reopened_property p) = value_of p /\
  BgeConfigProperty.Type_ (reopened_property p) = BgeConfigProperty.Type_ p /\
  BgeConfigProperty.Name (reopened_property p) = BgeConfigProperty.Name p.
Proof.
  unfold reopened_property, value_of.
  destruct p as [ty name str i f b]; simpl. by destruct ty.
Qed.

Lemma GetSubSection_here_reopened name s :
  GetSubSection_here name (reopened_section s) =
  prod_map id reopened_section <$> GetSubSection_here name s.
Proof.
  unfold GetSubSection_here. case_bool_decide; [done|].
  unfold GetSectionIterator. rewrite reopened_section_unfold; simpl.
  change (map reopened_section (mNestedSections s))
    with (reopened_section <$> mNestedSections s).
  rewrite list_find_fmap. f_equal. apply list_find_ext.
  intros x. simpl. by rewrite RoundTrip.reopened_section_Name.
Qed.

Lemma Get_here_reopened name s :
  Get_here name (reopened_section s) = reopened_property <$> Get_here name s.
Proof.
  unfold Get_here. case_bool_decide; [done|].
  unfold GetPropertyIterator. rewrite reopened_section_unfold; simpl.
  change (map reopened_property (mProperties s))
    with (reopened_property <$> mProperties s).
  rewrite list_find_fmap.
  rewrite (list_find_ext _ (fun other => name = BgeConfigProperty.Name other))
    by (intros x; simpl; by rewrite RoundTrip.reopened_property_Name).
  by destruct (list_find _ (mProperties s)) as [[i p]|].
Qed.

Lemma Get_path_reopened segs s :
  Get_path segs (reopened_section s) = reopened_property <$> Get_path segs s.
Proof.
  revert s. induction segs as [|a [|b rest] IH]; intros s; [done| |].
  - apply Get_here_reopened.
  - rewrite !Get_path_cons, GetSubSection_here_reopened.
    destruct (GetSubSection_here a s) as [[i sub]|]; [apply IH | done].
Qed.

Lemma HasSubSection_path_reopened segs s :
  HasSubSection_path segs (reopened_section s) = HasSubSection_path segs s.
Proof.
  revert s. induction segs as [|a [|b rest] IH]; intros s; [done| |].
  - simpl. unfold HasSubSection_here. case_bool_decide; [done|].
    pose proof (GetSubSection_here_reopened a s) as E.
    unfold GetSubSection_here in E. rewrite bool_decide_eq_false_2 in E by done.
    rewrite E. by destruct (GetSectionIterator a s).
  - rewrite !HasSubSection_path_cons, GetSubSection_here_reopened.
    destruct (GetSubSection_here a s) as [[i sub]|]; [apply IH | done].
Qed.

End ReopenedFacts.

Lemma C7_trees_that_are_not_read_back_cex :
  (* a text of digits: built by [Open] itself, read back as an [INT] *)
  (BgeConfig.Open
     (BgeFile.mk true [lit "key = " ++ ["034"%char] ++ lit "123" ++ ["034"%char]])
     BgeConfig.new = Ret quoted_digits /\
   round_trip_config quoted_digits = false /\
   sentinel_free quoted_digits = true /\
   unique_names (as_section quoted_digits) /\
   BgeConfig.Save quoted_digits = [lit "key = 123"; []] /\
   saved_and_opened quoted_digits =
     Ret (root_property (BgeConfigProperty.mk INT (lit "key") (lit "123") 123 0%fp false)) /\
   value_of <$> BgeConfig.Get (lit "key") quoted_digits = Some (VString (lit "123")) /\
   (st ← saved_and_opened quoted_digits;
    Ret (value_of <$> BgeConfig.Get (lit "key") st)) = Ret (Some (VInt 123))) /\
  (* names: a dot, a space at the end, a comment start, a header look-alike,
     a carriage return alone *)
  saved_and_opened
    (root_property (BgeConfigProperty.mk INT (lit "a.b") [] 1 0%fp false)) =
    Ret (BgeConfig.mk []
           [BgeConfigSection.mk (lit "a") []
              [BgeConfigProperty.mk INT (lit "b") (lit "1") 1 0%fp false]]) /\
  saved_and_opened
    (root_property (BgeConfigProperty.mk INT (lit "k ") [] 1 0%fp false)) =
    Ret (root_property (BgeConfigProperty.mk INT (lit "k") (lit "1") 1 0%fp false)) /\
  saved_and_opened
    (root_property (BgeConfigProperty.mk INT (lit "a//b") [] 1 0%fp false)) =
    Ret BgeConfig.new /\
  saved_and_opened
    (root_property (BgeConfigProperty.mk STRING (lit "[k") (lit "v]") 0 0%fp false)) =
    Ret (BgeConfig.mk [] [BgeConfigSection.new (lit "k = v")]) /\
  saved_and_opened
    (root_property (BgeConfigProperty.mk INT ["013"%char] [] 1 0%fp false)) =
    Ret BgeConfig.new /\
  (* texts: an equals sign, a space at the end, quotes, a comment start *)
  saved_and_opened
    (root_property (BgeConfigProperty.mk STRING (lit "k") (lit "a=b") 0 0%fp false)) =
    Ret (root_property (BgeConfigProperty.mk STRING (lit "k = a") (lit "b") 0 0%fp false)) /\
  saved_and_opened
    (root_property (BgeConfigProperty.mk STRING (lit "k") (lit "v ") 0 0%fp false)) =
    Ret (root_property (BgeConfigProperty.mk STRING (lit "k") (lit "v") 0 0%fp false)) /\
  saved_and_opened
    (root_property (BgeConfigProperty.mk STRING (lit "k") (lit "'v'") 0 0%fp false)) =
    Ret (root_property (BgeConfigProperty.mk STRING (lit "k") (lit "v") 0 0%fp false)) /\
  saved_and_opened
    (root_property (BgeConfigProperty.mk STRING (lit "k") (lit "a//b") 0 0%fp false)) =
    Ret (root_property (BgeConfigProperty.mk STRING (lit "k") (lit "a") 0 0%fp false)) /\
  (* an [UNKNOWN] property with a text *)
  saved_and_opened
    (root_property (BgeConfigProperty.mk UNKNOWN (lit "k") (lit "v") 0 0%fp false)) =
    Ret (root_property (BgeConfigProperty.mk STRING (lit "k") (lit "v") 0 0%fp false)) /\
  (* a [float] below half a millionth, and an infinity *)
  saved_and_opened
    (root_property
       (BgeConfigProperty.mk FLOAT (lit "k") [] 0 (fp_finite false 14073749 (-47)) false)) =
    Ret (root_property (BgeConfigProperty.mk FLOAT (lit "k") (lit "0.000000") 0 0%fp false)) /\
  saved_and_opened
    (root_property (BgeConfigProperty.mk FLOAT (lit "k") [] 0 (fp_inf false) false)) =
    Ret (root_property (BgeConfigProperty.mk STRING (lit "k") (lit "inf") 0 0%fp false)) /\
  (* section names: empty, with a comment start, and with a dot *)
  saved_and_opened (BgeConfig.mk [] [BgeConfigSection.new []]) = Ret BgeConfig.new /\
  saved_and_opened (BgeConfig.mk [] [BgeConfigSection.new (lit "a//b")]) =
    Ret BgeConfig.new /\
  saved_and_opened dotted_root_section =
    Ret (BgeConfig.mk []
           [BgeConfigSection.mk (lit "General") [BgeConfigSection.new (lit "Editor")] []]) /\
  (* a name used twice *)
  saved_and_opened
    (BgeConfig.mk [BgeConfigProperty.mk INT (lit "k") [] 1 0%fp false;
                   BgeConfigProperty.mk INT (lit "k") [] 2 0%fp false] []) =
    Ret (root_property (BgeConfigProperty.mk INT (lit "k") (lit "1") 1 0%fp false)).
Proof.
  split; [|repeat split; vm_compute; reflexivity].
  split_and!; try (vm_compute; reflexivity).
  simpl. split_and!; try done; [apply NoDup_singleton | apply NoDup_nil_2].
Qed.

(** C7 (amended). A document in which no name is the section-end token,
    the names are unique per level, every section name is not empty and
    holds no ['.'], newline or ["//"], every property name is left as it is
    by [StringTrimLeading] and holds no ['.'], newline or ["//"], and every
    property is [INT] within the range of [int], [BOOL], [UNKNOWN] with an
    empty text, [FLOAT] with a value that its text of six decimals gives
    back, or [STRING] with a text that is classified [STRING], is left as it
    is by [StringTrimLeading], holds no ['='], newline or ["//"] and no
    quote at either end, and does not close a bracket that the name opens,
    is read back by [Open] from the lines [Save] wrote, none of which holds
    a newline, as the tree [reopened cfg], whatever the document held
    before: the same sections with the same names and nesting, the same
    property names in the same order, each with its type and typed value.
    Every dotted path finds a property of the same type and typed value, and
    the same sections exist, in both trees. *)
Theorem C7_save_then_open (cfg cfg0 : BgeConfig.t) :
  round_trip_config cfg = true ->
  sentinel_free cfg = true ->
  unique_names (as_section cfg) ->
  Forall no_newline (BgeConfig.Save cfg) /\
  BgeConfig.Open (written_file (BgeConfig.Save cfg)) cfg0 = Ret (reopened cfg) /\
  (forall path,
     value_of <$> BgeConfig.Get path (reopened cfg) =
     value_of <$> BgeConfig.Get path cfg) /\
  (forall path,
     BgeConfig.HasSection path (reopened cfg) = BgeConfig.HasSection path cfg).
Proof.
  intros Hrt _ Hu. split_and!.
  - by apply WrittenLines.Save_no_newline.
  - by apply RoundTrip.Open_written_Save.
  - intros path. unfold BgeConfig.Get. rewrite !DocumentFacts.Get_path_section.
    change (as_section (reopened cfg)) with (reopened_section (as_section cfg)).
    rewrite ReopenedFacts.Get_path_reopened.
    destruct (BgeConfigSection.Get_path _ (as_section cfg)) as [p|]; [|done].
    simpl. f_equal. apply ReopenedFacts.value_of_reopened.
  - intros path. unfold BgeConfig.HasSection.
    rewrite !DocumentFacts.HasSection_path_section.
    change (as_section (reopened cfg)) with (reopened_section (as_section cfg)).
    apply ReopenedFacts.HasSubSection_path_reopened.
Qed.

Lemma C7_save_then_open_witness :
  round_trip_config wide_config = true /\
  sentinel_free wide_config = true /\
  unique_names (as_section wide_config) /\
  BgeConfig.Open (written_file (BgeConfig.Save wide_config)) one_property =
    Ret (reopened wide_config).
Proof.
  assert (round_trip_config wide_config = true) as H1 by (vm_compute; reflexivity).
  assert (sentinel_free wide_config = true) as H2 by (vm_compute; reflexivity).
  assert (unique_names (as_section wide_config)) as H3.
  { simpl. repeat split; apply (bool_decide_unpack _); vm_compute; exact I. }
  split_and!; [done | done | done |].
  exact (proj1 (proj2 (C7_save_then_open wide_config one_property H1 H2 H3))).
Defined.

(** ** Further properties of the parser and of the addressing *)

(** The classifier answers for every token: the empty token is decided
    before [StringIsNumber] and [StringIsFloat] read the first character. *)
Theorem EstimateValueType_total (value : std_string) :
  exists ty, EstimateValueType value = Ret ty.
Proof.
  rewrite EstimateValueType_order. repeat case_match; by eexists.
Qed.

(** Comments, quotes and lines without an assignment, on the examples of the
    specification. *)
Theorem Open_examples :
  BgeConfig.Open (BgeFile.mk true [lit "key = 5 // comment"]) BgeConfig.new =
    Ret (BgeConfig.mk [BgeConfigProperty.mk INT (lit "key") (lit "5") 5 0%fp false] []) /\
  BgeConfig.Open
    (BgeFile.mk true [lit "key = " ++ ["034"%char] ++ lit "hello" ++ ["034"%char]])
    BgeConfig.new =
    Ret (BgeConfig.mk
           [BgeConfigProperty.mk STRING (lit "key") (lit "hello") 0 0%fp false] []) /\
  BgeConfig.Open (BgeFile.mk true [lit "key = hello"]) BgeConfig.new =
    Ret (BgeConfig.mk
           [BgeConfigProperty.mk STRING (lit "key") (lit "hello") 0 0%fp false] []) /\
  BgeConfig.Open
    (BgeFile.mk true [lit "[S]"; lit "a = 1"; lit "not a kv pair"; lit "b = 2"])
    BgeConfig.new =
    Ret (BgeConfig.mk []
           [BgeConfigSection.mk (lit "S") []
              [BgeConfigProperty.mk INT (lit "a") (lit "1") 1 0%fp false;
               BgeConfigProperty.mk INT (lit "b") (lit "2") 2 0%fp false]]).
Proof. repeat split; vm_compute; reflexivity. Qed.

(** A line that is neither empty once cleaned, nor a header, and holds no
    ['='], leaves the document and the current section as they are. *)
Theorem Open_line_malformed (line : std_string) (st : BgeConfig.parser_state) :
  BgeConfig.is_header (StringTrimLeading (StringTrimComment line)) = Ret false ->
  find_last_of "=" (StringTrimLeading (StringTrimComment line)) = None ->
  BgeConfig.Open_line line st = Ret st.
Proof.
  intros Hh Hf. destruct st as [cfg cur]. unfold BgeConfig.Open_line.
  destruct (length line <? 1)%nat; [done|].
  destruct (str_eqb (substr line 0 2) (lit "//")); [done|].
  rewrite Hh, RoundTrip.Ret_bind.
  by rewrite (section_end_branch_unreachable _ Hh), Hf.
Qed.

Lemma Open_line_malformed_witness :
  BgeConfig.Open_line (lit "  not a kv pair // really") (one_property, Some [0%nat]) =
    Ret (one_property, Some [0%nat]).
Proof. apply Open_line_malformed; reflexivity. Defined.

(** *** Every prefix of a path that was added exists *)

Lemma HasSubSection_path_prefix segs k s :
  (1 <= k)%nat ->
  BgeConfigSection.HasSubSection_path segs s = true ->
  BgeConfigSection.HasSubSection_path (take k segs) s = true.
Proof.
  revert k s. induction segs as [|a [|b rest] IH]; intros k s Hk; [done| |].
  - destruct k as [|[|k]]; [lia | done | done].
  - destruct k as [|[|k]]; [lia | |].
    + rewrite SectionFacts.HasSubSection_path_cons. simpl.
      destruct (BgeConfigSection.GetSubSection_here a s) as [[i sub]|] eqn:E; [|done].
      intros _. by apply SectionFacts.GetSubSection_here_Some in E as (? & _).
    + change (take (S (S k)) (a :: b :: rest)) with (a :: take (S k) (b :: rest)).
      rewrite SectionFacts.HasSubSection_path_cons.
      destruct (BgeConfigSection.GetSubSection_here a s) as [[i sub]|] eqn:E; [|done].
      intros H. apply (IH (S k)) in H; [|lia].
      destruct (take (S k) (b :: rest)) as [|b' rest'] eqn:Et; [done|].
      by rewrite SectionFacts.HasSubSection_path_cons, E.
Qed.

(** After [AddSubSection] or [AddSection] with a path without an empty
    segment, the section exists at the path and at every path made of its
    first segments. *)
Theorem AddSubSection_creates_every_prefix
    (path : std_string) (s : BgeConfigSection.t) (cfg : BgeConfig.t) (k : nat) :
  proper_path path = true ->
  (1 <= k)%nat ->
  (exists s1 p,
     BgeConfigSection.AddSubSection path s = Ret (s1, Some p) /\
     BgeConfigSection.HasSubSection path s1 = true /\
     BgeConfigSection.HasSubSection_path (take k (split_path path)) s1 = true) /\
  (exists cfg1 p,
     BgeConfig.AddSection path cfg = Ret (cfg1, Some p) /\
     BgeConfig.HasSection path cfg1 = true /\
     BgeConfig.HasSection_path (take k (split_path path)) cfg1 = true).
Proof.
  intros Hpath Hk.
  assert (forall s0, exists s1 p,
     BgeConfigSection.AddSubSection path s0 = Ret (s1, Some p) /\
     BgeConfigSection.Name s1 = BgeConfigSection.Name s0 /\
     BgeConfigSection.HasSubSection path s1 = true /\
     BgeConfigSection.HasSubSection_path (take k (split_path path)) s1 = true) as H.
  { intros s0. unfold BgeConfigSection.AddSubSection, BgeConfigSection.HasSubSection.
    destruct (SectionFacts.AddSubSection_path_proper (split_path path) s0)
      as (s1 & p & E1 & E2);
      [apply split_path_nonempty | by apply proper_path_Forall |].
    assert (BgeConfigSection.HasSubSection_path (split_path path) s1 = true) as Hh
      by (apply SectionFacts.HasSubSection_path_Get; by eexists).
    exists s1, p. split_and!; [done | | done |].
    - by eapply SectionFacts.AddSubSection_path_Name.
    - by apply HasSubSection_path_prefix. }
  split.
  - destruct (H s) as (s1 & p & ? & _ & ? & ?). by exists s1, p.
  - destruct (H (as_section cfg)) as (s1 & p & E & HN & H1 & H2).
    exists (of_section s1), p.
    unfold BgeConfig.AddSection, BgeConfig.HasSection.
    unfold BgeConfigSection.AddSubSection, BgeConfigSection.HasSubSection in *.
    rewrite DocumentFacts.AddSection_path_section, E.
    rewrite !DocumentFacts.HasSection_path_section.
    rewrite as_section_of_section_root by done. done.
Qed.

Lemma AddSubSection_creates_every_prefix_witness :
  exists cfg1 p,
    BgeConfig.AddSection (lit "A.B.C") BgeConfig.new = Ret (cfg1, Some p) /\
    BgeConfig.HasSection (lit "A.B.C") cfg1 = true /\
    BgeConfig.HasSection_path [lit "A"; lit "B"] cfg1 = true.
Proof.
  apply (AddSubSection_creates_every_prefix
           (lit "A.B.C") (BgeConfigSection.new []) BgeConfig.new 2);
    [reflexivity | lia].
Defined.

(** *** The names stay unique while a file is read *)

Lemma unique_names_alter_at f q s :
  (forall x, unique_names x -> unique_names (f x)) ->
  (forall x, BgeConfigSection.Name (f x) = BgeConfigSection.Name x) ->
  unique_names s -> unique_names (BgeConfigSection.alter_at f q s).
Proof.
  intros Hf HN. revert s. induction q as [|i q IH]; intros s Hu; simpl; [by apply Hf|].
  destruct (BgeConfigSection.mNestedSections s !! i) as [sub|] eqn:Hi.
  - eapply SectionFacts.unique_names_alter_nested; [done | done | |].
    + by apply PointerFacts.alter_at_Name.
    + apply IH. by eapply SectionFacts.unique_names_nested.
  - unfold BgeConfigSection.alter_nested.
    assert (alter (BgeConfigSection.alter_at f q) i (BgeConfigSection.mNestedSections s)
            = BgeConfigSection.mNestedSections s) as ->.
    { apply list_eq. intros j. destruct (decide (i = j)) as [->|].
      - by rewrite list_lookup_alter_eq, Hi.
      - by rewrite list_lookup_alter_ne. }
    by destruct s.
Qed.

Lemma Open_line_unique line st st' :
  unique_names (as_section st.1) ->
  BgeConfig.Open_line line st = Ret st' ->
  unique_names (as_section st'.1).
Proof.
  destruct st as [cfg cur]. cbn [fst]. intros Hu. unfold BgeConfig.Open_line.
  destruct (length line <? 1)%nat; [by intros [= <-]|].
  destruct (str_eqb (substr line 0 2) (lit "//")); [by intros [= <-]|].
  destruct (BgeConfig.is_header _) as [[|]| |]; [| |done..]; rewrite RoundTrip.Ret_bind.
  - destruct (negb _).
    + unfold BgeConfig.AddSection. rewrite DocumentFacts.AddSection_path_section.
      destruct (BgeConfigSection.AddSubSection_path _ _) as [[s1 p]| |] eqn:E; [|done..].
      intros [= <-]. cbn [fst].
      rewrite as_section_of_section_root
        by (by apply SectionFacts.AddSubSection_path_Name in E).
      by eapply SectionFacts.AddSubSection_path_unique.
    + by intros [= <-].
  - destruct (str_eqb _ _); [by intros [= <-]|].
    destruct (find_last_of _ _); [|by intros [= <-]].
    destruct (EstimateValueType _) as [ty| |]; [|done..]. rewrite RoundTrip.Ret_bind.
    destruct (BgeConfig.make_property _ _ _) as [property| |]; [|done..].
    rewrite RoundTrip.Ret_bind.
    destruct cur as [[|i q]|].
    + done.
    + destruct (BgeConfig.deref _ _); [|done]. intros [= <-]. cbn [fst].
      change (as_section (BgeConfig.alter_section (BgeConfigSection.alter_at ?f q) i cfg))
        with (BgeConfigSection.alter_at f (i :: q) (as_section cfg)).
      apply unique_names_alter_at; [|intros x; apply SectionFacts.AddProperty_path_Name | done].
      intros x Hx. by apply SectionFacts.AddProperty_path_unique.
    + intros [= <-]. cbn [fst]. unfold BgeConfig.AddProperty.
      rewrite DocumentFacts.AddProperty_path_section.
      rewrite as_section_of_section_root by apply SectionFacts.AddProperty_path_Name.
      by apply SectionFacts.AddProperty_path_unique.
Qed.

(** Whatever a ready file holds, the tree [Open] returns has unique property
    names and unique section names at every level. *)
Theorem Open_keeps_names_unique (lines : list std_string) (cfg0 : BgeConfig.t) :
  match BgeConfig.Open (BgeFile.mk true lines) cfg0 with
  | Ret cfg => unique_names (as_section cfg)
  | Throw _ | NullDeref => True
  end.
Proof.
  unfold BgeConfig.Open. cbn [BgeFile.Ready negb BgeFile.Lines].
  assert (forall st, unique_names (as_section st.1) ->
            match BgeConfig.Open_loop lines st with
            | Ret st' => unique_names (as_section st'.1)
            | _ => True
            end) as H.
  { induction lines as [|line lines IH]; intros st Hu; [done|].
    cbn [BgeConfig.Open_loop].
    destruct (BgeConfig.Open_line line st) as [st'| |] eqn:E; [|done..].
    rewrite RoundTrip.Ret_bind. apply IH. by eapply Open_line_unique. }
  specialize (H (BgeConfig.Close cfg0, None) (SectionFacts.unique_names_new [])).
  by destruct (BgeConfig.Open_loop lines _) as [st'| |].
Qed.

(** * The string helpers and the classifier in general *)

(** The text in front of the first ["//"]: no ["//"] starts in it, not
    even with its last character. *)
Lemma StringTrimComment_first pre text :
  has_comment_start (pre ++ lit "/") = false ->
  StringTrimComment (pre ++ lit "//" ++ text) = pre.
Proof.
  induction pre as [|c pre IH]; [done|]. intros H.
  change ((c :: pre) ++ lit "/") with (c :: (pre ++ lit "/")) in H.
  change ((c :: pre) ++ lit "//" ++ text) with (c :: (pre ++ lit "//" ++ text)).
  rewrite has_comment_start_cons in H. rewrite StringTrimComment_cons.
  destruct pre as [|c' pre'].
  - simpl in *. apply orb_false_iff in H as [H _]. by rewrite H.
  - change ((c' :: pre') ++ ?l) with (c' :: (pre' ++ l)) in *.
    apply orb_false_iff in H as [-> H]. f_equal. by apply IH.
Qed.

Lemma has_comment_start_snoc_slash str :
  has_comment_start str = false -> has_comment_start (str ++ lit "/") = true ->
  exists front, str = front ++ lit "/".
Proof.
  induction str as [|c str IH]; [done|]. intros H1 H2.
  destruct str as [|c' r].
  - simpl in H2. rewrite orb_false_r, andb_true_r in H2.
    apply Ascii.eqb_eq in H2 as ->. by exists [].
  - change ((c :: c' :: r) ++ lit "/") with (c :: c' :: (r ++ lit "/")) in H2.
    rewrite has_comment_start_cons in H1, H2.
    apply orb_false_iff in H1 as [E H1]. rewrite E in H2. cbn [orb] in H2.
    destruct (IH H1 H2) as [front ->]. by exists (c :: front).
Qed.

(** Comment removal cuts the line at its first ["//"]. A line without
    ["//"] is returned whole. A line [pre ++ "//" ++ text] in which no
    ["//"] starts before the one shown (none in [pre], and [pre] followed by
    one ['/'] holds none either) gives [pre]. In every case the line is the
    result followed by nothing or by a text that starts with that first
    ["//"], no ["//"] is left in the result, and a second removal changes
    nothing. *)
Theorem StringTrimComment_cuts_at_first_comment (str : std_string) :
  (has_comment_start str = false -> StringTrimComment str = str) /\
  (forall pre text,
     str = pre ++ lit "//" ++ text ->
     has_comment_start (pre ++ lit "/") = false ->
     StringTrimComment str = pre) /\
  (exists rest,
     str = StringTrimComment str ++ rest /\
     (rest = [] \/
      exists text,
        rest = lit "//" ++ text /\
        has_comment_start (StringTrimComment str ++ lit "/") = false)) /\
  has_comment_start (StringTrimComment str) = false /\
  StringTrimComment (StringTrimComment str) = StringTrimComment str.
Proof.
  destruct (StringTrimComment_decompose str) as ((rest & Hs & Hrest) & Hn & Hi).
  split_and!; [apply has_comment_start_StringTrimComment | | | done | done].
  - intros pre text -> H. by apply StringTrimComment_first.
  - exists rest. split; [done|]. destruct Hrest as [->|[text ->]]; [by left|].
    right. exists text. split; [done|].
    destruct (has_comment_start (StringTrimComment str ++ lit "/")) eqn:E; [|done].
    destruct (has_comment_start_snoc_slash _ Hn E) as [front Hf].
    exfalso. rewrite Hf in Hs, Hn.
    assert (StringTrimComment str = front) as Hc.
    { rewrite Hs at 1. rewrite <- app_assoc.
      by apply (StringTrimComment_first front ("/"%char :: text)). }
    rewrite Hc in Hf. apply (f_equal length) in Hf.
    rewrite length_app in Hf. simpl in Hf. lia.
Qed.

(** The line [a///b]: the cut is in front of the first of the three. *)
Lemma StringTrimComment_three_slashes :
  StringTrimComment (lit "a///b") = lit "a" /\
  has_comment_start (lit "a" ++ lit "/") = false /\
  has_comment_start (lit "a/" ++ lit "/") = true.
Proof. by vm_compute. Qed.

Lemma span_trim_loop_char str :
  exists pre rest,
    str = pre ++ rest /\ forallb trim_loop_char pre = true /\
    (rest = [] \/ exists c r, rest = c :: r /\ trim_loop_char c = false).
Proof.
  induction str as [|c str (pre & rest & -> & Hpre & Hrest)].
  - exists [], []. auto.
  - destruct (trim_loop_char c) eqn:E.
    + exists (c :: pre), rest. split_and!; [done | by simpl; rewrite E | done].
    + exists [], (c :: pre ++ rest). split_and!; [done..|]. right. by eexists _, _.
Qed.

Lemma forallb_trim_isspace l :
  forallb trim_loop_char l = true -> forallb isspace l = true.
Proof.
  rewrite !forallb_forall. intros H x Hx. by apply trim_loop_char_isspace, H.
Qed.

(** [StringTrimLeading] answers the empty string on a string made of the
    six white-space characters only; on any other string it removes the
    tabs, newlines and spaces of both ends, and only them: what is left
    begins and ends with another character. A second trim changes nothing. *)
Theorem StringTrimLeading_strips_both_ends (str : std_string) :
  (if forallb isspace str then StringTrimLeading str = []
   else
     exists pre post,
       str = pre ++ StringTrimLeading str ++ post /\
       forallb trim_loop_char pre = true /\
       forallb trim_loop_char post = true /\
       trimmed (StringTrimLeading str) = true) /\
  StringTrimLeading (StringTrimLeading str) = StringTrimLeading str.
Proof.
  destruct (forallb isspace str) eqn:Hsp.
  { assert (StringTrimLeading str = []) as ->.
    { unfold StringTrimLeading. apply find_first_not_of_None in Hsp. by rewrite Hsp. }
    done. }
  destruct (span_trim_loop_char str) as (pre & rest & -> & Hpre & Hrest).
  destruct Hrest as [-> | (c & r & -> & Hc)].
  { rewrite app_nil_r in Hsp. by rewrite (forallb_trim_isspace _ Hpre) in Hsp. }
  destruct (span_trim_loop_char (rev (c :: r))) as (post' & rest' & Hrev & Hpost & Hrest').
  apply (f_equal (@rev ascii)) in Hrev. rewrite rev_involutive, rev_app_distr in Hrev.
  destruct Hrest' as [-> | (d & r' & -> & Hd)].
  { simpl in Hrev. assert (In c (rev post')) as Hin by (rewrite <- Hrev; left; done).
    apply in_rev in Hin. rewrite forallb_forall in Hpost. apply Hpost in Hin. congruence. }
  set (core := rev (d :: r')) in *.
  assert (Hpost2 : forallb trim_loop_char (rev post') = true).
  { rewrite forallb_forall in *. intros x Hx%in_rev. auto. }
  assert (Hcore : trimmed core = true).
  { assert (exists t, core = c :: t) as [t Hct].
    { destruct core as [|x t] eqn:Ec.
      - subst core. simpl in Ec. by destruct (rev r').
      - simpl in Hrev. injection Hrev as -> _. by eexists. }
    assert (List.last core c = d) as Hl.
    { subst core. simpl. by rewrite last_last. }
    unfold trimmed. rewrite Hct. rewrite <- Hct, Hl, Hc, Hd. simpl.
    rewrite !andb_true_r. apply negb_true_iff.
    destruct (forallb isspace core) eqn:Hall; [|done].
    rewrite Hrev in Hsp. rewrite !forallb_app in Hsp.
    rewrite (forallb_trim_isspace _ Hpre), Hall, (forallb_trim_isspace _ Hpost2) in Hsp.
    done. }
  rewrite Hrev.
  rewrite (StringTrimLeading_spec pre core (rev post') Hpre Hpost2 Hcore).
  split; [| by apply StringTrimLeading_trimmed].
  by exists pre, (rev post').
Qed.
Lemma not_digit_iff c : not_digit c = false <-> is_digit c.
Proof.
  split; [apply not_digit_false|].
  unfold is_digit. simpl. intros H.
  repeat (destruct H as [<- | H]; [reflexivity|]). done.
Qed.

Lemma is_digit_not_dot c : is_digit c -> chr_eqb c "." = false.
Proof.
  unfold is_digit. simpl. intros H.
  repeat (destruct H as [<- | H]; [reflexivity|]). done.
Qed.

Lemma is_digit_not_sign c : is_digit c -> is_sign c = false.
Proof.
  unfold is_digit. simpl. intros H.
  repeat (destruct H as [<- | H]; [reflexivity|]). done.
Qed.

Lemma StringIsNumber_loop_iff l :
  StringIsNumber_loop l = true <-> Forall is_digit l.
Proof.
  induction l as [|c l IH]; simpl; [by split; [constructor|]|].
  destruct (not_digit c) eqn:E.
  - split; [done|]. intros [Hc%not_digit_iff _]%Forall_cons. congruence.
  - rewrite IH, Forall_cons. apply not_digit_iff in E. tauto.
Qed.

Lemma StringIsFloat_loop_seen_dot l :
  StringIsFloat_loop l true = true <-> Forall is_digit l.
Proof.
  induction l as [|c l IH]; simpl; [by split; [constructor|]|].
  destruct (chr_eqb c ".") eqn:Ed.
  { split; [done|]. intros [Hc%is_digit_not_dot _]%Forall_cons. congruence. }
  destruct (not_digit c) eqn:E.
  - split; [done|]. intros [Hc%not_digit_iff _]%Forall_cons. congruence.
  - rewrite IH, Forall_cons. apply not_digit_iff in E. tauto.
Qed.

Lemma StringIsFloat_loop_iff l :
  StringIsFloat_loop l false = true <->
  Forall is_digit l \/
  exists a b, l = a ++ "."%char :: b /\ Forall is_digit a /\ Forall is_digit b.
Proof.
  induction l as [|c l IH]; simpl.
  { split; [by left; constructor | done]. }
  destruct (chr_eqb c ".") eqn:Ed.
  { apply Ascii.eqb_eq in Ed as ->. rewrite StringIsFloat_loop_seen_dot. split.
    - intros H. right. exists [], l. by split_and!; [|constructor|].
    - intros [[Hc%is_digit_not_dot _]%Forall_cons | (a & b & E & Ha & Hb)];
        [done|].
      destruct a as [|x a]; simpl in E.
      + by injection E as ->.
      + injection E as <- _. apply Forall_cons in Ha as [Hx%is_digit_not_dot _].
        done. }
  destruct (not_digit c) eqn:E.
  - split; [done|].
    intros [[Hc%not_digit_iff _]%Forall_cons | (a & b & El & Ha & Hb)];
      [congruence|].
    destruct a as [|x a]; simpl in El.
    + injection El as -> _. done.
    + injection El as <- _. apply Forall_cons in Ha as [Hx%not_digit_iff _].
      congruence.
  - apply not_digit_iff in E. rewrite IH. split.
    + intros [H | (a & b & -> & Ha & Hb)]; [left; by constructor|].
      right. exists (c :: a), b. split_and!; [done | by constructor | done].
    + intros [[_ H]%Forall_cons | (a & b & El & Ha & Hb)]; [by left|].
      destruct a as [|x a]; simpl in El.
      * injection El as -> _. done.
      * injection El as <- ->. apply Forall_cons in Ha as [_ Ha].
        right. by exists a, b.
Qed.

(** The text after an optional sign, as the two loops start on it. *)
Lemma after_sign v :
  v <> [] ->
  exists c rest, v = c :: rest /\
    StringIsNumber v = Ret (StringIsNumber_loop (if is_sign c then rest else v)) /\
    StringIsFloat v = Ret (StringIsFloat_loop (if is_sign c then rest else v) false).
Proof.
  destruct v as [|c rest]; [done|]. intros _. exists c, rest.
  unfold StringIsNumber, StringIsFloat. simpl. by destruct (is_sign c).
Qed.

Lemma signed_text v P :
  v <> [] ->
  (forall c l, P (c :: l) -> is_sign c = false) ->
  P [] ->
  (exists c rest, v = c :: rest /\ P (if is_sign c then rest else v)) <->
  (exists sign body, v = sign ++ body /\ opt_sign sign /\ P body).
Proof.
  intros Hv Hhead Hnil. split.
  - intros (c & rest & -> & HP). destruct (is_sign c) eqn:E.
    + exists [c], rest. split_and!; [done| |done].
      unfold is_sign in E. apply orb_true_iff in E as [->%Ascii.eqb_eq | ->%Ascii.eqb_eq].
      * right; by left.
      * right; by right.
    + exists [], (c :: rest). split_and!; [done | by left | done].
  - intros (sign & body & -> & [-> | [-> | ->]] & HP).
    + destruct body as [|c l]; [done|]. exists c, l. split; [done|].
      by rewrite (Hhead _ _ HP).
    + exists "+"%char, body. by split.
    + exists "-"%char, body. by split.
Qed.

Lemma StringIsNumber_iff v :
  v <> [] ->
  StringIsNumber v = Ret true <->
  exists sign ds, v = sign ++ ds /\ opt_sign sign /\ Forall is_digit ds.
Proof.
  intros Hv. rewrite <- (signed_text v (Forall is_digit) Hv).
  - destruct (after_sign v Hv) as (c & rest & -> & -> & _). split.
    + intros [= H]. exists c, rest. split; [done|]. by apply StringIsNumber_loop_iff.
    + intros (c' & rest' & [= <- <-] & H). f_equal. by apply StringIsNumber_loop_iff.
  - intros c l [H _]%Forall_cons. by apply is_digit_not_sign.
  - constructor.
Qed.

Lemma StringIsFloat_iff v :
  v <> [] ->
  StringIsFloat v = Ret true <->
  exists sign l, v = sign ++ l /\ opt_sign sign /\ (Forall is_digit l \/ float_body l).
Proof.
  intros Hv.
  rewrite <- (signed_text v (fun l => Forall is_digit l \/ float_body l) Hv).
  - destruct (after_sign v Hv) as (c & rest & -> & _ & ->). split.
    + intros [= H]. exists c, rest. split; [done|]. by apply StringIsFloat_loop_iff.
    + intros (c' & rest' & [= <- <-] & H). f_equal. by apply StringIsFloat_loop_iff.
  - intros c l [[H _]%Forall_cons | (a & b & E & Ha & Hb)];
      [by apply is_digit_not_sign|].
    destruct a as [|x a]; simpl in E.
    + by injection E as -> _.
    + injection E as <- _. apply Forall_cons in Ha as [Hx _].
      by apply is_digit_not_sign.
  - left. constructor.
Qed.
Lemma StringIsBool_iff v :
  StringIsBool v = true <->
  In v [lit "True"; lit "true"; lit "False"; lit "false"].
Proof.
  unfold StringIsBool, str_eqb. rewrite !orb_true_iff, !bool_decide_eq_true.
  simpl. split; [intros [[[<- | <-] | <-] | <-]; auto | ].
  intros [<- | [<- | [<- | [<- | []]]]]; auto.
Qed.

Lemma StringIsBool_not_number v :
  StringIsBool v = true ->
  StringIsNumber v = Ret false /\ StringIsFloat v = Ret false.
Proof.
  intros H%StringIsBool_iff. simpl in H.
  destruct H as [<- | [<- | [<- | [<- | []]]]]; by vm_compute.
Qed.

Lemma float_body_not_digits l : float_body l -> ~ Forall is_digit l.
Proof.
  intros (a & b & -> & _ & _) H. apply Forall_app in H as [_ H].
  apply Forall_cons in H as [H%is_digit_not_dot _]. done.
Qed.

Lemma signed_unique sign sign' l l' :
  opt_sign sign -> opt_sign sign' ->
  (forall c r, l = c :: r -> is_sign c = false) ->
  (forall c r, l' = c :: r -> is_sign c = false) ->
  sign ++ l = sign' ++ l' -> l = l'.
Proof.
  intros Hs Hs' Hl Hl' E.
  destruct Hs as [-> | [-> | ->]], Hs' as [-> | [-> | ->]]; simpl in E;
    try done; try (by injection E);
    try (destruct l as [|c r]; [done|]; injection E as -> _;
         by specialize (Hl _ _ eq_refl));
    try (destruct l' as [|c r]; [done|]; injection E as <- _;
         by specialize (Hl' _ _ eq_refl)).
Qed.

Lemma digits_head l c r : Forall is_digit l -> l = c :: r -> is_sign c = false.
Proof. intros H ->. apply Forall_cons in H as [H _]. by apply is_digit_not_sign. Qed.

Lemma float_body_head l c r : float_body l -> l = c :: r -> is_sign c = false.
Proof.
  intros (a & b & -> & Ha & _) E. destruct a as [|x a]; simpl in E.
  - by injection E as <- _.
  - injection E as -> _. apply Forall_cons in Ha as [H _]. by apply is_digit_not_sign.
Qed.

(** The shapes the classifier recognises: [UNKNOWN] is the empty text,
    [BOOL] the four literals, [INT] a non-empty text made of an optional
    sign and digits (possibly none), [FLOAT] an optional sign and digits
    around exactly one decimal point (possibly none on either side). *)
Theorem EstimateValueType_shapes (value : std_string) :
  (EstimateValueType value = Ret UNKNOWN <-> value = []) /\
  (EstimateValueType value = Ret BOOL <->
     In value [lit "True"; lit "true"; lit "False"; lit "false"]) /\
  (EstimateValueType value = Ret INT <->
     value <> [] /\
     exists sign ds, value = sign ++ ds /\ opt_sign sign /\ Forall is_digit ds) /\
  (EstimateValueType value = Ret FLOAT <->
     exists sign a b,
       value = sign ++ a ++ "."%char :: b /\ opt_sign sign /\
       Forall is_digit a /\ Forall is_digit b).
Proof.
  rewrite EstimateValueType_order.
  case_bool_decide as Hv.
  { subst value. split_and!; split; try done.
    - simpl. intros [H | [H | [H | [H | []]]]]; discriminate H.
    - by intros [H _].
    - intros (sign & a & b & E & _). symmetry in E.
      apply app_eq_nil in E as [_ E]. by apply app_eq_nil in E as [_ E]. }
  pose proof (StringIsNumber_iff value Hv) as HN.
  pose proof (StringIsFloat_iff value Hv) as HF.
  destruct (StringIsBool value) eqn:Hb.
  { destruct (StringIsBool_not_number _ Hb) as [Hn Hf].
    apply StringIsBool_iff in Hb. split_and!; split; try done.
    - intros [_ H%HN]. congruence.
    - intros (sign & a & b & E & Hs & Ha & Hb').
      assert (StringIsFloat value = Ret true); [|congruence].
      apply HF. exists sign, (a ++ "."%char :: b). split_and!; [done..|].
      right. by exists a, b. }
  assert (~ In value [lit "True"; lit "true"; lit "False"; lit "false"]) as Hnb.
  { intros H%StringIsBool_iff. congruence. }
  case_bool_decide as Hn.
  { split_and!; split; try done.
    - intros _. split; [done|]. by apply HN.
    - intros (sign & a & b & E & Hs & Ha & Hb').
      apply HN in Hn as (sign' & ds & E' & Hs' & Hds).
      rewrite E in E'. apply signed_unique in E'; try done.
      + exfalso. apply (float_body_not_digits ds); [|done]. rewrite <- E'.
        by exists a, b.
      + intros c r. apply float_body_head. by exists a, b.
      + intros c r. by apply digits_head. }
  case_bool_decide as Hf.
  - split_and!; split; try done.
    + intros [_ H%HN]. done.
    + intros _. apply HF in Hf as (sign & l & E & Hs & [Hl | (a & b & -> & Ha & Hb')]).
      * exfalso. apply Hn, HN. by exists sign, l.
      * by exists sign, a, b.
  - split_and!; split; try done.
    + intros [_ H%HN]. done.
    + intros (sign & a & b & E & Hs & Ha & Hb'). exfalso. apply Hf, HF.
      exists sign, (a ++ "."%char :: b). split_and!; [done..|]. right. by exists a, b.
Qed.
Lemma Open_line_assignment_outcome name text ty st :
  plain_name name = true ->
  forallb (fun x => negb (chr_eqb x "=")) text = true ->
  StringTrimComment text = text ->
  text = [] \/ trimmed text = true ->
  EstimateValueType text = Ret ty ->
  BgeConfig.Open_line (name ++ lit " = " ++ text) st =
    property ← BgeConfig.make_property ty name text; store_property property st.
Proof.
  intros Hname Heq Hcomment Htrim Hty.
  destruct (plain_name_spec name Hname) as (c & rest & Ename & Hchars).
  pose proof (Forall_inv (eq_ind _ (Forall _) Hchars _ Ename)) as Hc.
  apply name_char_spec in Hc as (Hc1 & Hc2 & Hc3 & Hc4 & Hc5).
  pose proof (name_no_slash _ Hchars) as Hslash.
  pose proof (name_nonspace _ Hchars) as Hspace.
  assert (name <> []) as Hne by (by rewrite Ename).
  (* the cleaned line *)
  set (clean := if bool_decide (text = []) then name ++ lit " ="
                else name ++ lit " = " ++ text).
  assert (StringTrimLeading (StringTrimComment (name ++ lit " = " ++ text)) = clean)
    as Hclean.
  { rewrite app_assoc, StringTrimComment_app_no_slash, Hcomment.
    2:{ apply Forall_app. split; [done|]. repeat constructor; done. }
    subst clean. case_bool_decide as Et.
    - subst text. rewrite app_nil_r.
      pose proof (StringTrimLeading_spec [] (name ++ lit " =") (lit " ")) as E.
      simpl in E. rewrite <- app_assoc in E. simpl in E. apply E; [done..|].
      rewrite Ename. by apply (trimmed_intro c rest (lit " =") c).
    - destruct Htrim as [?|Htrim]; [done|]. rewrite <- app_assoc.
      apply StringTrimLeading_trimmed.
      destruct (trimmed_last text c Htrim) as [Hne' Hl].
      rewrite Ename. apply (trimmed_intro c rest _ c); [done | by destruct text |].
      by rewrite (last_app_nonempty (lit " = ") text c c). }
  assert (exists rest', clean = c :: rest') as [rest' Erest'].
  { subst clean. rewrite Ename. case_bool_decide; by eexists. }
  set (tail := if bool_decide (text = []) then [] else lit " " ++ text).
  assert (clean = (name ++ lit " ") ++ "="%char :: tail) as Esplit.
  { subst clean tail. case_bool_decide; by rewrite <- app_assoc. }
  assert (find_last_of "=" clean = Some (length name + 1)%nat) as Hfind.
  { rewrite Esplit, find_last_of_app; [by rewrite length_app|].
    subst tail. case_bool_decide; [done|]. by simpl. }
  assert (StringTrimLeading (substr clean 0 (length name + 1)) = name) as Hsplit0.
  { unfold substr, drop. rewrite Esplit.
    replace (length name + 1)%nat with (length (name ++ lit " "))
      by (by rewrite length_app).
    rewrite take_app_length.
    pose proof (StringTrimLeading_spec [] name (lit " ")) as E. apply E; [done..|].
    by apply trimmed_nonspace. }
  assert (StringTrimLeading
            (substr clean (length name + 1 + 1)
               (length clean - (length name + 1) - 1)) = text) as Hsplit1.
  { unfold substr. rewrite Esplit.
    replace (length name + 1 + 1)%nat with (length ((name ++ lit " ") ++ ["="%char]))
      by (rewrite !length_app; simpl; lia).
    replace ((name ++ lit " ") ++ "="%char :: tail)
      with (((name ++ lit " ") ++ ["="%char]) ++ tail) by (by rewrite <- !app_assoc).
    rewrite drop_app_length. rewrite take_ge by (rewrite !length_app; simpl; lia).
    subst tail. case_bool_decide as Et; [by subst text|].
    destruct Htrim as [?|Htrim]; [done|].
    pose proof (StringTrimLeading_spec (lit " ") text []) as E.
    rewrite app_nil_r in E. by apply E. }
  assert ((length (name ++ lit " = " ++ text) <? 1)%nat = false) as Hlen
    by (by rewrite Ename).
  assert (str_eqb (substr (name ++ lit " = " ++ text) 0 2) (lit "//") = false)
    as Hnocomment.
  { rewrite Ename. unfold str_eqb, substr. apply bool_decide_eq_false. simpl.
    destruct (rest ++ _); intros [= ? ?]; done. }
  destruct st as [cfg currentSection].
  unfold BgeConfig.Open_line.
  rewrite Hlen, Hnocomment, Hclean.
  rewrite Erest' at 1. rewrite is_header_not_bracket by done.
  change (Ret false ≫= ?k) with (k false). cbv beta iota.
  rewrite section_end_branch_unreachable
    by (rewrite Erest'; by apply is_header_not_bracket).
  rewrite Hfind, Hsplit0, Hsplit1, Hty.
  change (Ret ty ≫= ?k) with (k ty). cbv beta.
  by destruct (BgeConfig.make_property ty name text).
Qed.

Lemma digits_checked ds :
  forallb (fun c => negb (not_digit c)) ds = true -> Forall is_digit ds.
Proof.
  induction ds as [|c ds IH]; [constructor|]. simpl.
  intros [Hc%negb_true_iff H]%andb_true_iff. constructor; [|by apply IH].
  by apply not_digit_iff.
Qed.

Lemma is_digit_plain c :
  is_digit c ->
  isspace c = false /\ chr_eqb c "=" = false /\ chr_eqb c "/" = false.
Proof.
  unfold is_digit. simpl. intros H.
  repeat (destruct H as [<- | H]; [by vm_compute|]). done.
Qed.

Lemma signed_digits_plain sign ds :
  opt_sign sign -> Forall is_digit ds ->
  Forall (fun c => isspace c = false /\ chr_eqb c "=" = false /\
                   chr_eqb c "/" = false) (sign ++ ds).
Proof.
  intros Hs Hds. apply Forall_app. split.
  - destruct Hs as [-> | [-> | ->]]; repeat constructor.
  - eapply Forall_impl; [exact Hds|]. apply is_digit_plain.
Qed.

Lemma skip_spaces_nonspace c rest :
  isspace c = false -> skip_spaces (c :: rest) = c :: rest.
Proof. intros H. simpl. by rewrite H. Qed.

Lemma read_sign_digits ds :
  Forall is_digit ds -> read_sign ds = (false, ds).
Proof.
  destruct ds as [|c r]; [done|]. intros [H _]%Forall_cons.
  apply is_digit_not_sign in H. unfold is_sign in H.
  apply orb_false_iff in H as [H1 H2]. unfold read_sign. by rewrite H2, H1.
Qed.

Lemma read_skip_signed sign ds :
  opt_sign sign -> Forall is_digit ds ->
  read_sign (skip_spaces (sign ++ ds)) = (bool_decide (sign = lit "-"), ds).
Proof.
  intros [-> | [-> | ->]] Hds.
  - destruct ds as [|c r]; [done|]. simpl app.
    rewrite skip_spaces_nonspace, read_sign_digits; [done..|].
    apply Forall_cons in Hds as [H _]. by apply is_digit_plain.
  - done.
  - done.
Qed.

Lemma stoi_signed_digits sign ds :
  opt_sign sign -> Forall is_digit ds ->
  stoi (sign ++ ds) =
    if bool_decide (ds = []) then Throw invalid_argument
    else
      let v := if bool_decide (sign = lit "-") then - digits_value 0 ds
               else digits_value 0 ds in
      if (v <? INT_MIN) || (INT_MAX <? v) then Throw out_of_range else Ret v.
Proof.
  intros Hs Hds. unfold stoi. rewrite read_skip_signed by done.
  rewrite span_digits_all; [done|].
  eapply Forall_impl; [exact Hds|]. intros c. apply not_digit_iff.
Qed.

Lemma EstimateValueType_signed_digits sign ds :
  opt_sign sign -> Forall is_digit ds -> sign ++ ds <> [] ->
  EstimateValueType (sign ++ ds) = Ret INT.
Proof.
  intros Hs Hds Hne. rewrite EstimateValueType_order.
  rewrite bool_decide_eq_false_2 by done.
  assert (StringIsNumber (sign ++ ds) = Ret true) as Hn.
  { apply StringIsNumber_iff; [done|]. by exists sign, ds. }
  destruct (StringIsBool (sign ++ ds)) eqn:Hb.
  { apply StringIsBool_not_number in Hb as [Hb _]. congruence. }
  by rewrite bool_decide_eq_true_2.
Qed.

(** A line [name = text] whose text is an optional sign and digits: the
    whole text is converted. A sign without a digit raises
    [invalid_argument], a value outside the range of [int] raises
    [out_of_range], any other value is stored as the [INT] property of that
    name. *)
Theorem Open_line_integer
    (name sign ds : std_string) (st : BgeConfig.parser_state) :
  plain_name name = true -> opt_sign sign -> Forall is_digit ds ->
  sign ++ ds <> [] ->
  BgeConfig.Open_line (name ++ lit " = " ++ sign ++ ds) st =
    if bool_decide (ds = []) then Throw invalid_argument
    else
      let v := if bool_decide (sign = lit "-") then - digits_value 0 ds
               else digits_value 0 ds in
      if (v <? INT_MIN) || (INT_MAX <? v) then Throw out_of_range
      else
        store_property
          (BgeConfigProperty.mk INT name (sign ++ ds) v 0%fp false) st.
Proof.
  intros Hname Hs Hds Hne.
  destruct (chars_text_ok (sign ++ ds) Hne (signed_digits_plain _ _ Hs Hds))
    as (H1 & H2 & H3).
  rewrite (Open_line_assignment_outcome name (sign ++ ds) INT st); try done.
  - unfold BgeConfig.make_property. rewrite stoi_signed_digits by done.
    case_bool_decide; [done|]. cbv zeta. by destruct (_ || _).
  - by right.
  - by apply EstimateValueType_signed_digits.
Qed.

Lemma Open_line_integer_witness :
  BgeConfig.Open_line (lit "Width" ++ lit " = " ++ lit "-" ++ lit "640")
    (BgeConfig.new, None) =
    Ret (BgeConfig.mk
           [BgeConfigProperty.mk INT (lit "Width") (lit "-640") (-640) 0%fp false] [],
         None) /\
  BgeConfig.Open_line (lit "Width" ++ lit " = " ++ [] ++ lit "2147483648")
    (BgeConfig.new, None) = Throw out_of_range /\
  BgeConfig.Open_line (lit "Width" ++ lit " = " ++ lit "-" ++ [])
    (BgeConfig.new, None) = Throw invalid_argument.
Proof.
  split_and!.
  - rewrite (Open_line_integer (lit "Width") (lit "-") (lit "640"));
      [by vm_compute | by vm_compute | by right; right
      | by apply digits_checked | by vm_compute].
  - rewrite (Open_line_integer (lit "Width") [] (lit "2147483648"));
      [by vm_compute | by vm_compute | by left
      | by apply digits_checked | by vm_compute].
  - rewrite (Open_line_integer (lit "Width") (lit "-") []);
      [by vm_compute | by vm_compute | by right; right | constructor | by vm_compute].
Defined.
Lemma is_quote_plain q :
  BgeConfig.is_quote q = true ->
  isspace q = false /\ trim_loop_char q = false /\ chr_eqb q "/" = false /\
  chr_eqb q "=" = false /\ is_sign q = false /\ not_digit q = true /\
  chr_eqb q "." = false /\ ~ In q (lit "TtFf").
Proof.
  unfold BgeConfig.is_quote.
  intros [->%Ascii.eqb_eq | ->%Ascii.eqb_eq]%orb_true_iff;
    split_and!; try reflexivity; simpl; intros H;
    repeat (destruct H as [H | H]; [discriminate H|]); done.
Qed.

Lemma EstimateValueType_quoted q text :
  BgeConfig.is_quote q = true -> EstimateValueType (q :: text) = Ret STRING.
Proof.
  intros (_ & _ & _ & _ & Hs & Hd & Hdot & Hb)%is_quote_plain.
  rewrite EstimateValueType_order. rewrite bool_decide_eq_false_2 by done.
  destruct (StringIsBool (q :: text)) eqn:E.
  { exfalso. apply StringIsBool_iff in E. apply Hb. simpl in E |- *.
    destruct E as [E | [E | [E | [E | []]]]]; injection E as <- _; auto. }
  unfold StringIsNumber, StringIsFloat. simpl. rewrite Hs. simpl.
  by rewrite Hd, Hdot.
Qed.

Lemma strip_quotes_pair q1 q2 body :
  BgeConfig.is_quote q1 = true -> BgeConfig.is_quote q2 = true ->
  BgeConfig.strip_quotes (q1 :: body ++ [q2]) = Ret body.
Proof.
  intros H1 H2. unfold BgeConfig.strip_quotes.
  rewrite bool_decide_eq_false_2 by done.
  change (at_ (q1 :: body ++ [q2]) 0) with (Ret q1). rewrite RoundTrip.Ret_bind.
  rewrite H1. unfold substr_from. simpl drop. rewrite !drop_0.
  rewrite (at_last (body ++ [q2]) q2) by (by destruct body).
  rewrite RoundTrip.Ret_bind, last_last, H2. f_equal.
  unfold substr. rewrite drop_0, length_app. simpl.
  replace (length body + 1 - 1)%nat with (length body) by lia.
  by rewrite take_app_length.
Qed.

Lemma strip_quotes_lone q :
  BgeConfig.is_quote q = true -> BgeConfig.strip_quotes [q] = Throw out_of_range.
Proof.
  intros H. unfold BgeConfig.strip_quotes. rewrite bool_decide_eq_false_2 by done.
  change (at_ [q] 0) with (Ret q). rewrite RoundTrip.Ret_bind. by rewrite H.
Qed.

(** A value between two quote characters is stored as the [STRING] that
    stands between them, whatever it looks like (digits, a boolean literal,
    white space, nothing); the two quote characters need not be the same. *)
Theorem Open_line_quoted_value
    (name body : std_string) (q1 q2 : ascii) (st : BgeConfig.parser_state) :
  plain_name name = true ->
  BgeConfig.is_quote q1 = true -> BgeConfig.is_quote q2 = true ->
  forallb (fun c => negb (chr_eqb c "=")) body = true ->
  has_comment_start body = false ->
  BgeConfig.Open_line (name ++ lit " = " ++ q1 :: body ++ [q2]) st =
    store_property (BgeConfigProperty.mk STRING name body 0 0%fp false) st.
Proof.
  intros Hname H1 H2 Heq Hc.
  destruct (is_quote_plain _ H1) as (Hs1 & Ht1 & Hl1 & He1 & _).
  destruct (is_quote_plain _ H2) as (Hs2 & Ht2 & Hl2 & He2 & _).
  rewrite (Open_line_assignment_outcome name (q1 :: body ++ [q2]) STRING st).
  - unfold BgeConfig.make_property. by rewrite strip_quotes_pair.
  - done.
  - simpl. rewrite He1. simpl. rewrite forallb_app, Heq. simpl. by rewrite He2.
  - apply has_comment_start_StringTrimComment.
    rewrite has_comment_start_head by done.
    by rewrite has_comment_start_last.
  - right. change (q1 :: body ++ [q2]) with ((q1 :: body) ++ [q2]).
    by apply (trimmed_intro q1 body [q2] q2).
  - by apply EstimateValueType_quoted.
Qed.

Lemma Open_line_quoted_value_witness :
  BgeConfig.Open_line
    (lit "Title" ++ lit " = " ++ "034"%char :: lit " 12 " ++ ["039"%char])
    (BgeConfig.new, None) =
    Ret (BgeConfig.mk
           [BgeConfigProperty.mk STRING (lit "Title") (lit " 12 ") 0 0%fp false] [],
         None).
Proof.
  rewrite (Open_line_quoted_value (lit "Title") (lit " 12 ") "034" "039");
    by vm_compute.
Defined.

(** Removing the quotes fails on one input only, a text that is a single
    quote character: [at] is then applied to the empty text and raises
    [out_of_range]. A line [name = '] therefore ends [Open] with that
    exception. *)
Theorem strip_quotes_fails_on_lone_quote
    (split1 name : std_string) (st : BgeConfig.parser_state) :
  (BgeConfig.strip_quotes split1 = Throw out_of_range <->
     exists q, BgeConfig.is_quote q = true /\ split1 = [q]) /\
  ((exists r, BgeConfig.strip_quotes split1 = Ret r) \/
   BgeConfig.strip_quotes split1 = Throw out_of_range) /\
  (plain_name name = true ->
   forall q, BgeConfig.is_quote q = true ->
     BgeConfig.Open_line (name ++ lit " = " ++ [q]) st = Throw out_of_range).
Proof.
  assert (forall v : std_string, v <> [] ->
            exists r, at_ v (length v - 1) = Ret r) as Hat.
  { intros v Hv. exists (List.last v " "%char). by apply at_last. }
  assert ((exists q, BgeConfig.is_quote q = true /\ split1 = [q]) \/
          exists r, BgeConfig.strip_quotes split1 = Ret r) as Hcases.
  { unfold BgeConfig.strip_quotes. case_bool_decide as Hv; [right; by eexists|].
    destruct split1 as [|c rest]; [done|].
    change (at_ (c :: rest) 0) with (Ret c). rewrite RoundTrip.Ret_bind.
    destruct (BgeConfig.is_quote c) eqn:Hq.
    - destruct rest as [|d rest]; [left; by exists c|]. right.
      unfold substr_from. simpl drop.
      destruct (Hat (d :: rest)) as [r ->]; [done|]. by eexists.
    - right. destruct (Hat (c :: rest)) as [r ->]; [done|]. by eexists. }
  split_and!.
  - split.
    + intros H. destruct Hcases as [?|[r Hr]]; [done|congruence].
    + intros (q & Hq & ->). by apply strip_quotes_lone.
  - destruct Hcases as [(q & Hq & ->)|?]; [right; by apply strip_quotes_lone | by left].
  - intros Hname q Hq.
    destruct (is_quote_plain _ Hq) as (Hs & Ht & Hl & He & _).
    rewrite (Open_line_assignment_outcome name [q] STRING st).
    + unfold BgeConfig.make_property. by rewrite strip_quotes_lone.
    + done.
    + simpl. by rewrite He.
    + apply has_comment_start_StringTrimComment. done.
    + right. unfold trimmed. simpl. by rewrite Hs, Ht.
    + by apply EstimateValueType_quoted.
Qed.

Lemma strip_quotes_fails_on_lone_quote_witness :
  BgeConfig.Open_line (lit "Title" ++ lit " = " ++ ["039"%char]) (BgeConfig.new, None) =
    Throw out_of_range.
Proof.
  apply (strip_quotes_fails_on_lone_quote [] (lit "Title") (BgeConfig.new, None));
    by vm_compute.
Defined.
Lemma EstimateValueType_BOOL value :
  EstimateValueType value = Ret BOOL <->
  In value [lit "True"; lit "true"; lit "False"; lit "false"].
Proof.
  rewrite <- StringIsBool_iff, EstimateValueType_order. split.
  - case_bool_decide; [done|]. destruct (StringIsBool value); [done|].
    repeat case_bool_decide; done.
  - intros H. case_bool_decide as Hv; [by subst value|]. by rewrite H.
Qed.

Lemma EstimateValueType_UNKNOWN value :
  EstimateValueType value = Ret UNKNOWN -> value = [].
Proof.
  rewrite EstimateValueType_order. case_bool_decide; [done|].
  destruct (StringIsBool value); [done|]. repeat case_bool_decide; done.
Qed.

(** The property [Open] builds from a value text: its type is the
    classifier's, [BoolValue] is set for the literals [true] and [True] only
    (the text [1] is an [INT], so the third alternative of the source never
    applies), and the typed fields of the other types keep the defaults of
    the constructor. *)
Theorem parsed_property_fields
    (value name : std_string) (ty : BgePropertyValueType)
    (p : BgeConfigProperty.t) :
  EstimateValueType value = Ret ty ->
  BgeConfig.make_property ty name value = Ret p ->
  BgeConfigProperty.Type_ p = ty /\
  BgeConfigProperty.Name p = name /\
  BgeConfigProperty.BoolValue p =
    bool_decide (value = lit "true" \/ value = lit "True") /\
  (BgeConfigProperty.IntValue p = 0 \/ ty = INT) /\
  (BgeConfigProperty.FloatValue p = 0%fp \/ ty = FLOAT) /\
  (BgeConfigProperty.StrValue p = value \/ ty = STRING).
Proof.
  intros Hty Hp.
  assert (ty <> BOOL ->
          bool_decide (value = lit "true" \/ value = lit "True") = false) as Hnb.
  { intros Hne. apply bool_decide_eq_false. intros H. apply Hne.
    assert (EstimateValueType value = Ret BOOL); [|congruence].
    apply EstimateValueType_BOOL. destruct H as [-> | ->]; simpl; auto. }
  destruct ty; unfold BgeConfig.make_property in Hp.
  - assert (value = []) as ->.
    { by apply EstimateValueType_UNKNOWN. }
    injection Hp as <-. rewrite Hnb by done. simpl. auto 10.
  - destruct (BgeConfig.strip_quotes value) as [r| |]; [|done..].
    injection Hp as <-. rewrite Hnb by done. simpl. auto 10.
  - destruct (stod value) as [v| |]; [|done..].
    injection Hp as <-. rewrite Hnb by done. simpl. auto 10.
  - injection Hp as <-. simpl. split_and!; auto.
    apply EstimateValueType_BOOL in Hty. simpl in Hty.
    destruct Hty as [<- | [<- | [<- | [<- | []]]]]; by vm_compute.
  - destruct (stoi value) as [v| |]; [|done..].
    injection Hp as <-. rewrite Hnb by done. simpl. auto 10.
Qed.

Lemma parsed_property_fields_witness :
  BgeConfigProperty.BoolValue
    (BgeConfigProperty.mk INT (lit "x") (lit "1") 1 0%fp false) =
  bool_decide (lit "1" = lit "true" \/ lit "1" = lit "True").
Proof.
  apply (parsed_property_fields (lit "1") (lit "x") INT); by vm_compute.
Defined.

(** * Lookups and additions along a path *)

Module LookupFacts.
Import BgeConfigSection SectionFacts.

Lemma Get_here_Some name s p :
  Get_here name s = Some p -> name <> [] /\ BgeConfigProperty.Name p = name.
Proof.
  unfold Get_here. case_bool_decide; [done|].
  unfold GetPropertyIterator.
  destruct (list_find _ _) as [[i x]|] eqn:E; [|done].
  intros [= <-]. by apply (find_name_Some BgeConfigProperty.Name) in E as [_ ?].
Qed.

Lemma Get_path_Some segs s p :
  Get_path segs s = Some p ->
  BgeConfigProperty.Name p = List.last segs [] /\ Forall (fun seg => seg <> []) segs.
Proof.
  revert s. induction segs as [|a [|b rest] IH]; intros s; [done| |].
  - intros [? ?]%Get_here_Some. split; [done | by repeat constructor].
  - rewrite Get_path_cons.
    destruct (GetSubSection_here a s) as [[i sub]|] eqn:E; [|done].
    intros [? ?]%IH. apply GetSubSection_here_Some in E as (_ & ? & _).
    split; [done | by constructor].
Qed.

Lemma GetSubSection_path_Some segs s q :
  GetSubSection_path segs s = Some q ->
  Forall (fun seg => seg <> []) segs /\ length q = length segs /\
  exists sub, deref q s = Some sub /\ Name sub = List.last segs [].
Proof.
  revert s q. induction segs as [|a [|b rest] IH]; intros s q; [done| |].
  - simpl. destruct (GetSubSection_here a s) as [[i sub]|] eqn:E; [|done].
    intros [= <-]. apply GetSubSection_here_Some in E as (_ & ? & Hi & ?).
    split_and!; [by repeat constructor | done |].
    exists sub. simpl. by rewrite Hi.
  - rewrite GetSubSection_path_cons.
    destruct (GetSubSection_here a s) as [[i sub]|] eqn:E; [|done].
    destruct (GetSubSection_path (b :: rest) sub) as [q'|] eqn:E'; [|done].
    intros [= <-]. apply IH in E' as (? & ? & sub' & ? & ?).
    apply GetSubSection_here_Some in E as (_ & ? & Hi & ?).
    split_and!; [by constructor | by simpl; f_equal |].
    exists sub'. simpl. by rewrite Hi.
Qed.

Lemma deref_document q cfg :
  q <> [] -> BgeConfig.deref q cfg = deref q (as_section cfg).
Proof. by destruct q. Qed.

Lemma proper_path_iff name :
  proper_path name = true <-> Forall (fun seg => seg <> []) (split_path name).
Proof.
  split; [apply proper_path_Forall|]. unfold proper_path.
  induction 1 as [|seg segs H _ IH]; [done|]. simpl.
  by rewrite IH, bool_decide_eq_false_2.
Qed.

End LookupFacts.

(** [Has...] answers [true] exactly when the [Get...] of the same name
    returns a non-null pointer, in a section and in the document. *)
Theorem Has_iff_Get_not_null
    (name : std_string) (s : BgeConfigSection.t) (cfg : BgeConfig.t) :
  (BgeConfigSection.HasProperty name s = true <->
     is_Some (BgeConfigSection.Get name s)) /\
  (BgeConfigSection.HasSubSection name s = true <->
     is_Some (BgeConfigSection.GetSubSection name s)) /\
  (BgeConfig.HasProperty name cfg = true <-> is_Some (BgeConfig.Get name cfg)) /\
  (BgeConfig.HasSection name cfg = true <-> is_Some (BgeConfig.GetSection name cfg)).
Proof.
  split_and!.
  - apply SectionFacts.HasProperty_path_Get.
  - apply SectionFacts.HasSubSection_path_Get.
  - unfold BgeConfig.HasProperty, BgeConfig.Get.
    rewrite DocumentFacts.HasProperty_path_section, DocumentFacts.Get_path_section.
    apply SectionFacts.HasProperty_path_Get.
  - unfold BgeConfig.HasSection, BgeConfig.GetSection.
    rewrite DocumentFacts.HasSection_path_section, DocumentFacts.GetSection_path_section.
    apply SectionFacts.HasSubSection_path_Get.
Qed.

(** What a lookup returns bears the last segment of the path as its name,
    and only a path without an empty segment finds anything. A section
    pointer that is returned leads to a section of the tree. *)
Theorem Get_returns_the_named_entry
    (name : std_string) (s : BgeConfigSection.t) (cfg : BgeConfig.t) :
  (forall p,
     BgeConfigSection.Get name s = Some p \/ BgeConfig.Get name cfg = Some p ->
     BgeConfigProperty.Name p = last_segment name /\ proper_path name = true) /\
  (forall q,
     BgeConfigSection.GetSubSection name s = Some q ->
     proper_path name = true /\
     exists sub,
       BgeConfigSection.deref q s = Some sub /\
       BgeConfigSection.Name sub = last_segment name) /\
  (forall q,
     BgeConfig.GetSection name cfg = Some q ->
     proper_path name = true /\
     exists sub,
       BgeConfig.deref q cfg = Some sub /\
       BgeConfigSection.Name sub = last_segment name).
Proof.
  split_and!.
  - intros p H.
    assert (BgeConfigSection.Get_path (split_path name) s = Some p \/
            BgeConfigSection.Get_path (split_path name) (as_section cfg) = Some p)
      as [H' | H'].
    { destruct H as [H | H]; [by left|]. right.
      by rewrite <- DocumentFacts.Get_path_section. }
    + apply LookupFacts.Get_path_Some in H' as [? ?].
      by rewrite LookupFacts.proper_path_iff.
    + apply LookupFacts.Get_path_Some in H' as [? ?].
      by rewrite LookupFacts.proper_path_iff.
  - intros q (? & _ & sub & ? & ?)%LookupFacts.GetSubSection_path_Some.
    rewrite LookupFacts.proper_path_iff. split; [done|]. by exists sub.
  - intros q H. unfold BgeConfig.GetSection in H.
    rewrite DocumentFacts.GetSection_path_section in H.
    apply LookupFacts.GetSubSection_path_Some in H as (? & Hlen & sub & ? & ?).
    rewrite LookupFacts.proper_path_iff. split; [done|]. exists sub.
    rewrite LookupFacts.deref_document; [done|].
    intros ->. pose proof (split_path_nonempty name). by destruct (split_path name).
Qed.
Lemma Get_returns_the_named_entry_witness :
  BgeConfigProperty.Name (BgeConfigProperty.mk INT (lit "A") (lit "1") 1 0%fp false) =
    last_segment (lit "A") /\
  proper_path (lit "A") = true.
Proof.
  apply (Get_returns_the_named_entry (lit "A") (BgeConfigSection.new []) one_property).
  by right.
Defined.

Lemma split_path_app a b :
  split_path (a ++ lit "." ++ b) = split_path a ++ split_path b.
Proof.
  induction a as [|c a IH]; [done|].
  change ((c :: a) ++ lit "." ++ b) with (c :: (a ++ lit "." ++ b)).
  cbn [split_path]. rewrite IH. destruct (chr_eqb c "."); [done|].
  pose proof (split_path_nonempty a). by destruct (split_path a).
Qed.

Module PathComposition.
Import BgeConfigSection SectionFacts.

(** The section a path leads to. *)
Lemma section_at_cons a b rest s :
  (GetSubSection_path (a :: b :: rest) s ≫= fun q => deref q s) =
  match GetSubSection_here a s with
  | Some (_, sub) => GetSubSection_path (b :: rest) sub ≫= fun q => deref q sub
  | None => None
  end.
Proof.
  rewrite GetSubSection_path_cons.
  destruct (GetSubSection_here a s) as [[i sub]|] eqn:E; [|done].
  apply GetSubSection_here_Some in E as (_ & _ & Hi & _).
  destruct (GetSubSection_path (b :: rest) sub) as [q|]; [|done].
  simpl. by rewrite Hi.
Qed.

Lemma section_at_single a s :
  (GetSubSection_path [a] s ≫= fun q => deref q s) = snd <$> GetSubSection_here a s.
Proof.
  simpl. destruct (GetSubSection_here a s) as [[i sub]|] eqn:E; [|done].
  apply GetSubSection_here_Some in E as (_ & _ & Hi & _). simpl. by rewrite Hi.
Qed.

Lemma Get_path_app sa sb s :
  sa <> [] -> sb <> [] ->
  Get_path (sa ++ sb) s =
    (GetSubSection_path sa s ≫= fun q => deref q s) ≫= Get_path sb.
Proof.
  intros Ha Hb. revert s. induction sa as [|a [|b rest] IH]; intros s; [done| |].
  - rewrite section_at_single. destruct sb as [|b sb]; [done|].
    change ([a] ++ b :: sb) with (a :: b :: sb). rewrite Get_path_cons.
    by destruct (GetSubSection_here a s) as [[i sub]|].
  - change ((a :: b :: rest) ++ sb) with (a :: b :: (rest ++ sb)).
    rewrite Get_path_cons, section_at_cons.
    destruct (GetSubSection_here a s) as [[i sub]|]; [|done].
    by apply IH.
Qed.

Lemma HasProperty_path_app sa sb s :
  sa <> [] -> sb <> [] ->
  HasProperty_path (sa ++ sb) s =
    match GetSubSection_path sa s ≫= fun q => deref q s with
    | Some sub => HasProperty_path sb sub
    | None => false
    end.
Proof.
  intros Ha Hb. revert s. induction sa as [|a [|b rest] IH]; intros s; [done| |].
  - rewrite section_at_single. destruct sb as [|b sb]; [done|].
    change ([a] ++ b :: sb) with (a :: b :: sb). rewrite HasProperty_path_cons.
    by destruct (GetSubSection_here a s) as [[i sub]|].
  - change ((a :: b :: rest) ++ sb) with (a :: b :: (rest ++ sb)).
    rewrite HasProperty_path_cons, section_at_cons.
    destruct (GetSubSection_here a s) as [[i sub]|]; [|done].
    by apply IH.
Qed.

Lemma HasSubSection_path_app sa sb s :
  sa <> [] -> sb <> [] ->
  HasSubSection_path (sa ++ sb) s =
    match GetSubSection_path sa s ≫= fun q => deref q s with
    | Some sub => HasSubSection_path sb sub
    | None => false
    end.
Proof.
  intros Ha Hb. revert s. induction sa as [|a [|b rest] IH]; intros s; [done| |].
  - rewrite section_at_single. destruct sb as [|b sb]; [done|].
    change ([a] ++ b :: sb) with (a :: b :: sb). rewrite HasSubSection_path_cons.
    by destruct (GetSubSection_here a s) as [[i sub]|].
  - change ((a :: b :: rest) ++ sb) with (a :: b :: (rest ++ sb)).
    rewrite HasSubSection_path_cons, section_at_cons.
    destruct (GetSubSection_here a s) as [[i sub]|]; [|done].
    by apply IH.
Qed.

Lemma GetSubSection_path_app sa sb s :
  sa <> [] -> sb <> [] ->
  GetSubSection_path (sa ++ sb) s =
    q ← GetSubSection_path sa s; sub ← deref q s;
    q' ← GetSubSection_path sb sub; Some (q ++ q').
Proof.
  intros Ha Hb. revert s. induction sa as [|a [|b rest] IH]; intros s; [done| |].
  - destruct sb as [|b sb]; [done|].
    change ([a] ++ b :: sb) with (a :: b :: sb). rewrite GetSubSection_path_cons.
    simpl. destruct (GetSubSection_here a s) as [[i sub]|] eqn:E; [|done].
    apply GetSubSection_here_Some in E as (_ & _ & Hi & _). simpl. rewrite Hi.
    by destruct (GetSubSection_path (b :: sb) sub).
  - change ((a :: b :: rest) ++ sb) with (a :: b :: (rest ++ sb)).
    rewrite !GetSubSection_path_cons.
    destruct (GetSubSection_here a s) as [[i sub]|] eqn:E; [|done].
    apply GetSubSection_here_Some in E as (_ & _ & Hi & _).
    rewrite IH by done.
    destruct (GetSubSection_path (b :: rest) sub) as [q|]; [|done].
    simpl. rewrite Hi.
    destruct (deref q sub) as [sub'|]; [|done]. simpl.
    by destruct (GetSubSection_path sb sub').
Qed.

End PathComposition.

(** Paths compose: looking up [a.b] is looking up the section [a] and then
    [b] in the section found, for properties and for sections, whatever the
    two parts are (the result is null as soon as one part finds nothing). *)
Theorem lookup_of_a_joined_path
    (a b : std_string) (s : BgeConfigSection.t) (cfg : BgeConfig.t) :
  BgeConfigSection.Get (a ++ lit "." ++ b) s =
    (q ← BgeConfigSection.GetSubSection a s; sub ← BgeConfigSection.deref q s;
     BgeConfigSection.Get b sub) /\
  BgeConfigSection.GetSubSection (a ++ lit "." ++ b) s =
    (q ← BgeConfigSection.GetSubSection a s; sub ← BgeConfigSection.deref q s;
     q' ← BgeConfigSection.GetSubSection b sub; Some (q ++ q')) /\
  BgeConfig.Get (a ++ lit "." ++ b) cfg =
    (q ← BgeConfig.GetSection a cfg; sub ← BgeConfig.deref q cfg;
     BgeConfigSection.Get b sub) /\
  BgeConfig.GetSection (a ++ lit "." ++ b) cfg =
    (q ← BgeConfig.GetSection a cfg; sub ← BgeConfig.deref q cfg;
     q' ← BgeConfigSection.GetSubSection b sub; Some (q ++ q')) /\
  BgeConfig.HasProperty (a ++ lit "." ++ b) cfg =
    match BgeConfig.GetSection a cfg ≫= fun q => BgeConfig.deref q cfg with
    | Some sub => BgeConfigSection.HasProperty b sub
    | None => false
    end /\
  BgeConfig.HasSection (a ++ lit "." ++ b) cfg =
    match BgeConfig.GetSection a cfg ≫= fun q => BgeConfig.deref q cfg with
    | Some sub => BgeConfigSection.HasSubSection b sub
    | None => false
    end.
Proof.
  pose proof (split_path_nonempty a) as Ha.
  pose proof (split_path_nonempty b) as Hb.
  assert (forall q,
            BgeConfigSection.GetSubSection_path (split_path a) (as_section cfg) = Some q ->
            BgeConfig.deref q cfg = BgeConfigSection.deref q (as_section cfg)) as Hd.
  { intros q E. apply LookupFacts.deref_document.
    apply LookupFacts.GetSubSection_path_Some in E as (_ & Hlen & _).
    intros ->. by destruct (split_path a). }
  split_and!.
  - unfold BgeConfigSection.Get. rewrite split_path_app.
    rewrite PathComposition.Get_path_app by done.
    unfold BgeConfigSection.GetSubSection.
    destruct (BgeConfigSection.GetSubSection_path (split_path a) s) as [q|]; [|done].
    simpl. by destruct (BgeConfigSection.deref q s).
  - unfold BgeConfigSection.GetSubSection. rewrite split_path_app.
    by rewrite PathComposition.GetSubSection_path_app.
  - unfold BgeConfig.Get, BgeConfig.GetSection.
    rewrite split_path_app, DocumentFacts.Get_path_section,
      DocumentFacts.GetSection_path_section, PathComposition.Get_path_app by done.
    destruct (BgeConfigSection.GetSubSection_path _ _) as [q|] eqn:E; [|done].
    simpl. rewrite (Hd q eq_refl). by destruct (BgeConfigSection.deref q _).
  - unfold BgeConfig.GetSection.
    rewrite split_path_app, !DocumentFacts.GetSection_path_section,
      PathComposition.GetSubSection_path_app by done.
    destruct (BgeConfigSection.GetSubSection_path _ _) as [q|] eqn:E; [|done].
    simpl. by rewrite (Hd q eq_refl).
  - unfold BgeConfig.HasProperty, BgeConfig.GetSection.
    rewrite split_path_app, DocumentFacts.HasProperty_path_section,
      DocumentFacts.GetSection_path_section,
      PathComposition.HasProperty_path_app by done.
    destruct (BgeConfigSection.GetSubSection_path _ _) as [q|] eqn:E; [|done].
    simpl. by rewrite (Hd q eq_refl).
  - unfold BgeConfig.HasSection, BgeConfig.GetSection.
    rewrite split_path_app, !DocumentFacts.HasSection_path_section,
      DocumentFacts.GetSection_path_section,
      PathComposition.HasSubSection_path_app by done.
    destruct (BgeConfigSection.GetSubSection_path _ _) as [q|] eqn:E; [|done].
    simpl. by rewrite (Hd q eq_refl).
Qed.
Module AddOutcome.
Import BgeConfigSection SectionFacts.

Lemma AddSubSection_here_empty s : AddSubSection_here [] s = (s, None).
Proof. done. Qed.

Lemma after_first_empty_None segs :
  after_first_empty segs = None <-> Forall (fun seg => seg <> []) segs.
Proof.
  induction segs as [|seg segs IH]; simpl; [by split; [constructor|]|].
  case_bool_decide as E.
  - split; [done|]. by intros [? _]%Forall_cons.
  - rewrite IH, Forall_cons. tauto.
Qed.

(** What [AddSubSection] answers, by the empty segments of the path. *)
Lemma AddSubSection_path_outcome segs s :
  segs <> [] ->
  match AddSubSection_path segs s with
  | NullDeref =>
      exists rest, after_first_empty segs = Some rest /\
        forallb (fun seg => bool_decide (seg = [])) rest = false
  | Ret (s1, None) =>
      exists rest, after_first_empty segs = Some rest /\
        forallb (fun seg => bool_decide (seg = [])) rest = true
  | Ret (s1, Some q) =>
      Forall (fun seg => seg <> []) segs /\ GetSubSection_path segs s1 = Some q
  | Throw _ => False
  end.
Proof.
  revert s. induction segs as [|a [|b rest] IH]; intros s Hne; [done| |].
  - destruct (decide (a = [])) as [->|Ha]; [by exists []|].
    destruct (AddSubSection_here_proper a s Ha) as (s1 & i & sub & E1 & E2 & _).
    simpl. rewrite E1. simpl. rewrite E2. split; [by repeat constructor | done].
  - rewrite AddSubSection_path_cons.
    destruct (HasSubSection_path (a :: b :: rest) s) eqn:Hh.
    { pose proof Hh as [q Hq]%HasSubSection_path_Get. rewrite Hq.
      split; [|done]. by apply LookupFacts.GetSubSection_path_Some in Hq as [? _]. }
    destruct (decide (a = [])) as [->|Ha].
    { rewrite AddSubSection_here_empty, AddSubSection_null_spec.
      destruct (forallb _ (b :: rest)) eqn:E; by exists (b :: rest). }
    assert (after_first_empty (a :: b :: rest) = after_first_empty (b :: rest)) as ->
      by (cbn [after_first_empty]; by rewrite bool_decide_eq_false_2).
    destruct (AddSubSection_here_proper a s Ha) as (s1 & i & sub & E1 & E2 & _).
    pose proof (GetSubSection_here_Some _ _ _ _ E2) as (_ & _ & Hi & _).
    rewrite E1, Hi. specialize (IH sub ltac:(done)).
    destruct (AddSubSection_path (b :: rest) sub) as [[sub' [q'|]]| |] eqn:E3;
      [|done..].
    destruct IH as [Hall Hq]. split; [by constructor|].
    rewrite GetSubSection_path_cons.
    rewrite (GetSubSection_here_alter a (fun _ => sub') s1 i sub E2).
    + by rewrite Hq.
    + by apply AddSubSection_path_Name in E3.
Qed.

(** When no segment before the last one is empty, the first empty segment
    is the last one. *)
Lemma after_first_empty_last (segs rest : list std_string) :
  Forall (fun seg => seg <> []) (removelast segs) ->
  after_first_empty segs = Some rest ->
  segs <> [] -> rest = [] /\ List.last segs [] = [].
Proof.
  induction segs as [|a [|b segs] IH]; intros Hall E Hne; [done| |].
  - simpl in E. case_bool_decide; [|done]. by simplify_eq.
  - change (removelast (a :: b :: segs)) with (a :: removelast (b :: segs)) in Hall.
    apply Forall_cons in Hall as [Ha Hall].
    cbn [after_first_empty] in E. rewrite bool_decide_eq_false_2 in E by done.
    change (List.last (a :: b :: segs) []) with (List.last (b :: segs) []).
    by apply IH.
Qed.

Lemma AddSubSection_path_pointer segs s s1 q :
  AddSubSection_path segs s = Ret (s1, Some q) ->
  Forall (fun seg => seg <> []) segs /\ GetSubSection_path segs s1 = Some q /\
  q <> [] /\ is_Some (deref q s1).
Proof.
  intros E. destruct segs as [|a segs]; [done|].
  pose proof (AddSubSection_path_outcome (a :: segs) s ltac:(done)) as H.
  rewrite E in H. destruct H as [H1 H2]. split_and!; [done..| |].
  - apply LookupFacts.GetSubSection_path_Some in H2 as (_ & Hlen & _).
    by destruct q.
  - apply LookupFacts.GetSubSection_path_Some in H2 as (_ & _ & sub & -> & _).
    by eexists.
Qed.

Lemma empty_inner_segment_true name :
  empty_inner_segment name = true <->
  Exists (fun seg => seg = []) (removelast (split_path name)).
Proof.
  unfold empty_inner_segment. generalize (removelast (split_path name)).
  intros l. induction l as [|seg l IH]; simpl.
  - split; [done | by intros ?%Exists_nil].
  - rewrite orb_true_iff, IH, Exists_cons, bool_decide_eq_true. done.
Qed.

Lemma empty_inner_segment_false name :
  empty_inner_segment name = false <->
  Forall (fun seg => seg <> []) (removelast (split_path name)).
Proof.
  unfold empty_inner_segment. generalize (removelast (split_path name)).
  intros l. induction l as [|seg l IH]; simpl.
  - split; [constructor | done].
  - rewrite orb_false_iff, IH, Forall_cons, bool_decide_eq_false. done.
Qed.

Lemma Forall_removelast_last (segs : list std_string) :
  segs <> [] ->
  Forall (fun seg => seg <> []) segs ->
  Forall (fun seg => seg <> []) (removelast segs) /\ List.last segs [] <> [].
Proof.
  intros Hne H. destruct (exists_last Hne) as (front & x & ->).
  rewrite removelast_last, last_last. by apply Forall_app in H as [? [? _]%Forall_cons].
Qed.

End AddOutcome.

(** What [AddSubSection] and [AddSection] answer depends on the empty
    segments of the path only. A path without an empty segment gives the
    pointer that [GetSubSection] (or [GetSection]) then returns for it. At
    the first empty segment the pointer is null: when every segment after it
    is empty as well, the call through the null pointer returns before it
    reads a member and the result is the null pointer; a later segment that
    is not empty is looked up in the null object, which is a fault. No
    exception is thrown. *)
Theorem AddSection_outcome
    (name : std_string) (s : BgeConfigSection.t) (cfg : BgeConfig.t) :
  match BgeConfigSection.AddSubSection name s with
  | Ret (s1, Some q) =>
      proper_path name = true /\ BgeConfigSection.GetSubSection name s1 = Some q
  | Ret (s1, None) => proper_path name = false /\ empty_before_named name = false
  | NullDeref => empty_before_named name = true
  | Throw _ => False
  end /\
  match BgeConfig.AddSection name cfg with
  | Ret (cfg1, Some q) =>
      proper_path name = true /\ BgeConfig.GetSection name cfg1 = Some q
  | Ret (cfg1, None) => proper_path name = false /\ empty_before_named name = false
  | NullDeref => empty_before_named name = true
  | Throw _ => False
  end.
Proof.
  assert (forall s,
    match BgeConfigSection.AddSubSection name s with
    | Ret (s1, Some q) =>
        proper_path name = true /\ BgeConfigSection.GetSubSection name s1 = Some q
    | Ret (s1, None) => proper_path name = false /\ empty_before_named name = false
    | NullDeref => empty_before_named name = true
    | Throw _ => False
    end) as H.
  { intros s'. unfold BgeConfigSection.AddSubSection, empty_before_named.
    pose proof (AddOutcome.AddSubSection_path_outcome (split_path name) s'
                  (split_path_nonempty name)) as H.
    destruct (BgeConfigSection.AddSubSection_path _ _) as [[s1 [q|]]| |].
    - destruct H as [Hall Hq]. split; [|done]. by apply LookupFacts.proper_path_iff.
    - destruct H as (rest & E & Hrest). rewrite E, Hrest. split; [|done].
      apply not_true_is_false. intros Hp%LookupFacts.proper_path_iff.
      apply AddOutcome.after_first_empty_None in Hp. congruence.
    - done.
    - destruct H as (rest & E & Hrest). by rewrite E, Hrest. }
  split; [apply H|].
  specialize (H (as_section cfg)). unfold BgeConfig.AddSection.
  rewrite DocumentFacts.AddSection_path_section.
  unfold BgeConfigSection.AddSubSection in H.
  destruct (BgeConfigSection.AddSubSection_path _ _) as [[s1 [q|]]| |] eqn:E;
    [|done..].
  destruct H as (? & Hq). split; [done|].
  unfold BgeConfig.GetSection. rewrite DocumentFacts.GetSection_path_section.
  apply SectionFacts.AddSubSection_path_Name in E.
  rewrite as_section_of_section_root by done. exact Hq.
Qed.

(** Three paths with an empty segment, in a section that is empty. *)
Lemma AddSection_outcome_examples :
  BgeConfigSection.AddSubSection (lit "a..") (BgeConfigSection.new (lit "root")) =
    Ret (BgeConfigSection.mk (lit "root") [BgeConfigSection.new (lit "a")] [], None) /\
  BgeConfig.AddSection (lit ".") BgeConfig.new = Ret (BgeConfig.new, None) /\
  BgeConfig.AddSection (lit "a..b") BgeConfig.new = NullDeref /\
  BgeConfig.Open (BgeFile.mk true [lit "[.]"; lit "x = 1"]) BgeConfig.new =
    Ret (BgeConfig.mk [BgeConfigProperty.mk INT (lit "x") (lit "1") 1 0%fp false] []).
Proof. by vm_compute. Qed.

Module ScopedWrite.
Import BgeConfigSection SectionFacts.

Lemma alter_nested_ext g h i s sub :
  mNestedSections s !! i = Some sub -> g sub = h sub ->
  alter_nested g i s = alter_nested h i s.
Proof.
  intros Hi E. apply (PointerFacts.alter_at_ext g h [i] s).
  intros x. simpl. rewrite Hi. by intros [= <-].
Qed.

Lemma alter_nested_id g i s sub :
  mNestedSections s !! i = Some sub -> g sub = sub -> alter_nested g i s = s.
Proof.
  intros Hi E. apply (RoundTrip.alter_at_id g [i] s).
  intros x. simpl. rewrite Hi. by intros [= <-].
Qed.

Lemma alter_nested_twice g i s sub' :
  alter_nested g i (alter_nested (fun _ => sub') i s) =
  alter_nested (fun _ => g sub') i s.
Proof. apply (PointerFacts.alter_at_alter_at g (fun _ => sub') [i] s). Qed.

Lemma HasProperty_path_without_section sa sb s :
  sa <> [] -> sb <> [] ->
  HasSubSection_path sa s = false -> HasProperty_path (sa ++ sb) s = false.
Proof.
  intros Ha Hb H. rewrite PathComposition.HasProperty_path_app by done.
  destruct (GetSubSection_path sa s) as [q|] eqn:E; [|done].
  assert (HasSubSection_path sa s = true); [|congruence].
  apply HasSubSection_path_Get. by rewrite E.
Qed.

(** Adding under a section that exists: the write goes through the pointer
    [GetSubSection] returns. *)
Lemma AddProperty_path_under sa sb property s q :
  sb <> [] -> GetSubSection_path sa s = Some q ->
  AddProperty_path (sa ++ sb) property s =
  alter_at (AddProperty_path sb property) q s.
Proof.
  intros Hb. revert s q.
  induction sa as [|a [|b rest] IH]; intros s q; [done| |].
  - destruct sb as [|b sb]; [done|]. simpl GetSubSection_path.
    destruct (GetSubSection_here a s) as [[i sub]|] eqn:E; [|done].
    intros [= <-]. change ([a] ++ b :: sb) with (a :: b :: sb).
    rewrite AddProperty_path_cons, HasProperty_path_cons, E.
    rewrite (AddSubSection_here_old _ _ _ _ E).
    apply GetSubSection_here_Some in E as (_ & _ & Hi & _).
    change (alter_at ?f [i] s) with (alter_nested f i s).
    destruct (HasProperty_path (b :: sb) sub) eqn:Hp; [|done].
    symmetry. apply (alter_nested_id _ _ _ sub Hi).
    by apply AddProperty_path_has.
  - rewrite GetSubSection_path_cons.
    destruct (GetSubSection_here a s) as [[i sub]|] eqn:E; [|done].
    destruct (GetSubSection_path (b :: rest) sub) as [q'|] eqn:E'; [|done].
    intros [= <-]. change ((a :: b :: rest) ++ sb) with (a :: b :: (rest ++ sb)).
    rewrite AddProperty_path_cons, HasProperty_path_cons, E.
    rewrite (AddSubSection_here_old _ _ _ _ E).
    apply GetSubSection_here_Some in E as (_ & _ & Hi & _).
    change (alter_at ?f (i :: q') s) with (alter_nested (alter_at f q') i s).
    pose proof (IH sub q' E') as IHs.
    change ((b :: rest) ++ sb) with (b :: rest ++ sb) in IHs.
    destruct (HasProperty_path (b :: rest ++ sb) sub) eqn:Hp.
    + symmetry. apply (alter_nested_id _ _ _ sub Hi).
      rewrite <- IHs. by apply AddProperty_path_has.
    + by apply (alter_nested_ext _ _ _ _ sub Hi).
Qed.

(** Adding under a section that [AddSubSection] returns. *)
Lemma AddProperty_path_app sa sb property s s1 q :
  sb <> [] -> AddSubSection_path sa s = Ret (s1, Some q) ->
  AddProperty_path (sa ++ sb) property s =
  alter_at (AddProperty_path sb property) q s1.
Proof.
  intros Hb. revert s s1 q.
  induction sa as [|a [|b rest] IH]; intros s s1 q; [done| |].
  - destruct sb as [|b sb]; [done|]. simpl AddSubSection_path.
    destruct (AddSubSection_here a s) as [s' [i|]] eqn:E; [|done].
    intros [= <- <-]. change ([a] ++ b :: sb) with (a :: b :: sb).
    rewrite AddProperty_path_cons, E.
    change (alter_at ?f [i] s') with (alter_nested f i s').
    destruct (HasProperty_path (a :: b :: sb) s) eqn:Hp; [|done].
    rewrite HasProperty_path_cons in Hp.
    destruct (GetSubSection_here a s) as [[j sub]|] eqn:Eg; [|done].
    rewrite (AddSubSection_here_old _ _ _ _ Eg) in E. injection E as <- <-.
    apply GetSubSection_here_Some in Eg as (_ & _ & Hi & _).
    symmetry. apply (alter_nested_id _ _ _ sub Hi). by apply AddProperty_path_has.
  - rewrite AddSubSection_path_cons.
    destruct (HasSubSection_path (a :: b :: rest) s) eqn:Hs.
    { intros [= <- Hq]. by apply AddProperty_path_under. }
    destruct (AddSubSection_here a s) as [s' [i|]] eqn:E; [|rewrite AddSubSection_null_spec; by destruct (forallb _ _)].
    destruct (mNestedSections s' !! i) as [sub|] eqn:Hi; [|done].
    destruct (AddSubSection_path (b :: rest) sub) as [[sub' [q'|]]| |] eqn:E';
      [|done..].
    intros [= <- <-]. change ((a :: b :: rest) ++ sb) with (a :: b :: (rest ++ sb)).
    rewrite AddProperty_path_cons, E.
    change (a :: b :: rest ++ sb) with ((a :: b :: rest) ++ sb).
    rewrite HasProperty_path_without_section by done.
    change (alter_at ?f (i :: q') ?x) with (alter_nested (alter_at f q') i x).
    rewrite alter_nested_twice.
    apply (alter_nested_ext _ _ _ _ sub Hi).
    by apply IH.
Qed.

Lemma write_through_pointer a k property cfg cfg1 q :
  BgeConfig.AddSection a cfg = Ret (cfg1, Some q) ->
  BgeConfig.alter_at (AddProperty k property) q cfg1 =
    BgeConfig.AddProperty (a ++ lit "." ++ k) property cfg /\
  is_Some (BgeConfig.deref q cfg1).
Proof.
  unfold BgeConfig.AddSection, BgeConfig.AddProperty.
  rewrite DocumentFacts.AddSection_path_section,
    DocumentFacts.AddProperty_path_section, split_path_app.
  destruct (AddSubSection_path _ _) as [[s1 r]| |] eqn:E; [|done..].
  intros [= <- ->].
  rewrite (AddProperty_path_app _ _ _ _ s1 q);
    [|apply split_path_nonempty | done].
  pose proof (AddSubSection_path_Name _ _ _ _ E) as Hn.
  apply AddOutcome.AddSubSection_path_pointer in E as (_ & _ & Hq & Hd).
  destruct q as [|i q]; [done|]. destruct s1 as [n nested props].
  simpl in Hn. subst n. by split.
Qed.

Lemma store_through_pointer a property cfg cfg1 q :
  BgeConfig.AddSection a cfg = Ret (cfg1, Some q) ->
  store_property property (cfg1, Some q) =
    Ret (BgeConfig.AddProperty
           (a ++ lit "." ++ BgeConfigProperty.Name property) property cfg,
         Some q).
Proof.
  intros E.
  destruct (write_through_pointer a (BgeConfigProperty.Name property) property
              cfg cfg1 q E) as [<- [sub Hsub]].
  unfold store_property. cbn [fst snd]. by rewrite Hsub.
Qed.

End ScopedWrite.

(** Scoping: adding the property [k] through the pointer that [AddSection]
    returned for the section [a] is adding the property [a.k] to the
    document. The loop of [Open] stores the lines under a header [[a]]
    through that pointer, which is never dangling, so they read as keys
    qualified by [a]. *)
Theorem write_through_section_pointer
    (a k : std_string) (property : BgeConfigProperty.t)
    (cfg cfg1 : BgeConfig.t) (q : list nat) :
  BgeConfig.AddSection a cfg = Ret (cfg1, Some q) ->
  BgeConfig.alter_at (BgeConfigSection.AddProperty k property) q cfg1 =
    BgeConfig.AddProperty (a ++ lit "." ++ k) property cfg /\
  store_property property (cfg1, Some q) =
    Ret (BgeConfig.AddProperty
           (a ++ lit "." ++ BgeConfigProperty.Name property) property cfg,
         Some q).
Proof.
  intros E. split.
  - by apply ScopedWrite.write_through_pointer.
  - by apply ScopedWrite.store_through_pointer.
Qed.

Lemma write_through_section_pointer_witness :
  let property := BgeConfigProperty.mk BOOL (lit "Setting0") (lit "true") 0 0%fp true in
  let cfg1 :=
    BgeConfig.mk []
      [BgeConfigSection.mk (lit "General") [BgeConfigSection.new (lit "Editor")] []] in
  store_property property (cfg1, Some [0; 0]%nat) =
    Ret (BgeConfig.AddProperty
           (lit "General.Editor" ++ lit "." ++ BgeConfigProperty.Name property)
           property BgeConfig.new,
         Some [0; 0]%nat).
Proof.
  intros property cfg1.
  by apply (write_through_section_pointer (lit "General.Editor") []
              property BgeConfig.new cfg1 [0; 0]%nat).
Defined.

(** * [AddProperty] and its reference argument *)

Module ByReference.
Import BgeConfigSection SectionFacts.

Lemma alter_at_nowhere f q s : deref q s = None -> alter_at f q s = s.
Proof. intros H. apply RoundTrip.alter_at_id. intros x. by rewrite H. Qed.

Lemma alter_at_here f g q s x :
  deref q s = Some x -> f x = g x -> alter_at f q s = alter_at g q s.
Proof.
  intros H E. apply PointerFacts.alter_at_ext. intros y. rewrite H. by intros [= <-].
Qed.

Lemma alter_at_same f q s x :
  deref q s = Some x -> f x = x -> alter_at f q s = s.
Proof.
  intros H E. apply RoundTrip.alter_at_id. intros y. rewrite H. by intros [= <-].
Qed.

(** With a reference to an object outside the tree, [AddProperty] is the
    recursion on the value of that object. *)
Lemma AddProperty_at_outside segs p : forall this w,
  AddProperty_at deref alter_at assign_Name read segs (outside p) this w =
  alter_at (AddProperty_path segs p) this w.
Proof.
  induction segs as [|a [|b rest] IH]; intros this w.
  - simpl. destruct (deref this w) as [s|] eqn:E.
    + symmetry. by apply (alter_at_same _ _ _ s).
    + symmetry. by apply alter_at_nowhere.
  - cbn [AddProperty_at]. destruct (deref this w) as [s|] eqn:E.
    2:{ symmetry. by apply alter_at_nowhere. }
    case_bool_decide as Ha.
    { symmetry. apply (alter_at_same _ _ _ s E). simpl.
      by rewrite bool_decide_eq_true_2. }
    destruct (HasProperty_here a s) eqn:Hh.
    { symmetry. apply (alter_at_same _ _ _ s E). simpl.
      by rewrite bool_decide_eq_false_2, Hh. }
    cbn [assign_Name read]. apply (alter_at_here _ _ _ _ s E). simpl.
    by rewrite bool_decide_eq_false_2, Hh.
  - change (AddProperty_at deref alter_at assign_Name read (a :: b :: rest)
              (outside p) this w) with
      (match deref this w with
       | None => w
       | Some s =>
           if HasProperty_path (a :: b :: rest) s then w
           else if negb (HasSubSection_here a s) then
             match AddSubSection_here a s with
             | (s1, Some i) =>
                 AddProperty_at deref alter_at assign_Name read (b :: rest)
                   (outside p) (this ++ [i]) (alter_at (fun _ => s1) this w)
             | (s1, None) => alter_at (fun _ => s1) this w
             end
           else
             match GetSubSection_here a s with
             | Some (i, _) =>
                 AddProperty_at deref alter_at assign_Name read (b :: rest)
                   (outside p) (this ++ [i]) w
             | None => w
             end
       end).
    destruct (deref this w) as [s|] eqn:E.
    2:{ symmetry. by apply alter_at_nowhere. }
    destruct (HasProperty_path (a :: b :: rest) s) eqn:Hp.
    { symmetry. apply (alter_at_same _ _ _ s E). by apply AddProperty_path_has. }
    destruct (HasSubSection_here a s) eqn:Hh; cbn [negb].
    + destruct (HasSubSection_here_true _ _ Hh) as (i & sub & Eg). rewrite Eg.
      rewrite IH, PointerFacts.alter_at_app.
      apply (alter_at_here _ _ _ _ s E). cbn [alter_at].
      by rewrite AddProperty_path_cons, Hp, (AddSubSection_here_old _ _ _ _ Eg).
    + destruct (AddSubSection_here a s) as [s1 [i|]] eqn:Ea.
      * rewrite IH, PointerFacts.alter_at_app, PointerFacts.alter_at_alter_at.
        apply (alter_at_here _ _ _ _ s E). cbn [alter_at].
        by rewrite AddProperty_path_cons, Hp, Ea.
      * apply (alter_at_here _ _ _ _ s E).
        by rewrite AddProperty_path_cons, Hp, Ea.
Qed.

Lemma AddProperty_ref_outside name p s :
  AddProperty_ref name (outside p) s = AddProperty name p s.
Proof. unfold AddProperty_ref. by rewrite AddProperty_at_outside. Qed.

(** A path that already leads to a property: nothing is written, whatever
    the reference. *)
Lemma AddProperty_at_has segs property this w s :
  deref this w = Some s -> HasProperty_path segs s = true ->
  AddProperty_at deref alter_at assign_Name read segs property this w = w.
Proof.
  intros E Hp. destruct segs as [|a [|b rest]]; [done| |].
  - cbn [AddProperty_at]. rewrite E. simpl in Hp. rewrite Hp.
    by case_bool_decide.
  - change (AddProperty_at deref alter_at assign_Name read (a :: b :: rest)
              property this w) with
      (match deref this w with
       | None => w
       | Some s =>
           if HasProperty_path (a :: b :: rest) s then w
           else if negb (HasSubSection_here a s) then
             match AddSubSection_here a s with
             | (s1, Some i) =>
                 AddProperty_at deref alter_at assign_Name read (b :: rest)
                   property (this ++ [i]) (alter_at (fun _ => s1) this w)
             | (s1, None) => alter_at (fun _ => s1) this w
             end
           else
             match GetSubSection_here a s with
             | Some (i, _) =>
                 AddProperty_at deref alter_at assign_Name read (b :: rest)
                   property (this ++ [i]) w
             | None => w
             end
       end).
    by rewrite E, Hp.
Qed.

Lemma AddProperty_ref_has name property s :
  HasProperty name s = true -> AddProperty_ref name property s = s.
Proof. intros H. by apply (AddProperty_at_has _ _ [] s s). Qed.

End ByReference.
Module ByReferenceDocument.
Import BgeConfigSection SectionFacts DocumentFacts.

Lemma assign_Name_section name property T :
  BgeConfig.assign_Name name property (of_section T) =
    ((assign_Name name property T).1, of_section (assign_Name name property T).2).
Proof. destruct property as [p|[|i q] k]; done. Qed.

Lemma read_section property T :
  BgeConfig.read property (of_section T) = read property T.
Proof. destruct property as [p|[|i q] k]; done. Qed.

(** In a section of the document the recursion is that of the document
    seen as a section. *)
Lemma AddProperty_at_section segs property : forall i q T,
  AddProperty_at BgeConfig.deref BgeConfig.alter_at BgeConfig.assign_Name
    BgeConfig.read segs property (i :: q) (of_section T) =
  of_section (AddProperty_at deref alter_at assign_Name read segs property (i :: q) T).
Proof.
  induction segs as [|a [|b rest] IH]; intros i q T.
  - cbn [AddProperty_at].
    change (BgeConfig.deref (i :: q) (of_section T)) with (deref (i :: q) T).
    by destruct (deref (i :: q) T).
  - cbn [AddProperty_at].
    change (BgeConfig.deref (i :: q) (of_section T)) with (deref (i :: q) T).
    destruct (deref (i :: q) T) as [s|]; [|done].
    case_bool_decide; [done|]. destruct (HasProperty_here a s); [done|].
    rewrite assign_Name_section.
    destruct (assign_Name a property T) as [r T1]. cbn [fst snd].
    rewrite read_section. by destruct (read r T1).
  - change (AddProperty_at ?d ?w ?g ?r (a :: b :: rest) property (i :: q) ?T) with
      (match d (i :: q) T with
       | None => T
       | Some s =>
           if HasProperty_path (a :: b :: rest) s then T
           else if negb (HasSubSection_here a s) then
             match AddSubSection_here a s with
             | (s1, Some j) =>
                 AddProperty_at d w g r (b :: rest) property ((i :: q) ++ [j])
                   (w (fun _ => s1) (i :: q) T)
             | (s1, None) => w (fun _ => s1) (i :: q) T
             end
           else
             match GetSubSection_here a s with
             | Some (j, _) =>
                 AddProperty_at d w g r (b :: rest) property ((i :: q) ++ [j]) T
             | None => T
             end
       end).
    change (BgeConfig.deref (i :: q) (of_section T)) with (deref (i :: q) T).
    destruct (deref (i :: q) T) as [s|]; [|done].
    destruct (HasProperty_path (a :: b :: rest) s); [done|].
    destruct (negb (HasSubSection_here a s)).
    + destruct (AddSubSection_here a s) as [s1 [j|]]; [|done].
      change (BgeConfig.alter_at ?f (i :: q) (of_section T))
        with (of_section (alter_at f (i :: q) T)).
      apply IH.
    + destruct (GetSubSection_here a s) as [[j sub]|]; [|done]. apply IH.
Qed.

Lemma AddProperty_ref_path_section segs property cfg :
  BgeConfig.AddProperty_ref_path segs property cfg =
  of_section
    (AddProperty_at deref alter_at assign_Name read segs property [] (as_section cfg)).
Proof.
  destruct segs as [|a [|b rest]].
  - by destruct cfg.
  - cbn [AddProperty_at BgeConfig.AddProperty_ref_path deref].
    case_bool_decide; [by destruct cfg|].
    change (HasProperty_here a (as_section cfg)) with (BgeConfig.HasProperty_here a cfg).
    destruct (BgeConfig.HasProperty_here a cfg); [by destruct cfg|].
    rewrite <- (of_as_section cfg) at 1. rewrite assign_Name_section.
    destruct (assign_Name a property (as_section cfg)) as [r T1]. cbn [fst snd].
    rewrite read_section. by destruct (read r T1).
  - change (AddProperty_at ?d ?w ?g ?r (a :: b :: rest) property [] ?T) with
      (match d [] T with
       | None => T
       | Some s =>
           if HasProperty_path (a :: b :: rest) s then T
           else if negb (HasSubSection_here a s) then
             match AddSubSection_here a s with
             | (s1, Some j) =>
                 AddProperty_at d w g r (b :: rest) property [j] (w (fun _ => s1) [] T)
             | (s1, None) => w (fun _ => s1) [] T
             end
           else
             match GetSubSection_here a s with
             | Some (j, _) => AddProperty_at d w g r (b :: rest) property [j] T
             | None => T
             end
       end).
    cbn [deref alter_at]. unfold BgeConfig.AddProperty_ref_path.
    rewrite HasProperty_path_section.
    destruct (HasProperty_path (a :: b :: rest) (as_section cfg)); [by destruct cfg|].
    change (BgeConfig.HasSection_here a cfg) with (HasSubSection_here a (as_section cfg)).
    change (BgeConfig.GetSection_here a cfg) with (GetSubSection_here a (as_section cfg)).
    rewrite AddSection_here_section.
    destruct (negb (HasSubSection_here a (as_section cfg))).
    + destruct (AddSubSection_here a (as_section cfg)) as [s1 [j|]]; cbn [fst snd];
        [|done].
      apply AddProperty_at_section.
    + destruct (GetSubSection_here a (as_section cfg)) as [[j sub]|];
        [|by destruct cfg].
      rewrite <- (of_as_section cfg) at 1. apply AddProperty_at_section.
Qed.

Lemma AddProperty_ref_section name property cfg :
  BgeConfig.AddProperty_ref name property cfg =
  of_section (AddProperty_ref name property (as_section cfg)).
Proof. apply AddProperty_ref_path_section. Qed.

Lemma document_AddProperty_ref_outside name p cfg :
  BgeConfig.AddProperty_ref name (outside p) cfg = BgeConfig.AddProperty name p cfg.
Proof.
  rewrite AddProperty_ref_section, ByReference.AddProperty_ref_outside.
  unfold BgeConfig.AddProperty. by rewrite AddProperty_path_section.
Qed.

Lemma document_AddProperty_ref_has name property cfg :
  BgeConfig.HasProperty name cfg = true ->
  BgeConfig.AddProperty_ref name property cfg = cfg.
Proof.
  intros H. rewrite AddProperty_ref_section, ByReference.AddProperty_ref_has.
  - apply of_as_section.
  - unfold BgeConfig.HasProperty in H. by rewrite HasProperty_path_section in H.
Qed.

End ByReferenceDocument.

(** * What one line changes, and what additions keep *)

Lemma Open_line_effect line st st' :
  BgeConfig.Open_line line st = Ret st' ->
  line_effect (as_section st.1) (as_section st'.1).
Proof.
  destruct st as [cfg cur]. cbn [fst]. unfold BgeConfig.Open_line.
  destruct (length line <? 1)%nat; [intros [= <-]; constructor|].
  destruct (str_eqb (substr line 0 2) (lit "//")); [intros [= <-]; constructor|].
  destruct (BgeConfig.is_header _) as [[|]| |]; [| |done..]; rewrite RoundTrip.Ret_bind.
  - destruct (negb _); [|intros [= <-]; constructor].
    unfold BgeConfig.AddSection. rewrite DocumentFacts.AddSection_path_section.
    destruct (BgeConfigSection.AddSubSection_path _ _) as [[s1 p]| |] eqn:E; [|done..].
    intros [= <-]. cbn [fst].
    rewrite as_section_of_section_root
      by (by apply SectionFacts.AddSubSection_path_Name in E).
    by eapply effect_section.
  - destruct (str_eqb _ _); [intros [= <-]; constructor|].
    destruct (find_last_of _ _); [|intros [= <-]; constructor].
    destruct (EstimateValueType _) as [ty| |]; [|done..]. rewrite RoundTrip.Ret_bind.
    destruct (BgeConfig.make_property _ _ _) as [property| |]; [|done..].
    rewrite RoundTrip.Ret_bind.
    destruct cur as [[|i q]|].
    + done.
    + destruct (BgeConfig.deref _ _); [|done]. intros [= <-]. cbn [fst].
      change (as_section (BgeConfig.alter_section (BgeConfigSection.alter_at ?f q) i cfg))
        with (BgeConfigSection.alter_at f (i :: q) (as_section cfg)).
      apply effect_property.
    + intros [= <-]. cbn [fst]. unfold BgeConfig.AddProperty.
      rewrite DocumentFacts.AddProperty_path_section.
      rewrite as_section_of_section_root by apply SectionFacts.AddProperty_path_Name.
      apply (effect_property _ _ _ []).
Qed.

Lemma Open_loop_effect (P : BgeConfigSection.t -> BgeConfigSection.t -> Prop) :
  (forall s, P s s) ->
  (forall s1 s2 s3, P s1 s2 -> line_effect s2 s3 -> P s1 s3) ->
  forall lines st st',
    BgeConfig.Open_loop lines st = Ret st' ->
    P (as_section st.1) (as_section st'.1).
Proof.
  intros Hrefl Hstep lines.
  assert (forall (st0 st st' : BgeConfig.parser_state),
            P (as_section st0.1) (as_section st.1) ->
            BgeConfig.Open_loop lines st = Ret st' ->
            P (as_section st0.1) (as_section st'.1)) as H.
  { induction lines as [|line lines IH]; intros st0 st st' HP.
    - by intros [= <-].
    - cbn [BgeConfig.Open_loop].
      destruct (BgeConfig.Open_line line st) as [st1| |] eqn:E; [|done..].
      rewrite RoundTrip.Ret_bind. apply IH.
      eapply Hstep; [exact HP|]. by apply (Open_line_effect line). }
  intros st st'. apply H, Hrefl.
Qed.
Section find_after_alter.
Context {A : Type} (name_of : A -> std_string).

Lemma find_name_alter_any (name : std_string) (f : A -> A) (l : list A) i x j y :
  l !! i = Some x -> name_of (f x) = name_of x ->
  list_find (fun z => name = name_of z) l = Some (j, y) ->
  list_find (fun z => name = name_of z) (alter f i l) =
    Some (j, if decide (i = j) then f y else y).
Proof.
  intros Hi Hn (Hj & HP & Hlt)%list_find_Some. apply list_find_Some. split_and!.
  - rewrite list_lookup_alter. case_decide as E; [|done]. subst j. by rewrite Hj.
  - case_decide as E; [|done]. subst j. rewrite Hi in Hj. injection Hj as <-.
    by rewrite Hn.
  - intros k z Hk Hlt'. rewrite list_lookup_alter in Hk.
    case_decide as E; [|by eapply Hlt]. subst k. rewrite Hi in Hk.
    injection Hk as <-. rewrite Hn. by eapply Hlt.
Qed.

End find_after_alter.

Module Frame.
Import BgeConfigSection SectionFacts.

Lemma keeps_entries_refl s : keeps_entries s s.
Proof. by split. Qed.

Lemma keeps_entries_trans s1 s2 s3 :
  keeps_entries s1 s2 -> keeps_entries s2 s3 -> keeps_entries s1 s3.
Proof.
  intros [Hn1 H1] [Hn2 H2]. split; [congruence|]. intros segs.
  destruct (H1 segs) as [Ha Hb], (H2 segs) as [Hc Hd]. split; auto.
Qed.

(** Two trees that differ in the properties only at this level, where the
    second has more at the end. *)
Lemma keeps_entries_push_property property s :
  keeps_entries s (push_property property s).
Proof.
  split; [done|]. intros [|a [|b rest]]; [done| |].
  - split; [|done]. intros p. simpl. unfold Get_here.
    case_bool_decide; [done|]. unfold GetPropertyIterator. simpl.
    destruct (list_find _ (mProperties s)) as [[i x]|] eqn:E; [|done].
    intros [= <-]. by rewrite (list_find_app_l _ _ _ _ _ E).
  - by rewrite !Get_path_cons, !GetSubSection_path_cons.
Qed.

Lemma GetSubSection_here_push name sub s r :
  GetSubSection_here name s = Some r ->
  GetSubSection_here name (push_section sub s) = Some r.
Proof.
  unfold GetSubSection_here. case_bool_decide; [done|].
  unfold GetSectionIterator. simpl. destruct r as [i x]. apply list_find_app_l.
Qed.

Lemma keeps_entries_push_section sub s :
  keeps_entries s (push_section sub s).
Proof.
  split; [done|]. intros [|a [|b rest]]; [done| |].
  - split; [done|]. intros q. simpl.
    destruct (GetSubSection_here a s) as [r|] eqn:E; [|done].
    by rewrite (GetSubSection_here_push _ _ _ _ E).
  - rewrite !Get_path_cons, !GetSubSection_path_cons.
    destruct (GetSubSection_here a s) as [[i x]|] eqn:E; [|done].
    by rewrite (GetSubSection_here_push _ _ _ _ E).
Qed.

Lemma GetSubSection_here_alter_any name f s i sub j y :
  mNestedSections s !! i = Some sub -> Name (f sub) = Name sub ->
  GetSubSection_here name s = Some (j, y) ->
  GetSubSection_here name (alter_nested f i s) =
    Some (j, if decide (i = j) then f y else y).
Proof.
  intros Hi Hn. unfold GetSubSection_here. case_bool_decide; [done|].
  unfold GetSectionIterator. simpl. by apply find_name_alter_any with sub.
Qed.

Lemma keeps_entries_alter_nested f i s sub :
  mNestedSections s !! i = Some sub -> keeps_entries sub (f sub) ->
  keeps_entries s (alter_nested f i s).
Proof.
  intros Hi [Hn Hk]. split; [done|]. intros [|a [|b rest]]; [done| |].
  - split; [done|]. intros q. simpl.
    destruct (GetSubSection_here a s) as [[j y]|] eqn:E; [|done].
    by rewrite (GetSubSection_here_alter_any _ _ _ _ _ _ _ Hi Hn E).
  - rewrite !Get_path_cons, !GetSubSection_path_cons.
    destruct (GetSubSection_here a s) as [[j y]|] eqn:E; [|done].
    rewrite (GetSubSection_here_alter_any _ _ _ _ _ _ _ Hi Hn E).
    case_decide as Ej; [|done]. subst j.
    apply GetSubSection_here_Some in E as (_ & _ & Hy & _).
    rewrite Hi in Hy. injection Hy as <-.
    destruct (Hk (b :: rest)) as [Hg Hs]. split.
    + intros p. apply Hg.
    + intros q. destruct (GetSubSection_path (b :: rest) sub) as [q'|] eqn:E';
        [|done].
      by rewrite (Hs q' eq_refl).
Qed.

Lemma alter_nested_out_of_range f i s :
  mNestedSections s !! i = None -> alter_nested f i s = s.
Proof.
  intros Hi. destruct s as [n nested props]. unfold alter_nested. simpl in *.
  f_equal. apply list_eq. intros j. rewrite list_lookup_alter.
  case_decide; [|done]. subst j. by rewrite Hi.
Qed.

Lemma keeps_entries_alter_at f q s :
  (forall x, keeps_entries x (f x)) -> keeps_entries s (alter_at f q s).
Proof.
  intros Hf. revert s. induction q as [|i q IH]; intros s; simpl; [apply Hf|].
  destruct (mNestedSections s !! i) as [sub|] eqn:Hi.
  - by apply keeps_entries_alter_nested with sub.
  - rewrite alter_nested_out_of_range by done. apply keeps_entries_refl.
Qed.

Lemma keeps_entries_AddSubSection_here a s s1 r :
  AddSubSection_here a s = (s1, r) -> keeps_entries s s1.
Proof.
  unfold AddSubSection_here. case_bool_decide; [intros [= <- _]; apply keeps_entries_refl|].
  destruct (HasSubSection_here a s); intros [= <- _].
  - apply keeps_entries_refl.
  - apply keeps_entries_push_section.
Qed.

Lemma keeps_entries_AddProperty_path segs property s :
  keeps_entries s (AddProperty_path segs property s).
Proof.
  revert s. induction segs as [|a [|b rest] IH]; intros s.
  - apply keeps_entries_refl.
  - simpl. case_bool_decide; [apply keeps_entries_refl|].
    destruct (HasProperty_here a s); [apply keeps_entries_refl|].
    apply keeps_entries_push_property.
  - rewrite AddProperty_path_cons.
    destruct (HasProperty_path _ _); [apply keeps_entries_refl|].
    destruct (AddSubSection_here a s) as [s1 [i|]] eqn:E.
    + apply keeps_entries_trans with s1;
        [by eapply keeps_entries_AddSubSection_here|].
      apply (keeps_entries_alter_at _ [i]). intros x. apply IH.
    + by eapply keeps_entries_AddSubSection_here.
Qed.

Lemma keeps_entries_AddSubSection_path segs s s1 r :
  AddSubSection_path segs s = Ret (s1, r) -> keeps_entries s s1.
Proof.
  revert s s1 r. induction segs as [|a [|b rest] IH]; intros s s1 r.
  - intros [= <- _]. apply keeps_entries_refl.
  - simpl. destruct (AddSubSection_here a s) as [s' r'] eqn:E.
    intros [= <- _]. by eapply keeps_entries_AddSubSection_here.
  - rewrite AddSubSection_path_cons.
    destruct (HasSubSection_path _ _); [intros [= <- _]; apply keeps_entries_refl|].
    destruct (AddSubSection_here a s) as [s' [i|]] eqn:E; [|by null_call E].
    destruct (mNestedSections s' !! i) as [sub|] eqn:Hi; [|done].
    destruct (AddSubSection_path (b :: rest) sub) as [[sub' q']| |] eqn:E';
      [|done..].
    intros [= <- _].
    apply keeps_entries_trans with s'; [by eapply keeps_entries_AddSubSection_here|].
    apply keeps_entries_alter_nested with sub; [done|]. by eapply IH.
Qed.

Lemma keeps_entries_line_effect s s' : line_effect s s' -> keeps_entries s s'.
Proof.
  intros [|name s1 p E|name property q].
  - apply keeps_entries_refl.
  - by eapply keeps_entries_AddSubSection_path.
  - apply keeps_entries_alter_at. intros x. apply keeps_entries_AddProperty_path.
Qed.

End Frame.
Lemma keeps_entries_document cfg cfg' name :
  keeps_entries (as_section cfg) (as_section cfg') ->
  (forall p, BgeConfig.Get name cfg = Some p -> BgeConfig.Get name cfg' = Some p) /\
  (forall q, BgeConfig.GetSection name cfg = Some q ->
             BgeConfig.GetSection name cfg' = Some q) /\
  (BgeConfig.HasProperty name cfg = true -> BgeConfig.HasProperty name cfg' = true) /\
  (BgeConfig.HasSection name cfg = true -> BgeConfig.HasSection name cfg' = true).
Proof.
  intros [_ H]. destruct (H (split_path name)) as [Hg Hs].
  unfold BgeConfig.Get, BgeConfig.GetSection, BgeConfig.HasProperty,
    BgeConfig.HasSection.
  rewrite !DocumentFacts.Get_path_section, !DocumentFacts.GetSection_path_section,
    !DocumentFacts.HasProperty_path_section, !DocumentFacts.HasSection_path_section.
  split_and!; [done..| |].
  - rewrite !SectionFacts.HasProperty_path_Get. intros [p Hp]. exists p. auto.
  - rewrite !SectionFacts.HasSubSection_path_Get. intros [q Hq]. exists q. auto.
Qed.

(** [AddProperty], called with a reference to an object that is not
    stored in the document, and [AddSection] only add: every property the
    document held is still returned, unchanged, for the same path, and every
    section is found at the same position. Where the path already leads to
    a property, [AddProperty] changes nothing at all, whatever its reference
    leads to. *)
Theorem additions_keep_existing_entries
    (name other : std_string) (property : BgeConfigProperty.t)
    (cfg : BgeConfig.t) :
  (forall p,
     BgeConfig.Get other cfg = Some p ->
     BgeConfig.Get other (BgeConfig.AddProperty_ref name (outside property) cfg) =
       Some p) /\
  (forall q,
     BgeConfig.GetSection other cfg = Some q ->
     BgeConfig.GetSection other
       (BgeConfig.AddProperty_ref name (outside property) cfg) = Some q) /\
  (forall again,
     BgeConfig.HasProperty name cfg = true ->
     BgeConfig.AddProperty_ref name again cfg = cfg) /\
  (forall cfg1 r,
     BgeConfig.AddSection name cfg = Ret (cfg1, r) ->
     (forall p, BgeConfig.Get other cfg = Some p ->
                BgeConfig.Get other cfg1 = Some p) /\
     (forall q, BgeConfig.GetSection other cfg = Some q ->
                BgeConfig.GetSection other cfg1 = Some q)).
Proof.
  rewrite ByReferenceDocument.document_AddProperty_ref_outside.
  assert (keeps_entries (as_section cfg)
            (as_section (BgeConfig.AddProperty name property cfg))) as H1.
  { unfold BgeConfig.AddProperty. rewrite DocumentFacts.AddProperty_path_section.
    rewrite as_section_of_section_root by apply SectionFacts.AddProperty_path_Name.
    apply Frame.keeps_entries_AddProperty_path. }
  destruct (keeps_entries_document _ _ other H1) as (? & ? & _).
  split_and!; [done..| |].
  { intros again. apply ByReferenceDocument.document_AddProperty_ref_has. }
  intros cfg1 r E. unfold BgeConfig.AddSection in E.
  rewrite DocumentFacts.AddSection_path_section in E.
  destruct (BgeConfigSection.AddSubSection_path _ _) as [[s1 r']| |] eqn:E';
    [|done..].
  injection E as <- <-.
  assert (keeps_entries (as_section cfg) (as_section (of_section s1))) as H2.
  { rewrite as_section_of_section_root
      by (by apply SectionFacts.AddSubSection_path_Name in E').
    by eapply Frame.keeps_entries_AddSubSection_path. }
  by destruct (keeps_entries_document _ _ other H2) as (? & ? & _).
Qed.

Lemma additions_keep_existing_entries_witness :
  BgeConfig.Get (lit "A")
    (BgeConfig.AddProperty_ref (lit "A")
       (outside (BgeConfigProperty.mk INT [] (lit "2") 2 0%fp false)) one_property) =
  Some (BgeConfigProperty.mk INT (lit "A") (lit "1") 1 0%fp false).
Proof.
  by apply (additions_keep_existing_entries (lit "A") (lit "A")).
Defined.

(** With a reference to a stored property the write [property.Name = name]
    renames that property before it is copied: the name it had leads to
    nothing any more, and two properties bear the new name. *)
Lemma AddProperty_renames_a_stored_argument :
  BgeConfig.read (stored [] 0) one_orig = BgeConfig.Get (lit "orig") one_orig /\
  BgeConfig.AddProperty_ref (lit "copy") (stored [] 0) one_orig = two_copies /\
  BgeConfig.Get (lit "orig") two_copies = None /\
  BgeConfig.Get (lit "copy") two_copies =
    Some (BgeConfigProperty.mk INT (lit "copy") (lit "1") 1 0%fp false).
Proof. by vm_compute. Qed.

(** The first assignment wins: what [Open] has read from the first lines
    of a file is not changed by the lines that follow. Every property is
    still returned, with the same fields, under the same path, and every
    section is still there. *)
Theorem Open_keeps_what_it_read
    (lines more : list std_string) (cfg0 cfg1 cfg2 : BgeConfig.t)
    (name : std_string) :
  BgeConfig.Open (BgeFile.mk true lines) cfg0 = Ret cfg1 ->
  BgeConfig.Open (BgeFile.mk true (lines ++ more)) cfg0 = Ret cfg2 ->
  (forall p, BgeConfig.Get name cfg1 = Some p -> BgeConfig.Get name cfg2 = Some p) /\
  (BgeConfig.HasProperty name cfg1 = true -> BgeConfig.HasProperty name cfg2 = true) /\
  (BgeConfig.HasSection name cfg1 = true -> BgeConfig.HasSection name cfg2 = true).
Proof.
  unfold BgeConfig.Open. cbn [BgeFile.Ready BgeFile.Lines negb].
  rewrite RoundTrip.Open_loop_app.
  destruct (BgeConfig.Open_loop lines _) as [st1| |]; [|done..].
  rewrite !RoundTrip.Ret_bind. intros [= <-].
  destruct (BgeConfig.Open_loop more st1) as [st2| |] eqn:E; [|done..].
  rewrite RoundTrip.Ret_bind. intros [= <-].
  assert (keeps_entries (as_section st1.1) (as_section st2.1)) as H.
  { apply (Open_loop_effect keeps_entries) with more; [| |done].
    - apply Frame.keeps_entries_refl.
    - intros s1 s2 s3 H12 H23. apply Frame.keeps_entries_trans with s2; [done|].
      by apply Frame.keeps_entries_line_effect. }
  by destruct (keeps_entries_document _ _ name H) as (? & _ & ? & ?).
Qed.

Lemma Open_keeps_what_it_read_witness :
  BgeConfig.Get (lit "S.k")
    (BgeConfig.mk []
       [BgeConfigSection.mk (lit "S") []
          [BgeConfigProperty.mk INT (lit "k") (lit "1") 1 0%fp false]]) =
  Some (BgeConfigProperty.mk INT (lit "k") (lit "1") 1 0%fp false).
Proof.
  by apply (Open_keeps_what_it_read
              [lit "[S]"; lit "k = 1"] [lit "k = 2"; lit "[S]"; lit "k = 3"]
              BgeConfig.new
              (BgeConfig.mk []
                 [BgeConfigSection.mk (lit "S") []
                    [BgeConfigProperty.mk INT (lit "k") (lit "1") 1 0%fp false]])
              (BgeConfig.mk []
                 [BgeConfigSection.mk (lit "S") []
                    [BgeConfigProperty.mk INT (lit "k") (lit "1") 1 0%fp false]])
              (lit "S.k")).
Defined.

(** * A reference to a stored property *)

Module StoredArgument.
Import BgeConfigSection SectionFacts.

Lemma read_renamed f q k w p0 :
  read (stored q k) w = Some p0 ->
  read (stored q k) (alter_at (alter_property f k) q w) = Some (f p0).
Proof.
  unfold read. rewrite PointerFacts.deref_alter_at.
  destruct (deref q w) as [X|]; [|done]. simpl. intros H.
  by rewrite list_lookup_alter_eq, H.
Qed.

Lemma read_valid q k w p0 :
  read (stored q k) w = Some p0 ->
  exists X, deref q w = Some X /\ (k < length (mProperties X))%nat.
Proof.
  unfold read. destruct (deref q w) as [X|]; [|done]. intros H.
  exists X. split; [done|]. by eapply lookup_lt_Some.
Qed.

(** The write through the reference and the [push_back] do not disturb
    one another. *)
Lemma rename_push_commute f k x : forall q t w,
  (forall X, deref q w = Some X -> (k < length (mProperties X))%nat) ->
  alter_at (alter_property f k) q (alter_at (push_property x) t w) =
  alter_at (push_property x) t (alter_at (alter_property f k) q w).
Proof.
  induction q as [|i q IH]; intros [|j t] w Hk.
  - simpl. unfold alter_property, push_property. simpl. f_equal.
    apply alter_app_l. by apply Hk.
  - by destruct w.
  - by destruct w.
  - simpl. unfold alter_nested. simpl. f_equal.
    destruct (decide (i = j)) as [->|Hij].
    + rewrite !list_alter_alter_eq. apply list_alter_ext; [|done].
      intros sub Hsub. simpl. apply IH. intros X HX. apply Hk. simpl.
      by rewrite Hsub.
    + by apply list_alter_alter_ne.
Qed.

(** A new section changes no property that was stored. *)
Lemma deref_push_section x : forall q t w X,
  deref q w = Some X ->
  exists X', deref q (alter_at (push_section x) t w) = Some X' /\
             mProperties X' = mProperties X.
Proof.
  induction q as [|i q IH]; intros t w X.
  - simpl. intros [= <-]. eexists. split; [done|]. by destruct t.
  - simpl. destruct (mNestedSections w !! i) as [sub|] eqn:Hi; [|done].
    intros HX. destruct t as [|j t]; simpl.
    + rewrite lookup_app_l by (by eapply lookup_lt_Some). rewrite Hi.
      by exists X.
    + destruct (decide (j = i)) as [->|Hij].
      * rewrite list_lookup_alter_eq, Hi. simpl. by apply IH.
      * rewrite list_lookup_alter_ne by done. rewrite Hi. by exists X.
Qed.

Lemma read_push_section x property t w p0 :
  read property w = Some p0 ->
  read property (alter_at (push_section x) t w) = Some p0.
Proof.
  destruct property as [p|q k]; [done|]. unfold read.
  destruct (deref q w) as [X|] eqn:E; [|done]. intros H.
  destruct (deref_push_section x q t w X E) as (X' & -> & ->). done.
Qed.

(** [AddProperty] with a reference to a stored property, on a path that
    leads to no property yet: the insertion of the value read through the
    reference, and the stored property renamed. *)
Lemma AddProperty_at_stored q k p0 segs : forall this w s,
  segs <> [] -> Forall (fun seg => seg <> []) segs ->
  deref this w = Some s -> HasProperty_path segs s = false ->
  read (stored q k) w = Some p0 ->
  AddProperty_at deref alter_at assign_Name read segs (stored q k) this w =
  alter_at (alter_property (BgeConfigProperty.set_Name (List.last segs [])) k) q
    (alter_at (AddProperty_path segs p0) this w).
Proof.
  induction segs as [|a [|b rest] IH]; intros this w s Hne Hall Hs Hp Hr; [done| |].
  - apply Forall_cons in Hall as [Ha _]. simpl in Hp.
    cbn [AddProperty_at]. rewrite Hs, bool_decide_eq_false_2, Hp by done.
    cbn [assign_Name]. rewrite (read_renamed _ _ _ _ _ Hr).
    cbn [List.last].
    rewrite (ByReference.alter_at_here (AddProperty_path [a] p0)
               (push_property (BgeConfigProperty.set_Name a p0)) this w s Hs).
    2:{ simpl. by rewrite bool_decide_eq_false_2, Hp. }
    symmetry. apply rename_push_commute. intros X HX.
    destruct (read_valid _ _ _ _ Hr) as (X' & HX' & Hk). by simplify_eq.
  - apply Forall_cons in Hall as [Ha Hall].
    change (List.last (a :: b :: rest) []) with (List.last (b :: rest) (@nil ascii)).
    change (AddProperty_at deref alter_at assign_Name read (a :: b :: rest)
              (stored q k) this w) with
      (match deref this w with
       | None => w
       | Some s =>
           if HasProperty_path (a :: b :: rest) s then w
           else if negb (HasSubSection_here a s) then
             match AddSubSection_here a s with
             | (s1, Some i) =>
                 AddProperty_at deref alter_at assign_Name read (b :: rest)
                   (stored q k) (this ++ [i]) (alter_at (fun _ => s1) this w)
             | (s1, None) => alter_at (fun _ => s1) this w
             end
           else
             match GetSubSection_here a s with
             | Some (i, _) =>
                 AddProperty_at deref alter_at assign_Name read (b :: rest)
                   (stored q k) (this ++ [i]) w
             | None => w
             end
       end).
    rewrite Hs, Hp. rewrite HasProperty_path_cons in Hp.
    destruct (HasSubSection_here a s) eqn:Hh; cbn [negb].
    + destruct (HasSubSection_here_true _ _ Hh) as (i & sub & Eg).
      rewrite Eg in Hp |- *.
      pose proof (GetSubSection_here_Some _ _ _ _ Eg) as (_ & _ & Hi & _).
      rewrite (IH (this ++ [i]) w sub); [|done | done | | done | done].
      2:{ rewrite RoundTrip.deref_app, Hs. simpl. by rewrite Hi. }
      f_equal. rewrite PointerFacts.alter_at_app.
      apply (ByReference.alter_at_here _ _ _ _ s Hs). cbn [alter_at].
      rewrite AddProperty_path_cons, HasProperty_path_cons, Eg, Hp.
      by rewrite (AddSubSection_here_old _ _ _ _ Eg).
    + destruct (AddSubSection_here_fresh a s Ha Hh) as [Ea Eg].
      rewrite Ea.
      assert (alter_at (fun _ => push_section (new a) s) this w =
              alter_at (push_section (new a)) this w) as Ew
        by (by apply (ByReference.alter_at_here _ _ _ _ s Hs)).
      rewrite Ew.
      rewrite (IH (this ++ [length (mNestedSections s)])
                 (alter_at (push_section (new a)) this w) (new a));
        [|done | done | | apply HasProperty_path_new | by apply read_push_section].
      2:{ rewrite RoundTrip.deref_app, PointerFacts.deref_alter_at, Hs. simpl.
          by rewrite lookup_app_r, Nat.sub_diag by lia. }
      f_equal. rewrite PointerFacts.alter_at_app, PointerFacts.alter_at_alter_at.
      apply (ByReference.alter_at_here _ _ _ _ s Hs). cbn [alter_at].
      rewrite AddProperty_path_cons, HasProperty_path_cons.
      assert (GetSubSection_here a s = None) as ->.
      { unfold HasSubSection_here, GetSubSection_here in *.
        case_bool_decide; [done|]. by destruct (GetSectionIterator a s). }
      by rewrite Ea.
Qed.

Lemma GetSubSection_here_same_sections name s s' :
  mNestedSections s' = mNestedSections s ->
  GetSubSection_here name s' = GetSubSection_here name s.
Proof. intros H. unfold GetSubSection_here, GetSectionIterator. by rewrite H. Qed.

Lemma count_properties_cons a b rest s :
  count_properties (a :: b :: rest) s =
    match GetSubSection_here a s with
    | Some (_, sub) => count_properties (b :: rest) sub
    | None => 0%nat
    end.
Proof. reflexivity. Qed.

(** The renaming of a property that is not stored in the section the path
    leads to changes nothing of what the path finds after the insertion. *)
Lemma lookups_after_rename f k p segs : forall s q,
  segs <> [] -> Forall (fun seg => seg <> []) segs ->
  HasProperty_path segs s = false ->
  is_Some (deref q s) -> resolve (removelast segs) s <> Some q ->
  Get_path segs (alter_at (alter_property f k) q (AddProperty_path segs p s)) =
    Get_path segs (AddProperty_path segs p s) /\
  count_properties segs (alter_at (alter_property f k) q (AddProperty_path segs p s)) =
    count_properties segs (AddProperty_path segs p s) /\
  HasProperty_path segs (alter_at (alter_property f k) q (AddProperty_path segs p s)) =
    HasProperty_path segs (AddProperty_path segs p s).
Proof.
  induction segs as [|a [|b rest] IH]; intros s q Hne Hall Hp Hq Hr; [done| |].
  - destruct q as [|j q']; [done|]. by destruct (AddProperty_path [a] p s).
  - apply Forall_cons in Hall as [Ha Hall].
    change (removelast (a :: b :: rest)) with (a :: removelast (b :: rest)) in Hr.
    rewrite AddProperty_path_cons, Hp.
    destruct (AddSubSection_here_proper a s Ha) as (s_a & i & sub_a & E1 & E2 & Hcase).
    rewrite E1.
    set (G := AddProperty_path (b :: rest) p).
    pose proof (GetSubSection_here_Some _ _ _ _ E2) as (_ & _ & Hi & _).
    assert (GetSubSection_here a (alter_nested G i s_a) = Some (i, G sub_a)) as ES.
    { apply GetSubSection_here_alter; [done|]. apply AddProperty_path_Name. }
    rewrite !Get_path_cons, !count_properties_cons, !HasProperty_path_cons, ES.
    destruct q as [|j q'].
    { cbn [alter_at].
      rewrite (GetSubSection_here_same_sections a (alter_nested G i s_a)
                 (alter_property f k (alter_nested G i s_a))) by done.
      by rewrite ES. }
    cbn [alter_at].
    simpl in Hq. destruct (mNestedSections s !! j) as [y|] eqn:Hj; [|by destruct Hq].
    assert (mNestedSections s_a !! j = Some y) as Hja.
    { destruct Hcase as [-> | (_ & -> & _)]; [done|]. simpl.
      rewrite lookup_app_l by (by eapply lookup_lt_Some). done. }
    assert (mNestedSections (alter_nested G i s_a) !! j =
            Some (if decide (i = j) then G y else y)) as HjS.
    { simpl. destruct (decide (i = j)) as [->|Hij].
      - by rewrite list_lookup_alter_eq, Hja.
      - by rewrite list_lookup_alter_ne, Hja. }
    rewrite (Frame.GetSubSection_here_alter_any a (alter_at (alter_property f k) q') _ j
               _ i (G sub_a) HjS); [|apply PointerFacts.alter_at_Name; done | done].
    destruct (decide (j = i)) as [->|Hji]; [|done].
    assert (y = sub_a /\ s_a = s) as [-> ->].
    { destruct Hcase as [-> | (_ & _ & _ & ->)].
      - rewrite Hi in Hj. by simplify_eq.
      - apply lookup_lt_Some in Hj. lia. }
    rewrite HasProperty_path_cons, E2 in Hp.
    apply (IH sub_a q'); [done | done | done | done |].
    intros Hres. apply Hr. apply PointerFacts.resolve_cons.
    by exists i, sub_a, q'.
Qed.

End StoredArgument.

(** * Inserting twice, with a reference *)

Lemma section_AddProperty_ref_twice path s property again p0 :
  proper_path path = true -> unique_names s ->
  BgeConfigSection.read property s = Some p0 ->
  BgeConfigSection.HasProperty path s = true \/
    stored_at_target path property s = false ->
  let s1 := BgeConfigSection.AddProperty_ref path property s in
  BgeConfigSection.AddProperty_ref path again s1 = s1 /\
  count_properties (split_path path) s1 = 1%nat /\
  (BgeConfigSection.HasProperty path s = true -> s1 = s) /\
  (BgeConfigSection.HasProperty path s = false ->
   BgeConfigSection.Get path s1 =
     Some (BgeConfigProperty.set_Name (last_segment path) p0)) /\
  (forall p, property = outside p -> unique_names s1) /\
  BgeConfigSection.Name s1 = BgeConfigSection.Name s.
Proof.
  intros Hpath Hu Hread Hcase s1. subst s1.
  destruct (BgeConfigSection.HasProperty path s) eqn:Hh.
  { rewrite (ByReference.AddProperty_ref_has path property s Hh).
    split_and!; [by apply ByReference.AddProperty_ref_has | | done..].
    pose proof (SectionFacts.count_properties_has _ _ Hh).
    pose proof (SectionFacts.count_properties_unique (split_path path) _ Hu). lia. }
  destruct Hcase as [?|Haway]; [done|].
  destruct (section_AddProperty_twice path Hpath s p0 p0 Hu)
    as (_ & H2 & H3 & _ & H5).
  pose proof (section_AddProperty_present path Hpath s p0) as H1.
  destruct property as [p|q k].
  - simpl in Hread. simplify_eq.
    rewrite ByReference.AddProperty_ref_outside.
    split_and!; [by apply ByReference.AddProperty_ref_has | done | done | by auto | done |].
    apply SectionFacts.AddProperty_path_Name.
  - unfold stored_at_target in Haway. apply bool_decide_eq_false in Haway.
    destruct (StoredArgument.read_valid _ _ _ _ Hread) as (X & HX & _).
    unfold BgeConfigSection.AddProperty_ref.
    rewrite (StoredArgument.AddProperty_at_stored q k p0 (split_path path) [] s s);
      [|apply split_path_nonempty | by apply proper_path_Forall | done | done | done].
    cbn [BgeConfigSection.alter_at].
    unfold BgeConfigSection.HasProperty, BgeConfigSection.Get,
      BgeConfigSection.AddProperty in *.
    destruct (StoredArgument.lookups_after_rename
                (BgeConfigProperty.set_Name (List.last (split_path path) [])) k p0
                (split_path path) s q) as (E1 & E2 & E3);
      [apply split_path_nonempty | by apply proper_path_Forall | done
      | by rewrite HX | done |].
    split_and!.
    + apply (ByReference.AddProperty_at_has _ _ [] _ _ eq_refl). by rewrite E3.
    + by rewrite E2.
    + done.
    + intros _. rewrite E1. by apply H5.
    + done.
    + rewrite PointerFacts.alter_at_Name by done.
      apply SectionFacts.AddProperty_path_Name.
Qed.

Lemma document_AddProperty_ref_twice path cfg property again p0 :
  proper_path path = true -> unique_names (as_section cfg) ->
  BgeConfig.read property cfg = Some p0 ->
  BgeConfig.HasProperty path cfg = true \/
    stored_at_target path property (as_section cfg) = false ->
  let cfg1 := BgeConfig.AddProperty_ref path property cfg in
  BgeConfig.AddProperty_ref path again cfg1 = cfg1 /\
  count_properties (split_path path) (as_section cfg1) = 1%nat /\
  (BgeConfig.HasProperty path cfg = true -> cfg1 = cfg) /\
  (BgeConfig.HasProperty path cfg = false ->
   BgeConfig.Get path cfg1 =
     Some (BgeConfigProperty.set_Name (last_segment path) p0)) /\
  (forall p, property = outside p -> unique_names (as_section cfg1)).
Proof.
  intros Hpath Hu Hread Hcase cfg1. subst cfg1.
  rewrite <- (DocumentFacts.of_as_section cfg) in Hread.
  rewrite ByReferenceDocument.read_section in Hread.
  unfold BgeConfig.HasProperty in *.
  rewrite DocumentFacts.HasProperty_path_section in *.
  destruct (section_AddProperty_ref_twice path (as_section cfg) property again p0
              Hpath Hu Hread Hcase) as (H1 & H2 & H3 & H4 & H5 & H6).
  rewrite !ByReferenceDocument.AddProperty_ref_section.
  rewrite !as_section_of_section_root by done.
  unfold BgeConfig.Get. rewrite DocumentFacts.Get_path_section.
  rewrite !as_section_of_section_root by done.
  split_and!; [by rewrite H1 | done | | done | done].
  intros Hh. rewrite (H3 Hh). apply DocumentFacts.of_as_section.
Qed.

Lemma C8_empty_path_and_stored_argument_cex :
  (* the empty path, and a path that ends with a dot *)
  (let property := BgeConfigProperty.mk INT (lit "x") (lit "1") 1 0%fp false in
   let cfg1 := BgeConfig.AddProperty_ref [] (outside property) BgeConfig.new in
   BgeConfig.AddProperty_ref [] (outside property) cfg1 = cfg1 /\
   count_properties (split_path []) (as_section cfg1) = 0%nat /\
   BgeConfig.AddSection [] BgeConfig.new = Ret (BgeConfig.new, None) /\
   count_sections (split_path []) (as_section BgeConfig.new) = 0%nat /\
   BgeConfig.AddSection (lit "a.") BgeConfig.new =
     Ret (BgeConfig.mk [] [BgeConfigSection.new (lit "a")], None)) /\
  (* [cfg.AddProperty("copy", *cfg.Get("orig"))] *)
  (BgeConfig.read (stored [] 0) one_orig = BgeConfig.Get (lit "orig") one_orig /\
   unique_names (as_section one_orig) /\
   proper_path (lit "copy") = true /\
   stored_at_target (lit "copy") (stored [] 0) (as_section one_orig) = true /\
   BgeConfig.AddProperty_ref (lit "copy") (stored [] 0) one_orig = two_copies /\
   count_properties (split_path (lit "copy")) (as_section two_copies) = 2%nat /\
   BgeConfig.Get (lit "orig") two_copies = None /\
   ~ unique_names (as_section two_copies)) /\
  (* a state in which a name is used twice *)
  (let property := BgeConfigProperty.mk INT (lit "x") (lit "1") 1 0%fp false in
   BgeConfig.AddProperty_ref (lit "copy") (outside property) two_copies = two_copies /\
   count_properties (split_path (lit "copy")) (as_section two_copies) = 2%nat).
Proof.
  split; [repeat split; reflexivity|].
  split; [|by vm_compute].
  split_and!; try reflexivity.
  - simpl. split_and!; try done; [apply NoDup_singleton | apply NoDup_nil_2].
  - simpl. intros [H _]. apply NoDup_cons in H as [H _].
    apply H. by left.
Qed.

(** C8 (amended). On a section or a document whose names are unique, with a
    path none of whose segments is empty, and with a reference that leads to
    an object [p0] which is not a property stored in the section the path
    leads to (or with a path that already leads to a property): after
    [AddProperty] the tree holds exactly one property of that name at the
    addressed level, a second [AddProperty] with any reference changes
    nothing, and the stored property is the one that was there or, when
    there was none, the first argument renamed to the last segment; when the
    argument is not stored in the tree at all the names are still unique.
    [AddSubSection]/[AddSection] returns a section, the second call returns
    the same pointer and changes nothing, and the addressed level holds
    exactly one section of that name. *)
Theorem C8_second_insertion_changes_nothing
    (path : std_string) (s : BgeConfigSection.t) (cfg : BgeConfig.t)
    (property again : property_ref) (p0 : BgeConfigProperty.t) :
  proper_path path = true ->
  unique_names s ->
  unique_names (as_section cfg) ->
  (BgeConfigSection.read property s = Some p0 ->
   BgeConfigSection.HasProperty path s = true \/
     stored_at_target path property s = false ->
   let s1 := BgeConfigSection.AddProperty_ref path property s in
   BgeConfigSection.AddProperty_ref path again s1 = s1 /\
   count_properties (split_path path) s1 = 1%nat /\
   (BgeConfigSection.HasProperty path s = true -> s1 = s) /\
   (BgeConfigSection.HasProperty path s = false ->
    BgeConfigSection.Get path s1 =
      Some (BgeConfigProperty.set_Name (last_segment path) p0)) /\
   (forall p, property = outside p -> unique_names s1)) /\
  (exists s1 p,
     BgeConfigSection.AddSubSection path s = Ret (s1, Some p) /\
     BgeConfigSection.AddSubSection path s1 = Ret (s1, Some p) /\
     BgeConfigSection.GetSubSection path s1 = Some p /\
     count_sections (split_path path) s1 = 1%nat /\
     unique_names s1) /\
  (BgeConfig.read property cfg = Some p0 ->
   BgeConfig.HasProperty path cfg = true \/
     stored_at_target path property (as_section cfg) = false ->
   let cfg1 := BgeConfig.AddProperty_ref path property cfg in
   BgeConfig.AddProperty_ref path again cfg1 = cfg1 /\
   count_properties (split_path path) (as_section cfg1) = 1%nat /\
   (BgeConfig.HasProperty path cfg = true -> cfg1 = cfg) /\
   (BgeConfig.HasProperty path cfg = false ->
    BgeConfig.Get path cfg1 =
      Some (BgeConfigProperty.set_Name (last_segment path) p0)) /\
   (forall p, property = outside p -> unique_names (as_section cfg1))) /\
  (exists cfg1 p,
     BgeConfig.AddSection path cfg = Ret (cfg1, Some p) /\
     BgeConfig.AddSection path cfg1 = Ret (cfg1, Some p) /\
     BgeConfig.GetSection path cfg1 = Some p /\
     count_sections (split_path path) (as_section cfg1) = 1%nat /\
     unique_names (as_section cfg1)).
Proof.
  intros Hpath Hs Hcfg. split_and!.
  - intros Hread Hcase.
    destruct (section_AddProperty_ref_twice path s property again p0
                Hpath Hs Hread Hcase) as (? & ? & ? & ? & ? & _).
    done.
  - destruct (section_AddSubSection_twice path Hpath s Hs)
      as (s1 & p & ? & ? & ? & ? & ? & _).
    by exists s1, p.
  - intros Hread Hcase. by apply document_AddProperty_ref_twice.
  - by apply document_AddSection_twice.
Qed.

(** [cfg.AddProperty("General.copy", *cfg.Get("orig"))]: the reference
    leads to a property of the document, the path to the section [General];
    then the same call once more. *)
Lemma C8_second_insertion_changes_nothing_witness :
  let path := lit "General.copy" in
  proper_path path = true /\
  unique_names (BgeConfigSection.new (lit "root")) /\
  unique_names (as_section one_orig) /\
  BgeConfig.read (stored [] 0) one_orig =
    Some (BgeConfigProperty.mk INT (lit "orig") (lit "1") 1 0%fp false) /\
  stored_at_target path (stored [] 0) (as_section one_orig) = false /\
  (let cfg1 := BgeConfig.AddProperty_ref path (stored [] 0) one_orig in
   BgeConfig.AddProperty_ref path (stored [] 0) cfg1 = cfg1 /\
   count_properties (split_path path) (as_section cfg1) = 1%nat /\
   BgeConfig.Get path cfg1 =
     Some (BgeConfigProperty.mk INT (lit "copy") (lit "1") 1 0%fp false)) /\
  (exists cfg1 p,
     BgeConfig.AddSection path one_orig = Ret (cfg1, Some p) /\
     BgeConfig.AddSection path cfg1 = Ret (cfg1, Some p)).
Proof.
  intros path.
  assert (proper_path path = true) as H1 by reflexivity.
  assert (unique_names (BgeConfigSection.new (lit "root"))) as H2
    by apply SectionFacts.unique_names_new.
  assert (unique_names (as_section one_orig)) as H3.
  { simpl. split_and!; try done; [apply NoDup_singleton | apply NoDup_nil_2]. }
  assert (BgeConfig.read (stored [] 0) one_orig =
          Some (BgeConfigProperty.mk INT (lit "orig") (lit "1") 1 0%fp false)) as H4
    by reflexivity.
  assert (stored_at_target path (stored [] 0) (as_section one_orig) = false) as H5
    by reflexivity.
  destruct (C8_second_insertion_changes_nothing path
              (BgeConfigSection.new (lit "root")) one_orig
              (stored [] 0) (stored [] 0)
              (BgeConfigProperty.mk INT (lit "orig") (lit "1") 1 0%fp false)
              H1 H2 H3)
    as (_ & _ & Hdoc & (cfg1 & p & Hc & Hd & _)).
  destruct (Hdoc H4 (or_intror H5)) as (Ha & Hb & _ & Hget & _).
  split_and!; [done | done | done | done | done | | by exists cfg1, p].
  split_and!; [done | done |]. by apply Hget.
Defined.

(** * Names and reachability *)

Module Names.
Import BgeConfigSection SectionFacts.

Lemma well_named_unfold s :
  well_named s <->
  Forall segment_name (BgeConfigProperty.Name <$> mProperties s) /\
  Forall segment_name (Name <$> mNestedSections s) /\
  Forall well_named (mNestedSections s).
Proof.
  destruct s as [name nested properties]; simpl.
  assert (fold_right (fun sub rest => well_named sub /\ rest) True nested
          <-> Forall well_named nested) as ->; [|done].
  induction nested as [|x l IH]; simpl.
  - split; [by constructor | done].
  - rewrite Forall_cons, IH. done.
Qed.

Lemma split_path_segments name :
  Forall (Forall (fun c => c <> "."%char)) (split_path name).
Proof.
  induction name as [|c name IH]; [by repeat constructor|].
  cbn [split_path]. destruct (chr_eqb c ".") eqn:E.
  - constructor; [constructor | done].
  - assert (c <> "."%char) as Hc by (intros ->; done).
    destruct (split_path name) as [|seg segs]; [by repeat constructor|].
    apply Forall_cons in IH as [Hseg Hsegs]. by repeat constructor.
Qed.

Lemma well_named_new name : well_named (new name).
Proof. simpl. split_and!; [constructor.. | done]. Qed.

Lemma well_named_push_property property s :
  well_named s -> segment_name (BgeConfigProperty.Name property) ->
  well_named (push_property property s).
Proof.
  intros (H1 & H2 & H3)%well_named_unfold Hn. apply well_named_unfold. simpl.
  split_and!; [|done..]. rewrite fmap_app. apply Forall_app. split; [done|].
  simpl. by constructor.
Qed.

Lemma well_named_push_section name s :
  well_named s -> segment_name name -> well_named (push_section (new name) s).
Proof.
  intros (H1 & H2 & H3)%well_named_unfold Hn. apply well_named_unfold. simpl.
  split_and!; [done| |].
  - rewrite fmap_app. apply Forall_app. split; [done|]. simpl. by constructor.
  - apply Forall_app. split; [done|]. constructor; [|constructor].
    apply well_named_new.
Qed.

Lemma well_named_nested s i sub :
  well_named s -> mNestedSections s !! i = Some sub -> well_named sub.
Proof.
  intros (_ & _ & H)%well_named_unfold Hi. by eapply Forall_lookup_1 in H.
Qed.

Lemma well_named_alter_nested f s i sub :
  well_named s -> mNestedSections s !! i = Some sub ->
  Name (f sub) = Name sub -> well_named (f sub) ->
  well_named (alter_nested f i s).
Proof.
  intros (H1 & H2 & H3)%well_named_unfold Hi Hf Hu.
  apply well_named_unfold; simpl. split_and!; [done | |].
  - by rewrite (fmap_alter_name Name f _ i sub).
  - apply Forall_lookup. intros j y Hj.
    destruct (decide (i = j)) as [->|Hij].
    + rewrite list_lookup_alter_eq, Hi in Hj. by simplify_eq/=.
    + rewrite list_lookup_alter_ne in Hj by done.
      by eapply Forall_lookup_1 in H3.
Qed.

Lemma well_named_alter_at f q s :
  (forall x, well_named x -> well_named (f x)) ->
  (forall x, Name (f x) = Name x) ->
  well_named s -> well_named (alter_at f q s).
Proof.
  intros Hf HN. revert s. induction q as [|i q IH]; intros s Hu; [by apply Hf|].
  cbn [alter_at]. destruct (mNestedSections s !! i) as [sub|] eqn:Hi.
  - eapply well_named_alter_nested; [done | done | |].
    + by apply PointerFacts.alter_at_Name.
    + apply IH. by eapply well_named_nested.
  - by rewrite Frame.alter_nested_out_of_range.
Qed.

Lemma well_named_AddSubSection_here a s s1 r :
  Forall (fun c => c <> "."%char) a ->
  well_named s -> AddSubSection_here a s = (s1, r) -> well_named s1.
Proof.
  intros Ha Hs. unfold AddSubSection_here. case_bool_decide; [by intros [= <- _]|].
  destruct (HasSubSection_here a s); intros [= <- _]; [done|].
  by apply well_named_push_section.
Qed.

Lemma well_named_AddSubSection_path segs s s1 r :
  Forall (Forall (fun c => c <> "."%char)) segs ->
  well_named s -> AddSubSection_path segs s = Ret (s1, r) -> well_named s1.
Proof.
  revert s s1 r. induction segs as [|a [|b rest] IH]; intros s s1 r Hsegs Hs.
  - by intros [= <- _].
  - simpl. destruct (AddSubSection_here a s) as [s' r'] eqn:E.
    intros [= <- _]. apply Forall_cons in Hsegs as [Ha _].
    by eapply well_named_AddSubSection_here.
  - rewrite AddSubSection_path_cons.
    destruct (HasSubSection_path _ _); [by intros [= <- _]|].
    destruct (AddSubSection_here a s) as [s' [i|]] eqn:E; [|by null_call E].
    destruct (mNestedSections s' !! i) as [sub|] eqn:Hi; [|done].
    destruct (AddSubSection_path (b :: rest) sub) as [[sub' q']| |] eqn:E';
      [|done..].
    intros [= <- _]. apply Forall_cons in Hsegs as [Ha Hrest].
    assert (well_named s') as Hs' by (by eapply well_named_AddSubSection_here).
    eapply well_named_alter_nested; [done | done | |].
    + by apply AddSubSection_path_Name in E'.
    + eapply IH; [done | | done]. by eapply well_named_nested.
Qed.

Lemma well_named_AddProperty_path segs property s :
  Forall (Forall (fun c => c <> "."%char)) segs ->
  well_named s -> well_named (AddProperty_path segs property s).
Proof.
  revert s. induction segs as [|a [|b rest] IH]; intros s Hsegs Hs; [done| |].
  - simpl. case_bool_decide as Ha; [done|].
    destruct (HasProperty_here a s); [done|].
    apply well_named_push_property; [done|]. simpl.
    by apply Forall_cons in Hsegs as [? _].
  - rewrite AddProperty_path_cons.
    destruct (HasProperty_path _ _); [done|].
    apply Forall_cons in Hsegs as [Ha Hrest].
    destruct (AddSubSection_here a s) as [s1 [i|]] eqn:E.
    + assert (well_named s1) as Hs1 by (by eapply well_named_AddSubSection_here).
      apply (well_named_alter_at _ [i]); [|intros x; apply AddProperty_path_Name|done].
      intros x Hx. by apply IH.
    + by eapply well_named_AddSubSection_here.
Qed.

Lemma well_named_line_effect s s' : well_named s -> line_effect s s' -> well_named s'.
Proof.
  intros Hs [|name s1 p E|name property q].
  - done.
  - eapply well_named_AddSubSection_path; [apply split_path_segments | done | done].
  - apply well_named_alter_at; [|intros x; apply AddProperty_path_Name | done].
    intros x Hx. by apply well_named_AddProperty_path; [apply split_path_segments|].
Qed.

End Names.

(** Whatever a ready file holds, in the tree [Open] returns no property and
    no section has an empty name or a name with a dot: each name is one
    segment of a path. *)
Theorem Open_names_are_path_segments
    (lines : list std_string) (cfg0 : BgeConfig.t) :
  match BgeConfig.Open (BgeFile.mk true lines) cfg0 with
  | Ret cfg => well_named (as_section cfg)
  | Throw _ | NullDeref => True
  end.
Proof.
  unfold BgeConfig.Open. cbn [BgeFile.Ready negb BgeFile.Lines].
  destruct (BgeConfig.Open_loop lines _) as [st'| |] eqn:E; [|done..].
  rewrite RoundTrip.Ret_bind.
  refine (Open_loop_effect (fun s s' => well_named s -> well_named s')
            _ _ lines _ _ E (Names.well_named_new [])).
  - done.
  - intros s1 s2 s3 H12 H23 H1. by eapply Names.well_named_line_effect; [apply H12|].
Qed.
Section find_unique.
Context {A : Type} (name_of : A -> std_string).

Lemma find_name_NoDup (l : list A) i x :
  NoDup (name_of <$> l) -> l !! i = Some x ->
  list_find (fun y => name_of x = name_of y) l = Some (i, x).
Proof.
  intros Hnd Hi. apply list_find_Some. split_and!; [done..|].
  intros j y Hj Hlt E.
  assert (i = j); [|lia].
  apply (NoDup_lookup (name_of <$> l) i j (name_of x)); [done|..].
  - by rewrite list_lookup_fmap, Hi.
  - by rewrite list_lookup_fmap, Hj, E.
Qed.

End find_unique.

Module Reach.
Import BgeConfigSection SectionFacts.

Lemma GetSubSection_here_at s i sub :
  unique_names s -> well_named s -> mNestedSections s !! i = Some sub ->
  GetSubSection_here (Name sub) s = Some (i, sub) /\
  segment_name (Name sub) /\ unique_names sub /\ well_named sub.
Proof.
  intros Hu Hw Hi.
  pose proof (unique_names_nested _ _ _ Hu Hi) as Hu'.
  pose proof (Names.well_named_nested _ _ _ Hw Hi) as Hw'.
  apply unique_names_unfold in Hu as (_ & Hnd & _).
  apply Names.well_named_unfold in Hw as (_ & Hall & _).
  assert (segment_name (Name sub)) as Hseg.
  { rewrite Forall_fmap in Hall. by eapply Forall_lookup_1 in Hall. }
  split_and!; [|done..].
  unfold GetSubSection_here. rewrite bool_decide_eq_false_2 by apply Hseg.
  by apply (find_name_NoDup Name).
Qed.

Lemma Get_here_at s k p :
  unique_names s -> well_named s -> mProperties s !! k = Some p ->
  Get_here (BgeConfigProperty.Name p) s = Some p /\
  segment_name (BgeConfigProperty.Name p).
Proof.
  intros Hu Hw Hk.
  apply unique_names_unfold in Hu as (Hnd & _ & _).
  apply Names.well_named_unfold in Hw as (Hall & _ & _).
  assert (segment_name (BgeConfigProperty.Name p)) as Hseg.
  { rewrite Forall_fmap in Hall. by eapply Forall_lookup_1 in Hall. }
  split; [|done].
  unfold Get_here, GetPropertyIterator.
  rewrite bool_decide_eq_false_2 by apply Hseg.
  by rewrite (find_name_NoDup BgeConfigProperty.Name _ k p).
Qed.

(** The names along a pointer lead back to it. *)
Lemma section_by_names q : forall s sub names,
  unique_names s -> well_named s ->
  deref q s = Some sub -> section_names_along q s = Some names ->
  Forall segment_name names /\ unique_names sub /\ well_named sub /\
  (q <> [] -> GetSubSection_path names s = Some q).
Proof.
  induction q as [|i q IH]; intros s sub names Hu Hw.
  { simpl. intros [= <-] [= <-]. by split_and!. }
  simpl. destruct (mNestedSections s !! i) as [sub1|] eqn:Hi; [|done].
  destruct (section_names_along q sub1) as [names'|] eqn:En; [|done].
  intros Hd [= <-].
  destruct (GetSubSection_here_at _ _ _ Hu Hw Hi) as (Hg & Hseg & Hu1 & Hw1).
  destruct (IH sub1 sub names' Hu1 Hw1 Hd En) as (Hall & Hu' & Hw' & Hq).
  split_and!; [by constructor | done | done |]. intros _.
  destruct q as [|j q'].
  - simpl in En. injection En as <-. simpl. by rewrite Hg.
  - destruct names' as [|b rest].
    { simpl in En. destruct (mNestedSections sub1 !! j); [|done].
      by destruct (section_names_along q' _). }
    rewrite GetSubSection_path_cons, Hg, Hq; done.
Qed.

Lemma property_by_names q : forall s sub names k p,
  unique_names s -> well_named s ->
  deref q s = Some sub -> section_names_along q s = Some names ->
  mProperties sub !! k = Some p ->
  Get_path (names ++ [BgeConfigProperty.Name p]) s = Some p.
Proof.
  induction q as [|i q IH]; intros s sub names k p Hu Hw.
  { simpl. intros [= <-] [= <-] Hk. by apply (Get_here_at s k p). }
  simpl. destruct (mNestedSections s !! i) as [sub1|] eqn:Hi; [|done].
  destruct (section_names_along q sub1) as [names'|] eqn:En; [|done].
  intros Hd [= <-] Hk.
  destruct (GetSubSection_here_at _ _ _ Hu Hw Hi) as (Hg & Hseg & Hu1 & Hw1).
  pose proof (IH sub1 sub names' k p Hu1 Hw1 Hd En Hk) as Hp.
  destruct (PointerFacts.snoc_cons names' (BgeConfigProperty.Name p)) as (b & rest & E).
  change ((Name sub1 :: names') ++ [BgeConfigProperty.Name p])
    with (Name sub1 :: (names' ++ [BgeConfigProperty.Name p])).
  rewrite E in Hp |- *. by rewrite Get_path_cons, Hg.
Qed.

Lemma unique_names_line_effect s s' :
  unique_names s -> line_effect s s' -> unique_names s'.
Proof.
  intros Hs [|name s1 p E|name property q].
  - done.
  - by eapply AddSubSection_path_unique.
  - apply unique_names_alter_at; [|intros x; apply AddProperty_path_Name | done].
    intros x Hx. by apply AddProperty_path_unique.
Qed.

Lemma split_path_join_names names :
  names <> [] -> Forall segment_name names -> split_path (join_path names) = names.
Proof.
  intros Hne Hall. apply split_path_join; [done|].
  eapply Forall_impl; [exact Hall|]. by intros n [_ ?].
Qed.

End Reach.

(** Nothing [Open] has stored is out of reach: in the tree it returns,
    every section is the one [GetSection] returns for the names of the
    sections that lead to it, joined by dots, and every property of a
    section is the one [Get] returns for these names followed by its own
    name. *)
Theorem Open_entries_are_reachable
    (lines : list std_string) (cfg0 cfg : BgeConfig.t)
    (q : list nat) (sub : BgeConfigSection.t) (names : list std_string) :
  BgeConfig.Open (BgeFile.mk true lines) cfg0 = Ret cfg ->
  BgeConfigSection.deref q (as_section cfg) = Some sub ->
  section_names_along q (as_section cfg) = Some names ->
  (q = [] \/ BgeConfig.GetSection (join_path names) cfg = Some q) /\
  (forall k p,
     BgeConfigSection.mProperties sub !! k = Some p ->
     BgeConfig.Get (join_path (names ++ [BgeConfigProperty.Name p])) cfg = Some p).
Proof.
  unfold BgeConfig.Open. cbn [BgeFile.Ready negb BgeFile.Lines].
  destruct (BgeConfig.Open_loop lines _) as [st'| |] eqn:E; [|done..].
  rewrite RoundTrip.Ret_bind. intros [= <-].
  assert (unique_names (as_section st'.1)) as Hu.
  { refine (Open_loop_effect (fun s s' => unique_names s -> unique_names s')
              _ _ lines _ _ E (SectionFacts.unique_names_new [])); [done|].
    intros s1 s2 s3 H12 H23 H1. by eapply Reach.unique_names_line_effect; [apply H12|]. }
  assert (well_named (as_section st'.1)) as Hw.
  { refine (Open_loop_effect (fun s s' => well_named s -> well_named s')
              _ _ lines _ _ E (Names.well_named_new [])); [done|].
    intros s1 s2 s3 H12 H23 H1. by eapply Names.well_named_line_effect; [apply H12|]. }
  intros Hd Hn.
  destruct (Reach.section_by_names q _ _ _ Hu Hw Hd Hn) as (Hall & _ & _ & Hq).
  split.
  - destruct q as [|i q]; [by left | right].
    unfold BgeConfig.GetSection. rewrite DocumentFacts.GetSection_path_section.
    rewrite Reach.split_path_join_names; [by apply Hq | | done].
    intros ->. specialize (Hq ltac:(done)). done.
  - intros k p Hk.
    unfold BgeConfig.Get. rewrite DocumentFacts.Get_path_section.
    destruct (Reach.section_by_names q _ _ _ Hu Hw Hd Hn) as (_ & Hu' & Hw' & _).
    destruct (Reach.Get_here_at sub k p Hu' Hw' Hk) as [_ Hseg].
    rewrite Reach.split_path_join_names.
    + by eapply Reach.property_by_names.
    + by destruct names.
    + apply Forall_app. split; [done | by constructor].
Qed.

Lemma Open_entries_are_reachable_witness :
  let p := BgeConfigProperty.mk BOOL (lit "Setting0") (lit "true") 0 0%fp true in
  let sub := BgeConfigSection.mk (lit "Editor") [] [p] in
  let cfg :=
    BgeConfig.mk []
      [BgeConfigSection.mk (lit "General") [sub]
         [BgeConfigProperty.mk BOOL (lit "Setting0") (lit "false") 0 0%fp false]] in
  BgeConfig.Get
    (join_path ([lit "General"; lit "Editor"] ++ [BgeConfigProperty.Name p])) cfg =
  Some p.
Proof.
  intros p sub cfg.
  refine (proj2 (Open_entries_are_reachable
           [lit "[General]"; lit "Setting0 = false"; [];
            lit "[General.Editor]"; lit "Setting0 = true"]
           BgeConfig.new cfg [0; 0]%nat sub
           [lit "General"; lit "Editor"] _ _ _) 0%nat p _); by vm_compute.
Defined.

(** * How [Open] ends *)

Module Endings.

Lemma ending_bind {A B : Type} (o : outcome A) (k : A -> outcome B) :
  ending (o ≫= k) =
    match o with
    | Ret a => ending (k a)
    | Throw e => Throw e
    | NullDeref => NullDeref
    end.
Proof. by destruct o. Qed.

Lemma Forall_removelast (segs : list std_string) :
  Forall (fun seg => seg <> []) segs ->
  Forall (fun seg => seg <> []) (removelast segs).
Proof.
  intros H. destruct segs as [|a segs]; [done|].
  by apply AddOutcome.Forall_removelast_last in H as [? _].
Qed.

Lemma Exists_Forall_empty (l : list std_string) :
  Exists (fun seg => seg = []) l -> Forall (fun seg => seg <> []) l -> False.
Proof.
  intros (x & Hx & ->)%Exists_exists Hall.
  rewrite Forall_forall in Hall. by apply (Hall [] Hx).
Qed.

Lemma existsb_empty (l : list std_string) :
  (existsb (fun seg => bool_decide (seg = [])) l = true <->
     Exists (fun seg => seg = []) l) /\
  (existsb (fun seg => bool_decide (seg = [])) l = false <->
     Forall (fun seg => seg <> []) l).
Proof.
  induction l as [|seg l [IH1 IH2]]; simpl.
  - split; (split; [done|]); [by intros ?%Exists_nil | done].
  - rewrite orb_true_iff, orb_false_iff, IH1, IH2, Exists_cons, Forall_cons,
      bool_decide_eq_true, bool_decide_eq_false. done.
Qed.

(** Whether [AddSubSection] returns depends on the path only. *)
Lemma AddSubSection_path_ending_spec segs s :
  segs <> [] ->
  ending (BgeConfigSection.AddSubSection_path segs s) =
    match after_first_empty segs with
    | Some rest =>
        if forallb (fun seg => bool_decide (seg = [])) rest then Ret tt
        else NullDeref
    | None => Ret tt
    end.
Proof.
  intros Hne.
  pose proof (AddOutcome.AddSubSection_path_outcome segs s Hne) as H.
  destruct (BgeConfigSection.AddSubSection_path segs s) as [[s1 [q|]]| |].
  - destruct H as [H _]. apply AddOutcome.after_first_empty_None in H. by rewrite H.
  - destruct H as (rest & -> & ->). done.
  - done.
  - destruct H as (rest & -> & ->). done.
Qed.

Lemma AddSubSection_path_ending segs s s' :
  ending (BgeConfigSection.AddSubSection_path segs s) =
  ending (BgeConfigSection.AddSubSection_path segs s').
Proof.
  destruct segs as [|a segs]; [done|].
  by rewrite !AddSubSection_path_ending_spec.
Qed.

Lemma AddSection_ending name cfg cfg' :
  ending (BgeConfig.AddSection name cfg) = ending (BgeConfig.AddSection name cfg').
Proof.
  unfold BgeConfig.AddSection. rewrite !DocumentFacts.AddSection_path_section.
  pose proof (AddSubSection_path_ending (split_path name) (as_section cfg)
                (as_section cfg')) as H.
  by destruct (BgeConfigSection.AddSubSection_path _ (as_section cfg)) as [[? ?]| |],
    (BgeConfigSection.AddSubSection_path _ (as_section cfg')) as [[? ?]| |].
Qed.

Lemma AddSection_returns_when_present name cfg cfg' :
  BgeConfig.HasSection name cfg = true ->
  ending (BgeConfig.AddSection name cfg') = Ret tt.
Proof.
  intros H. rewrite (AddSection_ending name cfg' cfg).
  unfold BgeConfig.AddSection, BgeConfig.HasSection in *.
  rewrite DocumentFacts.AddSection_path_section.
  rewrite DocumentFacts.HasSection_path_section in H.
  by rewrite SectionFacts.AddSubSection_path_has.
Qed.

Lemma deref_section cfg i q :
  BgeConfig.deref (i :: q) cfg = BgeConfigSection.deref (i :: q) (as_section cfg).
Proof. done. Qed.

Lemma valid_state_Open_line line st st' :
  valid_state st -> BgeConfig.Open_line line st = Ret st' -> valid_state st'.
Proof.
  destruct st as [cfg cur]. intros Hv. unfold BgeConfig.Open_line.
  destruct (length line <? 1)%nat; [by intros [= <-]|].
  destruct (str_eqb (substr line 0 2) (lit "//")); [by intros [= <-]|].
  destruct (BgeConfig.is_header _) as [[|]| |]; [| |done..]; rewrite RoundTrip.Ret_bind.
  - destruct (negb _).
    + unfold BgeConfig.AddSection. rewrite DocumentFacts.AddSection_path_section.
      destruct (BgeConfigSection.AddSubSection_path _ _) as [[s1 [q|]]| |] eqn:E;
        [| |done..]; intros [= <-]; [|done].
      pose proof (SectionFacts.AddSubSection_path_Name _ _ _ _ E) as Hn.
      apply AddOutcome.AddSubSection_path_pointer in E as (_ & _ & Hq & Hd).
      unfold valid_state. cbn [fst snd]. destruct q as [|i q]; [done|].
      rewrite deref_section. by rewrite as_section_of_section_root.
    + intros [= <-]. unfold valid_state. cbn [fst snd].
      destruct (BgeConfig.GetSection _ cfg) as [q|] eqn:E; [|done].
      unfold BgeConfig.GetSection in E.
      rewrite DocumentFacts.GetSection_path_section in E.
      apply LookupFacts.GetSubSection_path_Some in E as (_ & Hlen & sub & Hd & _).
      destruct q as [|i q].
      { symmetry in Hlen. apply nil_length_inv in Hlen.
        by apply split_path_nonempty in Hlen. }
      rewrite deref_section, Hd. by eexists.
  - destruct (str_eqb _ _); [by intros [= <-]|].
    destruct (find_last_of _ _); [|by intros [= <-]].
    destruct (EstimateValueType _) as [ty| |]; [|done..]. rewrite RoundTrip.Ret_bind.
    destruct (BgeConfig.make_property _ _ _) as [property| |]; [|done..].
    rewrite RoundTrip.Ret_bind.
    destruct cur as [[|i q]|].
    + done.
    + destruct (BgeConfig.deref _ _) as [x|] eqn:Hx; [|done]. intros [= <-].
      unfold valid_state. cbn [fst snd]. rewrite deref_section.
      change (as_section (BgeConfig.alter_section (BgeConfigSection.alter_at ?f q) i cfg))
        with (BgeConfigSection.alter_at f (i :: q) (as_section cfg)).
      rewrite PointerFacts.deref_alter_at, <- deref_section, Hx. by eexists.
    + by intros [= <-].
Qed.

Lemma HasSection_new name : BgeConfig.HasSection name BgeConfig.new = false.
Proof.
  unfold BgeConfig.HasSection.
  destruct (split_path name) as [|a [|b rest]]; [done| |].
  - simpl. unfold BgeConfig.HasSection_here. by case_bool_decide.
  - simpl. unfold BgeConfig.HasSection_here. by case_bool_decide.
Qed.

Lemma Open_line_ending line st :
  valid_state st ->
  ending (BgeConfig.Open_line line st) =
  ending (BgeConfig.Open_line line (BgeConfig.new, None)).
Proof.
  destruct st as [cfg cur]. intros Hv. unfold BgeConfig.Open_line.
  destruct (length line <? 1)%nat; [done|].
  destruct (str_eqb (substr line 0 2) (lit "//")); [done|].
  rewrite !ending_bind.
  destruct (BgeConfig.is_header _) as [[|]| |]; [| |done..].
  - rewrite HasSection_new. cbn [negb].
    destruct (BgeConfig.HasSection _ cfg) eqn:Hh; cbn [negb].
    + by rewrite (AddSection_returns_when_present _ cfg).
    + apply AddSection_ending.
  - destruct (str_eqb _ _); [done|].
    destruct (find_last_of _ _); [|done].
    rewrite !ending_bind.
    destruct (EstimateValueType _) as [ty| |]; [|done..].
    rewrite !ending_bind.
    destruct (BgeConfig.make_property _ _ _) as [property| |]; [|done..].
    destruct cur as [q|]; [|done].
    unfold valid_state in Hv. cbn [fst snd] in Hv. by destruct Hv as [x ->].
Qed.

Lemma Open_loop_ending lines : forall st,
  valid_state st ->
  ending (BgeConfig.Open_loop lines st) =
  first_failure
    (map (fun line => ending (BgeConfig.Open_line line (BgeConfig.new, None))) lines).
Proof.
  induction lines as [|line lines IH]; intros st Hv; [done|].
  cbn [BgeConfig.Open_loop map first_failure].
  rewrite ending_bind, <- (Open_line_ending line st Hv).
  destruct (BgeConfig.Open_line line st) as [st'| |] eqn:E; [|done..].
  cbn [ending]. apply IH. by eapply valid_state_Open_line.
Qed.

End Endings.
(** [Open] ends as the first line that fails on its own: whether a line
    makes [Open] throw (or fault) does not depend on the lines before it,
    so the ending of [Open] on a file is the first failure among the endings
    of [Open] on each line taken as a one-line file, and [Open] returns
    exactly when every line, alone, is read without failure. *)
Theorem Open_ends_as_its_first_failing_line
    (lines : list std_string) (cfg0 : BgeConfig.t) :
  ending (BgeConfig.Open (BgeFile.mk true lines) cfg0) =
  first_failure
    (map (fun line => ending (BgeConfig.Open (BgeFile.mk true [line]) BgeConfig.new))
       lines).
Proof.
  unfold BgeConfig.Open. cbn [BgeFile.Ready negb BgeFile.Lines].
  rewrite Endings.ending_bind.
  transitivity (ending (BgeConfig.Open_loop lines (BgeConfig.Close cfg0, None))).
  { by destruct (BgeConfig.Open_loop lines _). }
  rewrite Endings.Open_loop_ending by done. f_equal. apply map_ext. intros line.
  cbn [BgeConfig.Open_loop]. change (BgeConfig.Close BgeConfig.new) with BgeConfig.new.
  by destruct (BgeConfig.Open_line line (BgeConfig.new, None)).
Qed.

Lemma Open_line_skipped line st :
  skipped_line line = true -> BgeConfig.Open_line line st = Ret st.
Proof.
  destruct st as [cfg cur]. unfold skipped_line, BgeConfig.Open_line.
  destruct (length line <? 1)%nat; [done|]. simpl. by intros ->.
Qed.


(** Comments do not count: the lines [Open] skips (the empty ones and those
    that start with ["//"]) can be removed from a file, and a ["//"] comment
    can be appended to a line that holds no ['/'], without any change to
    what [Open] returns or throws. *)
Theorem comments_are_ignored
    (lines : list std_string) (cfg0 : BgeConfig.t)
    (text comment : std_string) (st : BgeConfig.parser_state) :
  BgeConfig.Open
    (BgeFile.mk true (List.filter (fun line => negb (skipped_line line)) lines)) cfg0 =
    BgeConfig.Open (BgeFile.mk true lines) cfg0 /\
  (Forall (fun c => c <> "/"%char) text ->
   BgeConfig.Open_line (text ++ lit "//" ++ comment) st = BgeConfig.Open_line text st).
Proof.
  split.
  - unfold BgeConfig.Open. cbn [BgeFile.Ready negb BgeFile.Lines]. f_equal.
    generalize (BgeConfig.Close cfg0, @None (list nat)).
    induction lines as [|line lines IH]; intros st0; [done|].
    cbn [List.filter BgeConfig.Open_loop].
    destruct (skipped_line line) eqn:E; cbn [negb].
    + by rewrite Open_line_skipped, RoundTrip.Ret_bind.
    + cbn [BgeConfig.Open_loop].
      destruct (BgeConfig.Open_line line st0) as [st1| |]; [|done..].
      rewrite !RoundTrip.Ret_bind. apply IH.
  - intros Htext. destruct text as [|c text].
    { by rewrite Open_line_skipped, RoundTrip.Open_line_blank. }
    apply Forall_cons in Htext as Hc. destruct Hc as [Hc _].
    destruct st as [cfg cur]. unfold BgeConfig.Open_line.
    assert (forall rest, str_eqb (substr (c :: rest) 0 2) (lit "//") = false) as Hs.
    { intros rest. unfold str_eqb, substr. apply bool_decide_eq_false.
      simpl. destruct rest; intros [= ? ?]; done. }
    cbn [app]. rewrite !Hs. cbn [length Nat.ltb Nat.leb].
    change (c :: text ++ lit "//" ++ comment) with ((c :: text) ++ lit "//" ++ comment).
    rewrite StringTrimComment_app_no_slash by done.
    rewrite (StringTrimComment_no_slash (c :: text)) by done.
    replace (StringTrimComment (lit "//" ++ comment)) with (@nil ascii); [|done].
    by rewrite app_nil_r.
Qed.

Lemma comments_are_ignored_witness :
  BgeConfig.Open_line (lit "Width = 640 " ++ lit "//" ++ lit " pixels")
    (BgeConfig.new, None) =
  BgeConfig.Open_line (lit "Width = 640 ") (BgeConfig.new, None).
Proof.
  apply (comments_are_ignored [] BgeConfig.new (lit "Width = 640 ")).
  repeat constructor; discriminate.
Defined.

(** A line that is neither empty nor a ["//"] line, but holds only white
    space in front of a comment or of the end, is cleaned to the empty
    string, and the test for a header, which reads its first character,
    raises [out_of_range]. *)
Theorem Open_line_blank_text (line : std_string) (st : BgeConfig.parser_state) :
  skipped_line line = false ->
  forallb isspace (StringTrimComment line) = true ->
  BgeConfig.Open_line line st = Throw out_of_range.
Proof.
  intros Hs Hb. destruct st as [cfg cur]. unfold BgeConfig.Open_line.
  unfold skipped_line in Hs. apply orb_false_iff in Hs as [-> ->].
  assert (StringTrimLeading (StringTrimComment line) = []) as ->; [|done].
  unfold StringTrimLeading. apply find_first_not_of_None in Hb. by rewrite Hb.
Qed.

Lemma Open_line_blank_text_witness :
  BgeConfig.Open_line (lit "             // so we switch to the global address space")
    (BgeConfig.new, None) = Throw out_of_range.
Proof. apply Open_line_blank_text; by vm_compute. Defined.

(** * A second round trip; the comparison operators *)

Module SaveAgain.

Lemma Save_reopened_property p :
  BgeConfigProperty.Save (reopened_property p) = BgeConfigProperty.Save p.
Proof.
  unfold reopened_property, BgeConfigProperty.Save.
  by destruct (BgeConfigProperty.Type_ p) eqn:E; simpl; rewrite ?E.
Qed.

Lemma Save_reopened_section s : forall pfx,
  BgeConfigSection.Save (reopened_section s) pfx = BgeConfigSection.Save s pfx.
Proof.
  induction s as [name nested props IH] using PointerFacts.section_induction.
  intros pfx. cbn [reopened_section BgeConfigSection.Save]. f_equal. f_equal.
  - rewrite map_map. apply map_ext. intros p. apply Save_reopened_property.
  - f_equal. generalize ((if bool_decide (pfx = []) then [] else pfx ++ lit ".") ++ name).
    intros pfx'. induction IH as [|x l Hx _ IHl]; [done|].
    cbn [map flat_map]. by rewrite Hx, IHl.
Qed.

Lemma Save_reopened cfg : BgeConfig.Save (reopened cfg) = BgeConfig.Save cfg.
Proof.
  destruct cfg as [props secs]. unfold BgeConfig.Save, reopened.
  cbn [BgeConfig.mProperties BgeConfig.mSections]. f_equal; [|f_equal].
  - rewrite map_map. apply map_ext. intros p. apply Save_reopened_property.
  - by destruct props.
  - induction secs as [|x l IH]; [done|]. cbn [map flat_map].
    by rewrite Save_reopened_section, IH.
Qed.

End SaveAgain.

(** After one round trip nothing changes any more: the tree read back from
    the file that [Save] wrote for a supported tree is saved as the very same
    lines, and reading these lines gives that tree again. *)
Theorem second_round_trip_is_exact (cfg cfg0 cfg1 cfg2 : BgeConfig.t) :
  round_trip_config cfg = true ->
  unique_names (as_section cfg) ->
  BgeConfig.Open (written_file (BgeConfig.Save cfg)) cfg0 = Ret cfg1 ->
  BgeConfig.Save cfg1 = BgeConfig.Save cfg /\
  BgeConfig.Open (written_file (BgeConfig.Save cfg1)) cfg2 = Ret cfg1.
Proof.
  intros Hrt Hu. rewrite RoundTrip.Open_written_Save by done. intros [= <-].
  rewrite SaveAgain.Save_reopened. split; [done|].
  by apply RoundTrip.Open_written_Save.
Qed.

Lemma second_round_trip_is_exact_witness :
  BgeConfig.Save (reopened sample_config) = BgeConfig.Save sample_config /\
  BgeConfig.Open (written_file (BgeConfig.Save (reopened sample_config))) BgeConfig.new =
    Ret (reopened sample_config).
Proof.
  apply (second_round_trip_is_exact sample_config BgeConfig.new).
  - by vm_compute.
  - simpl. repeat split; apply (bool_decide_unpack _); vm_compute; exact I.
  - by vm_compute.
Defined.
Lemma section_operator_eq_iff s other :
  BgeConfigSection.operator_eq s other = true <->
  BgeConfigSection.Name s = BgeConfigSection.Name other /\
  length (BgeConfigSection.mProperties s) =
    length (BgeConfigSection.mProperties other) /\
  length (BgeConfigSection.mNestedSections s) =
    length (BgeConfigSection.mNestedSections other).
Proof.
  unfold BgeConfigSection.operator_eq, str_eqb.
  rewrite !andb_true_iff, bool_decide_eq_true, !Nat.eqb_eq. tauto.
Qed.

(** The two [operator==] are shallow. For properties the name and the type
    decide, never a value. For sections the name and the two sizes decide:
    a section still compares equal to what it was after any write through a
    pointer to one of its nested sections, such as adding a property under a
    nested section that exists. *)
Theorem operator_eq_is_shallow
    (p other : BgeConfigProperty.t) (s : BgeConfigSection.t)
    (f : BgeConfigSection.t -> BgeConfigSection.t) (i : nat) (q : list nat)
    (a k : std_string) (property : BgeConfigProperty.t) :
  (BgeConfigProperty.operator_eq p other = true <->
     BgeConfigProperty.Type_ p = BgeConfigProperty.Type_ other /\
     BgeConfigProperty.Name p = BgeConfigProperty.Name other) /\
  BgeConfigProperty.operator_ne p other =
    negb (BgeConfigProperty.operator_eq p other) /\
  BgeConfigSection.operator_eq (BgeConfigSection.alter_at f (i :: q) s) s = true /\
  (BgeConfigSection.HasSubSection a s = true ->
   BgeConfigSection.operator_eq
     (BgeConfigSection.AddProperty (a ++ lit "." ++ k) property s) s = true).
Proof.
  assert (forall g j r,
            BgeConfigSection.operator_eq (BgeConfigSection.alter_at g (j :: r) s) s
            = true) as H.
  { intros g j r. apply section_operator_eq_iff. simpl. by rewrite length_alter. }
  split_and!.
  - unfold BgeConfigProperty.operator_eq, str_eqb.
    by rewrite andb_true_iff, !bool_decide_eq_true.
  - done.
  - apply H.
  - intros [r Hr]%SectionFacts.HasSubSection_path_Get.
    unfold BgeConfigSection.AddProperty. rewrite split_path_app.
    rewrite (ScopedWrite.AddProperty_path_under _ _ _ _ r);
      [|apply split_path_nonempty | done].
    apply LookupFacts.GetSubSection_path_Some in Hr as (_ & Hlen & _).
    destruct r as [|j r]; [|apply H].
    pose proof (split_path_nonempty a). by destruct (split_path a).
Qed.

Lemma operator_eq_is_shallow_witness :
  let s := BgeConfigSection.mk (lit "General") [BgeConfigSection.new (lit "Editor")] [] in
  BgeConfigSection.operator_eq
    (BgeConfigSection.AddProperty (lit "Editor" ++ lit "." ++ lit "Setting0")
       (BgeConfigProperty.mk BOOL [] (lit "true") 0 0%fp true) s) s = true.
Proof.
  intros s.
  by apply (operator_eq_is_shallow BgeConfigProperty.default BgeConfigProperty.default
              s (fun x => x) 0%nat []).
Defined.

(** * Spacing, qualified keys and the empty header *)

Module Padding.

Lemma trim_loop_char_plain l :
  forallb trim_loop_char l = true ->
  Forall (fun c => c <> "/"%char) l /\
  forallb (fun c => negb (chr_eqb c "=")) l = true.
Proof.
  induction l as [|c l IH]; [by split; [constructor|]|]. simpl.
  intros [Hc Hl]%andb_true_iff. destruct (IH Hl) as [IH1 IH2].
  unfold trim_loop_char in Hc.
  assert (c <> "/"%char /\ chr_eqb c "=" = false) as [? ->].
  { apply orb_true_iff in Hc as [[Hc|Hc]%orb_true_iff|Hc];
      apply Ascii.eqb_eq in Hc; by subst c. }
  split; [by constructor | done].
Qed.

Lemma key_text_spec name :
  key_text name = true ->
  exists c rest,
    name = c :: rest /\ isspace c = false /\ c <> "["%char /\
    Forall (fun c => isspace c = false) name /\
    Forall (fun c => c <> "/"%char) name.
Proof.
  unfold key_text. intros [Hne Hall]%andb_true_iff.
  apply negb_true_iff, bool_decide_eq_false in Hne.
  assert (Forall (fun c => isspace c = false /\ c <> "/"%char /\
                           c <> "["%char) name) as H.
  { apply Forall_forall. intros c Hc%list_elem_of_In.
    rewrite forallb_forall in Hall. apply Hall in Hc.
    apply negb_true_iff in Hc.
    apply orb_false_iff in Hc as [Hc H3]. apply orb_false_iff in Hc as [Hc H2].
    unfold chr_eqb in *. split_and!; [done|..]; by apply Ascii.eqb_neq. }
  destruct name as [|c rest]; [done|]. exists c, rest.
  pose proof (Forall_inv H) as (? & _ & ?).
  split_and!; [done..| |].
  - eapply Forall_impl; [exact H|]. by intros x (? & _).
  - eapply Forall_impl; [exact H|]. by intros x (_ & ? & _).
Qed.

Lemma no_slash_no_comment l :
  Forall (fun c => c <> "/"%char) l -> has_comment_start l = false.
Proof.
  induction 1 as [|x l Hx _ IHl]; [done|].
  rewrite has_comment_start_head; [done | by apply Ascii.eqb_neq].
Qed.

Lemma has_comment_start_app text post :
  has_comment_start text = false -> Forall (fun c => c <> "/"%char) post ->
  has_comment_start (text ++ post) = false.
Proof.
  intros Ht Hp. induction text as [|c r IH]; [by apply no_slash_no_comment|].
  destruct r as [|c' r'].
  - simpl app. destruct post as [|x l]; [done|].
    rewrite has_comment_start_cons.
    apply Forall_cons in Hp as Hx. destruct Hx as [Hx _].
    apply Ascii.eqb_neq in Hx. unfold chr_eqb. rewrite Hx, andb_false_r, orb_false_l.
    by apply no_slash_no_comment.
  - rewrite has_comment_start_cons in Ht. apply orb_false_iff in Ht as [H1 H2].
    change ((c :: c' :: r') ++ post) with (c :: c' :: (r' ++ post)).
    rewrite has_comment_start_cons, H1, orb_false_l. by apply IH.
Qed.

Lemma value_text_spec text :
  value_text text = true ->
  forallb (fun c => negb (chr_eqb c "=")) text = true /\
  has_comment_start text = false /\ (text = [] \/ trimmed text = true).
Proof.
  unfold value_text. intros [[H1 H2%negb_true_iff]%andb_true_iff H3]%andb_true_iff.
  split_and!; [done..|].
  apply orb_true_iff in H3 as [H3%bool_decide_eq_true|H3]; auto.
Qed.

(** An assignment with tabs, newlines and spaces in front, around the ['=']
    and behind. *)
Lemma Open_line_padded name text pre m1 m2 post st :
  key_text name = true -> value_text text = true ->
  forallb trim_loop_char pre = true -> forallb trim_loop_char m1 = true ->
  forallb trim_loop_char m2 = true -> forallb trim_loop_char post = true ->
  BgeConfig.Open_line (pre ++ name ++ m1 ++ lit "=" ++ m2 ++ text ++ post) st =
    ty ← EstimateValueType text;
    property ← BgeConfig.make_property ty name text;
    store_property property st.
Proof.
  intros Hname Htext Hpre Hm1 Hm2 Hpost.
  destruct (key_text_spec name Hname) as (c & rest & Ename & Hc & Hbr & Hsp & Hsl).
  destruct (value_text_spec text Htext) as (Hteq & Htc & Httrim).
  destruct (trim_loop_char_plain _ Hpre) as [Hpre1 Hpre2].
  destruct (trim_loop_char_plain _ Hm1) as [Hm11 Hm12].
  destruct (trim_loop_char_plain _ Hm2) as [Hm21 Hm22].
  destruct (trim_loop_char_plain _ Hpost) as [Hpost1 Hpost2].
  set (line := pre ++ name ++ m1 ++ lit "=" ++ m2 ++ text ++ post).
  set (tail := if bool_decide (text = []) then [] else m2 ++ text).
  set (pad := if bool_decide (text = []) then m2 ++ post else post).
  set (clean := (name ++ m1) ++ "="%char :: tail).
  assert (line = pre ++ clean ++ pad) as Eline.
  { subst line clean tail pad. case_bool_decide as Et.
    - subst text. rewrite <- !app_assoc. reflexivity.
    - rewrite <- !app_assoc. simpl. by rewrite <- !app_assoc. }
  assert (forallb trim_loop_char pad = true) as Hpad.
  { subst pad. case_bool_decide; [|done]. by rewrite forallb_app, Hm2, Hpost. }
  assert (trimmed clean = true) as Hclean.
  { subst clean. rewrite Ename. rewrite <- !app_assoc.
    change ((c :: rest) ++ m1 ++ "="%char :: tail)
      with ((c :: rest) ++ (m1 ++ "="%char :: tail)).
    apply (trimmed_intro c rest _ c); [done | by destruct m1 |].
    subst tail. case_bool_decide as Et.
    - by rewrite (last_app_nonempty m1 [ "="%char ] c c).
    - destruct Httrim as [?|Httrim]; [done|].
      destruct (trimmed_last text c Httrim) as [Hne Hl].
      replace (m1 ++ "="%char :: m2 ++ text)
        with ((m1 ++ "="%char :: m2) ++ text) by (by rewrite <- app_assoc).
      by rewrite (last_app_nonempty _ text c c). }
  assert (StringTrimLeading (StringTrimComment line) = clean) as Hcl.
  { assert (StringTrimComment line = line) as ->.
    { apply has_comment_start_StringTrimComment. subst line.
      assert (forall a b, Forall (fun c => c <> "/"%char) a ->
                has_comment_start b = false -> has_comment_start (a ++ b) = false)
        as Happ.
      { intros a b Ha Hb. induction Ha as [|x l Hx _ IHl]; [done|].
        change ((x :: l) ++ b) with (x :: (l ++ b)).
        rewrite has_comment_start_head; [done | by apply Ascii.eqb_neq]. }
      apply Happ; [done|]. apply Happ; [done|]. apply Happ; [done|].
      apply Happ; [by repeat constructor|]. apply Happ; [done|].
      by apply has_comment_start_app. }
    rewrite Eline. by apply StringTrimLeading_spec. }
  assert (find_last_of "=" clean = Some (length (name ++ m1))) as Hfind.
  { subst clean. apply find_last_of_app. subst tail. case_bool_decide; [done|].
    by rewrite forallb_app, Hm22, Hteq. }
  assert (StringTrimLeading (substr clean 0 (length (name ++ m1))) = name) as Hsplit0.
  { unfold substr. rewrite drop_0. subst clean. rewrite take_app_length.
    pose proof (StringTrimLeading_spec [] name m1) as E. apply E; [done..|].
    apply trimmed_nonspace; [by rewrite Ename | done]. }
  assert (StringTrimLeading
            (substr clean (length (name ++ m1) + 1)
               (length clean - length (name ++ m1) - 1)) = text) as Hsplit1.
  { unfold substr. subst clean.
    replace ((name ++ m1) ++ "="%char :: tail)
      with (((name ++ m1) ++ ["="%char]) ++ tail) by (by rewrite <- !app_assoc).
    replace (length (name ++ m1) + 1)%nat with (length ((name ++ m1) ++ ["="%char]))
      by (rewrite (length_app _ ["="%char]); simpl; lia).
    rewrite drop_app_length. rewrite take_ge by (rewrite !length_app; simpl; lia).
    subst tail. case_bool_decide as Et; [by subst text|].
    destruct Httrim as [?|Httrim]; [done|].
    pose proof (StringTrimLeading_spec m2 text []) as E.
    rewrite app_nil_r in E. by apply E. }
  assert ((length line <? 1)%nat = false) as Hlen.
  { rewrite Eline. subst clean. rewrite Ename.
    apply Nat.ltb_ge. rewrite !length_app. simpl. lia. }
  assert (str_eqb (substr line 0 2) (lit "//") = false) as Hnocomment.
  { unfold str_eqb, substr. apply bool_decide_eq_false. rewrite drop_0.
    intros Hs.
    assert (StringTrimComment line = []) as Hnil.
    { apply StringTrimComment_whole_line_comment.
      unfold str_eqb, substr. rewrite drop_0. by apply bool_decide_eq_true. }
    rewrite Hnil in Hcl. unfold StringTrimLeading in Hcl. simpl in Hcl.
    subst clean. rewrite Ename in Hcl. done. }
  assert (exists rest', clean = c :: rest') as [rest' Erest'].
  { subst clean. rewrite Ename. by eexists. }
  destruct st as [cfg currentSection].
  unfold BgeConfig.Open_line. fold line.
  rewrite Hlen, Hnocomment, Hcl.
  rewrite Erest' at 1. rewrite is_header_not_bracket by done.
  change (Ret false ≫= ?k) with (k false). cbv beta iota.
  rewrite section_end_branch_unreachable
    by (rewrite Erest'; by apply is_header_not_bracket).
  rewrite Hfind, Hsplit0, Hsplit1.
  destruct (EstimateValueType text) as [ty| |]; [|done..].
  rewrite !RoundTrip.Ret_bind.
  by destruct (BgeConfig.make_property ty name text).
Qed.

End Padding.
(** Tabs, newlines and spaces in front of the key, around the ['='] and
    behind the value do not count: the line is read as the same key and the
    same value as when it is written [key = value]. *)
Theorem spacing_of_an_assignment_is_ignored
    (name text pre m1 m2 post : std_string) (st : BgeConfig.parser_state) :
  key_text name = true -> value_text text = true ->
  forallb trim_loop_char pre = true -> forallb trim_loop_char m1 = true ->
  forallb trim_loop_char m2 = true -> forallb trim_loop_char post = true ->
  BgeConfig.Open_line (pre ++ name ++ m1 ++ lit "=" ++ m2 ++ text ++ post) st =
  BgeConfig.Open_line (name ++ lit " = " ++ text) st.
Proof.
  intros Hname Htext Hpre Hm1 Hm2 Hpost.
  rewrite Padding.Open_line_padded by done.
  replace (name ++ lit " = " ++ text)
    with ([] ++ name ++ lit " " ++ lit "=" ++ lit " " ++ text ++ [])
    by (by rewrite app_nil_r).
  by rewrite Padding.Open_line_padded.
Qed.

Lemma spacing_of_an_assignment_is_ignored_witness :
  BgeConfig.Open_line
    (["009"%char] ++ lit "Width" ++ [] ++ lit "=" ++ lit "  " ++ lit "640" ++ lit " ")
    (BgeConfig.new, None) =
  BgeConfig.Open_line (lit "Width" ++ lit " = " ++ lit "640") (BgeConfig.new, None).
Proof. apply spacing_of_an_assignment_is_ignored; by vm_compute. Defined.

Module Qualified.
Import BgeConfigSection SectionFacts.

Lemma AddProperty_path_set_Name segs x property s :
  AddProperty_path segs (BgeConfigProperty.set_Name x property) s =
  AddProperty_path segs property s.
Proof.
  revert s. induction segs as [|a [|b rest] IH]; intros s; [done| |].
  - done.
  - rewrite !AddProperty_path_cons. destruct (HasProperty_path _ _); [done|].
    destruct (AddSubSection_here a s) as [s1 [i|]]; [|done].
    unfold alter_nested. f_equal. apply list_alter_ext; [|done]. intros y _. apply IH.
Qed.

Lemma make_property_Name ty name text property :
  BgeConfig.make_property ty name text = Ret property ->
  BgeConfigProperty.Name property = name.
Proof.
  destruct ty; simpl.
  - destruct (BgeConfig.strip_quotes text); [|done..]. by intros [= <-].
  - destruct (BgeConfig.strip_quotes text); [|done..]. by intros [= <-].
  - destruct (stod text); [|done..]. by intros [= <-].
  - by intros [= <-].
  - destruct (stoi text); [|done..]. by intros [= <-].
Qed.

Lemma make_property_rename ty name name' text :
  BgeConfig.make_property ty name' text =
    property ← BgeConfig.make_property ty name text;
    Ret (BgeConfigProperty.set_Name name' property).
Proof.
  destruct ty; simpl.
  - by destruct (BgeConfig.strip_quotes text).
  - by destruct (BgeConfig.strip_quotes text).
  - by destruct (stod text).
  - done.
  - by destruct (stoi text).
Qed.

Lemma key_text_join a k :
  key_text a = true -> key_text k = true -> key_text (a ++ lit "." ++ k) = true.
Proof.
  unfold key_text. intros [Ha1 Ha2]%andb_true_iff [Hk1 Hk2]%andb_true_iff.
  apply andb_true_iff. split.
  - apply negb_true_iff, bool_decide_eq_false. apply negb_true_iff in Ha1.
    apply bool_decide_eq_false in Ha1. by destruct a.
  - rewrite !forallb_app, Ha2, Hk2. done.
Qed.

Lemma header_line a cfg cur :
  has_comment_start a = false ->
  BgeConfig.Open_line (lit "[" ++ a ++ lit "]") (cfg, cur) = BgeConfig.AddSection a cfg.
Proof.
  intros Ha. apply Open_line_header.
  rewrite has_comment_start_StringTrimComment.
  - apply StringTrimLeading_trimmed.
    change (lit "[" ++ a ++ lit "]") with (("["%char :: a) ++ lit "]").
    by apply (trimmed_intro "[" a (lit "]") "[").
  - change (lit "[" ++ a ++ lit "]") with ("["%char :: (a ++ ["]"%char])).
    rewrite has_comment_start_head by done.
    by rewrite has_comment_start_last.
Qed.

Lemma key_text_no_comment a : key_text a = true -> has_comment_start a = false.
Proof.
  intros (c & rest & _ & _ & _ & _ & H)%Padding.key_text_spec.
  by apply Padding.no_slash_no_comment.
Qed.

Lemma AddSection_proper a cfg :
  proper_path a = true ->
  exists cfg1 q, BgeConfig.AddSection a cfg = Ret (cfg1, Some q).
Proof.
  intros Hp%proper_path_Forall. unfold BgeConfig.AddSection.
  rewrite DocumentFacts.AddSection_path_section.
  destruct (AddSubSection_path_proper (split_path a) (as_section cfg))
    as (s1 & q & -> & _); [apply split_path_nonempty | done |].
  by eexists _, _.
Qed.

End Qualified.

(** A key under a header is a qualified key: the two lines [[a]] and
    [k = v] give the same document, or the same exception, as the single
    line [a.k = v] read at the root. *)
Theorem key_under_a_header_is_a_qualified_key
    (a k text : std_string) (cfg : BgeConfig.t) (cur : option (list nat)) :
  key_text a = true -> proper_path a = true ->
  key_text k = true -> value_text text = true ->
  (st ← BgeConfig.Open_loop [lit "[" ++ a ++ lit "]"; k ++ lit " = " ++ text] (cfg, cur);
   Ret st.1) =
  (st ← BgeConfig.Open_loop [a ++ lit "." ++ k ++ lit " = " ++ text] (cfg, None);
   Ret st.1).
Proof.
  intros Ha Hpa Hk Htext.
  cbn [BgeConfig.Open_loop].
  rewrite Qualified.header_line by (by apply Qualified.key_text_no_comment).
  destruct (Qualified.AddSection_proper a cfg Hpa) as (cfg1 & q & E).
  rewrite E, RoundTrip.Ret_bind.
  replace (a ++ lit "." ++ k ++ lit " = " ++ text)
    with ([] ++ (a ++ lit "." ++ k) ++ lit " " ++ lit "=" ++ lit " " ++ text ++ [])
    by (rewrite <- !app_assoc, app_nil_r; reflexivity).
  replace (k ++ lit " = " ++ text)
    with ([] ++ k ++ lit " " ++ lit "=" ++ lit " " ++ text ++ [])
    by (by rewrite app_nil_r).
  rewrite !Padding.Open_line_padded by (try done; by apply Qualified.key_text_join).
  destruct (EstimateValueType text) as [ty| |]; [|done..].
  rewrite !RoundTrip.Ret_bind.
  rewrite (Qualified.make_property_rename ty k (a ++ lit "." ++ k)).
  destruct (BgeConfig.make_property ty k text) as [property| |] eqn:Ep; [|done..].
  rewrite !RoundTrip.Ret_bind.
  rewrite (ScopedWrite.store_through_pointer a property cfg cfg1 q E).
  rewrite (Qualified.make_property_Name _ _ _ _ Ep).
  unfold store_property. cbn [fst snd BgeConfigProperty.Name BgeConfigProperty.set_Name].
  rewrite !RoundTrip.Ret_bind. cbn [fst]. f_equal.
  unfold BgeConfig.AddProperty. rewrite !DocumentFacts.AddProperty_path_section.
  by rewrite Qualified.AddProperty_path_set_Name.
Qed.

Lemma key_under_a_header_is_a_qualified_key_witness :
  (st ← BgeConfig.Open_loop
          [lit "[" ++ lit "General.Editor" ++ lit "]";
           lit "Setting0" ++ lit " = " ++ lit "true"] (BgeConfig.new, None);
   Ret st.1) =
  (st ← BgeConfig.Open_loop
          [lit "General.Editor" ++ lit "." ++ lit "Setting0" ++ lit " = " ++ lit "true"]
          (BgeConfig.new, None);
   Ret st.1).
Proof. apply key_under_a_header_is_a_qualified_key; by vm_compute. Defined.

(** A header whose name ends with an empty segment, the empty header [[]]
    first of all, leaves the loop without a current section: the
    assignments that follow are stored at the root. The empty header changes
    nothing else. *)
Theorem empty_header_returns_to_the_root
    (line name : std_string) (cfg : BgeConfig.t) (cur : option (list nat)) :
  StringTrimLeading (StringTrimComment line) = lit "[" ++ name ++ lit "]" ->
  empty_inner_segment name = false -> last_segment name = [] ->
  (exists cfg', BgeConfig.Open_line line (cfg, cur) = Ret (cfg', None)) /\
  (name = [] -> BgeConfig.Open_line line (cfg, cur) = Ret (cfg, None)).
Proof.
  intros Hline Hinner Hlast. rewrite (Open_line_header line name) by done. split.
  - unfold BgeConfig.AddSection. rewrite DocumentFacts.AddSection_path_section.
    pose proof (AddOutcome.AddSubSection_path_outcome (split_path name)
                  (as_section cfg) (split_path_nonempty name)) as H.
    destruct (BgeConfigSection.AddSubSection_path _ _) as [[s1 [q|]]| |].
    + destruct H as [Hall _].
      apply AddOutcome.Forall_removelast_last in Hall as [_ Hl];
        [done | apply split_path_nonempty].
    + by eexists.
    + done.
    + destruct H as (rest & E & Hrest).
      apply AddOutcome.empty_inner_segment_false in Hinner.
      destruct (AddOutcome.after_first_empty_last _ _ Hinner E) as [-> _].
      * apply split_path_nonempty.
      * done.
  - by intros ->.
Qed.

Lemma empty_header_returns_to_the_root_witness :
  BgeConfig.Open_line (lit " [] // back to the global scope")
    (one_property, Some [0%nat]) = Ret (one_property, None) /\
  BgeConfig.Open
    (BgeFile.mk true [lit "[General]"; lit "A = 1"; lit "[]"; lit "B = 2"])
    BgeConfig.new =
  Ret (BgeConfig.mk
         [BgeConfigProperty.mk INT (lit "B") (lit "2") 2 0%fp false]
         [BgeConfigSection.mk (lit "General") []
            [BgeConfigProperty.mk INT (lit "A") (lit "1") 1 0%fp false]]).
Proof.
  split; [|by vm_compute].
  by apply (empty_header_returns_to_the_root _ []).
Defined.

(** [Close] leaves an empty document: no lookup finds anything, [Save]
    writes no line, and it is what [Open] returns for a ready file without
    lines, whatever the document held. *)
Lemma Close_leaves_nothing (cfg : BgeConfig.t) (name : std_string) :
  BgeConfig.HasProperty name (BgeConfig.Close cfg) = false /\
  BgeConfig.HasSection name (BgeConfig.Close cfg) = false /\
  BgeConfig.Get name (BgeConfig.Close cfg) = None /\
  BgeConfig.GetSection name (BgeConfig.Close cfg) = None /\
  BgeConfig.Save (BgeConfig.Close cfg) = [] /\
  BgeConfig.Open (BgeFile.mk true []) cfg = Ret (BgeConfig.Close cfg).
Proof.
  change (BgeConfig.Close cfg) with BgeConfig.new.
  assert (BgeConfig.HasProperty name BgeConfig.new = false) as Hp.
  { unfold BgeConfig.HasProperty.
    destruct (split_path name) as [|a [|b rest]]; [done| |];
      simpl; unfold BgeConfig.HasProperty_here, BgeConfig.HasSection_here;
      by case_bool_decide. }
  pose proof (Endings.HasSection_new name) as Hs.
  split_and!; [done | done | | | done | done].
  - destruct (BgeConfig.Get name BgeConfig.new) as [p|] eqn:E; [|done].
    assert (BgeConfig.HasProperty name BgeConfig.new = true); [|congruence].
    unfold BgeConfig.HasProperty. unfold BgeConfig.Get in E.
    rewrite DocumentFacts.HasProperty_path_section.
    rewrite DocumentFacts.Get_path_section in E.
    apply SectionFacts.HasProperty_path_Get. by rewrite E.
  - destruct (BgeConfig.GetSection name BgeConfig.new) as [q|] eqn:E; [|done].
    assert (BgeConfig.HasSection name BgeConfig.new = true); [|congruence].
    unfold BgeConfig.HasSection. unfold BgeConfig.GetSection in E.
    rewrite DocumentFacts.HasSection_path_section.
    rewrite DocumentFacts.GetSection_path_section in E.
    apply SectionFacts.HasSubSection_path_Get. by rewrite E.
Qed.

(** * The last equals sign; saved text *)





